(* ===== verification/_CoqProject ===== *)
-Q . S2P
Prelude.v
Crc.v
Hex.v
Strings.v
Text.v
Basen.v
Base58.v
Blocks.v
Sm3.v
Md5.v
Sm2.v
Curve.v
Aes.v
Legacy.v
Ordered.v
Database.v
General.v
Timer.v
Platform.v
Keys.v
Digest.v
Concrete.v
Configure.v
Tools.v
WebClient.v
Transaction.v
Account.v
Pending.v
Network.v
NetworkFacts.v
ThreadPool.v
Threads.v
Workers.v
Files.v
Logger.v
Stamp.v
Machine.v
Handles.v
Folders.v
Net.v
Async.v
Poll.v
Watchdog.v
Journal.v
Progress.v
Sample.v
Layer1ToLayer2.v
Layer1ToLayer2Facts.v
Layer2ToLayer1.v
Layer2ToLayer1Facts.v
HandleManager.v
HandleManagerFacts.v
Agent.v
AgentFacts.v
