(* ===== verification/Prelude.v ===== *)
(** * A verification library for the cross-chain agent

    The program (src/src) is an agent between two block chains, a main chain
    ("layer 1") and a sub-chain ("layer 2").  It holds a websocket to a node of
    each, hears of cross-chain transactions from the logs of their contracts,
    carries each transaction to the other chain, the result back, and the
    receipt of the result to the far side, and keeps what is pending in a
    database so that a restart goes on where it stopped.  This library is a
    shallow embedding of that program with the theorems that make its parts
    correct.

    ** Reading guide

    A call of the program is a function to [outcome]: it returns, throws, is
    undefined behaviour of a named kind, or has used up a loop's fuel
    ([Diverge]).  A stateful call is a function of the state monad [M]; an
    operation on a part of the state is the same function behind [zoom].  Code
    outside the repository is a class whose members are parameters of the
    definitions that use it, with its documented behaviour in a second class
    where a theorem relies on it: [RocksDb] and [RocksDbLaws] (Database.v),
    [Clock], [Http], [Json], [Protobuf] and [ProtobufLaws] (Platform.v), [EcGroup]
    and [EcLaws] (Sm2.v), [EcBuild] (Curve.v), [AesModes] and [AesLaws] (Aes.v),
    [KeyPrimitives] and [KeyLaws] (Keys.v), [Sha256Engine] and [Sha256Laws]
    (Digest.v), [Wspp] (Network.v), [Posix] and [PosixWell] (Files.v), [Stdio]
    (Handles.v), [Dirs] (Folders.v), [Calendar] and [CalendarLaws] (Logger.v),
    [Gmt] (Stamp.v), [Resolver], [Bsd] and [BsdLaws] (Net.v), [Asio] (Async.v),
    [Malloc] (Poll.v), [SysV] and [SysVLaws] (Watchdog.v), [Os], [Entropy]
    (Machine.v), [Outside] (Agent.v). The methods a user of a socket class writes,
    which the io thread calls, are a class too ([Handlers], Poll.v). Every such
    class has a concrete instance (Concrete.v, Database.MemDb, and the end of each
    file), at which the witnesses evaluate the theorems.

    A component promises its behaviour to its clients by a class as well:
    [AgentKey] (Platform.v) is what the senders need of an account key, and
    Keys.v implements it; [Reliable] and [Answers] (Journal.v) are what the
    journals need of the store and of the nodes.

    ** The files and what they model

    - Prelude: outcomes, the state monad, [wp], [keeps] (a part of the state an
      operation leaves alone) and [preserves] (an invariant), machine integers,
      bytes, and the hint databases of the same names.
    - Crc, Hex, Strings, Text, Basen, Base58: utils/crypto.cpp (checksums, base
      58), utils/strings.h (Text: decimals, web addresses, attribute lists, and
      what else has no caller in the agent), utils/basen.h.
    - Blocks: hashing by blocks, what SM3 and MD5 have in common.
    - Sm3, Md5, Sm2, Aes: utils/sm3.cpp, utils/ecc_sm2.cpp, utils/crypto.cpp.
    - Curve: the set-up of SM2's group in utils/ecc_sm2.cpp, with the constants of
      the code checked by computing.
    - Legacy: what of these files nothing calls: the old base 58 decoder, the second
      AES overload, the digest of a file, [Char2Hex].
    - Ordered: the order of keys in the store, and prefixes.
    - Database: src/database, from the driver over RocksDB to the proxy.
    - General: common/general (address prefixes, results, periodic
      notifications) and the messages of src/proto.
    - Timer: utils/timer, one-shot timers.
    - Platform: the outside classes, the state all components share ([sys]) and
      utils/timestamp.cpp.
    - Keys: common/private_key.
    - Digest: SHA-256 and common/private_key's [HashWrapper].
    - Configure: main/configure and common/configure_base.
    - Tools: common/argument (command line, signals), dbtool/main.cpp and the batch
      class of database/consistent_writebatch.
    - WebClient: common/web_client, the questions to the nodes.
    - Transaction, Account: common/layer1_transaction, layer2_transaction, and
      their signatures under the agent's own key.
    - Pending: the tables of pending transactions both directions keep.
    - Network, NetworkFacts: common/network and common/network_adapter, the
      websocket network of peers.
    - ThreadPool, Threads: utils/thread_pool, and the mutex and the
      reader-writer lock of utils/thread.
    - Workers: the rest of utils/thread: threads, the older pool and its queue,
      semaphores, events, the spin lock.
    - Files, Logger: utils/file (paths and whole files) and utils/logger.
    - Stamp: utils/timestamp, times and their texts.
    - Handles, Folders: file objects with their locks, and the removal of folders.
    - Machine: utils/system, utils/random and utils/utils: what the agent asks its
      machine.
    - Net, Async: utils/net: addresses and the blocking socket; the sockets over
      asio with the completions asio calls back.
    - Poll: utils/async_net: the epoll wrapper, the buffer, the socket and the
      io threads that dispatch its events.
    - Watchdog: daemon/src/main.cpp and common/daemon.cpp, the second program and
      the agent's heart beat for it.
    - Journal: such tables mirrored in the store, for any family of tables.
    - Progress: such tables as the stages of a transaction, for any ranked family.
    - Layer1ToLayer2, Layer2ToLayer1: glue/layer1_to_layer2_handle and
      glue/layer2_to_layer1_handle; their theorems are in the files of the same
      names with Facts.
    - HandleManager, HandleManagerFacts: glue/handle_manager.
    - Agent, AgentFacts: src/websocket, src/webserver, src/main/main.cpp and
      utils::ObjectExit: the threads around the manager as steps in any order.
    - Concrete, Sample: instances for the witnesses.

    Definitions keep the names of the code; a method [C::m] that would clash is
    [C_m].  A record has the members of the class, and a map of the code is a
    [gmap], which is enough because the code walks its maps in key order
    ([Ordered]).  Erasing the element a range-for stands on leaves the iterator
    dangling; the walks of Pending ask before every step whether their element
    is still there ([Undef DanglingIterator]).

    ** What the theorems show

    - The journal invariant: in every run of a handler, of the manager, and of
      the whole agent, the tables in memory and the rows of the store under
      their prefixes agree entry by entry, whatever announcements, timers, web
      requests and restarts come in whatever order ([reachable_journaled],
      [reachable_mirrored], [running_journaled], [agent_journaled]); the two
      handlers share one store and do not disturb each other.
    - A transfer taken on is never lost: across events, timers, web requests and
      restarts a transaction stays in its table or goes to one of a later stage,
      if the nodes answer about the transaction asked for
      ([transfers_never_lost]).  What a visit of the walks may clear is only the
      element it stands on, and then the walk does not return.
    - Restarts: loading always succeeds and gives back exactly the pending ids
      ([Initialize_recovers], [Initialize_restores], [restart_same_ids]).
    - Each event handler on each branch ([HandleStartTxEvent_spec] and the
      like), the confirmation rule of the second direction
      ([ConfirmSeq_waits]), and what the walks do that erase their own element
      ([ConfirmSeq_dangling], [SendAck_sweep_dangling], [loops_clear_nothing]).
    - The way in: refused announcements, answers that count as executed, the
      balance an agent needs, configurations that load.
    - Accounts: keys print and parse back, what is signed verifies, and the
      request that is sent carries a signature over exactly the bytes its blob
      decodes to.  Under them base 58 round trips, incremental SM3 against the
      padded message of the standard, and SM2 signing against verifying; MD5
      against its own ([MD5_incremental]).
    - The network of peers: its two layers of tables agree in every reachable
      state, so that no callback reaches the null pointer the error lookup would
      take ([network_consistent]); what a check removes and what it leaves
      ([check_keeps_attempts]); what sending reports ([SendByteMessage_reports]).
    - Concurrency below the agent: the workers of a pool run every task and
      release every caller of [Wait] whatever the schedule ([pool_runs_all],
      [Wait_waits]), except that [Stop] can strand one ([Stop_strands_Wait]); a
      writer is alone ([write_lock_exclusive]).  The older pool has run what it
      started when [WaitAndJoin] returns ([WaitAndJoin_done]); of the rest of
      utils/thread lemmas pin down where it does not keep its word ([Start_stuck],
      [Join_early], [WaitTaskComplete_early], [Semaphore_never_waits],
      [Event_Wait_refused]).
    - Sockets: addresses print and parse back ([InetAddress_roundtrip]); a buffer
      is sent whole or the failure is told ([SendComplete_sends]); a socket that
      is created owns exactly one descriptor, one that is not leaves none open
      ([Create_owns], [Vx_Create_owns]).  The completions of the asio sockets are
      safe exactly as long as no socket is deleted under one
      ([async_run_safe], [dangling_completion]).  The epoll layer: extra events
      are a map ([events_refine]), an event is dispatched once ([dispatch_once]),
      a buffer that owns its block is copied ([Assign_copies]).
    - The watchdog runs its command exactly if the agent has not written since the
      last look, whatever the interleaving ([watchdog_exact]); lemmas show where
      the pair fails: an agent without shared memory ([Initialize_pretends]), a
      last look after the signal to stop ([signal_restarts]), a second watchdog
      ([new_dog_blind]), a command with options ([options_lose]).
    - The log: a line that is written is kept through the rotation of files
      ([Write_keeps_lines]), the names of backups give back their times
      ([backup_name_times]), and a copied file has the text of its source
      ([Copy_copies]).
    - Text: formatting a number with decimals and multiplying it back are inverse
      ([MultiplyDecimal_FormatDecimal]) except for zero; web addresses are always
      parsed and their paths normalised in finitely many rounds
      ([NormalizeUrlPath_ends], [ParseUrl_total]); tokens glued together are the
      text they come from ([Strtok_key_glue]).
    - The text of a time gives it back ([Timestamp_ToString_reads]), and its other
      texts are cuts of one ([time_texts_agree]).
    - File objects: while a process holds a file it opened with a lock, another's
      attempt is refused whatever else happens ([lock_excludes]), though it may
      have emptied the file ([Open_empties_locked]); what is saved is loaded
      ([save_load]).  A folder without links is deleted whole and nothing beside
      it ([DeleteFolder_deletes]); with links neither holds ([link_loses]).
    - The machine: what the kernel prints of memory is read back
      ([GetPhysicalMemory_reads]), percentages are the nearest
      ([blocks_percent_nearest]), and the processor's times are read one place
      early ([UpdateProcessor_shifts]).
    - The codecs of base 64, 32 and 16 give back what they encoded
      ([Basen_roundtrip]), and replacing text ends exactly for patterns that are
      not empty ([Replace_ends]).
    - The agent's shell: when submissions pass, how connections are counted and
      run loops nest, what a connection subscribes to, and that [main] winds
      down exactly what it has started, backwards.

    ** Choices and bounds

    - Integers are [Z] with the wrap-around written out ([wrap], [swrap]) or an
      overflow check ([s64]) where signed overflow is undefined.
    - Strings that are handled byte by byte are [list Z]; the others [string].
    - The interleavings of ThreadPool, Threads and Workers go by sections under a lock and
      single accesses without one; memory is sequentially consistent.
    - Fuel: the block loop of SM3 has the length of its input, the loops of the
      base-n codec and of [Replace] what their theorems say is enough, the copy
      of a file a round for each of its bytes, sending a buffer a round for each
      byte and each refusal; the
      candidates SM2 draws are a list, and running out of it is [Diverge].
    - The size of the base-58 buffer is computed in double precision, as the
      code does ([Base58.decoded_size]); the round trip is checked for texts of
      up to 1000 bytes.
    - SM3 shifts by 32 and more, which C++ leaves undefined; the model takes the
      amount modulo 32, as the x86 instructions do.
    - Big numbers of OpenSSL are [Z], and its failing calls [None].
    - Elsewhere locks are erased: an operation that holds a mutex is one step,
      and the handlers of a thread run to their end.

    ** Not modelled

    Of the sockets the contexts of OpenSSL ([OnVerifyCertificate], the
    constructors that make them), the virtual methods without a body and the
    interface [ISocketControl], which nothing implements; of the network of peers
    the io threads and destructors; processes; of the string helpers floating
    point and the text streams; the forwarding wrappers [PublicKey] and
    [PrivateKey]; the websocket clients' ping thread, which nothing starts. *)

From Stdlib Require Export ZArith Lia Bool String Ascii.
From stdpp Require Export base gmap strings list fin_maps.

#[global] Open Scope Z_scope.

(** ** Outcomes of a C++ computation

    A call either returns, leaves by an exception, or runs into undefined
    behaviour; loops that have to be cut off by a fuel argument report
    [Diverge] (theorems show where that cannot happen). *)

Inductive ub : Set :=
| DanglingIterator   (* an iterator or element used after erase *)
| OutOfRange         (* operator[] past the end of a vector or table *)
| NullDeref          (* a null pointer dereferenced *)
| Overflow           (* signed integer overflow *)
| BadShift           (* shift by a negative amount or by at least the width *)
| DivideByZero       (* a division or remainder by zero *)
| Uninitialised.     (* an indeterminate value read *)

Inductive outcome (A : Type) : Type :=
| Ret (a : A)
| Throw
| Undef (u : ub)
| Diverge.
Arguments Ret {A} a.
Arguments Throw {A}.
Arguments Undef {A} u.
Arguments Diverge {A}.

Definition obind {A B} (c : outcome A) (k : A -> outcome B) : outcome B :=
  match c with
  | Ret a => k a
  | Throw => Throw
  | Undef u => Undef u
  | Diverge => Diverge
  end.

Lemma obind_Ret {A B} (c : outcome A) (k : A -> outcome B) b :
  obind c k = Ret b -> exists a, c = Ret a /\ k a = Ret b.
Proof. destruct c; try discriminate. by eauto. Qed.

(** State and outcome: the shape of every stateful operation. *)
Definition M (W A : Type) : Type := W -> outcome (A * W).

Definition ret {W A} (a : A) : M W A := fun w => Ret (a, w).
Definition bind {W A B} (c : M W A) (k : A -> M W B) : M W B :=
  fun w => obind (c w) (fun p => k p.1 p.2).
Definition lift {W A} (c : outcome A) : M W A := fun w => obind c (fun a => Ret (a, w)).
Definition get {W} : M W W := fun w => Ret (w, w).
Definition modify {W} (f : W -> W) : M W unit := fun w => Ret (tt, f w).

Declare Scope agent_scope.
Delimit Scope agent_scope with agent.
Notation "'let!' x ':=' c 'in' k" := (bind c (fun x => k))
  (at level 200, x pattern, c at level 100, k at level 200, right associativity) : agent_scope.
Notation "'do!' c 'in' k" := (bind c (fun _ => k))
  (at level 200, c at level 100, k at level 200, right associativity) : agent_scope.
Notation "'let?' x ':=' c 'in' k" := (obind c (fun x => k))
  (at level 200, x pattern, c at level 100, k at level 200, right associativity) : agent_scope.
#[global] Open Scope agent_scope.

(** ** Weakest preconditions

    [wp m Q w]: if [m] returns from [w], its result and final state satisfy [Q]. *)
Definition wp {W A} (m : M W A) (Q : A -> W -> Prop) (w : W) : Prop :=
  forall a w', m w = Ret (a, w') -> Q a w'.

Section WpLemmas.
Context {W : Type}.

Lemma wp_ret {A} (a : A) (Q : A -> W -> Prop) w : Q a w -> wp (ret a) Q w.
Proof. intros H a' w' E. injection E as <- <-. exact H. Qed.

Lemma wp_bind {A B} (m : M W A) (k : A -> M W B) Q w :
  wp m (fun a w' => wp (k a) Q w') w -> wp (bind m k) Q w.
Proof.
  intros H b w'' E. unfold bind in E.
  destruct (m w) as [[a w'] | | |] eqn:Em; try discriminate.
  exact (H a w' Em b w'' E).
Qed.

Lemma wp_mono {A} (m : M W A) (Q Q' : A -> W -> Prop) w :
  (forall a w', Q a w' -> Q' a w') -> wp m Q w -> wp m Q' w.
Proof. intros HQ H a w' E. apply HQ, H, E. Qed.

Lemma wp_lift {A} (c : outcome A) (Q : A -> W -> Prop) w :
  (forall a, c = Ret a -> Q a w) -> wp (lift c) Q w.
Proof.
  intros H a w' E. unfold lift in E. destruct c; try discriminate.
  injection E as <- <-. by apply H.
Qed.

Lemma wp_modify (f : W -> W) (Q : unit -> W -> Prop) w : Q tt (f w) -> wp (modify f) Q w.
Proof. intros H a w' E. injection E as <- <-. exact H. Qed.

Lemma wp_get (Q : W -> W -> Prop) w : Q w w -> wp get Q w.
Proof. intros H a w' E. injection E as <- <-. exact H. Qed.

Lemma wp_trivial {A} (m : M W A) w : wp m (fun _ _ => True) w.
Proof. by intros a w' _. Qed.

Lemma bind_ret_run {A B} (m : M W A) (k : A -> M W B) w a w' :
  m w = Ret (a, w') -> bind m k w = k a w'.
Proof. intros E. unfold bind. by rewrite E. Qed.

Lemma bind_inv {A B} (m : M W A) (k : A -> M W B) w b w'' :
  bind m k w = Ret (b, w'') -> exists a w', m w = Ret (a, w') /\ k a w' = Ret (b, w'').
Proof.
  unfold bind. destruct (m w) as [[a w'] | | |]; try discriminate. by eauto.
Qed.
End WpLemmas.

(** An operation on a part of the state, and on an object behind a pointer. *)
Definition zoom {W S A} (g : W -> S) (p : S -> W -> W) (m : M S A) : M W A :=
  fun w => let? r := m (g w) in Ret (r.1, p r.2 w).
Definition zoom_ptr {W S A} (g : W -> option S) (p : S -> W -> W) (m : M S A) : M W A :=
  fun w => match g w with
           | Some s => let? r := m s in Ret (r.1, p r.2 w)
           | None => Undef NullDeref
           end.

Lemma wp_zoom {W S A} (g : W -> S) (p : S -> W -> W) (m : M S A) Q w :
  wp m (fun a s => Q a (p s w)) (g w) -> wp (zoom g p m) Q w.
Proof.
  intros H a w' E. unfold zoom in E. destruct (m (g w)) as [[a' s]| | |] eqn:Em; try discriminate.
  injection E as <- <-. exact (H _ _ Em).
Qed.

(** Runs that are checked by computing only whether they return, and what. *)
Definition returns {W A} (P : A -> bool) (m : M W A) (w : W) : bool :=
  match m w with Ret (a, _) => P a | _ => false end.

Lemma returns_run {W A} (P : A -> bool) (m : M W A) w :
  returns P m w = true -> exists a w', m w = Ret (a, w') /\ P a = true.
Proof. unfold returns. destruct (m w) as [[a w']| | |]; try discriminate. by eauto. Qed.

Lemma returns_true {W} (m : M W bool) w : returns (fun b => b) m w = true -> exists w', m w = Ret (true, w').
Proof. intros (b & w' & E & ->)%returns_run. by eauto. Qed.

Create HintDb wp.
#[export] Hint Resolve wp_ret wp_bind wp_lift wp_modify wp_get wp_trivial : wp.

(** ** Frames

    [keeps f m]: every run of [m] that returns leaves the part [f] of the state
    as it was. *)
Definition keeps {W V A} (f : W -> V) (m : M W A) : Prop :=
  forall w a w', m w = Ret (a, w') -> f w' = f w.

Section KeepsLemmas.
Context {W V : Type} (f : W -> V).

Lemma keeps_ret {A} (a : A) : keeps f (ret a).
Proof. intros w b w' E. by injection E as _ <-. Qed.

Lemma keeps_bind {A B} (m : M W A) (k : A -> M W B) :
  keeps f m -> (forall a, keeps f (k a)) -> keeps f (bind m k).
Proof.
  intros Hm Hk w b w'' E. apply bind_inv in E as (a & w' & E1 & E2).
  rewrite (Hk a w' b w'' E2). by eapply Hm.
Qed.

Lemma keeps_lift {A} (c : outcome A) : keeps f (lift c).
Proof. intros w a w' E. apply obind_Ret in E as (b & _ & E). by injection E as _ <-. Qed.

Lemma keeps_get : keeps f get.
Proof. intros w a w' E. by injection E as _ <-. Qed.

Lemma keeps_modify (g : W -> W) : (forall w, f (g w) = f w) -> keeps f (modify g).
Proof. intros H w a w' E. by injection E as _ <-. Qed.

Lemma keeps_zoom {S A} (g : W -> S) (p : S -> W -> W) (m : M S A) :
  (forall s w, f (p s w) = f w) -> keeps f (zoom g p m).
Proof.
  intros H w a w' E. unfold zoom in E. apply obind_Ret in E as ([b s] & _ & E).
  by injection E as _ <-.
Qed.

(** The part kept may lie inside the part the operation works on. *)
Lemma keeps_zoom_in {S A} (g : W -> S) (p : S -> W -> W) (h : S -> V) (m : M S A) :
  (forall w, f w = h (g w)) -> (forall s w, g (p s w) = s) -> keeps h m -> keeps f (zoom g p m).
Proof.
  intros Hf Hg Hm w a w' E. unfold zoom in E. apply obind_Ret in E as ([b s] & Es & E).
  injection E as _ <-. rewrite !Hf, Hg. by eapply Hm.
Qed.
End KeepsLemmas.

(** [preserves I m]: every run of [m] from a state in [I] that returns ends in [I]. *)
Definition preserves {W A} (I : W -> Prop) (m : M W A) : Prop :=
  forall w a w', I w -> m w = Ret (a, w') -> I w'.

Section PreservesLemmas.
Context {W : Type} (I : W -> Prop).

Lemma preserves_ret {A} (a : A) : preserves I (ret a).
Proof. intros w b w' HI E. by injection E as _ <-. Qed.

Lemma preserves_bind {A B} (m : M W A) (k : A -> M W B) :
  preserves I m -> (forall a, preserves I (k a)) -> preserves I (bind m k).
Proof.
  intros Hm Hk w b w'' HI E. apply bind_inv in E as (a & w' & E1 & E2).
  eapply Hk, E2. by eapply Hm.
Qed.

Lemma preserves_lift {A} (c : outcome A) : preserves I (lift c).
Proof. intros w a w' HI E. apply obind_Ret in E as (b & _ & E). by injection E as _ <-. Qed.

Lemma preserves_get : preserves I get.
Proof. intros w a w' HI E. by injection E as _ <-. Qed.

Lemma preserves_modify (g : W -> W) : (forall w, I w -> I (g w)) -> preserves I (modify g).
Proof. intros H w a w' HI E. injection E as _ <-. by apply H. Qed.
End PreservesLemmas.

Create HintDb preserves discriminated.
#[export] Hint Constants Opaque : preserves.
Ltac solve_preserves :=
  repeat first
    [ apply preserves_ret | apply preserves_lift | apply preserves_get
    | solve [eauto 3 with preserves]
    | apply preserves_bind; [|intros]
    | match goal with
      | |- preserves _ (let '_ := ?x in _) => destruct x
      | |- preserves _ (match ?x with _ => _ end) => destruct x
      end ].

Create HintDb keeps discriminated.
#[export] Hint Constants Opaque : keeps.
Ltac solve_keeps :=
  repeat first
    [ apply keeps_ret | apply keeps_lift | apply keeps_get
    | solve [eauto 2 with keeps]
    | apply keeps_bind; [|intros]
    | apply keeps_modify; intros; reflexivity
    | apply keeps_zoom; intros; reflexivity
    | match goal with
      | |- keeps _ (let '_ := ?x in _) => destruct x
      | |- keeps _ (match ?x with _ => _ end) => destruct x
      end ].

(** ** Machine integers *)
Definition wrap (w z : Z) : Z := z mod 2 ^ w.
Definition swrap (w z : Z) : Z := (z + 2 ^ (w - 1)) mod 2 ^ w - 2 ^ (w - 1).
Definition in_s64 (z : Z) : bool := (- 2 ^ 63 <=? z) && (z <? 2 ^ 63).

(** Signed 64-bit arithmetic: a result out of range is undefined behaviour. *)
Definition s64 (z : Z) : outcome Z := if in_s64 z then Ret z else Undef Overflow.

Lemma wrap_range w z : 0 <= w -> 0 <= wrap w z < 2 ^ w.
Proof. intros. apply Z.mod_pos_bound. lia. Qed.

Lemma wrap_small w z : 0 <= z < 2 ^ w -> wrap w z = z.
Proof. intros. by apply Z.mod_small. Qed.

Lemma swrap_small w z : 0 < w -> - 2 ^ (w - 1) <= z < 2 ^ (w - 1) -> swrap w z = z.
Proof.
  intros Hw Hz. unfold swrap.
  assert (2 ^ w = 2 * 2 ^ (w - 1)) as E.
  { replace w with (Z.succ (w - 1)) at 1 by lia. by rewrite Z.pow_succ_r by lia. }
  rewrite Z.mod_small; lia.
Qed.

Lemma swrap_range w z : 0 < w -> - 2 ^ (w - 1) <= swrap w z < 2 ^ (w - 1).
Proof.
  intros Hw. unfold swrap.
  assert (2 ^ w = 2 * 2 ^ (w - 1)) as E.
  { replace w with (Z.succ (w - 1)) at 1 by lia. by rewrite Z.pow_succ_r by lia. }
  pose proof (Z.mod_pos_bound (z + 2 ^ (w - 1)) (2 ^ w)). lia.
Qed.

(** ** Bytes

    A [std::string] or buffer that is handled byte by byte is a list of
    unsigned bytes. *)
Definition byte_ok (b : Z) : Prop := 0 <= b < 256.
Definition bytes_ok (l : list Z) : Prop := Forall byte_ok l.

(** The value a [char] has as a signed integer (x86-64). *)
Definition schar (b : Z) : Z := if b <? 128 then b else b - 256.

#[export] Instance byte_ok_dec b : Decision (byte_ok b).
Proof. unfold byte_ok. apply _. Defined.

Definition byte_of_ascii (a : ascii) : Z := Z.of_N (N_of_ascii a).
Definition ascii_of_byte (b : Z) : ascii := ascii_of_N (Z.to_N b).
Definition to_bytes (s : string) : list Z := map byte_of_ascii (list_ascii_of_string s).
Definition of_bytes (l : list Z) : string := string_of_list_ascii (map ascii_of_byte l).

Lemma ascii_byte_ok a : byte_ok (byte_of_ascii a).
Proof.
  unfold byte_ok, byte_of_ascii.
  pose proof (N_ascii_bounded a). lia.
Qed.

Lemma ascii_of_byte_of_ascii a : ascii_of_byte (byte_of_ascii a) = a.
Proof.
  unfold ascii_of_byte, byte_of_ascii. rewrite N2Z.id. apply ascii_N_embedding.
Qed.

Lemma byte_of_ascii_of_byte b : byte_ok b -> byte_of_ascii (ascii_of_byte b) = b.
Proof.
  unfold byte_ok, byte_of_ascii, ascii_of_byte. intros.
  rewrite N_ascii_embedding by lia. lia.
Qed.

Lemma to_bytes_ok s : bytes_ok (to_bytes s).
Proof.
  unfold bytes_ok, to_bytes. apply Forall_forall. intros b Hb.
  apply list_elem_of_In, in_map_iff in Hb as (a & <- & _). apply ascii_byte_ok.
Qed.

Lemma of_bytes_to_bytes s : of_bytes (to_bytes s) = s.
Proof.
  unfold of_bytes, to_bytes. rewrite map_map.
  rewrite (map_ext _ id) by apply ascii_of_byte_of_ascii.
  rewrite map_id. apply string_of_list_ascii_of_string.
Qed.

Lemma to_bytes_of_bytes l : bytes_ok l -> to_bytes (of_bytes l) = l.
Proof.
  intros H. unfold of_bytes, to_bytes.
  rewrite list_ascii_of_string_of_list_ascii, map_map.
  induction H as [|b l Hb _ IH]; [done|]. simpl.
  by rewrite byte_of_ascii_of_byte, IH.
Qed.

#[export] Hint Resolve to_bytes_ok ascii_byte_ok : core.

(** All bytes, for the checks that enumerate them. *)
Definition all_bytes : list Z := map Z.of_nat (seq 0 256).

Lemma in_all_bytes b : byte_ok b -> List.In b all_bytes.
Proof.
  unfold byte_ok, all_bytes. intros H. apply in_map_iff.
  exists (Z.to_nat b). split; [lia|]. apply in_seq. lia.
Qed.

(** A boolean check that holds on every byte by computation holds for every byte. *)
Lemma forall_bytes (P : Z -> bool) :
  forallb P all_bytes = true -> forall b, byte_ok b -> P b = true.
Proof. intros H b Hb. rewrite forallb_forall in H. by apply H, in_all_bytes. Qed.


(** ** Bitwise facts *)

Lemma bits_bounded n a : 0 <= n -> 0 <= a -> (forall i, n <= i -> Z.testbit a i = false) -> a < 2 ^ n.
Proof.
  intros Hn Ha H. destruct (Z.eq_dec a 0) as [->|Hz]; [lia|].
  apply Z.log2_lt_pow2; [lia|]. destruct (Z.lt_ge_cases (Z.log2 a) n) as [|Hl]; [done|].
  specialize (H _ Hl). rewrite Z.bit_log2 in H by lia. done.
Qed.

Lemma testbit_high n a i : 0 <= a < 2 ^ n -> n <= i -> Z.testbit a i = false.
Proof.
  intros Ha Hi. destruct (Z.lt_ge_cases n 0).
  { rewrite Z.pow_neg_r in Ha by lia. lia. }
  rewrite <- (Z.mod_small a (2 ^ n)) by lia. apply Z.mod_pow2_bits_high. lia.
Qed.

Section BitBounds.
Context (n a b : Z) (Hn : 0 <= n) (Ha : 0 <= a < 2 ^ n) (Hb : 0 <= b < 2 ^ n).

Lemma lxor_bound : 0 <= Z.lxor a b < 2 ^ n.
Proof.
  assert (0 <= Z.lxor a b) by (apply Z.lxor_nonneg; lia). split; [done|].
  apply bits_bounded; [lia..|]. intros i Hi.
  by rewrite Z.lxor_spec, (testbit_high n a i), (testbit_high n b i).
Qed.

Lemma lor_bound : 0 <= Z.lor a b < 2 ^ n.
Proof.
  assert (0 <= Z.lor a b) by (apply Z.lor_nonneg; lia). split; [done|].
  apply bits_bounded; [lia..|]. intros i Hi.
  by rewrite Z.lor_spec, (testbit_high n a i), (testbit_high n b i).
Qed.

Lemma land_bound : 0 <= Z.land a b < 2 ^ n.
Proof.
  assert (0 <= Z.land a b) by (apply Z.land_nonneg; lia). split; [done|].
  apply bits_bounded; [lia..|]. intros i Hi.
  by rewrite Z.land_spec, (testbit_high n a i).
Qed.
End BitBounds.

Lemma lxor_byte a b : byte_ok a -> byte_ok b -> byte_ok (Z.lxor a b).
Proof. apply (lxor_bound 8). lia. Qed.

(** A shifted high part or-ed with a low part that fits below it is their sum. *)
Lemma lor_shiftl_add n hi lo :
  0 <= n -> 0 <= lo < 2 ^ n -> Z.lor (Z.shiftl hi n) lo = hi * 2 ^ n + lo.
Proof.
  intros Hn Hlo.
  assert (Z.land (Z.shiftl hi n) lo = 0) as E.
  { apply Z.bits_inj'. intros i Hi. rewrite Z.land_spec, Z.bits_0, Z.shiftl_spec by lia.
    destruct (Z.ltb_spec i n).
    - by rewrite Z.testbit_neg_r by lia.
    - rewrite (testbit_high n lo i) by lia. apply andb_false_r. }
  rewrite <- Z.lxor_lor, <- Z.add_nocarry_lxor by exact E.
  by rewrite Z.shiftl_mul_pow2 by lia.
Qed.

(** Reads of a table by index, and a vector read with C++'s [operator[]]. *)
Definition nthZ (l : list Z) (i : Z) : Z := nth (Z.to_nat i) l 0.
Definition vec_get {A} (l : list A) (i : nat) : outcome A :=
  match l !! i with Some a => Ret a | None => Undef OutOfRange end.

(** Filters that keep all, or nothing. *)
Lemma filter_all {A} (P : A -> Prop) `{!forall x, Decision (P x)} l : Forall P l -> filter P l = l.
Proof. induction 1 as [|x l Hx _ IH]; [done|]. by rewrite filter_cons, decide_True, IH. Qed.
Lemma filter_no {A} (P : A -> Prop) `{!forall x, Decision (P x)} l : Forall (fun x => ~ P x) l -> filter P l = [].
Proof. induction 1 as [|x l Hx _ IH]; [done|]. by rewrite filter_cons, decide_False. Qed.

Lemma vec_get_Ret {A} (l : list A) i a : vec_get l i = Ret a -> l !! i = Some a.
Proof. unfold vec_get. destruct (l !! i); [|done]. by intros [= ->]. Qed.

(** Case analysis on the boolean comparisons of a goal or hypothesis. *)
Ltac zify_bool :=
  repeat match goal with
         | H : _ && _ = true |- _ => apply andb_true_iff in H as [? ?]
         | H : (_ <=? _) = true |- _ => apply Z.leb_le in H
         | H : (_ <? _) = true |- _ => apply Z.ltb_lt in H
         | H : (_ =? _) = true |- _ => apply Z.eqb_eq in H
         | H : (_ <=? _) = false |- _ => apply Z.leb_gt in H
         | H : (_ <? _) = false |- _ => apply Z.ltb_ge in H
         | H : (_ =? _) = false |- _ => apply Z.eqb_neq in H
         end.

(** Runs a monadic computation whose head is a concrete step. *)
Ltac mstep := unfold bind at 1; simpl.

(** Takes apart the successful run of a sequence of outcomes. *)
Ltac obind_inv :=
  repeat match goal with
         | H : obind ?c _ = Ret _ |- _ =>
             let E := fresh "E" in destruct c eqn:E; cbn [obind] in H; try discriminate H
         end.

(** A place of a list, and what an update there does. *)
Lemma split_at {A} (l : list A) i x : l !! i = Some x -> exists l1 l2, l = l1 ++ x :: l2 /\ forall y, <[i := y]> l = l1 ++ y :: l2.
Proof.
  intros H. exists (take i l), (drop (S i) l). pose proof (lookup_lt_Some _ _ _ H). split; [by rewrite take_drop_middle|].
  intros y. by rewrite insert_take_drop.
Qed.
Lemma sum_mid {A} (f : A -> nat) l1 x l2 : sum_list_with f (l1 ++ x :: l2) = (sum_list_with f l1 + sum_list_with f l2 + f x)%nat.
Proof. rewrite sum_list_with_app. cbn. lia. Qed.
Lemma sum_insert {A} (f : A -> nat) l i x y : l !! i = Some x ->
  (sum_list_with f (<[i := y]> l) + f x = sum_list_with f l + f y)%nat.
Proof. intros (l1 & l2 & -> & ->)%split_at. rewrite !sum_mid. lia. Qed.
Lemma sum_zero {A} (f : A -> nat) l i x : sum_list_with f l = 0%nat -> l !! i = Some x -> f x = 0%nat.
Proof. intros H (l1 & l2 & -> & _)%split_at. rewrite sum_mid in H. lia. Qed.
