(* ===== verification/Crc.v ===== *)
(** The three CRC routines of [src/src/utils/crypto.cpp]: the table driven
    [Get_Crc16], the bitwise [Crc16] and the bitwise [Crc8]. *)

From S2P Require Import Prelude.

(** CRC high byte table. *)
Definition auchCRCHi : list Z :=
  [0; 193; 129; 64; 1; 192; 128; 65; 1; 192; 128; 65; 0; 193; 129; 64; 1; 192; 128; 65; 0;
   193; 129; 64; 0; 193; 129; 64; 1; 192; 128; 65; 1; 192; 128; 65; 0; 193; 129; 64; 0;
   193; 129; 64; 1; 192; 128; 65; 0; 193; 129; 64; 1; 192; 128; 65; 1; 192; 128; 65; 0;
   193; 129; 64; 1; 192; 128; 65; 0; 193; 129; 64; 0; 193; 129; 64; 1; 192; 128; 65; 0;
   193; 129; 64; 1; 192; 128; 65; 1; 192; 128; 65; 0; 193; 129; 64; 0; 193; 129; 64; 1;
   192; 128; 65; 1; 192; 128; 65; 0; 193; 129; 64; 1; 192; 128; 65; 0; 193; 129; 64; 0;
   193; 129; 64; 1; 192; 128; 65; 1; 192; 128; 65; 0; 193; 129; 64; 0; 193; 129; 64; 1;
   192; 128; 65; 0; 193; 129; 64; 1; 192; 128; 65; 1; 192; 128; 65; 0; 193; 129; 64; 0;
   193; 129; 64; 1; 192; 128; 65; 1; 192; 128; 65; 0; 193; 129; 64; 1; 192; 128; 65; 0;
   193; 129; 64; 0; 193; 129; 64; 1; 192; 128; 65; 0; 193; 129; 64; 1; 192; 128; 65; 1;
   192; 128; 65; 0; 193; 129; 64; 1; 192; 128; 65; 0; 193; 129; 64; 0; 193; 129; 64; 1;
   192; 128; 65; 1; 192; 128; 65; 0; 193; 129; 64; 0; 193; 129; 64; 1; 192; 128; 65; 0;
   193; 129; 64; 1; 192; 128; 65; 1; 192; 128; 65; 0; 193; 129; 64].

(** CRC low byte table. *)
Definition auchCRCLo : list Z :=
  [0; 192; 193; 1; 195; 3; 2; 194; 198; 6; 7; 199; 5; 197; 196; 4; 204; 12; 13; 205; 15;
   207; 206; 14; 10; 202; 203; 11; 201; 9; 8; 200; 216; 24; 25; 217; 27; 219; 218; 26; 30;
   222; 223; 31; 221; 29; 28; 220; 20; 212; 213; 21; 215; 23; 22; 214; 210; 18; 19; 211;
   17; 209; 208; 16; 240; 48; 49; 241; 51; 243; 242; 50; 54; 246; 247; 55; 245; 53; 52;
   244; 60; 252; 253; 61; 255; 63; 62; 254; 250; 58; 59; 251; 57; 249; 248; 56; 40; 232;
   233; 41; 235; 43; 42; 234; 238; 46; 47; 239; 45; 237; 236; 44; 228; 36; 37; 229; 39;
   231; 230; 38; 34; 226; 227; 35; 225; 33; 32; 224; 160; 96; 97; 161; 99; 163; 162; 98;
   102; 166; 167; 103; 165; 101; 100; 164; 108; 172; 173; 109; 175; 111; 110; 174; 170;
   106; 107; 171; 105; 169; 168; 104; 120; 184; 185; 121; 187; 123; 122; 186; 190; 126;
   127; 191; 125; 189; 188; 124; 180; 116; 117; 181; 119; 183; 182; 118; 114; 178; 179;
   115; 177; 113; 112; 176; 80; 144; 145; 81; 147; 83; 82; 146; 150; 86; 87; 151; 85; 149;
   148; 84; 156; 92; 93; 157; 95; 159; 158; 94; 90; 154; 155; 91; 153; 89; 88; 152; 136;
   72; 73; 137; 75; 139; 138; 74; 78; 142; 143; 79; 141; 77; 76; 140; 68; 132; 133; 69;
   135; 71; 70; 134; 130; 66; 67; 131; 65; 129; 128; 64].

(** A [uint8_t *] with its [uint16_t] length is the list of the bytes it spans. *)
Definition Get_Crc16_step (st : Z * Z) (b : Z) : Z * Z :=
  let (uchCRCHi, uchCRCLo) := st in
  let uIndex := Z.lxor uchCRCHi b in
  (Z.lxor uchCRCLo (nthZ auchCRCHi uIndex), nthZ auchCRCLo uIndex).

Definition Get_Crc16 (puchMsg : list Z) : Z :=
  let (uchCRCHi, uchCRCLo) := fold_left Get_Crc16_step puchMsg (255, 255) in
  Z.lor (Z.shiftl uchCRCHi 8) uchCRCLo.

Definition Crc8_bit (crc : Z) : Z :=
  if Z.testbit crc 0 then Z.lxor (Z.shiftr crc 1) 140 else Z.shiftr crc 1.

Definition Crc8_byte (crc b : Z) : Z := Nat.iter 8 Crc8_bit (Z.lxor crc b).

Definition Crc8 (ptr : list Z) : Z := fold_left Crc8_byte ptr 0.

(** The [std::string] overload hands [data.length()] over as a [uint16_t]. *)
Definition Crc8_string (data : list Z) : Z :=
  Crc8 (firstn (Z.to_nat (wrap 16 (Z.of_nat (length data)))) data).

(** One of the eight shifts of [Crc16]; the state is [(CRC16Hi, CRC16Lo)]. *)
Definition Crc16_bit (st : Z * Z) : Z * Z :=
  let (SaveHi, SaveLo) := st in
  let CRC16Hi := Z.shiftr SaveHi 1 in
  let CRC16Lo := Z.shiftr SaveLo 1 in
  let CRC16Lo := if Z.land SaveHi 1 =? 1 then Z.lor CRC16Lo 128 else CRC16Lo in
  if Z.land SaveLo 1 =? 1 then (Z.lxor CRC16Hi 160, Z.lxor CRC16Lo 1)
  else (CRC16Hi, CRC16Lo).

Definition Crc16_byte (st : Z * Z) (b : Z) : Z * Z :=
  let (CRC16Hi, CRC16Lo) := st in
  Nat.iter 8 Crc16_bit (CRC16Hi, Z.lxor CRC16Lo b).

Definition Crc16 (pdata : list Z) : Z :=
  let (CRC16Hi, CRC16Lo) := fold_left Crc16_byte pdata (255, 255) in
  Z.lor (Z.shiftl CRC16Hi 8) CRC16Lo.

(** ** One byte of the bitwise routine is one table access *)

Definition pair_eqb (p q : Z * Z) : bool := (p.1 =? q.1) && (p.2 =? q.2).

Lemma pair_eqb_eq p q : pair_eqb p q = true -> p = q.
Proof. destruct p, q. unfold pair_eqb. simpl. intros. zify_bool. by subst. Qed.

(** The eight shifts of a state, as one table access. *)
Definition shifted (hi lo : Z) : Z * Z := (nthZ auchCRCLo lo, Z.lxor hi (nthZ auchCRCHi lo)).

Definition shifts_ok (hi : Z) : bool :=
  forallb (fun lo => pair_eqb (Nat.iter 8 Crc16_bit (hi, lo)) (shifted hi lo)) all_bytes.

Lemma shifts_checked : forallb shifts_ok all_bytes = true.
Proof. vm_compute. reflexivity. Qed.

Lemma Crc16_shifts hi lo :
  byte_ok hi -> byte_ok lo -> Nat.iter 8 Crc16_bit (hi, lo) = shifted hi lo.
Proof.
  intros Hhi Hlo. apply pair_eqb_eq.
  pose proof (forall_bytes _ shifts_checked hi Hhi) as H.
  by apply (forall_bytes _ H lo).
Qed.

Lemma tables_ok : forallb (fun i => bool_decide (byte_ok (nthZ auchCRCHi i) /\ byte_ok (nthZ auchCRCLo i))) all_bytes = true.
Proof. vm_compute. reflexivity. Qed.

Lemma table_bytes i : byte_ok i -> byte_ok (nthZ auchCRCHi i) /\ byte_ok (nthZ auchCRCLo i).
Proof.
  intros Hi. pose proof (forall_bytes _ tables_ok i Hi) as H. by apply bool_decide_eq_true in H.
Qed.

Definition swap_state (st : Z * Z) : Z * Z := (st.2, st.1).
Lemma swap_swap st : swap_state (swap_state st) = st.
Proof. by destruct st. Qed.

Definition state_ok (st : Z * Z) : Prop := byte_ok st.1 /\ byte_ok st.2.

Lemma Crc16_byte_swapped st b :
  state_ok st -> byte_ok b ->
  Crc16_byte st b = swap_state (Get_Crc16_step (swap_state st) b) /\ state_ok (Crc16_byte st b).
Proof.
  destruct st as [hi lo]. intros [Hhi Hlo] Hb. simpl in Hhi, Hlo.
  pose proof (lxor_byte _ _ Hlo Hb) as Hx.
  destruct (table_bytes _ Hx) as [Thi Tlo].
  unfold Crc16_byte. rewrite Crc16_shifts by done. unfold shifted.
  split; [done|]. split; simpl; [done|]. by apply lxor_byte.
Qed.

Lemma fold_swapped m st :
  bytes_ok m -> state_ok st ->
  fold_left Crc16_byte m st = swap_state (fold_left Get_Crc16_step m (swap_state st)) /\
  state_ok (fold_left Crc16_byte m st).
Proof.
  intros Hm. revert st. induction Hm as [|b m Hb Hm IH]; intros st Hst.
  - destruct st. done.
  - cbn [fold_left]. destruct (Crc16_byte_swapped st b Hst Hb) as [E Hok].
    rewrite E in Hok |- *. destruct (IH _ Hok) as [IHe Hr]. split; [|exact Hr].
    by rewrite IHe, swap_swap.
Qed.

Lemma initial_state_ok : state_ok (255, 255).
Proof. split; unfold byte_ok; simpl; lia. Qed.

(** ** Properties *)

(** The table driven [Get_Crc16] computes the bitwise [Crc16] with its two
    bytes exchanged: the routines agree on every message once the byte order of
    the result is taken into account. *)
Theorem Crc16_is_swapped_Get_Crc16 (m : list Z) (Hm : bytes_ok m) :
  Crc16 m / 256 = Get_Crc16 m mod 256 /\ Crc16 m mod 256 = Get_Crc16 m / 256.
Proof.
  unfold Crc16, Get_Crc16.
  destruct (fold_swapped m (255, 255) Hm initial_state_ok) as [E [Hhi Hlo]].
  change (swap_state (255, 255)) with (255, 255) in E.
  destruct (fold_left Crc16_byte m (255, 255)) as [hi lo].
  destruct (fold_left Get_Crc16_step m (255, 255)) as [hi' lo'].
  injection E as -> ->. simpl in Hhi, Hlo. unfold byte_ok in *.
  rewrite !lor_shiftl_add by lia. change (2 ^ 8) with 256.
  rewrite !Z.div_add_l, !(Z.add_comm (_ * 256)), !Z.mod_add, !Z.div_small, !Z.mod_small by lia.
  lia.
Qed.

Lemma Crc16_is_swapped_Get_Crc16_witness :
  Crc16 [1; 2; 3] / 256 = Get_Crc16 [1; 2; 3] mod 256 /\
  Crc16 [1; 2; 3] mod 256 = Get_Crc16 [1; 2; 3] / 256.
Proof.
  apply (Crc16_is_swapped_Get_Crc16 [1; 2; 3]).
  repeat (constructor; [unfold byte_ok; lia|]). constructor.
Defined.

Lemma Crc16_byte_self hi lo :
  byte_ok hi -> byte_ok lo -> Crc16_byte (hi, lo) lo = (0, hi).
Proof.
  intros Hhi Hlo. unfold Crc16_byte. rewrite Z.lxor_nilpotent.
  rewrite Crc16_shifts by (done || (unfold byte_ok; lia)).
  unfold shifted. change (nthZ auchCRCLo 0) with 0. change (nthZ auchCRCHi 0) with 0.
  by rewrite Z.lxor_0_r.
Qed.

(** A frame that carries its own checksum, low byte first, has checksum
    zero: the receiver's test of a message followed by its [Crc16]. *)
Theorem Crc16_residue (m : list Z) (Hm : bytes_ok m) :
  Crc16 (m ++ [Crc16 m mod 256; Crc16 m / 256]) = 0.
Proof.
  destruct (fold_swapped m (255, 255) Hm initial_state_ok) as [_ [Hhi Hlo]].
  unfold Crc16 at 1. rewrite fold_left_app. unfold Crc16.
  destruct (fold_left Crc16_byte m (255, 255)) as [hi lo]. simpl in Hhi, Hlo.
  assert (byte_ok lo /\ byte_ok hi) as [Hl Hh] by done. unfold byte_ok in Hl, Hh.
  rewrite lor_shiftl_add by lia. change (2 ^ 8) with 256.
  rewrite Z.div_add_l, (Z.add_comm (_ * 256)), Z.mod_add, Z.div_small, Z.mod_small, Z.add_0_r by lia.
  cbn [fold_left].
  assert (byte_ok 0) by (unfold byte_ok; lia).
  by rewrite !Crc16_byte_self.
Qed.

Lemma Crc16_residue_witness : Crc16 ([7; 200] ++ [Crc16 [7; 200] mod 256; Crc16 [7; 200] / 256]) = 0.
Proof.
  apply (Crc16_residue [7; 200]).
  repeat (constructor; [unfold byte_ok; lia|]). constructor.
Defined.
