(* ===== verification/Hex.v ===== *)
(** The hexadecimal conversions of [src/src/utils/strings.h]. *)

From S2P Require Import Prelude.

(** The digit chosen for a nibble: ['0'] + n up to nine, then ['a'] + n - 10. *)
Definition hex_digit (n : Z) : Z := if (0 <=? n) && (n <=? 9) then n + 48 else n - 10 + 97.

Definition BinToHexString (value : list Z) : list Z :=
  flat_map (fun item => [hex_digit (Z.shiftr item 4); hex_digit (Z.land item 15)]) value.

(** [ArrayToHexString] reads [len] bytes of a raw array. *)
Definition ArrayToHexString (array : list Z) (len : nat) : list Z :=
  BinToHexString (firstn len array).

(** The value of a hexadecimal character; upper case only without [force_little]. *)
Definition hex_value (force_little : bool) (c : Z) : option Z :=
  if (48 <=? c) && (c <=? 57) then Some (c - 48)
  else if (97 <=? c) && (c <=? 102) then Some (c - 97 + 10)
  else if (65 <=? c) && (c <=? 70) && negb force_little then Some (c - 65 + 10)
  else None.

(** The loop over the pairs; any bad character makes the whole result empty. *)
Fixpoint hex_pairs (force_little : bool) (s : list Z) : option (list Z) :=
  match s with
  | high :: low :: rest =>
    match hex_value force_little high, hex_value force_little low with
    | Some h, Some l => option_map (cons (wrap 8 (Z.shiftl h 4 + l))) (hex_pairs force_little rest)
    | _, _ => None
    end
  | _ => Some []
  end.

Definition HexStringToBin (hex_string : list Z) (force_little : bool) : list Z :=
  if negb (Nat.even (length hex_string)) || bool_decide (hex_string = []) then []
  else default [] (hex_pairs force_little hex_string).

Definition is_hex_char (c : Z) : bool :=
  ((48 <=? c) && (c <=? 57)) || ((97 <=? c) && (c <=? 102)) || ((65 <=? c) && (c <=? 70)).

Definition IsHexString (hex_string : list Z) : bool :=
  Nat.even (length hex_string) && forallb is_hex_char hex_string.

(** The overload with an output parameter: its result is [(ok, output)]. *)
Definition HexStringToBin_out (hex_string out_put : list Z) : bool * list Z :=
  if negb (IsHexString hex_string) then (false, out_put)
  else (true, HexStringToBin hex_string false).

(** ** Lemmas *)

Lemma nibbles_checked force :
  forallb (fun b =>
    match hex_value force (hex_digit (Z.shiftr b 4)), hex_value force (hex_digit (Z.land b 15)) with
    | Some h, Some l => wrap 8 (Z.shiftl h 4 + l) =? b
    | _, _ => false
    end) all_bytes = true.
Proof. destruct force; vm_compute; reflexivity. Qed.

Lemma hex_pairs_BinToHexString force l :
  bytes_ok l -> hex_pairs force (BinToHexString l) = Some l.
Proof.
  induction 1 as [|b l Hb Hl IH]; [done|]. cbn [BinToHexString flat_map app hex_pairs].
  pose proof (forall_bytes _ (nibbles_checked force) b Hb) as E. simpl in E.
  destruct (hex_value force (hex_digit (Z.shiftr b 4))); [|done].
  destruct (hex_value force (hex_digit (Z.land b 15))); [|done].
  apply Z.eqb_eq in E. unfold BinToHexString in IH. by rewrite IH, E.
Qed.

Lemma length_BinToHexString l : length (BinToHexString l) = (2 * length l)%nat.
Proof. induction l; [done|]. cbn [BinToHexString flat_map app length]. unfold BinToHexString in IHl. lia. Qed.

Lemma even_length_BinToHexString l : Nat.even (length (BinToHexString l)) = true.
Proof. rewrite length_BinToHexString. apply Nat.even_spec. by exists (length l). Qed.

Lemma hex_digits_checked :
  forallb (fun b => is_hex_char (hex_digit (Z.shiftr b 4)) && is_hex_char (hex_digit (Z.land b 15))) all_bytes = true.
Proof. vm_compute. reflexivity. Qed.

Lemma BinToHexString_hex l : bytes_ok l -> IsHexString (BinToHexString l) = true.
Proof.
  intros H. unfold IsHexString. rewrite even_length_BinToHexString. simpl.
  induction H as [|b l Hb Hl IH]; [done|].
  pose proof (forall_bytes _ hex_digits_checked b Hb) as E. apply andb_true_iff in E as [E1 E2].
  cbn [BinToHexString flat_map app forallb]. unfold BinToHexString in IH. by rewrite E1, E2, IH.
Qed.

Lemma hex_value_range force c v : hex_value force c = Some v -> 0 <= v < 16.
Proof. unfold hex_value. repeat case_match; intros [= <-]; zify_bool; lia. Qed.

Lemma hex_value_None_iff c : hex_value false c = None <-> is_hex_char c = false.
Proof.
  unfold hex_value, is_hex_char. rewrite andb_true_r.
  destruct (_ && _), (_ && _), (_ && _); simpl; split; congruence.
Qed.

(** On hexadecimal digits of either case the pair loop succeeds and halves the length. *)
Lemma hex_pairs_total s :
  Nat.even (length s) = true -> forallb is_hex_char s = true ->
  exists l, hex_pairs false s = Some l /\ bytes_ok l /\ length s = (2 * length l)%nat.
Proof.
  remember (length s) as n eqn:En. revert s En.
  induction n as [n IH] using lt_wf_ind. intros s En Hev Hhex.
  destruct s as [|a [|b s]]; simpl in En.
  - exists []. subst. split; [done|]. split; [constructor|done].
  - subst. done.
  - simpl in Hhex. apply andb_true_iff in Hhex as [Ha Hhex]. apply andb_true_iff in Hhex as [Hb Hs].
    subst n. simpl in Hev.
    destruct (IH (length s) ltac:(lia) s eq_refl Hev Hs) as (l & El & Hl & Hlen).
    cbn [hex_pairs].
    destruct (hex_value false a) as [h|] eqn:Eh; [|apply hex_value_None_iff in Eh; congruence].
    destruct (hex_value false b) as [v|] eqn:Ev; [|apply hex_value_None_iff in Ev; congruence].
    rewrite El. simpl. eexists; split; [done|].
    split; [|simpl; lia]. constructor; [|done]. apply wrap_range. lia.
Qed.

Lemma hex_roundtrip l force_little :
  bytes_ok l -> HexStringToBin (BinToHexString l) force_little = l.
Proof.
  intros Hl. unfold HexStringToBin. rewrite even_length_BinToHexString. simpl.
  rewrite hex_pairs_BinToHexString by done.
  case_bool_decide as E; [|done].
  pose proof (length_BinToHexString l) as E2. rewrite E in E2. by destruct l.
Qed.

Lemma hex_digit_byte_checked :
  forallb (fun b => bool_decide (byte_ok (hex_digit (Z.shiftr b 4)) /\ byte_ok (hex_digit (Z.land b 15))))
    all_bytes = true.
Proof. vm_compute. reflexivity. Qed.

Lemma BinToHexString_bytes l : bytes_ok l -> bytes_ok (BinToHexString l).
Proof.
  induction 1 as [|b l Hb _ IH]; [constructor|].
  pose proof (forall_bytes _ hex_digit_byte_checked b Hb) as H. apply bool_decide_eq_true_1 in H as [H1 H2].
  constructor; [exact H1|]. constructor; [exact H2|]. exact IH.
Qed.

(** ** Properties *)

(** Hexadecimal round trip: [HexStringToBin] recovers every byte string that
    [BinToHexString] printed, in either mode; the printed form is accepted by
    [IsHexString] and has two characters per byte. *)
Theorem HexStringToBin_BinToHexString (l : list Z) (force_little : bool) (Hl : bytes_ok l) :
  HexStringToBin (BinToHexString l) force_little = l /\
  IsHexString (BinToHexString l) = true /\
  length (BinToHexString l) = (2 * length l)%nat.
Proof.
  split_and!; [|by apply BinToHexString_hex|by apply length_BinToHexString].
  by apply hex_roundtrip.
Qed.

Lemma HexStringToBin_BinToHexString_witness :
  HexStringToBin (BinToHexString [0; 171; 255]) true = [0; 171; 255] /\
  IsHexString (BinToHexString [0; 171; 255]) = true /\
  length (BinToHexString [0; 171; 255]) = 6%nat.
Proof.
  apply (HexStringToBin_BinToHexString [0; 171; 255] true).
  repeat (constructor; [unfold byte_ok; lia|]). constructor.
Defined.
