(* ===== verification/Strings.v ===== *)
(** String helpers of [src/utils/strings.h]: conversions between numbers and
    decimal text ([Stoi], [Stol], [Stoui], [ToString], [SafeSto*]), the
    tokenisers ([split], [Strtok], [std::getline]), trimming, case and
    replacement.  Strings are lists of bytes here; the callers that work with
    [string] go through [to_bytes] and [of_bytes]. *)

From S2P Require Import Prelude.

(** ** Characters *)

(** [isspace] of the C locale: space, \t, \n, \v, \f, \r. *)
Definition isspace (c : Z) : bool := (c =? 32) || ((9 <=? c) && (c <=? 13)).
Definition IS_DIGIT (c : Z) : bool := (48 <=? c) && (c <=? 57).

(** [IsSpace] takes a [char]: only positive ones are classified. *)
Definition IsSpace (nValue : Z) : bool := (0 <? schar nValue) && isspace nValue.

(** [c_str()] read as a C string: up to the first NUL. *)
Fixpoint c_str (s : list Z) : list Z :=
  match s with
  | [] => []
  | c :: r => if c =? 0 then [] else c :: c_str r
  end.

(** ** Decimal text *)

(** The digits of [n >= 0], as [printf] writes them, in front of [acc]. *)
Fixpoint dec_digits (fuel : nat) (n : Z) (acc : list Z) : list Z :=
  match fuel with
  | O => acc
  | S f => let acc' := (48 + n mod 10) :: acc in
           if n <? 10 then acc' else dec_digits f (n / 10) acc'
  end.
Definition dec (n : Z) : list Z := dec_digits (S (Z.to_nat (Z.log2 n))) n [].

(** [ToString] at each of its integer types ([%d], [%u], [%ld], [%lu]). *)
Definition ToString (val : Z) : list Z := if val <? 0 then 45 :: dec (- val) else dec val.
Definition ToString_bool (val : bool) : list Z := if val then [49] else [48].

(** The value of the digits at the front of [s], after [acc]. *)
Fixpoint digits_value (s : list Z) (acc : Z) : Z :=
  match s with
  | c :: r => if IS_DIGIT c then digits_value r (acc * 10 + (c - 48)) else acc
  | [] => acc
  end.

Fixpoint skip_spaces (s : list Z) : list Z :=
  match s with
  | c :: r => if isspace c then skip_spaces r else s
  | [] => []
  end.

(** [strtol] in base 10 on a 64-bit [long]: out-of-range values saturate. *)
Definition strtol (s : list Z) : Z :=
  match skip_spaces s with
  | 45 :: r => Z.max (- 2 ^ 63) (- digits_value r 0)
  | 43 :: r => Z.min (2 ^ 63 - 1) (digits_value r 0)
  | r => Z.min (2 ^ 63 - 1) (digits_value r 0)
  end.
Definition atol (s : list Z) : Z := strtol (c_str s).
Definition atoi (s : list Z) : Z := swrap 32 (strtol (c_str s)).

Definition Stoi (str : list Z) : Z :=
  if (0 =? Z.of_nat (length str)) then 0 else atoi str.
Definition Stol (str : list Z) : Z :=
  if (0 =? Z.of_nat (length str)) then 0 else atol str.
Definition Stoi64 (str : list Z) : Z :=
  if (0 =? Z.of_nat (length str)) then 0 else atol str.

(** The digit loop of [Stoui] and [Stoui64] over a [w]-bit accumulator. *)
Fixpoint Stoui_loop (w : Z) (s : list Z) (used : nat) (value : Z) : Z :=
  match s with
  | [] => value
  | c :: r =>
      if IS_DIGIT c then Stoui_loop w r (S used) (wrap w (wrap w (value * 10) + (c - 48)))
      else if negb (IsSpace c) || (0 <? Z.of_nat used) then value
      else Stoui_loop w r used value
  end.
Definition Stoui (str : list Z) : Z := Stoui_loop 32 str 0 0.

(** [Stoui64] returns its [uint64_t] through an [int64_t]. *)
Definition Stoui64 (str : list Z) : Z := swrap 64 (Stoui_loop 64 str 0 0).

Definition Stob (str : list Z) : bool :=
  if (0 =? Z.of_nat (length str)) || bool_decide (str = [48])
     || bool_decide (str = to_bytes "false") || bool_decide (str = to_bytes "FALSE")
  then false else true.

(** The checked conversions: the parsed number must print as the input. *)
Definition SafeStoi (str : list Z) : option Z :=
  if 11 <? Z.of_nat (length str) then None else
  let temNum := Stoi str in
  if bool_decide (str = ToString temNum) then Some temNum else None.
Definition SafeStoui (str : list Z) : option Z :=
  if 10 <? Z.of_nat (length str) then None else
  let temNum := Stoui str in
  if bool_decide (str = ToString temNum) then Some temNum else None.
Definition SafeStoi64 (str : list Z) : option Z :=
  if 20 <? Z.of_nat (length str) then None else
  let temNum := Stoi64 str in
  if bool_decide (str = ToString temNum) then Some temNum else None.
Definition SafeStoui64 (str : list Z) : option Z :=
  if 20 <? Z.of_nat (length str) then None else
  let temNum := wrap 64 (Stoui64 str) in
  if bool_decide (str = ToString temNum) then Some temNum else None.

(** ** Tokenisers *)

(** [split]: cut at every character of [delim]; the piece after the last one
    is pushed even when it is empty ([npos - last] is never zero). *)
Fixpoint split_from (delim : list Z) (s cur : list Z) : list (list Z) :=
  match s with
  | [] => [cur]
  | c :: r => if bool_decide (c ∈ delim) then cur :: split_from delim r []
              else split_from delim r (cur ++ [c])
  end.
Definition split (s delim : list Z) : list (list Z) := split_from delim s [].

(** [while (std::getline(ss, item, sep)) list.push_back(item)]: an empty piece
    at the very end is not delivered. *)
Fixpoint getline_from (sep : Z) (s cur : list Z) : list (list Z) :=
  match s with
  | [] => match cur with [] => [] | _ => [cur] end
  | c :: r => if c =? sep then cur :: getline_from sep r [] else getline_from sep r (cur ++ [c])
  end.
Definition getline_all (sep : Z) (s : list Z) : list (list Z) := getline_from sep s [].

(** [Strtok] with one separator: empty pieces are dropped, except the last one. *)
Fixpoint Strtok_from (separator : Z) (s cur : list Z) : list (list Z) :=
  match s with
  | [] => [cur]
  | c :: r =>
      if c =? separator
      then match cur with
           | [] => Strtok_from separator r []
           | _ => cur :: Strtok_from separator r []
           end
      else Strtok_from separator r (cur ++ [c])
  end.
Definition Strtok (str : list Z) (separator : Z) : list (list Z) := Strtok_from separator str [].

(** The overload that appends to an array and returns its size. *)
Definition Strtok_append (str : list Z) (separator : Z) (arr : list (list Z)) : Z * list (list Z) :=
  let arr' := arr ++ Strtok str separator in (swrap 32 (Z.of_nat (length arr')), arr').

(** [ParseAttribute]: the first value of a repeated key wins ([map::insert]),
    and a piece without [ope] maps to the empty string. *)
Definition ParseAttribute (s delim ope : list Z) : gmap (list Z) (list Z) :=
  foldl (fun m piece =>
           match split piece ope with
           | k :: v :: _ => if m !! k then m else <[k := v]> m
           | k :: [] => if m !! k then m else <[k := []]> m
           | [] => m
           end) ∅ (split s delim).

(** ** Trimming, case, replacement *)

Fixpoint drop_spaces (s : list Z) : list Z :=
  match s with
  | c :: r => if IsSpace c then drop_spaces r else s
  | [] => []
  end.

Definition TrimLeft (str : list Z) : list Z := drop_spaces str.

(** [TrimRight] never removes the character at position 0. *)
Definition TrimRight (str : list Z) : list Z :=
  match str with
  | [] => []
  | c :: r => c :: rev (drop_spaces (rev r))
  end.

(** [Trim] measures both ends of the original text: on blank text the left end
    passes the right one and the result is empty. *)
Definition Trim (str : list Z) : list Z :=
  let l := drop_spaces str in
  match l with
  | [] => []
  | _ => rev (drop_spaces (rev l))
  end.

Definition CanDisplay (str : list Z) : bool :=
  forallb (fun c => (32 <=? schar c) && (schar c <=? 127)) str.
Definition IsContainUppercase (str : list Z) : bool := existsb (fun c => (65 <=? c) && (c <=? 90)) str.
Definition IsContainLowercase (str : list Z) : bool := existsb (fun c => (97 <=? c) && (c <=? 122)) str.
Definition IsInteger (str : list Z) : bool := forallb IS_DIGIT str.

Definition lower_char (c : Z) : Z := if (65 <=? c) && (c <=? 90) then c + 32 else c.
Definition upper_char (c : Z) : Z := if (97 <=? c) && (c <=? 122) then c - 32 else c.
Definition ToLower (str : list Z) : list Z := map lower_char str.
Definition ToUpper (str : list Z) : list Z := map upper_char str.

Definition CharIsLetter (c : Z) : bool :=
  ((65 <=? c) && (c <=? 90)) || ((97 <=? c) && (c <=? 122)).

Fixpoint equals_loop (s1 s2 : list Z) : bool :=
  match s1, s2 with
  | a :: r1, b :: r2 =>
      if a =? b then equals_loop r1 r2
      else if negb (CharIsLetter a) || negb (CharIsLetter b) then false
      else if negb (32 =? Z.abs (schar a - schar b)) then false
      else equals_loop r1 r2
  | _, _ => true
  end.
Definition EqualsIgnoreCase (s1 s2 : list Z) : bool :=
  if negb (Nat.eqb (length s1) (length s2)) then false else equals_loop s1 s2.

Fixpoint is_prefix (p s : list Z) : bool :=
  match p, s with
  | [], _ => true
  | a :: p', b :: s' => (a =? b) && is_prefix p' s'
  | _ :: _, [] => false
  end.

(** [find(sub, pos)], as the offset of the first occurrence. *)
Fixpoint find_sub (sub s : list Z) : option nat :=
  if is_prefix sub s then Some 0%nat
  else match s with [] => None | _ :: r => option_map S (find_sub sub r) end.

(** [IsContainStringIgnoreCase] upper-cases two copies and then searches the
    originals. *)
Definition IsContainStringIgnoreCase (str1 str2 : list Z) : bool :=
  let s1 := ToUpper str1 in
  let s2 := ToUpper str2 in
  match find_sub str2 str1 with Some _ => true | None => false end.

(** [Replace] scans on from the end of each replacement; with an empty [from]
    every position matches and the loop never ends. *)
Fixpoint Replace_loop (fuel : nat) (s from to : list Z) : outcome (list Z) :=
  match fuel with
  | O => Diverge
  | S f =>
      match find_sub from s with
      | None => Ret s
      | Some n => let? r := Replace_loop f (drop (n + length from) s) from to in
                  Ret (take n s ++ to ++ r)
      end
  end.
Definition Replace (str from to : list Z) : outcome (list Z) :=
  Replace_loop (S (length str)) str from to.

Definition lxor_strings (ls rs : list Z) : list Z :=
  if negb (Nat.eqb (length ls) (length rs)) then ls
  else zip_with Z.lxor ls rs.

(** ** Facts about decimal text *)

Lemma digits_value_app a b acc :
  Forall (fun c => IS_DIGIT c = true) a ->
  digits_value (a ++ b) acc = digits_value b (digits_value a acc).
Proof.
  revert acc. induction a as [|c a IH]; intros acc H; [done|].
  inversion_clear H. simpl. rewrite H0. by apply IH.
Qed.

Lemma digit_IS_DIGIT d : 0 <= d < 10 -> IS_DIGIT (48 + d) = true.
Proof. intros. unfold IS_DIGIT. lia. Qed.

Lemma IS_DIGIT_range c : IS_DIGIT c = true -> 48 <= c <= 57.
Proof. unfold IS_DIGIT. lia. Qed.

Lemma dec_digits_spec fuel n acc :
  (0 < fuel)%nat -> 0 <= n < 2 ^ Z.of_nat fuel ->
  exists ds, dec_digits fuel n acc = ds ++ acc /\ ds <> [] /\
             Forall (fun c => IS_DIGIT c = true) ds /\ digits_value ds 0 = n.
Proof.
  revert n acc. induction fuel as [|f IH]; intros n acc Hf Hn; [lia|].
  pose proof (Z.mod_pos_bound n 10 ltac:(lia)) as Hm.
  pose proof (digit_IS_DIGIT _ Hm) as Hd.
  cbn [dec_digits]. destruct (Z.ltb_spec n 10) as [Hs|Hb].
  - exists [48 + n mod 10]. repeat split; [done|by repeat constructor|].
    cbn [digits_value]. rewrite Hd. rewrite Z.mod_small by lia. lia.
  - rewrite Nat2Z.inj_succ, Z.pow_succ_r in Hn by lia.
    assert (0 < f)%nat by (destruct f; [simpl in Hn; lia|lia]).
    destruct (IH (n / 10) ((48 + n mod 10) :: acc)) as (ds & E & Hne & Hall & Hv);
      [lia| |].
    { split; [apply Z.div_pos; lia|apply Z.div_lt_upper_bound; lia]. }
    exists (ds ++ [48 + n mod 10]). rewrite E, <- app_assoc. repeat split.
    + by destruct ds.
    + apply Forall_app. split; [done|by repeat constructor].
    + rewrite digits_value_app, Hv by done. cbn [digits_value]. rewrite Hd.
      pose proof (Z.div_mod n 10). lia.
Qed.

Lemma dec_spec n :
  0 <= n -> dec n <> [] /\ Forall (fun c => IS_DIGIT c = true) (dec n) /\ digits_value (dec n) 0 = n.
Proof.
  intros Hn. unfold dec.
  destruct (dec_digits_spec (S (Z.to_nat (Z.log2 n))) n []) as (ds & E & H); [lia| |].
  - pose proof (Z.log2_nonneg n). rewrite Nat2Z.inj_succ, Z2Nat.id by lia.
    destruct (Z.eq_dec n 0) as [->|]; [simpl; lia|]. pose proof (Z.log2_spec n). lia.
  - rewrite E, app_nil_r. exact H.
Qed.

(** Text that starts with a digit is not changed by the front end of [strtol]. *)
Lemma strtol_digits s :
  s <> [] -> Forall (fun c => IS_DIGIT c = true) s ->
  strtol s = Z.min (2 ^ 63 - 1) (digits_value s 0).
Proof.
  intros Hne H. destruct s as [|c s]; [done|]. inversion_clear H as [|? ? Hc _].
  apply IS_DIGIT_range in Hc. unfold strtol. cbn [skip_spaces].
  replace (isspace c) with false by (unfold isspace; lia).
  assert (c <> 45 /\ c <> 43) as [? ?] by lia.
  destruct c as [|p|]; [lia| |lia].
  do 6 (destruct p as [p|p|]; try reflexivity; try lia).
Qed.

Lemma c_str_no_nul s : Forall (fun c => c <> 0) s -> c_str s = s.
Proof.
  induction 1 as [|c s Hc _ IH]; [done|]. simpl. rewrite IH.
  by destruct (Z.eqb_spec c 0).
Qed.

Lemma ToString_no_nul n : Forall (fun c => c <> 0) (ToString n).
Proof.
  assert (forall m, 0 <= m -> Forall (fun c => c <> 0) (dec m)) as Hd.
  { intros m Hm. destruct (dec_spec m Hm) as (_ & H & _).
    eapply Forall_impl; [exact H|]. intros c Hc%IS_DIGIT_range. lia. }
  unfold ToString. destruct (Z.ltb_spec n 0); [constructor; [done|]|]; apply Hd; lia.
Qed.

Lemma ToString_chars n : Forall (fun c => IS_DIGIT c = true \/ c = 45) (ToString n).
Proof.
  assert (forall m, 0 <= m -> Forall (fun c => IS_DIGIT c = true \/ c = 45) (dec m)) as Hd.
  { intros m Hm. destruct (dec_spec m Hm) as (_ & H & _). eapply Forall_impl; [exact H|]. by left. }
  unfold ToString. destruct (Z.ltb_spec n 0); [constructor; [by right|]|]; apply Hd; lia.
Qed.

Lemma ToString_no_comma n : Forall (fun c => c <> 44) (ToString n).
Proof.
  eapply Forall_impl; [apply ToString_chars|]. intros c [Hc%IS_DIGIT_range| ->]; lia.
Qed.

Lemma ToString_bytes n : bytes_ok (ToString n).
Proof.
  eapply Forall_impl; [apply ToString_chars|]. unfold byte_ok. intros c [Hc%IS_DIGIT_range| ->]; lia.
Qed.

Lemma ToString_nonempty n : ToString n <> [].
Proof.
  unfold ToString. destruct (Z.ltb_spec n 0); [done|]. apply dec_spec. lia.
Qed.

Lemma strtol_ToString n : strtol (ToString n) = Z.max (- 2 ^ 63) (Z.min (2 ^ 63 - 1) n).
Proof.
  unfold ToString. destruct (Z.ltb_spec n 0).
  - destruct (dec_spec (- n)) as (_ & _ & Hv); [lia|].
    cbn [strtol skip_spaces isspace]. unfold strtol. simpl skip_spaces.
    cbn iota. rewrite Hv. lia.
  - destruct (dec_spec n) as (Hne & Hall & Hv); [lia|].
    rewrite strtol_digits, Hv by done. lia.
Qed.

Lemma Stol_eq s : Stol s = atol s.
Proof. unfold Stol, atol. by destruct s. Qed.

Lemma Stoi_eq s : Stoi s = atoi s.
Proof. unfold Stoi, atoi. by destruct s. Qed.

Lemma atol_ToString n : atol (ToString n) = Z.max (- 2 ^ 63) (Z.min (2 ^ 63 - 1) n).
Proof. unfold atol. rewrite c_str_no_nul by apply ToString_no_nul. apply strtol_ToString. Qed.

Lemma Stol_ToString n : - 2 ^ 63 <= n < 2 ^ 63 -> Stol (ToString n) = n.
Proof. intros. rewrite Stol_eq, atol_ToString. lia. Qed.

Lemma Stoi_ToString n : - 2 ^ 31 <= n < 2 ^ 31 -> Stoi (ToString n) = n.
Proof.
  intros. rewrite Stoi_eq. unfold atoi.
  rewrite c_str_no_nul, strtol_ToString by apply ToString_no_nul.
  rewrite swrap_small; lia.
Qed.

Lemma strtol_range s : - 2 ^ 63 <= strtol s < 2 ^ 63.
Proof.
  assert (forall l acc, 0 <= acc -> 0 <= digits_value l acc) as Hp.
  { induction l as [|c l IH]; intros acc Ha; [done|]. cbn [digits_value].
    destruct (IS_DIGIT c) eqn:E; [|done]. apply IS_DIGIT_range in E. apply IH. lia. }
  pose proof (fun l => Hp l 0 ltac:(lia)) as Hd. unfold strtol.
  repeat case_match; match goal with |- context [digits_value ?l 0] => pose proof (Hd l) end; lia.
Qed.

Lemma Stol_range s : - 2 ^ 63 <= Stol s < 2 ^ 63.
Proof. rewrite Stol_eq. apply strtol_range. Qed.

Lemma Stoi_range s : - 2 ^ 31 <= Stoi s < 2 ^ 31.
Proof. rewrite Stoi_eq. apply (swrap_range 32). lia. Qed.

(** The accumulating loops on text made of digits only. *)
Lemma Stoui_loop_digits w s used v :
  0 <= w -> Forall (fun c => IS_DIGIT c = true) s ->
  Stoui_loop w s used (wrap w v) = wrap w (digits_value s v).
Proof.
  intros Hw. revert used v. induction s as [|c s IH]; intros used v H; [done|].
  inversion_clear H as [|? ? Hc Hs]. cbn [Stoui_loop digits_value]. rewrite Hc.
  replace (wrap w (wrap w (wrap w v * 10) + (c - 48))) with (wrap w (v * 10 + (c - 48))); [by apply IH|].
  unfold wrap. rewrite (Z.mul_mod_idemp_l v), Z.add_mod_idemp_l; try done; apply Z.pow_nonzero; lia.
Qed.

Lemma Stoui_loop_range w s used v : 0 <= w -> 0 <= v < 2 ^ w -> 0 <= Stoui_loop w s used v < 2 ^ w.
Proof.
  intros Hw. revert used v. induction s as [|c s IH]; intros used v Hv; [done|].
  cbn [Stoui_loop]. case_match; [|case_match; [done|]]; apply IH; [by apply wrap_range|done].
Qed.

Lemma Stoui_loop_ToString w n : 0 <= w -> 0 <= n < 2 ^ w -> Stoui_loop w (ToString n) 0 0 = n.
Proof.
  intros Hw Hn. unfold ToString. destruct (Z.ltb_spec n 0); [lia|].
  destruct (dec_spec n) as (_ & Hall & Hv); [lia|].
  rewrite <- (wrap_small w 0) at 1 by lia. rewrite Stoui_loop_digits by done.
  rewrite Hv. by apply wrap_small.
Qed.

Lemma dec_digits_length fuel n k acc :
  0 <= n < 10 ^ Z.of_nat (S k) -> (length (dec_digits fuel n acc) <= S k + length acc)%nat.
Proof.
  revert n k acc. induction fuel as [|f IH]; intros n k acc Hn; [simpl; lia|].
  cbn [dec_digits]. destruct (Z.ltb_spec n 10); [simpl; lia|].
  destruct k as [|k]; [simpl in Hn; lia|].
  etransitivity; [apply (IH _ k)|simpl; lia].
  rewrite Nat2Z.inj_succ, Z.pow_succ_r in Hn by lia.
  split; [apply Z.div_pos; lia|apply Z.div_lt_upper_bound; lia].
Qed.

Lemma ToString_length n k :
  - 10 ^ Z.of_nat (S k) < n < 10 ^ Z.of_nat (S k) -> (length (ToString n) <= (if (n <? 0)%Z then 1 else 0) + S k)%nat.
Proof.
  intros Hn. unfold ToString, dec.
  destruct (Z.ltb_spec n 0); cbn [length];
    match goal with |- context [dec_digits ?f ?m []] => pose proof (dec_digits_length f m k []) end;
    simpl length in *; lia.
Qed.

(** The shape the four checked conversions share. *)
Section Checked.
Context (parse : list Z -> Z) (lo hi : Z) (maxlen : Z).
Context (Hrange : forall s, lo <= parse s < hi).
Context (Hround : forall n, lo <= n < hi -> parse (ToString n) = n).
Context (Hlen : forall n, lo <= n < hi -> Z.of_nat (length (ToString n)) <= maxlen).

Lemma checked_spec s n :
  (if maxlen <? Z.of_nat (length s) then None else
   let t := parse s in if bool_decide (s = ToString t) then Some t else None) = Some n
  <-> lo <= n < hi /\ s = ToString n.
Proof.
  split.
  - case_match; [done|]. cbn zeta. case_bool_decide as E; [|done].
    intros [= <-]. by split; [apply Hrange|].
  - intros [Hn ->]. specialize (Hlen n Hn).
    destruct (Z.ltb_spec maxlen (Z.of_nat (length (ToString n)))); [lia|].
    cbn zeta. rewrite Hround by done. by rewrite bool_decide_eq_true_2.
Qed.
End Checked.

(** C39. The checked conversions accept exactly the canonical decimal text of
    the numbers their type holds, and return that number: no overflow,
    padding, sign or trailing garbage gets through. *)
Theorem SafeSto_exact s n :
  (SafeStoi s = Some n <-> - 2 ^ 31 <= n < 2 ^ 31 /\ s = ToString n) /\
  (SafeStoui s = Some n <-> 0 <= n < 2 ^ 32 /\ s = ToString n) /\
  (SafeStoi64 s = Some n <-> - 2 ^ 63 <= n < 2 ^ 63 /\ s = ToString n) /\
  (SafeStoui64 s = Some n <-> 0 <= n < 2 ^ 64 /\ s = ToString n).
Proof.
  split; [|split; [|split]].
  - apply (checked_spec Stoi); [apply Stoi_range|apply Stoi_ToString|].
    intros m Hm. pose proof (ToString_length m 9). simpl in *. case_match; lia.
  - apply (checked_spec Stoui); [intros; apply Stoui_loop_range; lia| |].
    + intros m Hm. apply Stoui_loop_ToString; lia.
    + intros m Hm. pose proof (ToString_length m 9). simpl in *. destruct (Z.ltb_spec m 0); lia.
  - assert (forall t, Stoi64 t = Stol t) as E by done.
    apply (checked_spec Stoi64); [intros; apply Stol_range|intros; rewrite E; by apply Stol_ToString|].
    intros m Hm. pose proof (ToString_length m 18). simpl in *. case_match; lia.
  - assert (forall t, wrap 64 (Stoui64 t) = Stoui_loop 64 t 0 0) as E.
    { intros t. unfold Stoui64, swrap, wrap.
      pose proof (Stoui_loop_range 64 t 0 0 ltac:(lia) ltac:(lia)).
      rewrite Zminus_mod_idemp_l. rewrite Z.add_simpl_r. by apply Z.mod_small. }
    apply (checked_spec (fun t => wrap 64 (Stoui64 t))).
    + intros. rewrite E. apply Stoui_loop_range; lia.
    + intros m Hm. rewrite E. apply Stoui_loop_ToString; lia.
    + intros m Hm. pose proof (ToString_length m 19). simpl in *. destruct (Z.ltb_spec m 0); lia.
Qed.

(** ** Facts about the tokenisers *)

(** Pieces put back together with one separator character between them. *)
Fixpoint join (d : Z) (l : list (list Z)) : list Z :=
  match l with
  | [] => []
  | [p] => p
  | p :: r => p ++ d :: join d r
  end.

Lemma join_cons d p l : l <> [] -> join d (p :: l) = p ++ d :: join d l.
Proof. by destruct l. Qed.

Lemma split_from_nonempty delim s cur : split_from delim s cur <> [].
Proof. revert cur. induction s; intros cur; simpl; [done|]. by case_bool_decide. Qed.

Lemma split_from_join d s cur : join d (split_from [d] s cur) = cur ++ s.
Proof.
  revert cur. induction s as [|c s IH]; intros cur; [by rewrite app_nil_r|].
  cbn [split_from]. case_bool_decide as E.
  - apply list_elem_of_singleton in E as ->. rewrite join_cons by apply split_from_nonempty.
    by rewrite IH.
  - by rewrite IH, <- app_assoc.
Qed.

Lemma split_from_no_delim delim s cur :
  Forall (fun c => c ∉ delim) cur ->
  Forall (Forall (fun c => c ∉ delim)) (split_from delim s cur).
Proof.
  revert cur. induction s as [|c s IH]; intros cur Hc; [by repeat constructor|].
  cbn [split_from]. case_bool_decide as E; [constructor; [done|]; by apply IH|].
  apply IH, Forall_app. by repeat constructor.
Qed.

(** [split] at one character loses nothing and leaves no separator: the
    pieces are free of it and joining them gives the text back. *)
Theorem split_join s d :
  join d (split s [d]) = s /\ Forall (Forall (fun c => c <> d)) (split s [d]).
Proof.
  split; [apply split_from_join|].
  eapply Forall_impl; [apply (split_from_no_delim [d]); constructor|].
  intros p Hp. eapply Forall_impl; [exact Hp|]. set_solver.
Qed.

(** Cutting pieces that were glued gives them back. *)
Lemma split_from_piece d p s cur : Forall (fun c => c <> d) p -> split_from [d] (p ++ s) cur = split_from [d] s (cur ++ p).
Proof.
  intros Hp. revert cur. induction Hp as [|c p Hc Hp IH]; intros cur; cbn; [by rewrite app_nil_r|].
  rewrite bool_decide_false by set_solver. by rewrite IH, <- app_assoc.
Qed.
Lemma split_cons d p s : Forall (fun c => c <> d) p -> split (p ++ d :: s) [d] = p :: split s [d].
Proof. intros Hp. unfold split. rewrite split_from_piece by done. cbn [split_from]. by rewrite bool_decide_true by set_solver. Qed.
Lemma split_glue d l : l <> [] -> Forall (Forall (fun c => c <> d)) l -> split (join d l) [d] = l.
Proof.
  intros Hn Hl. induction Hl as [|p l Hp Hl IH]; [done|]. destruct l as [|q l].
  - cbn [join]. unfold split. rewrite <- (app_nil_r p) at 1. by rewrite split_from_piece.
  - rewrite join_cons, split_cons by done. f_equal. by apply IH.
Qed.

Lemma getline_from_app sep p s cur :
  Forall (fun c => c <> sep) p -> getline_from sep (p ++ s) cur = getline_from sep s (cur ++ p).
Proof.
  intros H. revert cur. induction H as [|c p Hc Hp IH]; intros cur; simpl; [by rewrite app_nil_r|].
  destruct (Z.eqb_spec c sep); [done|]. by rewrite IH, <- app_assoc.
Qed.

(** The loop over [getline] recovers pieces joined by the separator, when the
    last piece is not empty. *)
Lemma getline_all_join sep l :
  Forall (Forall (fun c => c <> sep)) l -> last l <> Some [] -> getline_all sep (join sep l) = l.
Proof.
  unfold getline_all. induction 1 as [|p l Hp Hl IH]; [done|]. intros Hlast.
  destruct l as [|q l].
  - simpl. rewrite <- (app_nil_r p) at 1. rewrite getline_from_app by done. simpl.
    by destruct p.
  - rewrite join_cons by done. rewrite getline_from_app by done. cbn [getline_from].
    rewrite Z.eqb_refl. f_equal. by apply IH.
Qed.

(** A piece without the separator is taken up whole. *)
Lemma Strtok_from_free d p s cur : Forall (fun c => c <> d) p -> Strtok_from d (p ++ s) cur = Strtok_from d s (cur ++ p).
Proof.
  intros Hp. revert cur. induction Hp as [|c p Hc Hp IH]; intros cur; cbn; [by rewrite app_nil_r|].
  destruct (Z.eqb_spec c d); [done|]. by rewrite IH, <- app_assoc.
Qed.

(** [Strtok] at a character: no piece contains the separator, and every
    piece but the last is non-empty. *)
Lemma Strtok_from_pieces d s cur :
  Forall (fun c => c <> d) cur ->
  exists init lst, Strtok_from d s cur = init ++ [lst] /\
    Forall (fun p => p <> [] /\ Forall (fun c => c <> d) p) init /\ Forall (fun c => c <> d) lst.
Proof.
  revert cur. induction s as [|c s IH]; intros cur Hc.
  { exists [], cur. by repeat split. }
  cbn [Strtok_from]. destruct (Z.eqb_spec c d).
  - destruct (IH [] ltac:(constructor)) as (init & lst & E & Hi & Hl). destruct cur as [|a cur].
    + by exists init, lst.
    + exists ((a :: cur) :: init), lst. rewrite E. repeat split; [|done]. by constructor.
  - apply IH, Forall_app. by repeat constructor.
Qed.

Lemma find_sub_bound sub s n : find_sub sub s = Some n -> (n + length sub <= length s)%nat.
Proof.
  assert (forall p t, is_prefix p t = true -> (length p <= length t)%nat) as Hp.
  { induction p as [|a p IH]; intros [|b t] H; simpl in *; try lia; try done.
    apply andb_true_iff in H as [_ H%IH]. lia. }
  revert n. induction s as [|c s IH]; intros n; cbn [find_sub].
  - destruct (is_prefix sub []) eqn:E; [|done]. intros [= <-]. apply Hp in E. simpl in *. lia.
  - destruct (is_prefix sub (c :: s)) eqn:E.
    + intros [= <-]. apply Hp in E. simpl in *. lia.
    + destruct (find_sub sub s) as [m|]; simpl; [|done]. intros [= <-].
      specialize (IH m eq_refl). lia.
Qed.

(** Replacing a non-empty pattern ends, after at most one round for each
    character, with a result that more rounds do not change; replacing the empty
    pattern never ends, whatever the text and the replacement. *)
Theorem Replace_ends str from to :
  match from with
  | [] => forall fuel, Replace_loop fuel str from to = Diverge
  | _ :: _ => exists r, Replace str from to = Ret r /\
      forall fuel, (length str < fuel)%nat -> Replace_loop fuel str from to = Ret r
  end.
Proof.
  destruct from as [|c from].
  - intros fuel. revert str. induction fuel as [|f IH]; intros str; [done|]. cbn [Replace_loop].
    replace (find_sub [] str) with (Some 0%nat) by (by destruct str). cbn [length Nat.add drop]. by rewrite IH.
  - enough (exists r, forall fuel, (length str < fuel)%nat -> Replace_loop fuel str (c :: from) to = Ret r) as [r Hr].
    { exists r. split; [apply Hr; lia|exact Hr]. }
    induction str as [str IH] using (induction_ltof1 _ (@length Z)).
    destruct (find_sub (c :: from) str) as [n|] eqn:E.
    + pose proof (find_sub_bound _ _ _ E) as Hb. cbn [length] in Hb.
      destruct (IH (drop (n + length (c :: from)) str)) as [r Hr]; [unfold ltof; rewrite length_drop; cbn [length]; lia|].
      exists (take n str ++ to ++ r). intros [|f] Hf; [lia|]. cbn [Replace_loop]. rewrite E.
      rewrite Hr by (rewrite length_drop; cbn [length]; lia). done.
    + exists str. intros [|f] Hf; [lia|]. cbn [Replace_loop]. by rewrite E.
Qed.

Lemma Replace_ends_witness : (exists r, Replace [97; 98; 97] [97] [99] = Ret r) /\ Replace_loop 9 [97] [] [99] = Diverge.
Proof.
  split.
  - destruct (Replace_ends [97; 98; 97] [97] [99]) as (r & Hr & _). exists r. exact Hr.
  - exact (Replace_ends [97] [] [99] 9%nat).
Defined.

(** Replacing one character by another turns it wherever it is. *)
Definition turn (a b c : Z) : Z := if c =? a then b else c.
Lemma find_sub_single c s : match find_sub [c] s with
  | Some n => exists r, s = take n s ++ c :: r /\ drop (n + 1) s = r /\ c ∉ take n s
  | None => c ∉ s
  end.
Proof.
  induction s as [|a s IH]; cbn; [apply not_elem_of_nil|]. destruct (Z.eqb_spec c a) as [<-|Hne]; cbn.
  - exists s. split; [done|]. split; [done|]. apply not_elem_of_nil.
  - destruct (find_sub [c] s) as [n|]; cbn.
    + destruct IH as (r & E & Ed & Hin). exists r. split; [by rewrite <- E|]. split; [done|]. rewrite elem_of_cons. tauto.
    + rewrite elem_of_cons. tauto.
Qed.
Lemma map_turn_id a b s : a ∉ s -> map (turn a b) s = s.
Proof.
  induction s as [|c s IH]; [done|]. rewrite elem_of_cons. intros Hin. cbn. rewrite IH by tauto. unfold turn.
  destruct (Z.eqb_spec c a); naive_solver.
Qed.
Lemma Replace_char a b s : Replace s [a] [b] = Ret (map (turn a b) s).
Proof.
  unfold Replace. assert (forall f s, (length s < f)%nat -> Replace_loop f s [a] [b] = Ret (map (turn a b) s)) as H; [|apply H; lia].
  clear s. induction f as [|f IH]; intros s Hs; [lia|]. cbn [Replace_loop]. pose proof (find_sub_single a s) as Hf.
  destruct (find_sub [a] s) as [n|]; [|by rewrite map_turn_id].
  destruct Hf as (r & E & Ed & Hin). change (length [a]) with 1%nat. rewrite Ed, IH.
  - cbn [obind]. f_equal. transitivity (map (turn a b) (take n s ++ a :: r)); [|by rewrite <- E].
    rewrite map_app, (map_turn_id a b (take n s)) by done. cbn [map].
    by assert (turn a b a = b) as -> by (unfold turn; by rewrite Z.eqb_refl).
  - rewrite E, length_app in Hs. cbn in Hs. lia.
Qed.

(** ** Bracketed lists

    [s.substr(1, s.size() - 2)] cut at the commas by [getline]: [substr] throws
    when its start is past the end. *)
Definition bracket_items (s : list Z) : outcome (list (list Z)) :=
  match s with
  | [] => Throw
  | _ :: r => Ret (getline_all 44 (take (length s - 2) r))
  end.

(** The text of a bracketed list, and that it is read back. *)
Definition bracket (l : list (list Z)) : list Z := 91 :: join 44 l ++ [93].

Lemma bracket_items_bracket l :
  Forall (Forall (fun c => c <> 44)) l -> last l <> Some [] -> bracket_items (bracket l) = Ret l.
Proof.
  intros Hl Hlast. unfold bracket_items, bracket. f_equal.
  cbn [length]. rewrite length_app. cbn [length].
  replace (S (length (join 44 l) + 1) - 2)%nat with (length (join 44 l)) by lia.
  rewrite take_app_length. by apply getline_all_join.
Qed.

(** The pieces of a text hold no characters it does not hold, and are no longer. *)
Lemma getline_from_pieces (P : Z -> Prop) sep s cur p :
  Forall P s -> Forall P cur -> p ∈ getline_from sep s cur ->
  Forall P p /\ (length p <= length cur + length s)%nat.
Proof.
  intros Hs. revert cur. induction Hs as [|c s Hc Hs IH]; intros cur Hcur Hp; cbn [getline_from] in Hp.
  - destruct cur; [by apply elem_of_nil in Hp|]. apply list_elem_of_singleton in Hp as ->. split; [done|lia].
  - destruct (c =? sep).
    + apply elem_of_cons in Hp as [->|Hp]; [split; [done|lia]|].
      apply IH in Hp as [? ?]; [|constructor]. split; [done|simpl in *; lia].
    + apply IH in Hp as [? ?]; [|apply Forall_app; by repeat constructor].
      split; [done|]. rewrite length_app in *. simpl in *. lia.
Qed.

Lemma bracket_items_pieces (P : Z -> Prop) s l p :
  Forall P s -> bracket_items s = Ret l -> p ∈ l -> Forall P p /\ (length p <= length s)%nat.
Proof.
  intros Hs E Hp. destruct Hs as [|c s Hc Hs]; [done|]. injection E as <-.
  apply (getline_from_pieces P) in Hp as [? Hl]; [|by apply Forall_take|constructor].
  split; [done|]. rewrite length_take in Hl. simpl in *. lia.
Qed.
