(* ===== verification/Text.v ===== *)
(** The rest of the text helpers of [src/utils/strings.h]: numbers with a
    decimal point, the classification of numbers, tokens cut at a string,
    attribute lists, addresses of the web, comparison under a mask.  Positions
    are the code's [size_t] with its [npos]. *)

From S2P Require Import Prelude Hex Strings.

(** ** [std::string] by position *)
Definition npos : Z := 2 ^ 64 - 1.
Definition size (s : list Z) : Z := Z.of_nat (length s).

(** [s.find(sub, pos)]. *)
Definition find (sub s : list Z) (pos : Z) : Z :=
  if size s <? pos then npos
  else match find_sub sub (drop (Z.to_nat pos) s) with Some n => pos + Z.of_nat n | None => npos end.

(** [s.substr(pos, n)], [s.erase(pos, n)] and [s.insert(pos, t)] where [pos] is
    at most the size. *)
Definition substr (s : list Z) (pos n : Z) : list Z := take (Z.to_nat (Z.min n (size s))) (drop (Z.to_nat pos) s).
Definition erase (s : list Z) (pos n : Z) : list Z :=
  take (Z.to_nat pos) s ++ drop (Z.to_nat (Z.min (pos + n) (size s))) s.
Definition insert_at (s : list Z) (pos : Z) (t : list Z) : list Z :=
  take (Z.to_nat pos) s ++ t ++ drop (Z.to_nat pos) s.
(** [s[i]], which is NUL at the size. *)
Definition char_at (s : list Z) (i : Z) : Z := nth (Z.to_nat i) s 0.

(** [s.rfind(c, pos)]: the last place at most [pos]. *)
Fixpoint rfind_from (c : Z) (s : list Z) (n : nat) : Z :=
  if char_at s (Z.of_nat n) =? c then Z.of_nat n
  else match n with O => npos | S m => rfind_from c s m end.
Definition rfind (c : Z) (s : list Z) (pos : Z) : Z :=
  match s with [] => npos | _ => rfind_from c s (Z.to_nat (Z.min pos (size s - 1))) end.

(** ** Numbers with a decimal point *)
Section Format.
Context (decimal : Z).

(** The loop of [FormatDecimal] over the digits from the last one. *)
Fixpoint format_digits (i : Z) (rest : list Z) (zero_not_show : bool) (result_decimal : list Z) : list Z :=
  match rest with
  | [] => result_decimal
  | c :: rest =>
      let zero_not_show := if negb (c =? 48) then false else zero_not_show in
      let result_decimal :=
        if i <? decimal then
          if negb (c =? 48) || negb zero_not_show then result_decimal ++ [c] else result_decimal
        else if i =? decimal then
          (if 0 <? size result_decimal then result_decimal ++ [46] else result_decimal) ++ [c]
        else result_decimal ++ [c] in
      format_digits (i + 1) rest zero_not_show result_decimal
  end.
Definition FormatDecimal (number : Z) : list Z :=
  let result := ToString number in
  let result := if size result <=? decimal then replicate (Z.to_nat (decimal - size result + 1)) 48 ++ result else result in
  rev (format_digits 0 (rev result) true []).
End Format.

(** The count of the zeros at the front. *)
Fixpoint zeros (s : list Z) : Z := match s with c :: r => if c =? 48 then 1 + zeros r else 0 | [] => 0 end.

Definition MultiplyDecimal (value : list Z) (decimals : Z) : list Z :=
  let dot_pos := find [46] value 0 in
  let value :=
    if dot_pos =? npos then value ++ replicate (Z.to_nat decimals) 48
    else
      let right := size value - dot_pos - 1 in
      if right <=? decimals then erase value dot_pos 1 ++ replicate (Z.to_nat (decimals - right)) 48
      else insert_at (erase value dot_pos 1) (dot_pos + decimals) [46] in
  let i := zeros value in
  (* [i] is a [size_t]: below zero it is [npos], and everything is erased *)
  let i := if char_at value i =? 46 then wrap 64 (i - 1) else i in
  erase value 0 i.

Section IsDec.
Context (value : list Z) (decimal : Z).
Fixpoint dec_scan (i : Z) (rest : list Z) (dot_pos : Z) : option Z :=
  match rest with
  | [] => Some dot_pos
  | c :: rest =>
      if negb (IS_DIGIT c) && negb (c =? 46) then None
      else if c =? 46 then if dot_pos =? npos then dec_scan (i + 1) rest i else None
      else dec_scan (i + 1) rest dot_pos
  end.
(** The count of leading zeros is computed and not used. *)
Definition IsDecNumber : bool :=
  match value with
  | [] => false
  | _ =>
      if char_at value (size value - 1) =? 46 then false
      else match dec_scan 0 value npos with
           | None => false
           | Some dot_pos =>
               let leading_zero := char_at value 0 =? 48 in
               if (leading_zero && negb (dot_pos =? 1)) && negb (bool_decide (value = [48])) then false
               else if negb (dot_pos =? npos) && (decimal <? size value - dot_pos - 1) then false
               else true
           end
  end.
End IsDec.

(** [IsNumber]: 1 for an integer, 2 for a hexadecimal one, 3 with a point. *)
Definition IS_BLANK (c : Z) : bool := (c =? 32) || (c =? 9).
Definition IS_HEX_DIGIT (c : Z) : bool := ((65 <=? c) && (c <=? 70)) || ((97 <=? c) && (c <=? 102)).
Fixpoint skip_while (f : Z -> bool) (s : list Z) : list Z :=
  match s with c :: r => if f c then skip_while f r else s | [] => [] end.
Definition first (s : list Z) : Z := hd 0 s.

(** What follows the blanks and the sign. *)
Definition IsNumber_from (ptr : list Z) : Z :=
  if IS_DIGIT (first ptr) || (first ptr =? 46) then
    let hex := (first ptr =? 48) && ((first (tl ptr) =? 120) || (first (tl ptr) =? 88)) in
    let ptr :=
      if negb (first ptr =? 46) then
        let ptr := if hex then tl (tl ptr) else ptr in
        let ptr := skip_while (fun c => c =? 48) ptr in
        skip_while (fun c => IS_DIGIT c || (hex && IS_HEX_DIGIT c)) ptr
      else ptr in
    let dot := negb hex && (first ptr =? 46) in
    let ptr := if dot then skip_while IS_DIGIT (tl ptr) else ptr in
    match ptr with
    | [] => if dot then 3 else if hex then 2 else 1
    | _ => 0
    end
  else 0.
Definition IsNumber (str : list Z) : Z :=
  match str with
  | [] => 0
  | _ =>
      let ptr := skip_while IS_BLANK (c_str str) in
      IsNumber_from (if (first ptr =? 45) || (first ptr =? 43) then tl ptr else ptr)
  end.

(** ** Addresses of the web *)

(** [isalnum] of the C locale, on a [char]. *)
Definition isalnum (c : Z) : bool := IS_DIGIT c || CharIsLetter c.

(** The first place from [pos] on that holds a [/], or the end. *)
Definition next_slash (s : list Z) (pos : Z) : Z :=
  if pos <? size s
  then pos + (size (drop (Z.to_nat pos) s) - size (skip_while (fun c => negb (c =? 47)) (drop (Z.to_nat pos) s)))
  else pos.

(** A loop of [NormalizeUrlPath]: while the pattern is found before the query
    and the anchor, what [cut] says is taken out there. *)
Section Squeeze.
Context (pat : list Z) (cut : list Z -> Z -> list Z) (nValidPos : Z).
Definition mark_in (strPath : list Z) : bool :=
  let nMarkPos := find pat strPath nValidPos in
  negb (nMarkPos =? npos) && ((nMarkPos <? find [63] strPath 0) && (nMarkPos <? find [35] strPath 0)).
Fixpoint squeeze (fuel : nat) (strPath : list Z) (nCount : Z) : outcome (list Z * Z) :=
  if mark_in strPath then
    match fuel with
    | O => Diverge
    | S f => squeeze f (cut strPath (find pat strPath nValidPos)) (nCount + 1)
    end
  else Ret (strPath, nCount).
End Squeeze.

(** Where the segment before [/../] begins. *)
Fixpoint back_to_slash (s : list Z) (lo : Z) (n : nat) : Z :=
  let p := Z.of_nat n in
  if (lo <? p) && negb (char_at s p =? 47)
  then match n with O => p | S m => back_to_slash s lo m end
  else p.
Definition cut_parent (nValidPos : Z) (strPath : list Z) (nMarkPos : Z) : list Z :=
  let nEndPos := nMarkPos + 4 in
  let nBeginPos := if nValidPos <? nMarkPos then nMarkPos - 1 else nValidPos in
  let nBeginPos := back_to_slash strPath nValidPos (Z.to_nat nBeginPos) in
  erase strPath nBeginPos (nEndPos - nBeginPos - 1).

Definition NormalizeUrlPath (strPath : list Z) : outcome (list Z * Z) :=
  let nNameEndPos := find [63] strPath 0 in
  let nAnchorPos := find [35] strPath 0 in
  let nProtocolPos := find (to_bytes "://") strPath 0 in
  let nProtocolPos :=
    if (nNameEndPos <? nProtocolPos) || (nAnchorPos <? nProtocolPos) then npos else nProtocolPos in
  (* a protocol that is not found is [npos], which is above 0 *)
  let nValidPos := if 0 <? nProtocolPos then next_slash strPath (wrap 64 (nProtocolPos + 3)) else 0 in
  let '(strPath, nValidPos) :=
    if (nNameEndPos <? nValidPos) && negb (nProtocolPos =? npos) then
      (take (Z.to_nat nNameEndPos) strPath ++ [47] ++ drop (Z.to_nat nNameEndPos) strPath, nNameEndPos)
    else (strPath, nValidPos) in
  let fuel := length strPath in
  let? r := squeeze (to_bytes "/./") (fun s p => erase s p 2) nValidPos fuel strPath 0 in
  let? r := squeeze (to_bytes "//") (fun s p => erase s p 1) nValidPos fuel r.1 r.2 in
  squeeze (to_bytes "/../") (cut_parent nValidPos) nValidPos fuel r.1 r.2.

Record Url := mkUrl {
  strProtocol : list Z; strHost : list Z; nPort : Z; strPath : list Z; strFile : list Z
}.

Definition ParseUrl (strUrl : list Z) : outcome Url :=
  let nProtocolPos := find [58] strUrl 0 in
  let '(protocol, nHostPos) :=
    if negb (nProtocolPos =? npos) && forallb isalnum (take (Z.to_nat nProtocolPos) strUrl) then
      let nHostPos := nProtocolPos + 1 in
      let rest := drop (Z.to_nat nHostPos) strUrl in
      (ToLower (take (Z.to_nat nProtocolPos) strUrl),
       nHostPos + (size rest - size (skip_while (fun c => c =? 47) rest)))
    else ([], 0) in
  let nMayIpv6HostEnd := find [93] strUrl nHostPos in
  let nPortFindPos := if nMayIpv6HostEnd =? npos then nHostPos else nMayIpv6HostEnd in
  let nPortPos := find [58] strUrl nPortFindPos in
  let nPathPos := find [47] strUrl nHostPos in
  let nPortPos := if nPathPos <? nPortPos then npos else nPortPos in
  let '(host, port) :=
    if negb (nPortPos =? npos) then
      (substr strUrl nHostPos (nPortPos - nHostPos), wrap 16 (Stoui (drop (Z.to_nat (nPortPos + 1)) strUrl)))
    else ([], 0) in
  let '(file, host) :=
    if nPathPos =? npos then
      ([47], match host with [] => drop (Z.to_nat nHostPos) strUrl | _ => host end)
    else
      (drop (Z.to_nat nPathPos) strUrl,
       match host with [] => substr strUrl nHostPos (nPathPos - nHostPos) | _ => host end) in
  let nFilePos := rfind 47 file (find [63] file 0) in
  let path := if (nFilePos =? npos) || (nFilePos =? 0) then [47] else take (Z.to_nat nFilePos) file in
  let path := if (size path =? 0) || negb (char_at path (size path - 1) =? 47) then path ++ [47] else path in
  let? p := NormalizeUrlPath path in
  let? f := NormalizeUrlPath file in
  Ret (mkUrl protocol host port p.1 f.1).

(** ** Tokens cut at a string, and attribute lists, of texts an [int] can index *)
Section Strtok.
Context (content key : list Z) (max_items : Z) (ignore_empty : bool) (end_pos : Z).
Fixpoint Strtok_loop (fuel : nat) (start_pos item_count : Z) (values : list (list Z)) : outcome (list (list Z)) :=
  if start_pos <? end_pos then
    match fuel with
    | O => Diverge
    | S f =>
        let find_pos := find (c_str key) content start_pos in
        let find_pos :=
          if (find_pos =? npos) || (end_pos <=? find_pos) || ((0 <? max_items) && (item_count =? max_items - 1))
          then end_pos else find_pos in
        (* [find_pos] is never before [start_pos] *)
        let taken := (start_pos <? find_pos) || negb ignore_empty in
        let values := if taken then values ++ [substr content start_pos (find_pos - start_pos)] else values in
        Strtok_loop f (find_pos + size key) (if taken then item_count + 1 else item_count) values
    end
  else Ret values.
End Strtok.
Definition Strtok_key (content key : list Z) (max_items : Z) (ignore_empty : bool) (content_len : Z) :
    outcome (Z * list (list Z)) :=
  let end_pos := if content_len =? npos then size content else content_len in
  match key with
  | [] => Ret (0, [])
  | _ =>
      let end_pos := if (end_pos <=? 0) || (size content <=? end_pos) then size content else end_pos in
      let? values := Strtok_loop content key max_items ignore_empty end_pos (S (length content)) 0 0 [] in
      Ret (Z.of_nat (length values), values)
  end.

Section Attributes.
Context (value_key : list Z) (key_low_case trim_key trim_value : bool).
Definition Parse_part (strPartValue : list Z) (attrs : gmap (list Z) (list Z)) : outcome (Z * gmap (list Z) (list Z)) :=
  let? part_values := Strtok_key strPartValue value_key 2 false npos in
  match part_values.2 with
  | [] => Ret (0, attrs)
  | front :: rest =>
      let front := if key_low_case then ToLower front else front in
      let front := if trim_key then Trim front else front in
      let value := match rest with [] => [] | v :: _ => if trim_value then Trim v else v end in
      Ret (1, <[front := value]> attrs)
  end.
Fixpoint Parse_parts (parts : list (list Z)) (lines : Z) (attrs : gmap (list Z) (list Z)) :
    outcome (Z * gmap (list Z) (list Z)) :=
  match parts with
  | [] => Ret (lines, attrs)
  | p :: r => let? x := Parse_part p attrs in Parse_parts r (lines + x.1) x.2
  end.
Definition ParseAttributes (content : list Z) (attrs : gmap (list Z) (list Z)) (sep_key : list Z) :
    outcome (Z * gmap (list Z) (list Z)) :=
  let? parts := Strtok_key content sep_key (-1) false npos in
  Parse_parts parts.2 0 attrs.
End Attributes.

(** ** Comparison under a mask, hexadecimal numbers *)

(** [std::string]'s order: by the bytes, a prefix first. *)
Fixpoint bytes_ltb (v1 v2 : list Z) : bool :=
  match v1, v2 with
  | [], [] => false
  | [], _ :: _ => true
  | _ :: _, [] => false
  | a :: r1, b :: r2 => if a <? b then true else if a =? b then bytes_ltb r1 r2 else false
  end.
Definition LessThanXored (l r x : list Z) : bool :=
  if negb (size l =? size r) || negb (size r =? size x) then false
  else bytes_ltb (zip_with Z.lxor x l) (zip_with Z.lxor x r).

Definition hex_char_value (c : Z) : option Z :=
  if IS_DIGIT c then Some (c - 48)
  else if (65 <=? c) && (c <=? 70) then Some (c - 55)
  else if (97 <=? c) && (c <=? 102) then Some (c - 87) else None.
(** The value of the hexadecimal digits at the front, and what follows them. *)
Fixpoint hex_digits (s : list Z) (acc : Z) : Z * list Z :=
  match s with
  | c :: r => match hex_char_value c with Some v => hex_digits r (acc * 16 + v) | None => (acc, s) end
  | [] => (acc, [])
  end.
Definition is_hex (s : list Z) : bool := match s with c :: _ => match hex_char_value c with Some _ => true | None => false end | [] => false end.
(** [strtol] in base 16: the value and where it stopped, which is the start of
    the text when there is no number. *)
Definition strtol16 (input : list Z) : Z * list Z :=
  let s := skip_spaces input in
  let '(neg, s) := match s with c :: r => if c =? 45 then (true, r) else if c =? 43 then (false, r) else (false, s) | [] => (false, []) end in
  let s := match s with
           | c :: x :: r => if (c =? 48) && ((x =? 120) || (x =? 88)) && is_hex r then r else s
           | _ => s
           end in
  if is_hex s then
    let '(v, rest) := hex_digits s 0 in
    (Z.max (- 2 ^ 63) (Z.min (2 ^ 63 - 1) (if neg : bool then - v else v)), rest)
  else (0, input).
Definition StrHexToLong (input : list Z) : Z :=
  let '(n, p) := strtol16 (c_str input) in
  match p with [] => n | _ => 0 end.

(** [%02x] of the first bytes. *)
Definition Bin4ToHexString (value : list Z) : list Z := BinToHexString (take 4 value).
Definition Bin2ToHexString (value : list Z) : list Z := BinToHexString (take 2 value).

(** ** Decimal text: multiplying gives back the number that was formatted *)
Notation digits := (Forall (fun c => IS_DIGIT c = true)).

Lemma size_app a b : size (a ++ b) = size a + size b.
Proof. unfold size. rewrite length_app. lia. Qed.
Lemma size_cons c s : size (c :: s) = size s + 1.
Proof. unfold size. cbn [length]. lia. Qed.
Lemma size_replicate n c : 0 <= n -> size (replicate (Z.to_nat n) c) = n.
Proof. intros. unfold size. rewrite length_replicate. lia. Qed.
Lemma size_nonneg s : 0 <= size s.
Proof. unfold size. lia. Qed.
Lemma drop_size a b : drop (Z.to_nat (size a)) (a ++ b) = b.
Proof. unfold size. rewrite Nat2Z.id. apply drop_app_length. Qed.
Lemma take_size a b : take (Z.to_nat (size a)) (a ++ b) = a.
Proof. unfold size. rewrite Nat2Z.id. apply take_app_length. Qed.
Lemma char_at_app a c b : char_at (a ++ c :: b) (size a) = c.
Proof. unfold char_at, size. rewrite Nat2Z.id. by rewrite nth_middle. Qed.

(** The loop beyond the point, at the point, and before it. *)
Lemma format_beyond d i rest z acc : d < i -> format_digits d i rest z acc = acc ++ rest.
Proof.
  revert i z acc. induction rest as [|c r IH]; intros i z acc Hi; cbn [format_digits]; [by rewrite app_nil_r|].
  destruct (Z.ltb_spec i d); [lia|]. destruct (Z.eqb_spec i d); [lia|]. rewrite IH by lia. by rewrite <- app_assoc.
Qed.
Lemma format_point d a z acc : a <> [] ->
  format_digits d d a z acc = acc ++ (if 0 <? size acc then [46] else []) ++ a.
Proof.
  destruct a as [|c r]; [done|]. intros _. cbn [format_digits]. rewrite Z.ltb_irrefl, Z.eqb_refl, format_beyond by lia.
  by destruct (0 <? size acc); rewrite <- !app_assoc.
Qed.
Lemma format_shown d i b a acc : i + size b = d ->
  format_digits d i (b ++ a) false acc = format_digits d d a false (acc ++ b).
Proof.
  revert i acc. induction b as [|c b IH]; intros i acc Hi.
  - rewrite app_nil_r. cbn [app]. f_equal. unfold size in Hi. cbn [length] in Hi. lia.
  - rewrite size_cons in Hi. pose proof (size_nonneg b). cbn [app format_digits].
    replace (if negb (c =? 48) then false else false) with false by (by destruct (c =? 48)).
    destruct (Z.ltb_spec i d); [|lia]. rewrite orb_true_r. rewrite IH by lia. by rewrite <- app_assoc.
Qed.
Lemma format_before d i b a : i + size b = d -> exists z,
  format_digits d i (b ++ a) true [] = format_digits d d a z (skip_while (fun c => c =? 48) b).
Proof.
  revert i. induction b as [|c b IH]; intros i Hi.
  - exists true. cbn [app skip_while]. f_equal. unfold size in Hi. cbn [length] in Hi. lia.
  - rewrite size_cons in Hi. pose proof (size_nonneg b). cbn [app format_digits skip_while].
    destruct (Z.ltb_spec i d); [|lia]. destruct (Z.eqb_spec c 48); cbn [negb orb].
    + apply IH. lia.
    + exists false. by rewrite (format_shown d (i + 1) b a [c]) by lia.
Qed.

(** A point and the decimals, if there are any. *)
Definition fraction (t : list Z) : list Z := match t with [] => [] | c :: r => 46 :: c :: r end.

(** What formatting makes of the whole part [a] and the decimals [b]. *)
Definition stripped (b : list Z) : list Z := rev (skip_while (fun c => c =? 48) (rev b)).
Lemma format_parts d a b : a <> [] -> size b = d ->
  rev (format_digits d 0 (rev (a ++ b)) true []) = a ++ fraction (stripped b).
Proof.
  intros Ha Hb. rewrite rev_app_distr. destruct (format_before d 0 (rev b) (rev a)) as [z ->].
  { unfold size in *. rewrite length_rev. lia. }
  rewrite format_point by (intros E; apply (f_equal (@rev Z)) in E; rewrite rev_involutive in E; done).
  rewrite !rev_app_distr, rev_involutive, <- app_assoc. f_equal. unfold stripped.
  destruct (skip_while _ _) as [|c r] eqn:E; [done|]. rewrite size_cons. pose proof (size_nonneg r).
  replace (0 <? size r + 1) with true by lia. cbn [rev app]. destruct (rev r); done.
Qed.

Lemma skip_zeros s : exists k, s = replicate k 48 ++ skip_while (fun c => c =? 48) s /\
  first (skip_while (fun c => c =? 48) s) <> 48.
Proof.
  induction s as [|c s (k & E & Hh)]; cbn [skip_while].
  { exists 0%nat. split; [done|]. unfold first. cbn. lia. }
  destruct (Z.eqb_spec c 48) as [->|Hc].
  - exists (S k). split; [|exact Hh]. cbn [replicate app]. by f_equal.
  - exists 0%nat. done.
Qed.
Lemma rev_zeros k : rev (replicate k 48) = replicate k 48.
Proof. rewrite rev_alt. apply (reverse_replicate k 48). Qed.
Lemma stripped_zeros b : exists k, b = stripped b ++ replicate k 48 /\ last (stripped b) <> Some 48.
Proof.
  destruct (skip_zeros (rev b)) as (k & E & Hh). exists k. unfold stripped. split.
  - rewrite <- (rev_involutive b) at 1. rewrite E at 1. by rewrite rev_app_distr, rev_zeros.
  - destruct (skip_while _ _) as [|c r]; [done|]. unfold first in Hh. cbn in *. rewrite last_snoc. congruence.
Qed.

Lemma zeros_replicate k s : first s <> 48 -> zeros (replicate k 48 ++ s) = Z.of_nat k.
Proof.
  intros Hs. induction k as [|k IH]; cbn [replicate app zeros]; [|rewrite IH; cbn; lia].
  destruct s as [|c r]; [done|]. cbn [zeros]. unfold first in Hs. cbn in Hs. by destruct (Z.eqb_spec c 48).
Qed.
Lemma digit_not_dot s : digits s -> Forall (fun c => c <> 46) s.
Proof. intros Hs. eapply Forall_impl; [exact Hs|]. cbn. intros c Hc%IS_DIGIT_range. lia. Qed.
Lemma find_sub_dot s r : digits s -> find_sub [46] (s ++ r) = match find_sub [46] r with
  | Some n => Some (length s + n)%nat | None => None end.
Proof.
  intros Hs%digit_not_dot. induction Hs as [|c s Hc Hs IH]; cbn [app find_sub length]; [by destruct (find_sub _ r)|].
  cbn [is_prefix]. replace (46 =? c) with false by lia. cbn [andb]. rewrite IH. by destruct (find_sub [46] r).
Qed.
Lemma find_dot s t : digits s -> find [46] (s ++ 46 :: t) 0 = size s.
Proof.
  intros Hs. unfold find. pose proof (size_nonneg (s ++ 46 :: t)). destruct (Z.ltb_spec (size (s ++ 46 :: t)) 0); [lia|].
  change (Z.to_nat 0) with 0%nat. rewrite drop_0, find_sub_dot by done. cbn. unfold size. lia.
Qed.
Lemma find_no_dot s : digits s -> find [46] s 0 = npos.
Proof.
  intros Hs. unfold find. pose proof (size_nonneg s). destruct (Z.ltb_spec (size s) 0); [lia|].
  change (Z.to_nat 0) with 0%nat. rewrite drop_0. rewrite <- (app_nil_r s), find_sub_dot by done. done.
Qed.

(** Formatted text: a whole part, a point and decimals that do not end in 0, or
    no point; multiplying puts the digits back. *)
Lemma Multiply_parts a t k d : digits a -> digits t -> a <> [] -> size a < npos -> d = size t + Z.of_nat k ->
  MultiplyDecimal (a ++ fraction t) d =
  let s := a ++ t ++ replicate k 48 in
  erase s 0 (if char_at s (zeros s) =? 46 then wrap 64 (zeros s - 1) else zeros s).
Proof.
  intros Ha Ht Hne Hlen ->. unfold MultiplyDecimal. pose proof (size_nonneg a). destruct t as [|c t].
  - cbn [fraction]. rewrite app_nil_r, find_no_dot, Z.eqb_refl by done. change (size []) with 0. rewrite Z.add_0_l, Nat2Z.id. reflexivity.
  - cbn [fraction]. rewrite find_dot by done. destruct (Z.eqb_spec (size a) npos); [lia|].
    assert (size (a ++ 46 :: c :: t) - size a - 1 = size (c :: t)) as -> by (rewrite size_app, (size_cons 46); lia).
    destruct (Z.leb_spec (size (c :: t)) (size (c :: t) + Z.of_nat k)); [|lia].
    assert (erase (a ++ 46 :: c :: t) (size a) 1 = a ++ c :: t) as ->.
    { unfold erase. rewrite take_size. f_equal. rewrite size_app, (size_cons 46).
      pose proof (size_nonneg (c :: t)). rewrite Z.min_l by lia. replace (a ++ 46 :: c :: t) with ((a ++ [46]) ++ c :: t) by by rewrite <- app_assoc.
      replace (size a + 1) with (size (a ++ [46])) by (rewrite size_app; done). apply drop_size. }
    replace (Z.to_nat _) with k by lia. rewrite <- app_assoc. reflexivity.
Qed.

(** A positive number does not start with a zero. *)
Lemma dec_digits_head fuel n acc : 0 < n < 2 ^ Z.of_nat fuel -> first (dec_digits fuel n acc) <> 48.
Proof.
  revert n acc. induction fuel as [|f IH]; intros n acc Hn; [simpl in Hn; lia|]. cbn [dec_digits].
  destruct (Z.ltb_spec n 10).
  - unfold first. cbn [hd]. rewrite Z.mod_small by lia. lia.
  - apply IH. rewrite Nat2Z.inj_succ, Z.pow_succ_r in Hn by lia.
    split; [by apply Z.div_str_pos|]. apply Z.div_lt_upper_bound; lia.
Qed.
Lemma dec_head n : 0 < n -> first (dec n) <> 48.
Proof.
  intros Hn. apply dec_digits_head. pose proof (Z.log2_spec n Hn). pose proof (Z.log2_nonneg n).
  rewrite Nat2Z.inj_succ, Z2Nat.id by lia. lia.
Qed.

Lemma cut_at s d : 0 <= d -> d < size s -> exists a b, s = a ++ b /\ size b = d /\ a <> [].
Proof.
  intros Hd Hs. exists (take (Z.to_nat (size s - d)) s), (drop (Z.to_nat (size s - d)) s).
  split; [symmetry; apply take_drop|]. unfold size in *. split; [rewrite length_drop; lia|].
  intros E%(f_equal length). rewrite length_take in E. cbn in E. lia.
Qed.

(** The parts [FormatDecimal] makes of the digits. *)
Lemma decimal_parts d n : 0 < n < 2 ^ 64 -> 0 <= d -> exists a t k,
  FormatDecimal d n = a ++ fraction t /\ d = size t + Z.of_nat k /\
  digits a /\ digits t /\ a <> [] /\ size a < npos /\ (first a = 48 -> a = [48] /\ t <> []) /\
  exists z, a ++ t ++ replicate k 48 = replicate z 48 ++ ToString n.
Proof.
  intros Hn Hd. assert (ToString n = dec n) as En by (unfold ToString; destruct (Z.ltb_spec n 0); [lia|done]).
  destruct (dec_spec n) as (Hne & Hdig & Hv); [lia|].
  assert (size (dec n) <= 20) as Hlen.
  { pose proof (ToString_length n 19 ltac:(simpl; lia)) as Hl. rewrite En in Hl.
    destruct (Z.ltb_spec n 0); [lia|]. unfold size. lia. }
  set (z := if size (dec n) <=? d then Z.to_nat (d - size (dec n) + 1) else 0%nat).
  set (s := replicate z 48 ++ dec n).
  assert (FormatDecimal d n = rev (format_digits d 0 (rev s) true [])) as EF.
  { unfold FormatDecimal. rewrite En. unfold s, z. by destruct (size (dec n) <=? d). }
  assert (d < size s) as Hs.
  { unfold s, z. rewrite size_app. destruct (Z.leb_spec (size (dec n)) d); [rewrite size_replicate by lia; lia|].
    change (size (replicate 0 48)) with 0. lia. }
  assert (digits s) as Hds. { apply Forall_app. split; [|done]. apply Forall_replicate. reflexivity. }
  destruct (cut_at s d) as (a & b & Eab & Hsb & Hane); [lia|lia|].
  assert (size a = size s - d) as Hsa by (rewrite Eab, size_app; lia).
  rewrite Eab in Hds. apply Forall_app in Hds as [Hda Hdb].
  destruct (stripped_zeros b) as (k & Eb & _). exists a, (stripped b), k.
  split; [by rewrite EF, Eab, format_parts|].
  assert (d = size (stripped b) + Z.of_nat k) as Hdk.
  { rewrite <- Hsb at 1. rewrite Eb at 1. rewrite size_app. unfold size at 2. by rewrite length_replicate. }
  split; [done|]. split; [done|]. split; [by rewrite Eb in Hdb; apply Forall_app in Hdb as [? _]|].
  pose proof (size_nonneg (dec n)) as Hpos. rewrite <- Eb, <- Eab, En.
  assert (size a = 1 /\ first s = 48 /\ d = size (dec n) - 1 + Z.of_nat z \/ size a <= 20 /\ first s <> 48) as Hz.
  { unfold s, z in *. destruct (Z.leb_spec (size (dec n)) d).
    - left. rewrite Hsa, size_app, size_replicate by lia. split; [lia|]. split; [|lia].
      by destruct (Z.to_nat _) eqn:E; [lia|].
    - right. rewrite Hsa. change (replicate 0 48 ++ dec n) with (dec n). split; [lia|]. apply dec_head; lia. }
  split; [done|]. split; [unfold npos; lia|]. split; [|by exists z].
  intros Hf. destruct a as [|c a']; [done|]. unfold first in Hf. cbn in Hf. subst c.
  destruct Hz as [(Hz & _ & Hdz)|[_ Hz]]; [|exfalso; apply Hz; by rewrite Eab].
  rewrite size_cons in Hz. destruct a' as [|? a']; [|rewrite size_cons in Hz; pose proof (size_nonneg a'); lia].
  split; [done|]. intros E0. rewrite E0 in Eb. cbn in Eb.
  assert (first (dec n) <> 48) as Hh by (apply dec_head; lia).
  destruct (dec n) as [|c r] eqn:Edn; [done|]. apply Hh. unfold first. cbn.
  assert (c ∈ s) as Hc by (unfold s; set_solver). rewrite Eab, Eb in Hc.
  apply elem_of_app in Hc as [Hc%list_elem_of_singleton|[? _]%elem_of_replicate]; done.
Qed.

Lemma erase_zeros z s : first s <> 48 -> first s <> 46 ->
  let t := replicate z 48 ++ s in erase t 0 (if char_at t (zeros t) =? 46 then wrap 64 (zeros t - 1) else zeros t) = s.
Proof.
  intros H0 Hp. cbv zeta. rewrite zeros_replicate by done.
  assert (char_at (replicate z 48 ++ s) (Z.of_nat z) = first s) as ->.
  { unfold char_at. rewrite Nat2Z.id, app_nth2, length_replicate, Nat.sub_diag by (rewrite length_replicate; lia). by destruct s. }
  destruct (Z.eqb_spec (first s) 46); [done|]. unfold erase. cbn [Z.to_nat take app Z.add].
  rewrite size_app. pose proof (size_nonneg s).
  replace (size (replicate z 48)) with (Z.of_nat z) by (unfold size; by rewrite length_replicate).
  rewrite Z.min_l by lia. replace (Z.of_nat z) with (size (replicate z 48)) by (unfold size; by rewrite length_replicate).
  apply drop_size.
Qed.

(** Multiplying by the power of ten that formatting divided by gives back the
    digits of a positive number. *)
Theorem MultiplyDecimal_FormatDecimal d n : 0 < n < 2 ^ 64 -> 0 <= d ->
  MultiplyDecimal (FormatDecimal d n) d = ToString n.
Proof.
  intros Hn Hd. destruct (decimal_parts d n Hn Hd) as (a & t & k & -> & Hk & Ha & Ht & Hne & Hs & _ & z & Ez).
  rewrite (Multiply_parts a t k) by done. cbv zeta. rewrite Ez.
  assert (ToString n = dec n) as -> by (unfold ToString; destruct (Z.ltb_spec n 0); [lia|done]).
  pose proof (dec_head n ltac:(lia)) as Hh. destruct (dec_spec n) as (Hn0 & Hdig%digit_not_dot & _); [lia|].
  apply erase_zeros; [done|]. destruct Hdig as [|c r Hc _]; [done|exact Hc].
Qed.

(** It does not for zero, whose only digit is taken for a leading one. *)
Lemma MultiplyDecimal_zero d : 0 <= d -> MultiplyDecimal (FormatDecimal 0 0) d = [].
Proof.
  intros Hd. change (FormatDecimal 0 0) with [48]. unfold MultiplyDecimal. cbn [find].
  change (find [46] [48] 0 =? npos) with true. cbv iota.
  change ([48] ++ replicate (Z.to_nat d) 48) with (replicate (S (Z.to_nat d)) 48).
  rewrite <- (app_nil_r (replicate (S (Z.to_nat d)) 48)). rewrite (erase_zeros _ []); [done|unfold first; cbn; lia..].
Qed.

(** A negative number is padded before its sign. *)
Lemma FormatDecimal_negative : FormatDecimal 3 (-5) = to_bytes "0.0-5".
Proof. reflexivity. Qed.

Lemma char_at_last l t : t <> [] -> char_at (l ++ t) (size (l ++ t) - 1) ∈ t.
Proof.
  intros Ht. destruct t as [|c t _] using rev_ind; [done|]. rewrite size_app, size_app.
  rewrite app_assoc. replace (size l + (size t + size [c]) - 1) with (size (l ++ t)) by (rewrite size_app; unfold size at 5; cbn; lia).
  rewrite char_at_app. set_solver.
Qed.
Lemma dec_scan_digits i s r dot_pos : digits s -> dec_scan i (s ++ r) dot_pos = dec_scan (i + size s) r dot_pos.
Proof.
  intros Hs. revert i. induction Hs as [|c s Hc Hs IH]; intros i; cbn [app dec_scan].
  - f_equal. unfold size. cbn. lia.
  - rewrite Hc. apply IS_DIGIT_range in Hc. replace (c =? 46) with false by lia. cbn [negb andb].
    rewrite IH, size_cons. f_equal. lia.
Qed.
Lemma not_dot_at_end l t : t <> [] -> digits t -> char_at (l ++ t) (size (l ++ t) - 1) =? 46 = false.
Proof.
  intros Hne Ht%digit_not_dot. pose proof (char_at_last l t Hne) as Hc. rewrite Forall_forall in Ht.
  apply Z.eqb_neq, Ht, Hc.
Qed.

(** What is formatted counts as a number with that many decimals. *)
Theorem IsDecNumber_FormatDecimal d n : 0 < n < 2 ^ 64 -> 0 <= d -> IsDecNumber (FormatDecimal d n) d = true.
Proof.
  intros Hn Hd. destruct (decimal_parts d n Hn Hd) as (a & t & k & -> & Hk & Ha & Ht & Hne & Hs & Hz & _).
  unfold IsDecNumber. pose proof (size_nonneg a). destruct a as [|x a'] eqn:Ea; [done|]. rewrite <- Ea in *.
  destruct t as [|c t'] eqn:Et; cbn [fraction].
  - rewrite app_nil_r, Ea, <- Ea. pose proof (not_dot_at_end [] a) as Hend. cbn [app] in Hend. rewrite Hend by (try done; by rewrite Ea).
    rewrite <- (app_nil_r a), dec_scan_digits, app_nil_r by done. cbn [dec_scan].
    destruct (Z.eqb_spec (char_at a 0) 48) as [E|_].
    + rewrite Ea in Hz, E. destruct Hz as [_ Hz]; [exact E|done].
    + cbn [andb]. by rewrite Z.eqb_refl.
  - rewrite <- Et in *. rewrite Ea at 1. cbn [app]. replace (a ++ 46 :: t) with ((a ++ [46]) ++ t) at 1 2 by by rewrite <- app_assoc.
    rewrite not_dot_at_end by (try done; by rewrite Et). rewrite dec_scan_digits, Z.add_0_l by done. cbn [dec_scan].
    change (IS_DIGIT 46) with false. cbn [negb andb]. rewrite !Z.eqb_refl. pose proof (dec_scan_digits (size a + 1) t [] (size a) Ht) as Hscan. rewrite app_nil_r in Hscan.
    rewrite Hscan. cbn [dec_scan negb].
    assert (size (a ++ 46 :: t) - size a - 1 = size t) as -> by (rewrite size_app, size_cons; lia).
    destruct (Z.ltb_spec d (size t)); [lia|]. rewrite andb_false_r.
    destruct (Z.eqb_spec (char_at (a ++ 46 :: t) 0) 48) as [E|_]; [|done].
    assert (size a = 1) as -> by (rewrite Ea in Hz, E |- *; destruct Hz as [Hz _]; [exact E|by rewrite Hz]). done.
Qed.

(** ** Normalising an address ends *)
Lemma find_sub_found sub s n : find_sub sub s = Some n -> s = take n s ++ sub ++ drop (n + length sub) s.
Proof.
  assert (forall p t, is_prefix p t = true -> t = p ++ drop (length p) t) as Hp.
  { induction p as [|a p IH]; intros [|b t] H; cbn [is_prefix] in H; try done.
    apply andb_true_iff in H as [->%Z.eqb_eq H]. cbn [app length drop]. f_equal. by apply IH. }
  revert n. induction s as [|c s IH]; intros n; cbn [find_sub].
  - destruct (is_prefix sub []) eqn:E; [|done]. intros [= <-]. by apply Hp in E.
  - destruct (is_prefix sub (c :: s)) eqn:E; [intros [= <-]; by apply Hp in E|].
    destruct (find_sub sub s) as [m|] eqn:Em; cbn [option_map]; [|done]. intros [= <-].
    cbn [take app Nat.add drop]. f_equal. by apply IH.
Qed.

Lemma find_found sub s pos p : 0 <= pos -> find sub s pos = p -> p <> npos ->
  pos <= p /\ p + size sub <= size s /\ drop (Z.to_nat pos) s = substr s pos (p - pos) ++ sub ++ drop (Z.to_nat (p + size sub)) s.
Proof.
  intros Hpos <-. unfold find. destruct (Z.ltb_spec (size s) pos); [done|].
  destruct (find_sub sub (drop (Z.to_nat pos) s)) as [n|] eqn:E; [|done]. intros _.
  pose proof (find_sub_bound _ _ _ E) as Hb. rewrite length_drop in Hb. apply find_sub_found in E.
  unfold size in *. split; [lia|]. split; [lia|]. rewrite E at 1. unfold substr, size.
  replace (Z.to_nat (Z.min (pos + Z.of_nat n - pos) (Z.of_nat (length s)))) with n by lia.
  rewrite drop_drop. do 3 f_equal. lia.
Qed.

Lemma erase_size s pos n : 0 <= pos -> 0 <= n -> pos + n <= size s -> size (erase s pos n) = size s - n.
Proof. intros. unfold erase, size in *. rewrite length_app, length_take, length_drop. lia. Qed.

Lemma squeeze_ends pat cut lo : 0 <= lo ->
  (forall s p, lo <= p -> p + size pat <= size s -> 0 <= size (cut s p) < size s) ->
  forall fuel s n, (length s <= fuel)%nat -> exists r m, squeeze pat cut lo fuel s n = Ret (r, m) /\
    size r <= size s /\ n <= m /\ mark_in pat lo r = false.
Proof.
  intros Hlo Hcut. induction fuel as [|f IH]; intros s n Hf; cbn [squeeze];
    destruct (mark_in pat lo s) eqn:E; try by exists s, n; split_and!; [done|lia|lia|exact E].
  - unfold mark_in in E. apply andb_true_iff in E as [E _]. destruct (Z.eqb_spec (find pat s lo) npos); [done|].
    destruct (find_found pat s lo _ Hlo eq_refl n0) as (H1 & H2 & _). pose proof (Hcut s _ H1 H2). unfold size in *. lia.
  - unfold mark_in in E. apply andb_true_iff in E as [E _]. destruct (Z.eqb_spec (find pat s lo) npos); [done|].
    destruct (find_found pat s lo _ Hlo eq_refl n0) as (H1 & H2 & _). pose proof (Hcut s _ H1 H2) as Hc.
    destruct (IH (cut s (find pat s lo)) (n + 1)) as (r & m & -> & Hr & Hm & Hd); [unfold size in *; lia|].
    exists r, m. split_and!; [done|lia|lia|exact Hd].
Qed.

Lemma back_to_slash_bounds s lo n : 0 <= lo -> lo <= Z.of_nat n -> lo <= back_to_slash s lo n <= Z.of_nat n.
Proof.
  intros Hlo. induction n as [|n IH]; intros Hn; cbn [back_to_slash].
  - destruct (_ && _); lia.
  - destruct (Z.ltb_spec lo (Z.of_nat (S n))); cbn [andb]; [|lia]. destruct (negb _); lia.
Qed.
Lemma cut_parent_size lo s p : 0 <= lo -> lo <= p -> p + 4 <= size s -> 0 <= size (cut_parent lo s p) < size s.
Proof.
  intros Hlo Hp Hs. unfold cut_parent.
  destruct (back_to_slash_bounds s lo (Z.to_nat (if lo <? p then p - 1 else lo)) Hlo) as [Hb1 Hb2];
    [destruct (Z.ltb_spec lo p); lia|].
  set (b := back_to_slash _ _ _) in *. assert (b <= p) by (destruct (Z.ltb_spec lo p); lia).
  rewrite erase_size by lia. lia.
Qed.

Lemma next_slash_nonneg s p : 0 <= p -> 0 <= next_slash s p.
Proof.
  intros Hp. unfold next_slash. destruct (p <? size s); [|done].
  assert (forall f t, size (skip_while f t) <= size t) as Hk.
  { intros f t. induction t as [|c t IH]; cbn [skip_while]; [done|]. destruct (f c); rewrite ?size_cons; lia. }
  specialize (Hk (fun c => negb (c =? 47)) (drop (Z.to_nat p) s)). lia.
Qed.

(** The three loops end on every text, which grows at most by the slash put
    after a bare host; what they leave has no [/../] where they look. *)
Theorem NormalizeUrlPath_ends s : exists r n, NormalizeUrlPath s = Ret (r, n) /\ 0 <= n /\ size r <= size s + 1.
Proof.
  unfold NormalizeUrlPath.
  match goal with |- context [if 0 <? ?p then next_slash s (wrap 64 (?p + 3)) else 0] => set (v := if 0 <? p then next_slash s (wrap 64 (p + 3)) else 0); set (proto := p) in * end.
  assert (0 <= v) as Hv. { unfold v. destruct (0 <? proto); [apply next_slash_nonneg, wrap_range; lia|lia]. }
  assert (0 <= find [63] s 0) as Hq.
  { unfold find. destruct (size s <? 0); [done|]. destruct (find_sub _ _); unfold npos; lia. }
  match goal with |- context [let '(_, _) := ?e in _] => assert (exists t lo, e = (t, lo) /\ 0 <= lo /\ size t <= size s + 1)
    as (t & lo & -> & Hlo & Ht) end.
  { destruct (_ && _); eexists _, _; (split; [reflexivity|]); [|lia].
    split; [done|]. rewrite size_app. cbn [app]. rewrite size_cons.
    assert (size (take (Z.to_nat (find [63] s 0)) s) + size (drop (Z.to_nat (find [63] s 0)) s) = size s); [|lia].
    by rewrite <- size_app, take_drop. }
  destruct (squeeze_ends (to_bytes "/./") (fun s p => erase s p 2) lo Hlo) with (fuel := length t) (s := t) (n := 0)
    as (r1 & n1 & -> & H1 & Hn1 & _); [|lia|].
  { intros u p Hp Hu. change (size (to_bytes "/./")) with 3 in Hu. rewrite erase_size by lia. lia. }
  cbn [obind fst snd].
  destruct (squeeze_ends (to_bytes "//") (fun s p => erase s p 1) lo Hlo) with (fuel := length t) (s := r1) (n := n1)
    as (r2 & n2 & -> & H2 & Hn2 & _); [|unfold size in H1; lia|].
  { intros u p Hp Hu. change (size (to_bytes "//")) with 2 in Hu. rewrite erase_size by lia. lia. }
  cbn [obind fst snd].
  destruct (squeeze_ends (to_bytes "/../") (cut_parent lo) lo Hlo) with (fuel := length t) (s := r2) (n := n2)
    as (r3 & n3 & -> & H3 & Hn3 & _); [|unfold size in *; lia|].
  { intros u p Hp Hu. by apply cut_parent_size. }
  exists r3, n3. split; [done|]. lia.
Qed.

(** A path without a protocol is walked as if its beginning were a host: the
    first segment, and what is before it, stays as it is. *)
Lemma NormalizeUrlPath_first :
  NormalizeUrlPath (to_bytes "/a/../b") = Ret (to_bytes "/a/b", 1) /\
  NormalizeUrlPath (to_bytes "//a") = Ret (to_bytes "//a", 0) /\
  NormalizeUrlPath (to_bytes "http://h/a/../b") = Ret (to_bytes "http://h/b", 1).
Proof. by vm_compute. Qed.

(** Every text is parsed; a bracket in the path hides the port, and a port of
    more than 16 bits is cut. *)
Theorem ParseUrl_total s : exists u, ParseUrl s = Ret u.
Proof.
  unfold ParseUrl. repeat match goal with |- context [let '(_, _) := ?e in _] => destruct e end.
  match goal with |- context [NormalizeUrlPath ?p] => destruct (NormalizeUrlPath_ends p) as (r1 & n1 & -> & _) end.
  cbn [obind fst]. match goal with |- context [NormalizeUrlPath ?p] => destruct (NormalizeUrlPath_ends p) as (r2 & n2 & -> & _) end.
  cbn [obind fst]. by eexists.
Qed.
Lemma ParseUrl_ports :
  ParseUrl (to_bytes "http://h:80/a") = Ret (mkUrl (to_bytes "http") (to_bytes "h") 80 (to_bytes "/") (to_bytes "/a")) /\
  ParseUrl (to_bytes "http://h:80/a]") = Ret (mkUrl (to_bytes "http") (to_bytes "h:80") 0 (to_bytes "/") (to_bytes "/a]")) /\
  ParseUrl (to_bytes "http://h:70000/a") = Ret (mkUrl (to_bytes "http") (to_bytes "h") 4464 (to_bytes "/") (to_bytes "/a")).
Proof. by vm_compute. Qed.

(** ** Tokens and the text they come from *)
Fixpoint glue (key : list Z) (values : list (list Z)) : list Z :=
  match values with [] => [] | [v] => v | v :: r => v ++ key ++ glue key r end.

Lemma Strtok_loop_glue content key : key <> [] -> c_str key = key ->
  forall fuel start count values, 0 <= start < size content -> (Z.to_nat (size content - start) <= fuel)%nat ->
  exists vs, Strtok_loop content key (-1) false (size content) fuel start count values = Ret (values ++ vs) /\ vs <> [] /\
    (drop (Z.to_nat start) content = glue key vs \/ drop (Z.to_nat start) content = glue key vs ++ key).
Proof.
  intros Hk Hc. assert (1 <= size key) as Hk1 by (destruct key; [done|rewrite size_cons; pose proof (size_nonneg key); lia]).
  induction fuel as [|f IH]; intros start count values Hs Hf; [lia|]. cbn [Strtok_loop].
  destruct (Z.ltb_spec start (size content)); [|lia]. rewrite Hc. cbn [andb negb]. rewrite orb_true_r, orb_false_r.
  set (p := find key content start). destruct (Z.eqb_spec p npos) as [Hp|Hp]; cbn [orb].
  2: destruct (find_found key content start p) as (H1 & H2 & H3); [lia|done|done|].
  2: destruct (Z.leb_spec (size content) p); [unfold size in *; lia|].
  - exists [substr content start (size content - start)].
    assert (substr content start (size content - start) = drop (Z.to_nat start) content) as ->.
    { unfold substr. apply take_ge. unfold size in *. rewrite length_drop. lia. }
    split; [|split; [done|by left]]. destruct f; cbn [Strtok_loop];
      (destruct (Z.ltb_spec (size content + size key) (size content)); [lia|done]).
  - destruct (Z.ltb_spec (p + size key) (size content)) as [Hlt|Hge].
    + destruct (IH (p + size key) (count + 1) (values ++ [substr content start (p - start)])) as (vs & -> & Hne & Hg); [lia|lia|].
      exists (substr content start (p - start) :: vs). rewrite <- app_assoc. split; [done|]. split; [done|].
      rewrite H3. destruct vs as [|v vs]; [done|]. cbn [glue] in *.
      destruct Hg as [-> | ->]; [by left|]. right. by rewrite <- !app_assoc.
    + exists [substr content start (p - start)]. split; [|split; [done|right]].
      * destruct f; cbn [Strtok_loop]; (destruct (Z.ltb_spec (p + size key) (size content)); [lia|done]).
      * rewrite H3 at 1. cbn [glue]. rewrite drop_ge by (unfold size in *; lia). by rewrite app_nil_r.
Qed.

(** Cutting a text at a string without NUL always ends, and putting the string
    back between the tokens gives the text, but for one copy at its end. *)
Theorem Strtok_key_glue content key : key <> [] -> c_str key = key -> exists vs,
  Strtok_key content key (-1) false npos = Ret (Z.of_nat (length vs), vs) /\
  (content = glue key vs \/ content = glue key vs ++ key).
Proof.
  intros Hk Hc. unfold Strtok_key. rewrite Z.eqb_refl. destruct key as [|k0 key'] eqn:Ek; [done|]. rewrite <- Ek in *.
  replace ((size content <=? 0) || (size content <=? size content)) with true by lia.
  destruct content as [|c r] eqn:Econt; [exists []; by split; [|left]|]. rewrite <- Econt.
  destruct (Strtok_loop_glue content key Hk Hc (S (length content)) 0 0 []) as (vs & -> & _ & Hg).
  - rewrite Econt, size_cons. pose proof (size_nonneg r). lia.
  - unfold size. lia.
  - exists vs. split; [done|]. exact Hg.
Qed.

(** Whatever the limits, cutting ends, and so does reading attributes. *)
Lemma Strtok_loop_total content key max_items ignore_empty end_pos : key <> [] ->
  forall fuel start count values, 0 <= start -> (Z.to_nat (end_pos - start) <= fuel)%nat ->
  exists vs, Strtok_loop content key max_items ignore_empty end_pos fuel start count values = Ret vs.
Proof.
  intros Hk. assert (1 <= size key) as Hk1 by (destruct key; [done|rewrite size_cons; pose proof (size_nonneg key); lia]).
  induction fuel as [|f IH]; intros start count values Hs Hf; cbn [Strtok_loop];
    (destruct (Z.ltb_spec start end_pos); [|by eexists]); [lia|].
  apply IH; set (p := find (c_str key) content start);
    (assert (p = npos \/ start <= p) as [-> | Hp] by
      (destruct (Z.eq_dec p npos) as [|n]; [by left|right; by destruct (find_found (c_str key) content start p Hs eq_refl n)]));
    rewrite ?Z.eqb_refl; cbn [orb]; try (destruct (_ || _ || _)); lia.
Qed.
Lemma Strtok_key_total content key max_items ignore_empty n :
  exists r, Strtok_key content key max_items ignore_empty n = Ret r.
Proof.
  unfold Strtok_key. destruct key as [|c r] eqn:E; [by eexists|]. rewrite <- E.
  match goal with |- context [Strtok_loop _ _ _ _ ?e _ _ _ _] => set (e0 := e) end.
  destruct (Strtok_loop_total content key max_items ignore_empty e0) with (fuel := S (length content)) (start := 0) (count := 0)
    (values := [] : list (list Z)) as (vs & ->); [by rewrite E|lia| |by eexists].
  assert (e0 <= size content) by (unfold e0; repeat case_match; lia). unfold size in *. lia.
Qed.
Theorem ParseAttributes_total value_key low trim_key trim_value content attrs sep_key :
  exists n m, ParseAttributes value_key low trim_key trim_value content attrs sep_key = Ret (n, m) /\
    (sep_key = [] \/ value_key = [] -> n = 0 /\ m = attrs).
Proof.
  unfold ParseAttributes. destruct (Strtok_key_total content sep_key (-1) false npos) as [[k parts] E]. rewrite E. cbn [obind snd].
  assert (sep_key = [] -> parts = []) as Hn by (intros ->; unfold Strtok_key in E; congruence). clear E.
  assert (forall lines attrs0, exists n m, Parse_parts value_key low trim_key trim_value parts lines attrs0 = Ret (n, m) /\
    (parts = [] \/ value_key = [] -> n = lines /\ m = attrs0)) as H.
  { clear Hn. induction parts as [|p parts IH]; intros lines attrs0; cbn [Parse_parts]; [by eexists _, _|]. unfold Parse_part.
    destruct (Strtok_key_total p value_key 2 false npos) as [[k' vs] E]. rewrite E. cbn [obind snd].
    assert (value_key = [] -> vs = []) as Hv by (intros ->; unfold Strtok_key in E; congruence).
    destruct vs as [|v vs]; cbn [obind fst snd].
    - destruct (IH (lines + 0) attrs0) as (n & m & -> & Hnm). exists n, m. split; [done|].
      intros [? | Hk]; [done|]. destruct Hnm as [-> ->]; [by right|]. split; [lia|done].
    - destruct (IH (lines + 1) (<[(if trim_key then Trim (if low then ToLower v else v) else if low then ToLower v else v) :=
        match vs with [] => [] | w :: _ => if trim_value then Trim w else w end]> attrs0)) as (n & m & -> & _).
      exists n, m. split; [done|]. intros [? | Hk]; [done|]. by apply Hv in Hk. }
  destruct (H 0 attrs) as (n & m & -> & Hnm). exists n, m. split; [done|]. intros [Hs | Hk]; apply Hnm; auto.
Qed.

(** Of two parts with one key the last counts here, the first in [ParseAttribute]. *)
Lemma ParseAttributes_last :
  ParseAttributes (to_bytes "=") false false false (to_bytes "a=1;a=2") ∅ (to_bytes ";")
    = Ret (2, <[to_bytes "a" := to_bytes "2"]> (<[to_bytes "a" := to_bytes "1"]> ∅)) /\
  ParseAttribute (to_bytes "a=1;a=2") (to_bytes ";") (to_bytes "=") !! to_bytes "a" = Some (to_bytes "1").
Proof. by vm_compute. Qed.

(** ** The order under a mask *)
Lemma bytes_ltb_irrefl v : bytes_ltb v v = false.
Proof. induction v as [|a v IH]; [done|]. cbn. by rewrite Z.ltb_irrefl, Z.eqb_refl. Qed.
Lemma bytes_ltb_trans v1 v2 v3 : bytes_ltb v1 v2 = true -> bytes_ltb v2 v3 = true -> bytes_ltb v1 v3 = true.
Proof.
  revert v2 v3. induction v1 as [|a v1 IH]; intros [|b v2] [|c v3]; cbn; try done.
  destruct (Z.ltb_spec a b), (Z.eqb_spec a b), (Z.ltb_spec b c), (Z.eqb_spec b c), (Z.ltb_spec a c), (Z.eqb_spec a c);
    try done; try lia. apply IH.
Qed.
Lemma bytes_ltb_total v1 v2 : v1 = v2 \/ bytes_ltb v1 v2 = true \/ bytes_ltb v2 v1 = true.
Proof.
  revert v2. induction v1 as [|a v1 IH]; intros [|b v2]; cbn; auto.
  destruct (Z.ltb_spec a b), (Z.eqb_spec a b), (Z.ltb_spec b a), (Z.eqb_spec b a); auto; try lia.
  subst. destruct (IH v2) as [->|]; auto.
Qed.
Lemma lxor_mask x l r : length l = length x -> length r = length x -> zip_with Z.lxor x l = zip_with Z.lxor x r -> l = r.
Proof.
  revert l r. induction x as [|a x IH]; intros [|b l] [|c r] Hl Hr E; try done. cbn in *.
  injection E as E1 E2. f_equal; [|apply IH; [lia|lia|done]].
  apply (f_equal (Z.lxor a)) in E1. by rewrite <- !Z.lxor_assoc, !Z.lxor_nilpotent, !Z.lxor_0_l in E1.
Qed.

(** Under a mask of their length, texts are strictly and totally ordered. *)
Theorem LessThanXored_order x l m r : length l = length x -> length m = length x -> length r = length x ->
  LessThanXored l l x = false /\
  (LessThanXored l m x = true -> LessThanXored m r x = true -> LessThanXored l r x = true) /\
  (l = r \/ LessThanXored l r x = true \/ LessThanXored r l x = true).
Proof.
  intros Hl Hm Hr. assert (forall a b, length a = length x -> length b = length x ->
    LessThanXored a b x = bytes_ltb (zip_with Z.lxor x a) (zip_with Z.lxor x b)) as E.
  { intros a b Ha Hb. unfold LessThanXored, size. by rewrite Ha, Hb, !Z.eqb_refl. }
  rewrite !E by done. split; [apply bytes_ltb_irrefl|]. split; [apply bytes_ltb_trans|].
  destruct (bytes_ltb_total (zip_with Z.lxor x l) (zip_with Z.lxor x r)) as [Ex|]; [left|by right].
  by eapply lxor_mask.
Qed.

(** ** What numbers are called *)
Lemma skip_digits f s : digits s -> (forall c, IS_DIGIT c = true -> f c = true) -> skip_while f s = [].
Proof. intros Hs Hf. induction Hs as [|c s Hc _ IH]; [done|]. cbn [skip_while]. by rewrite Hf. Qed.
Lemma skip_while_digits f s : digits s -> digits (skip_while f s).
Proof. induction 1 as [|c s Hc Hs IH]; cbn [skip_while]; [done|]. destruct (f c); [done|]. by constructor. Qed.

Lemma IsNumber_from_digits s : digits s -> s <> [] -> IsNumber_from s = 1.
Proof.
  intros Hs Hne. unfold IsNumber_from. destruct Hs as [|c s Hc Hs]; [done|]. change (first (c :: s)) with c. cbn [tl].
  pose proof (IS_DIGIT_range c Hc). rewrite Hc. cbn [orb].
  assert ((first s =? 120) || (first s =? 88) = false) as ->.
  { destruct Hs as [|c' s Hc' _]; [done|]. unfold first. cbn [hd]. apply IS_DIGIT_range in Hc'. lia. }
  rewrite andb_false_r. replace (c =? 46) with false by lia. cbn [negb andb].
  rewrite skip_digits; [done|apply skip_while_digits; by constructor|by intros d ->].
Qed.

(** The text of an integer is called one; but a prefix without digits is called
    a hexadecimal number, and a lone point a decimal one. *)
Theorem IsNumber_ToString n : IsNumber (ToString n) = 1 /\ IsNumber (to_bytes "0x") = 2 /\ IsNumber (to_bytes "-.") = 3.
Proof.
  split; [|by vm_compute]. unfold ToString.
  assert (c_str (ToString n) = ToString n) as Ec by (apply c_str_no_nul, ToString_no_nul). unfold ToString in Ec.
  destruct (dec_spec (Z.abs n)) as (Hne & Hd & _); [lia|]. destruct (Z.ltb_spec n 0).
  - unfold IsNumber. rewrite Ec. cbn [skip_while]. change (IS_BLANK 45) with false. cbv iota.
    change (first (45 :: dec (- n)) =? 45) with true. cbn [orb tl]. rewrite Z.abs_neq in * by lia.
    by apply IsNumber_from_digits.
  - rewrite Z.abs_eq in * by lia. unfold IsNumber. rewrite Ec. destruct (dec n) as [|c r] eqn:E; [done|].
    pose proof Hd as Hd'. inversion Hd' as [|? ? Hc _]. pose proof (IS_DIGIT_range c Hc). cbn [skip_while].
    replace (IS_BLANK c) with false by (unfold IS_BLANK; lia). cbv iota. unfold first. cbn [hd].
    replace ((c =? 45) || (c =? 43)) with false by lia. by apply IsNumber_from_digits.
Qed.
