(* ===== verification/Basen.v ===== *)
(** The base-16, base-32 and base-64 codecs of [src/utils/basen.h]: one encoder
    and one decoder over bit groups, with the alphabet and the group length as
    traits. *)

From S2P Require Import Prelude Strings Hex.

(** ** The alphabets *)
Record traits := mkTraits {
  group_length : Z;
  dictionary : list Z;
  tr_decode : Z -> Z
}.

Definition in_range (lo hi c : Z) : bool := (lo <=? c) && (c <=? hi).

Definition b16_traits : traits := mkTraits 4 (to_bytes "0123456789abcdef")
  (fun c => if in_range 48 57 c then c - 48
            else if in_range 65 70 c then c - 65 + 10
            else if in_range 97 102 c then c - 97 + 10
            else -1).
Definition b32_traits : traits := mkTraits 5 (to_bytes "ABCDEFGHIJKLMNOPQRSTUVWXYZ234567")
  (fun c => if in_range 65 90 c then c - 65
            else if in_range 50 55 c then c - 50 + 26
            else -1).
Definition b64_traits : traits := mkTraits 6
  (to_bytes "ABCDEFGHIJKLMNOPQRSTUVWXYZabcdefghijklmnopqrstuvwxyz0123456789+/")
  (fun c => if in_range 65 90 c then c - 65
            else if in_range 97 122 c then c - 97 + 26
            else if in_range 48 57 c then c - 48 + 52
            else if c =? 43 then c - 43 + 62
            else if c =? 47 then c - 47 + 62 + 1
            else -1).

Definition tr_encode (t : traits) (index : Z) : Z := nthZ (dictionary t) index.

(** [~(-1 << n)]: the low [n] bits. *)
Definition low_mask (n : Z) : Z := Z.ones n.

(** Values are [char]s: shifted as signed integers, kept as bytes. *)
Definition extract_partial_bits (value start_bit bits_count : Z) : Z :=
  let t1 := wrap 8 (Z.shiftr (schar value) (8 - bits_count - start_bit)) in
  Z.land t1 (low_mask bits_count).

Definition extract_overlapping_bits (previous next start_bit bits_count : Z) : Z :=
  let bits_count_in_previous := 8 - start_bit in
  let bits_count_in_next := bits_count - bits_count_in_previous in
  let t1 := Z.land (Z.shiftl (schar previous) bits_count_in_next) 255 in
  let t2 := Z.land (Z.shiftr (schar next) (8 - bits_count_in_next)) (low_mask bits_count_in_next) in
  Z.land (Z.lor t1 t2) (low_mask bits_count).

Section Codec.
Context (t : traits).

(** The padding loop: one ['='] per group until a byte boundary. *)
Fixpoint pad_loop (fuel : nat) (start_bit : Z) : outcome (list Z) :=
  match fuel with
  | O => Diverge
  | S f =>
      if start_bit =? 0 then Ret []
      else let? r := pad_loop f (Z.rem (start_bit + group_length t) 8) in Ret (61 :: r)
  end.

(** The encoding loop, with the byte kept back when a group crosses into the
    next one. *)
Fixpoint encode_loop (fuel : nat) (s : list Z) (start_bit : Z) (backlog : option Z) : outcome (list Z) :=
  match fuel with
  | O => Diverge
  | S f =>
      match backlog, s with
      | None, [] => pad_loop 8 start_bit
      | None, b :: s' =>
          if start_bit + group_length t <? 8 then
            let v := extract_partial_bits b start_bit (group_length t) in
            let? r := encode_loop f s (start_bit + group_length t) None in
            Ret (tr_encode t v :: r)
          else encode_loop f s' start_bit (Some b)
      | Some p, _ =>
          let v := extract_overlapping_bits p (match s with [] => 0 | b :: _ => b end) start_bit (group_length t) in
          let? r := encode_loop f s (Z.rem (start_bit + group_length t) 8) None in
          Ret (tr_encode t v :: r)
      end
  end.

(** Each byte takes at most two partial groups, one step to be kept back and
    one overlapping group. *)
Definition encode (s : list Z) : outcome (list Z) := encode_loop (S (4 * length s)) s 0 None.

(** The decoding loop: [=] is counted, white space and malformed characters
    are skipped. *)
Fixpoint decode_loop (s : list Z) (output_current_bit buffer trailing_equal : Z) : list Z :=
  let g := group_length t in
  match s with
  | [] =>
      if negb (output_current_bit =? 0) then
        let trailing_bits := trailing_equal * g + output_current_bit in
        if negb (Z.land trailing_bits 7 =? 0) then [buffer] else []
      else []
  | c :: r =>
      if c =? 61 then decode_loop r output_current_bit buffer (trailing_equal + 1)
      else if isspace c then decode_loop r output_current_bit buffer trailing_equal
      else
        let value := tr_decode t c in
        if value =? -1 then decode_loop r output_current_bit buffer trailing_equal
        else
          let bits_in_current_byte := Z.min (output_current_bit + g) 8 - output_current_bit in
          if bits_in_current_byte =? g then
            let buffer := wrap 8 (Z.lor buffer (Z.land (Z.shiftl value (8 - output_current_bit - g)) 255)) in
            let output_current_bit := output_current_bit + g in
            if output_current_bit =? 8 then buffer :: decode_loop r 0 0 trailing_equal
            else decode_loop r output_current_bit buffer trailing_equal
          else
            let bits_in_next_byte := g - bits_in_current_byte in
            let buffer := wrap 8 (Z.lor buffer (Z.shiftr value bits_in_next_byte)) in
            buffer :: decode_loop r bits_in_next_byte
                        (Z.land (Z.shiftl value (8 - bits_in_next_byte)) 255) trailing_equal
  end.
Definition decode (s : list Z) : list Z := decode_loop s 0 0 0.
End Codec.

Definition encode_b16 (v : list Z) : outcome (list Z) := encode b16_traits v.
Definition encode_b32 (v : list Z) : outcome (list Z) := encode b32_traits v.
Definition encode_b64 (v : list Z) : outcome (list Z) := encode b64_traits v.
Definition decode_b16 (v : list Z) : list Z := decode b16_traits v.
Definition decode_b32 (v : list Z) : list Z := decode b32_traits v.
Definition decode_b64 (v : list Z) : list Z := decode b64_traits v.
Definition encoded_size16 (rawsize : Z) : Z := rawsize * 2.
Definition encoded_size32 (rawsize : Z) : Z := (rawsize + 4) / 5 * 8.
Definition encoded_size64 (rawsize : Z) : Z := (rawsize + 2) / 3 * 4.

(** ** Base 16 is the program's hexadecimal text *)

Lemma b16_groups_checked :
  forallb (fun b =>
    (tr_encode b16_traits (extract_partial_bits b 0 4) =? hex_digit (Z.shiftr b 4)) &&
    forallb (fun n => tr_encode b16_traits (extract_overlapping_bits b n 4 4) =? hex_digit (Z.land b 15))
      all_bytes) all_bytes = true.
Proof. vm_compute. reflexivity. Qed.

Lemma b16_groups b n : byte_ok b -> byte_ok n ->
  tr_encode b16_traits (extract_partial_bits b 0 4) = hex_digit (Z.shiftr b 4) /\
  tr_encode b16_traits (extract_overlapping_bits b n 4 4) = hex_digit (Z.land b 15).
Proof.
  intros Hb Hn. pose proof (forall_bytes _ b16_groups_checked b Hb) as H.
  apply andb_true_iff in H as [H1%Z.eqb_eq H2]. split; [done|].
  by apply Z.eqb_eq, (forall_bytes _ H2).
Qed.

Lemma encode_b16_loop f s : bytes_ok s -> (3 * length s < f)%nat ->
  encode_loop b16_traits f s 0 None = Ret (BinToHexString s).
Proof.
  intros H. revert f. induction H as [|b s Hb Hs IH]; intros f Hf.
  { destruct f; [lia|]. done. }
  cbn [length] in Hf. do 3 (destruct f as [|f]; [lia|]).
  cbn [encode_loop group_length b16_traits]. simpl Z.add.
  change (0 + 4 <? 8) with true. change (4 + 4 <? 8) with false. cbn iota.
  change (Z.rem (4 + 4) 8) with 0. rewrite IH by lia. cbn [obind].
  assert (byte_ok (match s with [] => 0 | x :: _ => x end)) as Hn
    by (destruct Hs; [by unfold byte_ok|done]).
  destruct (b16_groups b _ Hb Hn) as [E1 E2]. cbn [obind].
  change (0 + 4) with 4. by rewrite E1, E2.
Qed.

Lemma encode_b16_hex s : bytes_ok s -> encode_b16 s = Ret (BinToHexString s).
Proof. intros H. apply encode_b16_loop; [done|lia]. Qed.

(** [encode_b16] of the codec and [BinToHexString] of the string helpers
    are the same function, and it always ends. *)
Theorem encode_b16_BinToHexString s : bytes_ok s -> encode_b16 s = Ret (BinToHexString s).
Proof. apply encode_b16_hex. Qed.

Lemma encode_b16_BinToHexString_witness :
  encode_b16 [222; 173; 0] = Ret (to_bytes "dead00").
Proof.
  rewrite (encode_b16_BinToHexString [222; 173; 0]); [reflexivity|].
  apply (bool_decide_unpack (Forall byte_ok [222; 173; 0])). vm_compute. exact I.
Defined.

(** ** Round trips of all three codecs

    After any prefix of the groups, the decoder stands at the bit the encoder
    stands at, and holds the bits of the current byte before it. *)

(** The first [sb] bits of a byte, in place. *)
Definition high (sb b : Z) : Z := Z.land b (256 - 2 ^ (8 - sb)).

(** A group that crosses into the next byte is the groups of either alone. *)
Lemma overlapping_parts p n sb g :
  extract_overlapping_bits p n sb g = Z.lor (extract_overlapping_bits p 0 sb g) (extract_overlapping_bits 0 n sb g).
Proof.
  unfold extract_overlapping_bits. change (schar 0) with 0.
  rewrite Z.shiftr_0_l, Z.shiftl_0_l, !Z.land_0_l, Z.lor_0_r, Z.lor_0_l. by rewrite <- Z.land_lor_distr_l.
Qed.

Section Roundtrip.
Context (t : traits) (offsets : list Z) (cycle : Z).
Notation g := (group_length t).

(** What is checked of a codec by evaluation: its alphabet, the bit offsets that
    occur, the two kinds of groups at every offset, and the padding. *)
Definition alphabet_ok : bool :=
  forallb (fun v => let c := tr_encode t v in
    (tr_decode t c =? v) && negb (c =? 61) && negb (isspace c)) (map Z.of_nat (seq 0 (Z.to_nat (2 ^ g)))).
Definition partial_ok (sb b : Z) : bool :=
  let v := extract_partial_bits b sb g in
  (0 <=? v) && (v <? 2 ^ g) &&
  (wrap 8 (Z.lor (high sb b) (Z.land (Z.shiftl v (8 - sb - g)) 255)) =? high (sb + g) b).
Definition overlap_ok (sb b : Z) : bool :=
  let next := sb + g - 8 in
  let v1 := extract_overlapping_bits b 0 sb g in
  let v2 := extract_overlapping_bits 0 b sb g in
  (0 <=? v1) && (v1 <? 2 ^ g) && (0 <=? v2) && (v2 <? 2 ^ next) &&
  (wrap 8 (Z.lor (high sb b) (Z.shiftr v1 next)) =? b) &&
  (Z.land (Z.shiftl v1 (8 - next)) 255 =? 0) && (Z.land (Z.shiftl v2 (8 - next)) 255 =? high next b).
Definition pad_ok (sb : Z) : bool :=
  match pad_loop t 8 sb with
  | Ret l => forallb (Z.eqb 61) l && ((Z.of_nat (length l) * g + sb) mod 8 =? 0) &&
             (Z.of_nat (length l) * g + sb <=? cycle - 8)
  | _ => false
  end.
Definition offset_ok (sb : Z) : bool :=
  (0 <=? sb) && (sb <? 8) && ((g <=? sb) || pad_ok sb) &&
  if sb + g <? 8 then existsb (Z.eqb (sb + g)) offsets && forallb (partial_ok sb) all_bytes
  else existsb (Z.eqb (sb + g - 8)) offsets && forallb (overlap_ok sb) all_bytes.
Definition codec_ok : bool :=
  (4 <=? g) && (g <? 8) && (8 <=? cycle) && alphabet_ok && existsb (Z.eqb 0) offsets && forallb offset_ok offsets.

Context (ok : codec_ok = true).

Lemma codec_parts : 4 <= g < 8 /\ 8 <= cycle /\ alphabet_ok = true /\ 0 ∈ offsets /\
  forall sb, sb ∈ offsets -> offset_ok sb = true.
Proof.
  pose proof ok as H. unfold codec_ok in H. rewrite !andb_true_iff, existsb_exists, forallb_forall in H.
  destruct H as (((((H1 & H2) & H3) & H4) & x & Hx & E) & H5). apply Z.eqb_eq in E as <-.
  split; [lia|]. split; [lia|]. split; [done|]. split; [by apply list_elem_of_In|].
  intros sb Hs. by apply H5, list_elem_of_In.
Qed.

Lemma alphabet_back v : 0 <= v < 2 ^ g ->
  tr_decode t (tr_encode t v) = v /\ (tr_encode t v =? 61) = false /\ isspace (tr_encode t v) = false.
Proof.
  intros Hv. destruct codec_parts as (_ & _ & Ha & _). unfold alphabet_ok in Ha. rewrite forallb_forall in Ha.
  specialize (Ha v). rewrite !andb_true_iff, Z.eqb_eq, !negb_true_iff in Ha.
  destruct Ha as ((? & ?) & ?); [|done].
  apply in_map_iff. exists (Z.to_nat v). split; [lia|]. apply in_seq. lia.
Qed.

(** How the decoder takes a group that ends inside the current byte, and one
    that fills it. *)
Lemma decode_partial sb b r : sb ∈ offsets -> byte_ok b -> sb + g < 8 ->
  decode_loop t (tr_encode t (extract_partial_bits b sb g) :: r) sb (high sb b) 0 =
  decode_loop t r (sb + g) (high (sb + g) b) 0 /\ (sb + g) ∈ offsets.
Proof.
  intros Hs Hb Hl. destruct codec_parts as (Hg & _ & _ & _ & Ho). specialize (Ho _ Hs). unfold offset_ok in Ho.
  rewrite (proj2 (Z.ltb_lt (sb + g) 8)) in Ho by lia. rewrite !andb_true_iff, existsb_exists in Ho.
  destruct Ho as (((? & ?) & _) & (x & Hx & <-%Z.eqb_eq) & Hp). split; [|by apply list_elem_of_In].
  pose proof (forall_bytes _ Hp b Hb) as Hv. unfold partial_ok in Hv. rewrite !andb_true_iff, Z.eqb_eq in Hv.
  destruct Hv as ((? & ?) & Hv). set (v := extract_partial_bits b sb g) in *.
  destruct (alphabet_back v ltac:(lia)) as (E1 & E2 & E3). cbn [decode_loop]. rewrite E2, E3, E1.
  rewrite (proj2 (Z.eqb_neq v (-1))) by lia. rewrite Z.min_l by lia. replace (sb + g - sb) with g by lia.
  rewrite Z.eqb_refl, Hv. by rewrite (proj2 (Z.eqb_neq (sb + g) 8)) by lia.
Qed.

Lemma decode_overlap sb b n r : sb ∈ offsets -> byte_ok b -> byte_ok n -> 8 <= sb + g ->
  decode_loop t (tr_encode t (extract_overlapping_bits b n sb g) :: r) sb (high sb b) 0 =
  b :: decode_loop t r (sb + g - 8) (high (sb + g - 8) n) 0 /\ (sb + g - 8) ∈ offsets.
Proof.
  intros Hs Hb Hn Hl. destruct codec_parts as (Hg & _ & _ & _ & Ho). specialize (Ho _ Hs). unfold offset_ok in Ho.
  rewrite (proj2 (Z.ltb_ge (sb + g) 8)) in Ho by lia. rewrite !andb_true_iff, existsb_exists in Ho.
  destruct Ho as (((? & ?) & _) & (x & Hx & <-%Z.eqb_eq) & Hp). split; [|by apply list_elem_of_In].
  pose proof (forall_bytes _ Hp b Hb) as Hv. pose proof (forall_bytes _ Hp n Hn) as Hw.
  unfold overlap_ok in Hv, Hw. rewrite !andb_true_iff, !Z.eqb_eq in Hv, Hw. rewrite overlapping_parts.
  set (next := sb + g - 8) in *.
  destruct Hv as ((((((? & ?) & _) & _) & Hv1) & Hv2) & _). destruct Hw as ((((((_ & _) & ?) & ?) & _) & _) & Hw).
  set (v1 := extract_overlapping_bits b 0 sb g) in *. set (v2 := extract_overlapping_bits 0 n sb g) in *.
  assert (2 ^ next <= 2 ^ g) by (apply Z.pow_le_mono_r; lia).
  pose proof (lor_bound g v1 v2 ltac:(lia) ltac:(lia) ltac:(lia)) as Hb2.
  destruct (alphabet_back (Z.lor v1 v2) Hb2) as (E1 & E2 & E3). cbn [decode_loop]. rewrite E2, E3, E1.
  rewrite (proj2 (Z.eqb_neq (Z.lor v1 v2) (-1))) by lia. rewrite Z.min_r by lia.
  assert (Z.shiftr v2 next = 0) as Hz by (rewrite Z.shiftr_div_pow2 by lia; apply Z.div_small; lia).
  destruct (Z.eqb_spec (8 - sb) g) as [E|Hne].
  - assert (next = 0) as Hnx by lia. assert (v2 = 0) as Ev2.
    { assert (2 ^ next = 1) by (rewrite Hnx; reflexivity). lia. }
    rewrite Ev2, Z.lor_0_r, Hnx, E, Z.sub_diag, Z.shiftl_0_r.
    assert (2 ^ g <= 2 ^ 8) by (apply Z.pow_le_mono_r; lia).
    change 255 with (Z.ones 8). rewrite Z.land_ones, Z.mod_small by lia.
    rewrite Hnx, Z.shiftr_0_r in Hv1. rewrite Hv1. replace (sb + g) with 8 by lia.
    cbn [Z.eqb Pos.eqb]. f_equal. f_equal. unfold high. by rewrite Z.land_0_r.
  - replace (g - (8 - sb)) with next by lia.
    rewrite Z.shiftr_lor, Hz, Z.lor_0_r, Hv1, Z.shiftl_lor, Z.land_lor_distr_l, Hv2, Z.lor_0_l, Hw. done.
Qed.

Lemma decode_pads l ocb buffer n : Forall (eq 61) l ->
  decode_loop t l ocb buffer n = decode_loop t [] ocb buffer (n + Z.of_nat (length l)).
Proof.
  intros Hl. revert n. induction Hl as [|c l <- _ IH]; intros n; [by rewrite Z.add_0_r|].
  change (decode_loop t (61 :: l) ocb buffer n) with (decode_loop t l ocb buffer (n + 1)).
  rewrite IH. f_equal. cbn [length]. lia.
Qed.

(** What is left of the text, from the encoder's offset on: the text ends, the
    decoder gives back the bytes, and the number of groups is the least that
    covers them and ends at a byte. *)
Definition codes (s r : list Z) (sb : Z) : Prop :=
  decode_loop t r sb (high sb (hd 0 s)) 0 = s /\ (Z.of_nat (length r) * g + sb) mod 8 = 0 /\
  8 * Z.of_nat (length s) <= Z.of_nat (length r) * g + sb <= 8 * Z.of_nat (length s) + cycle - 8.

Lemma pads_code sb : sb ∈ offsets -> sb < g -> exists r, pad_loop t 8 sb = Ret r /\ codes [] r sb.
Proof.
  intros Hs Hl. destruct codec_parts as (_ & _ & _ & _ & Ho). specialize (Ho _ Hs). unfold offset_ok in Ho.
  rewrite !andb_true_iff in Ho. destruct Ho as (((H0 & H8) & Hp) & _).
  rewrite (proj2 (Z.leb_gt g sb)) in Hp by lia. cbn [orb] in Hp. unfold pad_ok in Hp.
  destruct (pad_loop t 8 sb) as [r| | |]; try done. rewrite !andb_true_iff, Z.eqb_eq, forallb_forall in Hp.
  destruct Hp as ((Hr & Hm) & Hc). exists r. split; [done|]. unfold codes. cbn [length hd].
  split; [|split; [done|destruct codec_parts as (? & _); lia]].
  rewrite decode_pads; [|apply Forall_forall; intros x Hx; by apply Z.eqb_eq, Hr, list_elem_of_In].
  cbn [decode_loop]. destruct (negb (sb =? 0)); [|done].
  rewrite Z.add_0_l. change 7 with (Z.ones 3). rewrite Z.land_ones by lia. change (2 ^ 3) with 8. by rewrite Hm.
Qed.

Lemma encode_loop_codes f s sb : bytes_ok s -> sb ∈ offsets -> (s = [] -> sb < g) -> (1 <= f)%nat ->
  3 * Z.of_nat (length s) + 1 <= Z.of_nat f + (if 8 <=? sb + g then 1 else 0) ->
  exists r, encode_loop t f s sb None = Ret r /\ codes s r sb.
Proof.
  revert s sb. induction f as [f IH] using lt_wf_ind. intros s sb Hb Hs He H1 Hf.
  destruct f as [|f]; [lia|]. destruct Hb as [|b s Hb Hbs]; cbn [encode_loop]; [by apply pads_code; auto|].
  cbn [length] in Hf. destruct codec_parts as (Hg & _ & _ & _ & Ho).
  pose proof (Ho _ Hs) as H8. unfold offset_ok in H8. rewrite !andb_true_iff in H8. destruct H8 as (((? & ?) & _) & _).
  destruct (Z.ltb_spec (sb + g) 8) as [Hl|Hl].
  - rewrite (proj2 (Z.leb_gt 8 (sb + g))) in Hf by lia.
    destruct (decode_partial sb b [] Hs Hb Hl) as (_ & Hn).
    destruct (IH f ltac:(lia) (b :: s) (sb + g)) as (r & -> & Hd & Hm & Hc);
      [by constructor|done|done|lia|cbn [length]; destruct (Z.leb_spec 8 (sb + g + g)); lia|].
    cbn [obind]. eexists. split; [done|]. unfold codes. cbn [hd length].
    rewrite (proj1 (decode_partial sb b r Hs Hb Hl)). split; [exact Hd|].
    rewrite Nat2Z.inj_succ. replace (Z.succ (Z.of_nat (length r)) * g + sb) with (Z.of_nat (length r) * g + (sb + g)) by lia.
    done.
  - rewrite (proj2 (Z.leb_le 8 (sb + g))) in Hf by lia. destruct f as [|f]; [lia|]. cbn [encode_loop].
    set (n := match s with [] => 0 | x :: _ => x end).
    assert (byte_ok n) as Hn by (unfold n; destruct Hbs; [by unfold byte_ok|done]).
    destruct (decode_overlap sb b n [] Hs Hb Hn Hl) as (_ & Ho').
    replace (Z.rem (sb + g) 8) with (sb + g - 8)
      by (symmetry; rewrite Z.rem_mod_nonneg by lia; symmetry; apply (Z.mod_unique_pos _ _ 1); lia).
    destruct (IH f ltac:(lia) s (sb + g - 8)) as (r & -> & Hd & Hm & Hc); [done|done|lia|lia|destruct (8 <=? sb + g - 8 + g); lia|].
    cbn [obind]. eexists. split; [done|]. unfold codes. cbn [hd length].
    rewrite (proj1 (decode_overlap sb b n r Hs Hb Hn Hl)). replace n with (hd 0 s) by (by destruct s). rewrite Hd.
    rewrite !Nat2Z.inj_succ.
    replace (Z.succ (Z.of_nat (length r)) * g + sb) with (Z.of_nat (length r) * g + (sb + g - 8) + 1 * 8) by lia.
    rewrite Z.mod_add by lia. split; [done|]. split; [done|lia].
Qed.

Lemma encode_codes s : bytes_ok s -> exists r, encode t s = Ret r /\ decode t r = s /\
  (Z.of_nat (length r) * g) mod 8 = 0 /\ 8 * Z.of_nat (length s) <= Z.of_nat (length r) * g < 8 * Z.of_nat (length s) + cycle.
Proof.
  intros Hb. destruct codec_parts as (Hg & Hc & _ & H0 & _).
  destruct (encode_loop_codes (S (4 * length s)) s 0 Hb H0) as (r & E & Hd & Hm & Hl); [lia|lia|destruct (8 <=? 0 + g); lia|].
  exists r. split; [exact E|]. rewrite Z.add_0_r in Hm, Hl. split; [|split; [done|lia]].
  unfold decode. etransitivity; [|exact Hd]. unfold high. change (256 - 2 ^ (8 - 0)) with 0. by rewrite Z.land_0_r.
Qed.
End Roundtrip.

Lemma b16_ok : codec_ok b16_traits [0; 4] 8 = true.
Proof. vm_compute. reflexivity. Qed.
Lemma b32_ok : codec_ok b32_traits [0; 1; 2; 3; 4; 5; 6; 7] 40 = true.
Proof. vm_compute. reflexivity. Qed.
Lemma b64_ok : codec_ok b64_traits [0; 2; 4; 6] 24 = true.
Proof. vm_compute. reflexivity. Qed.

(** C40. Base 64, base 32 and base 16: the text of any bytes has the promised
    length, encoding always ends, and decoding gives the bytes back. *)
Theorem Basen_roundtrip s : bytes_ok s ->
  let n := Z.of_nat (length s) in
  (exists r, encode_b64 s = Ret r /\ decode_b64 r = s /\ Z.of_nat (length r) = encoded_size64 n) /\
  (exists r, encode_b32 s = Ret r /\ decode_b32 r = s /\ Z.of_nat (length r) = encoded_size32 n) /\
  (exists r, encode_b16 s = Ret r /\ decode_b16 r = s /\ Z.of_nat (length r) = encoded_size16 n).
Proof.
  intros Hb. unfold encoded_size64, encoded_size32, encoded_size16.
  destruct (encode_codes _ _ _ b64_ok s Hb) as (r6 & E6 & D6 & M6 & L6).
  destruct (encode_codes _ _ _ b32_ok s Hb) as (r5 & E5 & D5 & M5 & L5).
  destruct (encode_codes _ _ _ b16_ok s Hb) as (r4 & E4 & D4 & M4 & L4).
  cbn [group_length b64_traits b32_traits b16_traits] in *.
  split; [exists r6|split; [exists r5|exists r4]]; (split; [done|split; [done|]]); Z.to_euclidean_division_equations; lia.
Qed.
Lemma Basen_roundtrip_witness : encode_b64 (to_bytes "any carnal pleas") = Ret (to_bytes "YW55IGNhcm5hbCBwbGVhcw==") /\
  decode_b64 (to_bytes "YW55IGNhcm5hbCBwbGVhcw==") = to_bytes "any carnal pleas".
Proof.
  destruct (Basen_roundtrip (to_bytes "any carnal pleas") (to_bytes_ok _)) as ((r & E & D & _) & _).
  assert (encode_b64 (to_bytes "any carnal pleas") = Ret (to_bytes "YW55IGNhcm5hbCBwbGVhcw==")) as E' by (vm_compute; reflexivity).
  split; [exact E'|]. rewrite E in E'. injection E' as ->. exact D.
Defined.
