(* ===== verification/Base58.v ===== *)
(** Base 58: [utils::Base58] (src/utils/crypto.cpp), the text form of the
    agent's keys and addresses.

    The two conversions keep a vector of digits and multiply and add into it
    from its rear end; the model holds that vector rear end first. *)

From Stdlib Require Import Floats.SpecFloat.
From S2P Require Import Prelude.

Definition kBase58Dictionary : list Z :=
  to_bytes "123456789AbCDEFGHJKLMNPQRSTuVWXYZaBcdefghijkmnopqrstUvwxyz".
Definition kBase58digits : list Z :=
  [-1; -1; -1; -1; -1; -1; -1; -1; -1; -1; -1; -1; -1; -1; -1; -1;
   -1; -1; -1; -1; -1; -1; -1; -1; -1; -1; -1; -1; -1; -1; -1; -1;
   -1; -1; -1; -1; -1; -1; -1; -1; -1; -1; -1; -1; -1; -1; -1; -1;
   -1; 0; 1; 2; 3; 4; 5; 6; 7; 8; -1; -1; -1; -1; -1; -1;
   -1; 9; 34; 11; 12; 13; 14; 15; 16; -1; 17; 18; 19; 20; 21; -1;
   22; 23; 24; 25; 26; 52; 28; 29; 30; 31; 32; -1; -1; -1; -1; -1;
   -1; 33; 10; 35; 36; 37; 38; 39; 40; 41; 42; 43; -1; 44; 45; 46;
   47; 48; 49; 50; 51; 27; 53; 54; 55; 56; 57; -1; -1; -1; -1; -1].

(** The inner loop of both: every digit times [m], plus the carry. *)
Fixpoint carry_into (b m : Z) (v : list Z) (carry : Z) : list Z :=
  match v with
  | [] => []
  | d :: r => let t := carry + m * d in (t mod b) :: carry_into b m r (t / b)
  end.

(** The front of a text: how many items equal to [z], and what is left. *)
Fixpoint count_front (z : Z) (s : list Z) : nat :=
  match s with c :: r => if c =? z then S (count_front z r) else O | [] => O end.
Definition skip_front (z : Z) (s : list Z) : list Z := drop (count_front z s) s.

(** [first_no_zero] is the place of the last leading zero, not the next one. *)
Definition encode_digits (str_in : list Z) : list Z :=
  foldl (fun b58 byte => carry_into 58 256 b58 byte)
    (replicate (Z.to_nat (Z.of_nat (length str_in) * 138 / 100 + 1)) 0)
    (drop (Nat.pred (count_front 0 str_in)) str_in).
Definition Base58_Encode (str_in : list Z) : list Z :=
  replicate (count_front 0 str_in) 49 ++
  map (nthZ kBase58Dictionary) (skip_front 0 (rev (encode_digits str_in))).

(** The size of the decoder's vector, [left_size * log2(58.0) / 8 + 2], in
    double precision and cut to an integer.  [log2_58] is the double nearest
    to the logarithm. *)
Definition log2_58 : spec_float := S754_finite false 6595500256699995 (-50).
Definition double (n : Z) : spec_float := binary_normalize 53 1024 n 0 false.
Definition cut (f : spec_float) : Z :=
  match f with S754_finite false m e => Z.shiftl (Zpos m) e | _ => 0 end.
Definition decoded_size (left_size : Z) : Z :=
  cut (SFadd 53 1024 (SFdiv 53 1024 (SFmul 53 1024 (double left_size) log2_58) (double 8)) (double 2)).

(** A character's digit: the table has 128 entries, a byte from 128 on is a
    negative index; a character of no digit has -1, read back as 255. *)
Definition digit_of (c : Z) : outcome Z :=
  if c <? 128 then Ret (wrap 8 (nthZ kBase58digits c)) else Undef OutOfRange.
Fixpoint decode_digits (s : list Z) (tmp_str : list Z) : outcome (list Z) :=
  match s with
  | [] => Ret tmp_str
  | c :: r => let? carry := digit_of c in decode_digits r (carry_into 256 58 tmp_str carry)
  end.
(** The returned count, and the bytes. *)
Definition Base58_Decode_out (strIn : list Z) : outcome (Z * list Z) :=
  let nZeros := count_front 49 strIn in
  let left := drop nZeros strIn in
  let? v := decode_digits left (replicate (Z.to_nat (decoded_size (Z.of_nat (length left)))) 0) in
  let tmp_str := skip_front 0 (rev v) in
  Ret (Z.of_nat nZeros + Z.of_nat (length tmp_str), replicate nZeros 0 ++ tmp_str).
Definition Base58_Decode (strIn : list Z) : outcome (list Z) :=
  let? r := Base58_Decode_out strIn in Ret r.2.

Example encode_sample : Base58_Encode [0; 0; 40; 127; 180; 205] = to_bytes "11233QC4".
Proof. vm_compute. reflexivity. Qed.
Example decode_sample : Base58_Decode (to_bytes "11233QC4") = Ret [0; 0; 40; 127; 180; 205].
Proof. vm_compute. reflexivity. Qed.

(** ** Digit vectors *)

(** The value of a vector, rear end first. *)
Fixpoint value (b : Z) (v : list Z) : Z :=
  match v with [] => 0 | d :: r => d + b * value b r end.
Definition digits_ok (b : Z) (v : list Z) : Prop := Forall (fun d => 0 <= d < b) v.

Section Digits.
Context (b : Z) (b_big : 1 < b).

Lemma value_app u v : value b (u ++ v) = value b u + b ^ Z.of_nat (length u) * value b v.
Proof.
  induction u as [|d u IH]; [cbn; lia|]. cbn [app value length]. rewrite IH, Nat2Z.inj_succ, Z.pow_succ_r by lia. lia.
Qed.
Lemma value_zeros n : value b (replicate n 0) = 0.
Proof. induction n as [|n IH]; [done|]. cbn [replicate value]. rewrite IH. lia. Qed.
Lemma value_bound v : digits_ok b v -> 0 <= value b v < b ^ Z.of_nat (length v).
Proof.
  induction 1 as [|d v Hd _ IH]; [cbn; lia|]. cbn [value length]. rewrite Nat2Z.inj_succ, Z.pow_succ_r by lia. nia.
Qed.

Lemma length_carry_into m v c : length (carry_into b m v c) = length v.
Proof. revert c. induction v as [|d v IH]; intros c; [done|]. cbn [carry_into length]. by rewrite IH. Qed.
Lemma carry_into_ok m v c : digits_ok b (carry_into b m v c).
Proof.
  revert c. induction v as [|d v IH]; intros c; [constructor|]. constructor; [apply Z.mod_pos_bound; lia|apply IH].
Qed.
(** Multiply and add, as far as the vector goes. *)
Lemma value_carry_into m v c :
  value b (carry_into b m v c) = (m * value b v + c) mod b ^ Z.of_nat (length v).
Proof.
  revert c. induction v as [|d v IH]; intros c; [cbn; by rewrite Z.mod_1_r|].
  cbn [carry_into value length]. rewrite IH, Nat2Z.inj_succ, Z.pow_succ_r by lia.
  pose proof (Z.pow_pos_nonneg b (Z.of_nat (length v)) ltac:(lia) ltac:(lia)) as Hp.
  replace (m * (d + b * value b v) + c) with (c + m * d + m * value b v * b) by lia.
  rewrite Z.rem_mul_r, Z.mod_add, Z.div_add by lia. do 3 f_equal. lia.
Qed.
Lemma carry_into_fits m v c k :
  0 <= m * value b v + c < b ^ Z.of_nat k -> length v = k -> value b (carry_into b m v c) = m * value b v + c.
Proof. intros Hb <-. rewrite value_carry_into. by apply Z.mod_small. Qed.

(** Leading zeros aside, a number has one vector. *)
Lemma value_inj u v : length u = length v -> digits_ok b u -> digits_ok b v -> value b u = value b v -> u = v.
Proof.
  intros Hl Hu. revert v Hl. induction Hu as [|d u Hd _ IH]; intros [|e v] Hl Hv E; try done.
  apply Forall_cons in Hv as [He Hv]. cbn [value length] in *.
  assert (d = e) as <-.
  { apply (f_equal (fun x => x mod b)) in E. rewrite !(Z.mul_comm b), !Z.mod_add, !Z.mod_small in E by lia. done. }
  f_equal. apply IH; [congruence|done|]. apply (Z.mul_reg_l _ _ b); lia.
Qed.
End Digits.

Lemma count_front_le z s : (count_front z s <= length s)%nat.
Proof. induction s as [|c s IH]; [done|]. cbn. destruct (c =? z); lia. Qed.
Lemma count_front_split z s : s = replicate (count_front z s) z ++ skip_front z s.
Proof.
  induction s as [|c s IH]; [done|]. unfold skip_front. cbn [count_front]. destruct (Z.eqb_spec c z) as [->|Hc]; [|done].
  cbn [replicate app drop]. f_equal. exact IH.
Qed.
Lemma count_front_app z n s : hd (z + 1) s <> z -> count_front z (replicate n z ++ s) = n /\ skip_front z (replicate n z ++ s) = s.
Proof.
  intros Hs. assert (count_front z (replicate n z ++ s) = n) as E.
  { induction n as [|n IH]; cbn [replicate app count_front].
    - destruct s as [|c s]; [done|]. cbn in *. by rewrite (proj2 (Z.eqb_neq c z) Hs).
    - by rewrite Z.eqb_refl, IH. }
  split; [done|]. unfold skip_front. rewrite E, drop_app_length'; [done|]. by rewrite length_replicate.
Qed.
Lemma skip_front_hd z s : hd (z + 1) (skip_front z s) <> z.
Proof.
  induction s as [|c s IH]; [cbn; lia|]. unfold skip_front. cbn [count_front].
  destruct (Z.eqb_spec c z) as [->|Hc]; [exact IH|exact Hc].
Qed.

(** ** The numbers of texts *)

(** The number a text spells, front end first. *)
Notation number b s := (value b (rev s)).

Lemma number_snoc b s c : number b (s ++ [c]) = c + b * number b s.
Proof. by rewrite rev_app_distr. Qed.
Lemma number_cons b s c : number b (c :: s) = number b s + b ^ Z.of_nat (length s) * c.
Proof. cbn [rev]. rewrite value_app, length_rev. cbn. lia. Qed.
Lemma rev_replicate {A} n (a : A) : rev (replicate n a) = replicate n a.
Proof.
  induction n as [|n IH]; [done|]. cbn [replicate rev]. rewrite IH. change [a] with (replicate 1 a).
  rewrite <- replicate_add, Nat.add_comm. done.
Qed.
Lemma number_front b z s : number b (replicate z 0 ++ s) = number b s.
Proof. by rewrite rev_app_distr, value_app, rev_replicate, value_zeros, Z.mul_0_r, Z.add_0_r. Qed.
Lemma number_skip b s : number b (skip_front 0 s) = number b s.
Proof. rewrite (count_front_split 0 s) at 2. by rewrite number_front. Qed.
Lemma digits_ok_skip b z s : digits_ok b s -> digits_ok b (skip_front z s).
Proof. apply Forall_drop. Qed.
Lemma digits_ok_rev b s : digits_ok b s -> digits_ok b (rev s).
Proof. apply Forall_rev. Qed.

Section Numbers.
Context (b m : Z) (b_big : 1 < b) (m_big : 1 < m).

Lemma fold_carry k s v : digits_ok m s -> digits_ok b v -> length v = k ->
  value b v * m ^ Z.of_nat (length s) + number m s < b ^ Z.of_nat k ->
  let u := foldl (carry_into b m) v s in
  digits_ok b u /\ length u = k /\ value b u = value b v * m ^ Z.of_nat (length s) + number m s.
Proof.
  intros Hs. revert v. induction Hs as [|c s Hc Hs IH]; intros v Hv Hk Hb; cbn [foldl].
  { cbn in *. split; [done|]. split; [done|]. lia. }
  rewrite number_cons in *. cbn [length] in *. rewrite Nat2Z.inj_succ, Z.pow_succ_r in * by lia.
  pose proof (value_bound m m_big (rev s) (digits_ok_rev _ _ Hs)) as Hr. rewrite length_rev in Hr.
  pose proof (value_bound b b_big v Hv) as Hv'.
  set (p := m ^ Z.of_nat (length s)) in *. assert (0 < p) by (subst p; apply Z.pow_pos_nonneg; lia).
  assert (value b (carry_into b m v c) = m * value b v + c) as E by (apply (carry_into_fits b b_big m v c k); [nia|done]).
  destruct (IH (carry_into b m v c)) as (H1 & H2 & H3).
  - by apply carry_into_ok.
  - by rewrite length_carry_into.
  - rewrite E. fold p. nia.
  - split; [done|]. split; [done|]. rewrite H3, E. fold p. lia.
Qed.

(** A text without leading zeros is determined by its number. *)
Lemma number_lower c s : digits_ok b (c :: s) -> c <> 0 -> b ^ Z.of_nat (length s) <= number b (c :: s).
Proof.
  intros [Hc Hs]%Forall_cons Hn. rewrite number_cons.
  pose proof (value_bound b b_big (rev s) (digits_ok_rev _ _ Hs)).
  assert (0 < b ^ Z.of_nat (length s)) by (apply Z.pow_pos_nonneg; lia). nia.
Qed.
Lemma number_length u v : digits_ok b u -> digits_ok b v -> hd 1 u <> 0 -> hd 1 v <> 0 ->
  number b u = number b v -> (length u <= length v)%nat.
Proof.
  intros Hu Hv Nu Nv E. destruct u as [|c u]; [cbn; lia|]. cbn [hd length] in *.
  pose proof (number_lower c u Hu Nu) as Hl. rewrite E in Hl.
  pose proof (value_bound b b_big (rev v) (digits_ok_rev _ _ Hv)) as Hb. rewrite length_rev in Hb.
  assert (Z.of_nat (length u) < Z.of_nat (length v)) by (apply (Z.pow_lt_mono_r_iff b); lia). lia.
Qed.
Lemma number_inj u v : digits_ok b u -> digits_ok b v -> hd 1 u <> 0 -> hd 1 v <> 0 ->
  number b u = number b v -> u = v.
Proof.
  intros Hu Hv Nu Nv E. rewrite <- (rev_involutive u), <- (rev_involutive v). f_equal.
  apply (value_inj b b_big); try by apply digits_ok_rev. 2: done.
  rewrite !length_rev. apply Nat.le_antisymm; by apply number_length.
Qed.
End Numbers.

(** ** Encoding *)

(** The vector is long enough: 58^138 exceeds 256^100. *)
Lemma encode_room n : 0 <= n -> 256 ^ n <= 58 ^ (n * 138 / 100 + 1).
Proof.
  intros Hn. set (k := n * 138 / 100). assert (n * 138 <= 100 * (k + 1)).
  { pose proof (Z.div_mod (n * 138) 100 ltac:(lia)). pose proof (Z.mod_pos_bound (n * 138) 100 ltac:(lia)). lia. }
  assert (0 <= k) by (apply Z.div_pos; lia).
  apply (Z.pow_le_mono_l_iff _ _ 100); [lia|lia|lia|]. rewrite <- !Z.pow_mul_r by lia.
  transitivity (58 ^ (138 * n)).
  - rewrite (Z.mul_comm n 100), !Z.pow_mul_r by lia. apply Z.pow_le_mono_l. split; [lia|]. vm_compute; discriminate.
  - apply Z.pow_le_mono_r; lia.
Qed.
Lemma encode_digits_spec s : bytes_ok s ->
  digits_ok 58 (encode_digits s) /\ value 58 (encode_digits s) = number 256 s /\
  length (encode_digits s) = Z.to_nat (Z.of_nat (length s) * 138 / 100 + 1).
Proof.
  intros Hs. unfold encode_digits. set (k := Z.to_nat _). set (t := drop _ s).
  assert (number 256 t = number 256 s) as En.
  { subst t. rewrite (count_front_split 0 s) at 2 3.
    rewrite drop_app_le by (rewrite length_replicate; lia). by rewrite drop_replicate, !number_front. }
  assert (digits_ok 256 t) as Ht by by apply Forall_drop.
  destruct (fold_carry 58 256 ltac:(lia) ltac:(lia) k t (replicate k 0)) as (H1 & H2 & H3).
  - done.
  - apply Forall_replicate. lia.
  - apply length_replicate.
  - rewrite value_zeros, Z.mul_0_l, Z.add_0_l, En.
    pose proof (value_bound 256 ltac:(lia) (rev s) (digits_ok_rev _ _ Hs)) as Hb. rewrite length_rev in Hb.
    subst k. rewrite Z2Nat.id by (pose proof (Z.div_pos (Z.of_nat (length s) * 138) 100); lia).
    pose proof (encode_room (Z.of_nat (length s)) ltac:(lia)). lia.
  - split; [done|]. split; [|done]. etransitivity; [exact H3|]. by rewrite value_zeros, En, Z.mul_0_l.
Qed.

(** The digits an encoded text shows after its leading ones. *)
Definition shown (s : list Z) : list Z := skip_front 0 (rev (encode_digits s)).
Lemma shown_spec s : bytes_ok s ->
  digits_ok 58 (shown s) /\ number 58 (shown s) = number 256 s /\ hd 1 (shown s) <> 0 /\
  (length (shown s) <= Z.to_nat (Z.of_nat (length s) * 138 / 100 + 1))%nat.
Proof.
  intros Hs. destruct (encode_digits_spec s Hs) as (H1 & H2 & H3). unfold shown.
  split; [by apply digits_ok_skip, digits_ok_rev|]. split; [by rewrite number_skip, rev_involutive|].
  split; [exact (skip_front_hd 0 _)|]. rewrite <- H3, <- (length_rev (encode_digits s)).
  unfold skip_front. rewrite length_drop. lia.
Qed.
Lemma Base58_Encode_shown s : Base58_Encode s = replicate (count_front 0 s) 49 ++ map (nthZ kBase58Dictionary) (shown s).
Proof. reflexivity. Qed.

(** ** Decoding *)

Lemma dictionary_checked :
  forallb (fun d => match digit_of (nthZ kBase58Dictionary d) with Ret e => e =? d | _ => false end &&
                    ((d =? 0) || negb (nthZ kBase58Dictionary d =? 49)))
    (map Z.of_nat (seq 0 58)) = true.
Proof. vm_compute. reflexivity. Qed.
Lemma dictionary_digit d : 0 <= d < 58 ->
  digit_of (nthZ kBase58Dictionary d) = Ret d /\ (d <> 0 -> nthZ kBase58Dictionary d <> 49).
Proof.
  intros Hd. pose proof (proj1 (forallb_forall _ _) dictionary_checked d) as H.
  assert (List.In d (map Z.of_nat (seq 0 58))) as Hi.
  { apply in_map_iff. exists (Z.to_nat d). split; [lia|]. apply in_seq. lia. }
  specialize (H Hi). apply andb_prop in H as [H1 H2].
  destruct (digit_of _) as [e| | |]; try done. apply Z.eqb_eq in H1 as ->. split; [done|].
  intros Hn. apply orb_prop in H2 as [H2|H2]; lia.
Qed.

Lemma decode_digits_shown D v : digits_ok 58 D ->
  decode_digits (map (nthZ kBase58Dictionary) D) v = Ret (foldl (carry_into 256 58) v D).
Proof.
  intros HD. revert v. induction HD as [|d D Hd _ IH]; intros v; [done|]. cbn [map decode_digits].
  rewrite (proj1 (dictionary_digit d Hd)). apply IH.
Qed.

(** Decoding of the dictionary's image of any digits, whatever the vector's
    size, as long as it is enough. *)
Lemma decode_shown z D : digits_ok 58 D -> hd 1 D <> 0 ->
  58 ^ Z.of_nat (length D) <= 256 ^ Z.of_nat (Z.to_nat (decoded_size (Z.of_nat (length D)))) ->
  exists tmp, digits_ok 256 tmp /\ number 256 tmp = number 58 D /\ hd 1 tmp <> 0 /\
    Base58_Decode_out (replicate z 49 ++ map (nthZ kBase58Dictionary) D) =
      Ret (Z.of_nat z + Z.of_nat (length tmp), replicate z 0 ++ tmp).
Proof.
  intros HD Hh Hroom. set (k := Z.to_nat (decoded_size (Z.of_nat (length D)))) in *.
  destruct (fold_carry 256 58 ltac:(lia) ltac:(lia) k D (replicate k 0)) as (H1 & H2 & H3).
  - done.
  - apply Forall_replicate. lia.
  - apply length_replicate.
  - rewrite value_zeros, Z.mul_0_l, Z.add_0_l.
    pose proof (value_bound 58 ltac:(lia) (rev D) (digits_ok_rev _ _ HD)) as Hb. rewrite length_rev in Hb. lia.
  - set (v := foldl _ _ _) in *. exists (skip_front 0 (rev v)).
    split; [by apply digits_ok_skip, digits_ok_rev|].
    split; [by rewrite number_skip, rev_involutive, H3, value_zeros|]. split; [exact (skip_front_hd 0 _)|].
    unfold Base58_Decode_out.
    destruct (count_front_app 49 z (map (nthZ kBase58Dictionary) D)) as [Ez _].
    { destruct HD as [|d D Hd HD]; [done|]. cbn in *. by apply dictionary_digit. }
    rewrite Ez, drop_app_length' by by rewrite length_replicate.
    rewrite length_map, decode_digits_shown by done. fold k. fold v. reflexivity.
Qed.

(** Enough for every text up to 1400 characters after its leading ones. *)
Fixpoint room_up_to (n : nat) (l p : Z) : bool :=
  match n with
  | O => true
  | S n => (p <=? Z.shiftl 1 (8 * decoded_size l)) && (0 <=? decoded_size l) && room_up_to n (l + 1) (p * 58)
  end.
Lemma room_up_to_spec n l : 0 <= l -> room_up_to n l (58 ^ l) = true ->
  forall i, l <= i < l + Z.of_nat n -> 58 ^ i <= 256 ^ Z.of_nat (Z.to_nat (decoded_size i)).
Proof.
  revert l. induction n as [|n IH]; intros l Hl H i Hi; [lia|]. cbn [room_up_to] in H.
  apply andb_prop in H as [[H1 H2]%andb_prop H3].
  destruct (Z.eq_dec i l) as [->|Hn].
  - rewrite Z2Nat.id by lia. apply Z.leb_le in H1. rewrite Z.shiftl_1_l, Z.pow_mul_r in H1 by lia. exact H1.
  - apply (IH (l + 1)); [lia| |lia]. rewrite Z.pow_add_r by lia. exact H3.
Qed.
Lemma room_checked : room_up_to 1401 0 1 = true.
Proof. vm_compute. reflexivity. Qed.

Lemma decode_encode s : bytes_ok s -> (length s <= 1000)%nat ->
  Base58_Decode_out (Base58_Encode s) = Ret (Z.of_nat (length s), s).
Proof.
  intros Hs Hl. rewrite Base58_Encode_shown. destruct (shown_spec s Hs) as (HD & En & Hh & Hlen).
  destruct (decode_shown (count_front 0 s) (shown s) HD Hh) as (tmp & Ht & Et & Hth & ->).
  { apply (room_up_to_spec 1401 0); [lia|exact room_checked|].
    assert (Z.of_nat (length s) * 138 / 100 <= 1380) by (apply Z.div_le_upper_bound; lia).
    pose proof (Z.div_pos (Z.of_nat (length s) * 138) 100 ltac:(lia) ltac:(lia)). lia. }
  assert (tmp = skip_front 0 s) as ->.
  { apply (number_inj 256); [lia|done|by apply digits_ok_skip|done|exact (skip_front_hd 0 s)|].
    by rewrite Et, En, number_skip. }
  rewrite <- count_front_split. do 2 f_equal. rewrite (count_front_split 0 s) at 3.
  rewrite length_app, length_replicate. lia.
Qed.

(** C36. Base 58 loses nothing: decoding the encoded form of up to a thousand
    bytes gives the bytes back, leading zeros included, and returns their
    number; the vectors of both conversions are long enough. *)
Theorem Base58_roundtrip s : bytes_ok s -> (length s <= 1000)%nat ->
  Base58_Decode_out (Base58_Encode s) = Ret (Z.of_nat (length s), s).
Proof. apply decode_encode. Qed.
Lemma Base58_roundtrip_witness :
  Base58_Decode_out (Base58_Encode [0; 0; 40; 127; 180; 205]) = Ret (6, [0; 0; 40; 127; 180; 205]).
Proof. apply (Base58_roundtrip [0; 0; 40; 127; 180; 205]); [by apply (bool_decide_unpack _)|cbn; lia]. Defined.

(** ** The front of an encoded text *)
Lemma number_take b D k : 1 < b -> digits_ok b D -> (k <= length D)%nat ->
  number b (take k D) = number b D / b ^ Z.of_nat (length D - k).
Proof.
  intros Hb HD Hk. rewrite <- (take_drop k D) at 2. rewrite rev_app_distr, value_app, length_rev, length_drop.
  pose proof (value_bound b Hb (rev (drop k D)) (digits_ok_rev _ _ (Forall_drop _ _ _ HD))) as Hv.
  rewrite length_rev, length_drop in Hv.
  apply (Z.div_unique_pos _ _ _ (number b (drop k D))); [lia|]. lia.
Qed.
Lemma number_size b D l : 1 < b -> digits_ok b D -> hd 1 D <> 0 -> (0 < l)%nat ->
  b ^ Z.of_nat (l - 1) <= number b D < b ^ Z.of_nat l -> length D = l.
Proof.
  intros Hb HD Hh Hl Hn. destruct D as [|c D].
  { cbn in Hn. assert (0 < b ^ Z.of_nat (l - 1)) by (apply Z.pow_pos_nonneg; lia). lia. }
  cbn [hd] in Hh. pose proof (number_lower b Hb c D HD Hh) as H1.
  pose proof (value_bound b Hb (rev (c :: D)) (digits_ok_rev _ _ HD)) as H2. rewrite length_rev in H2. cbn [length] in *.
  assert (Z.of_nat (length D) < Z.of_nat l) by (apply (Z.pow_lt_mono_r_iff b); lia).
  assert (Z.of_nat (l - 1) < Z.of_nat (S (length D))) by (apply (Z.pow_lt_mono_r_iff b); lia). lia.
Qed.

(** Bytes whose number lies in a range that fixes the front digits. *)
Lemma shown_front s l front : bytes_ok s -> (0 < l)%nat -> (length front <= l)%nat -> digits_ok 58 front ->
  58 ^ Z.of_nat (l - 1) <= number 256 s < 58 ^ Z.of_nat l ->
  number 256 s / 58 ^ Z.of_nat (l - length front) = number 58 front ->
  length (shown s) = l /\ exists r, shown s = front ++ r.
Proof.
  intros Hs Hl Hf Hd Hn Hq. destruct (shown_spec s Hs) as (HD & En & Hh & _). rewrite <- En in Hn, Hq.
  pose proof (number_size 58 (shown s) l ltac:(lia) HD Hh Hl Hn) as E. split; [done|].
  exists (drop (length front) (shown s)). rewrite <- (take_drop (length front) (shown s)) at 1. f_equal.
  rewrite <- (rev_involutive (take _ _)), <- (rev_involutive front). f_equal.
  apply (value_inj 58); [lia|rewrite !length_rev, length_take; lia|by apply digits_ok_rev, Forall_take|by apply digits_ok_rev|].
  rewrite rev_involutive, (number_take 58 _ _ ltac:(lia) HD) by (rewrite E; lia). rewrite E. exact Hq.
Qed.

Lemma dictionary_bytes : bytes_ok kBase58Dictionary.
Proof. apply to_bytes_ok. Qed.
Lemma Base58_Encode_bytes s : bytes_ok s -> bytes_ok (Base58_Encode s).
Proof.
  intros Hs. rewrite Base58_Encode_shown. apply Forall_app. split; [apply Forall_replicate; split; lia|].
  apply Forall_map, Forall_true. intros d. unfold nthZ.
  destruct (nth_in_or_default (Z.to_nat d) kBase58Dictionary 0) as [Hi| ->]; [|split; lia].
  exact (proj1 (List.Forall_forall _ _) dictionary_bytes _ Hi).
Qed.
