(* ===== verification/Blocks.v ===== *)
(** * Hashing by blocks of 64 bytes

    What utils/sm3.cpp and the MD5 of utils/crypto.cpp have in common: a chaining
    value that takes in the whole blocks of a message, and a buffer for the rest. *)

From S2P Require Import Prelude.

(** [memcpy] into an array. *)
Definition copy_at (buf : list Z) (left : Z) (src : list Z) : list Z :=
  take (Z.to_nat left) buf ++ src ++ drop (Z.to_nat left + length src) buf.

Lemma length_copy_at buf n src : (n + length src <= length buf)%nat -> length (copy_at buf (Z.of_nat n) src) = length buf.
Proof. intros H. unfold copy_at. rewrite Nat2Z.id, !length_app, length_take, length_drop. lia. Qed.
Lemma take_copy_at buf n src : (n <= length buf)%nat ->
  take (n + length src) (copy_at buf (Z.of_nat n) src) = take n buf ++ src.
Proof.
  intros H. unfold copy_at. rewrite Nat2Z.id, app_assoc, take_app_length'; [done|].
  rewrite length_app, length_take. lia.
Qed.
Lemma take_copy_front buf src r : r = length src -> take r (copy_at buf 0 src) = src.
Proof. intros ->. apply (take_copy_at buf 0 src). lia. Qed.

(** What is left of a message after its whole blocks. *)
Definition rest (m : list Z) : list Z := drop (64 * (length m / 64)) m.
Lemma length_rest m : length (rest m) = (length m mod 64)%nat.
Proof. unfold rest. rewrite length_drop. pose proof (Nat.div_mod_eq (length m) 64). lia. Qed.

Lemma divide64 n : exists q p, (n / 64 = q /\ n mod 64 = p /\ n = 64 * q + p /\ p < 64)%nat.
Proof.
  exists (n / 64)%nat, (n mod 64)%nat. pose proof (Nat.div_mod_eq n 64). pose proof (Nat.mod_upper_bound n 64). lia.
Qed.
Lemma div64_unique q p n : (n = 64 * q + p -> p < 64 -> n / 64 = q /\ n mod 64 = p)%nat.
Proof. intros -> Hp. split; [symmetry; by apply (Nat.div_unique _ _ _ p)|symmetry; by apply (Nat.mod_unique _ _ q)]. Qed.

Section Compress.
Context {S : Type} (block : S -> list Z -> S).

(** [n] blocks of a message, from the chaining value [st]. *)
Fixpoint compress (n : nat) (st : S) (m : list Z) : S :=
  match n with O => st | Datatypes.S n => compress n (block st (take 64 m)) (drop 64 m) end.

Lemma compress_add a b st m : compress (a + b) st m = compress b (compress a st m) (drop (64 * a) m).
Proof.
  revert st m. induction a as [|a IH]; intros st m; [done|]. cbn [Nat.add compress]. rewrite IH, drop_drop.
  do 2 f_equal. lia.
Qed.
Lemma compress_take a n st m : (64 * a <= n)%nat -> compress a st (take n m) = compress a st m.
Proof.
  revert n st m. induction a as [|a IH]; intros n st m Hn; [done|]. cbn [compress].
  rewrite take_take, Nat.min_l, skipn_firstn_comm by lia. apply IH. lia.
Qed.
Lemma compress_app a st m x : (64 * a <= length m)%nat -> compress a st (m ++ x) = compress a st m.
Proof. intros Hl. by rewrite <- (compress_take a (length m)), take_app_length. Qed.

(** Taking in more is going on from what is left: with [t] the rest and the new
    bytes, the chaining value takes in the blocks of [t], and the rest of [t] is
    the rest of the whole. *)
Lemma compress_more iv m x : let t := rest m ++ x in
  compress (length (m ++ x) / 64) iv (m ++ x) = compress (length t / 64) (compress (length m / 64) iv m) t /\
  rest (m ++ x) = rest t /\ (length (m ++ x) mod 64 = length t mod 64)%nat.
Proof.
  intros t. destruct (divide64 (length m)) as (q & p & Eq & Ep & Em & Hp).
  destruct (divide64 (length t)) as (q' & p' & Eq' & Ep' & Et & Hp').
  assert (length t = p + length x)%nat as Ht by (subst t; rewrite length_app, length_rest, Ep; done).
  destruct (div64_unique (q + q') p' (length (m ++ x))) as [Ed Er]; [rewrite length_app; lia|done|].
  assert (m ++ x = take (64 * q) m ++ t) as Emx.
  { subst t. unfold rest. by rewrite Eq, app_assoc, take_drop. }
  assert (length (take (64 * q) m) = 64 * q)%nat as Htk by (rewrite length_take; lia).
  split; [|split].
  - rewrite Ed, compress_add, Eq', Eq, compress_app by lia. by rewrite Emx, drop_app_length' by done.
  - unfold rest. rewrite Ed, Eq', Emx, drop_app_ge, Htk by lia. f_equal. lia.
  - by rewrite Er, Ep'.
Qed.
End Compress.
