(* ===== verification/Sm3.v ===== *)
(** The SM3 hash: [utils::Sm3] (src/utils/sm3.cpp), its incremental interface
    and its HMAC, against the padded message of the standard.

    [ROTL] shifts by 32 and more in the rounds that rotate the constant by the
    round's number, and by 32 to the right in round 0.  The language leaves
    such shifts undefined; the model takes the amount modulo 32, as the x86
    shift instructions the program is built for do. *)

From S2P Require Import Prelude Blocks.

Definition shl32 (x n : Z) : Z := wrap 32 (Z.shiftl x (n mod 32)).
Definition shr32 (x n : Z) : Z := Z.shiftr x (n mod 32).
Definition ROTL (x n : Z) : Z := Z.lor (shl32 (Z.land x 4294967295) n) (shr32 x (32 - n)).

Definition FF0 (x y z : Z) : Z := Z.lxor (Z.lxor x y) z.
Definition FF1 (x y z : Z) : Z := Z.lor (Z.lor (Z.land x y) (Z.land x z)) (Z.land y z).
Definition GG0 (x y z : Z) : Z := Z.lxor (Z.lxor x y) z.
Definition GG1 (x y z : Z) : Z := Z.lor (Z.land x y) (Z.land (Z.lxor x 4294967295) z).
Definition P0 (x : Z) : Z := Z.lxor (Z.lxor x (ROTL x 9)) (ROTL x 17).
Definition P1 (x : Z) : Z := Z.lxor (Z.lxor x (ROTL x 15)) (ROTL x 23).

Definition GET_ULONG_BE (b : list Z) (i : Z) : Z :=
  Z.lor (Z.lor (Z.lor (shl32 (nthZ b i) 24) (shl32 (nthZ b (i + 1)) 16)) (shl32 (nthZ b (i + 2)) 8)) (nthZ b (i + 3)).
Definition PUT_ULONG_BE (n : Z) : list Z :=
  [wrap 8 (Z.shiftr n 24); wrap 8 (Z.shiftr n 16); wrap 8 (Z.shiftr n 8); wrap 8 n].

(** ** One block *)

(** [W[j]] from the words before it, for 16 and on. *)
Definition expand_word (W : list Z) (j : Z) : Z :=
  let Temp1 := Z.lxor (nthZ W (j - 16)) (nthZ W (j - 9)) in
  let Temp2 := ROTL (nthZ W (j - 3)) 15 in
  let Temp3 := Z.lxor Temp1 Temp2 in
  let Temp4 := P1 Temp3 in
  let Temp5 := Z.lxor (ROTL (nthZ W (j - 13)) 7) (nthZ W (j - 6)) in
  Z.lxor Temp4 Temp5.
Fixpoint expand (n : nat) (j : Z) (W : list Z) : list Z :=
  match n with O => W | S n => expand n (j + 1) (W ++ [expand_word W j]) end.

Record registers := mkRegs { rA : Z; rB : Z; rC : Z; rD : Z; rE : Z; rF : Z; rG : Z; rH : Z }.
Definition round (FF GG : Z -> Z -> Z -> Z) (T : Z) (W : list Z) (j : Z) (r : registers) : registers :=
  let SS1 := ROTL (wrap 32 (ROTL (rA r) 12 + rE r + ROTL T j)) 7 in
  let SS2 := Z.lxor SS1 (ROTL (rA r) 12) in
  let TT1 := wrap 32 (FF (rA r) (rB r) (rC r) + rD r + SS2 + Z.lxor (nthZ W j) (nthZ W (j + 4))) in
  let TT2 := wrap 32 (GG (rE r) (rF r) (rG r) + rH r + SS1 + nthZ W j) in
  mkRegs TT1 (rA r) (ROTL (rB r) 9) (rC r) (P0 TT2) (rE r) (ROTL (rF r) 19) (rG r).
Fixpoint rounds (FF GG : Z -> Z -> Z -> Z) (T : Z) (W : list Z) (n : nat) (j : Z) (r : registers) : registers :=
  match n with O => r | S n => rounds FF GG T W n (j + 1) (round FF GG T W j r) end.

Definition sm3_process (state : list Z) (data : list Z) : list Z :=
  let W := expand 52 16 (map (fun i => GET_ULONG_BE data (4 * Z.of_nat i)) (seq 0 16)) in
  let s i := wrap 32 (nthZ state i) in
  let r := mkRegs (s 0) (s 1) (s 2) (s 3) (s 4) (s 5) (s 6) (s 7) in
  let r := rounds FF0 GG0 2043430169 W 16 0 r in
  let r := rounds FF1 GG1 2055708042 W 48 16 r in
  zip_with Z.lxor state [rA r; rB r; rC r; rD r; rE r; rF r; rG r; rH r].

(** ** The incremental interface *)
Record sm3_context := mkSm3 {
  total0 : Z; total1 : Z;      (* unsigned long: 64 bits *)
  state : list Z;
  buffer : list Z;
  ipad : list Z; opad : list Z
}.
Definition sm3_iv : list Z :=
  [1937774191; 1226093241; 388252375; 3666478592; 2842636476; 372324522; 3817729613; 2969243214].
Definition sm3_starts (ctx : sm3_context) : sm3_context :=
  mkSm3 0 0 sm3_iv (buffer ctx) (ipad ctx) (opad ctx).

(** [while (ilen >= 64)]: the state, what is left of the input, and [ilen]. *)
Fixpoint sm3_blocks (fuel : nat) (st : list Z) (input : list Z) (ilen : Z) : outcome (list Z * list Z * Z) :=
  if 64 <=? ilen then
    match fuel with
    | O => Diverge
    | S f => sm3_blocks f (sm3_process st (take 64 input)) (drop 64 input) (ilen - 64)
    end
  else Ret (st, input, ilen).

(** [ilen] is an [int]: the callers cut the size of the data to it. *)
Definition sm3_update (ctx : sm3_context) (input : list Z) (ilen : Z) : outcome sm3_context :=
  if ilen <=? 0 then Ret ctx
  else
    let left := Z.land (total0 ctx) 63 in
    let fill := 64 - left in
    let t0 := Z.land (wrap 64 (total0 ctx + ilen)) 4294967295 in
    let t1 := if t0 <? wrap 32 ilen then wrap 64 (total1 ctx + 1) else total1 ctx in
    let '(at_, st, buf, input, ilen) :=
      if negb (left =? 0) && (fill <=? ilen) then
        let buf := copy_at (buffer ctx) left (take (Z.to_nat fill) input) in
        (0, sm3_process (state ctx) buf, buf, drop (Z.to_nat fill) input, ilen - fill)
      else (left, state ctx, buffer ctx, input, ilen) in
    let? r := sm3_blocks (length input) st input ilen in
    let '(st, input, ilen) := r in
    let buf := if 0 <? ilen then copy_at buf at_ (take (Z.to_nat ilen) input) else buf in
    Ret (mkSm3 t0 t1 st buf (ipad ctx) (opad ctx)).

Definition sm3_padding : list Z := 128 :: replicate 63 0.
Definition sm3_finish (ctx : sm3_context) : outcome (list Z * sm3_context) :=
  let high := wrap 32 (Z.lor (Z.shiftr (total0 ctx) 29) (wrap 64 (Z.shiftl (total1 ctx) 3))) in
  let low := wrap 32 (Z.shiftl (total0 ctx) 3) in
  let msglen := PUT_ULONG_BE high ++ PUT_ULONG_BE low in
  let last := Z.land (total0 ctx) 63 in
  let padn := if last <? 56 then 56 - last else 120 - last in
  let? ctx := sm3_update ctx sm3_padding padn in
  let? ctx := sm3_update ctx msglen 8 in
  Ret (flat_map PUT_ULONG_BE (state ctx), ctx).

(** The members: [Update] cuts the size to [int]; a new object's buffer holds
    whatever was in its memory. *)
Definition to_int (n : nat) : Z := swrap 32 (Z.of_nat n).
Definition Sm3_new (memory : sm3_context) : sm3_context := sm3_starts memory.
Definition Sm3_Update (ctx : sm3_context) (input : list Z) : outcome sm3_context :=
  sm3_update ctx input (to_int (length input)).
Definition Sm3_Final (ctx : sm3_context) : outcome (list Z * sm3_context) := sm3_finish ctx.
Definition Sm3_Crypto (memory : sm3_context) (input : list Z) : outcome (list Z) :=
  let? ctx := sm3_update (sm3_starts memory) input (to_int (length input)) in
  let? r := sm3_finish ctx in Ret r.1.

(** ** HMAC *)
Definition sm3 (memory : sm3_context) (input : list Z) (ilen : Z) : outcome (list Z) :=
  let? ctx := sm3_update (sm3_starts memory) input ilen in
  let? r := sm3_finish ctx in Ret r.1.
Definition pad_key (c : Z) (key : list Z) (keylen : Z) : list Z :=
  zip_with Z.lxor (replicate (Z.to_nat keylen) c) key ++ replicate (64 - Z.to_nat keylen) c.
Definition sm3_hmac_starts (memory ctx : sm3_context) (key : list Z) (keylen : Z) : outcome sm3_context :=
  let? k := (if keylen >? 64 then let? sum := sm3 memory key keylen in Ret (sum, 32) else Ret (key, keylen)) in
  let ctx := mkSm3 0 0 sm3_iv (buffer ctx) (pad_key 54 k.1 k.2) (pad_key 92 k.1 k.2) in
  sm3_update ctx (ipad ctx) 64.
Definition sm3_hmac_update (ctx : sm3_context) (input : list Z) (ilen : Z) : outcome sm3_context :=
  sm3_update ctx input ilen.
Definition sm3_hmac_finish (ctx : sm3_context) : outcome (list Z) :=
  let? r := sm3_finish ctx in
  let '(tmpbuf, ctx) := r in
  let ctx := sm3_starts ctx in
  let? ctx := sm3_update ctx (opad ctx) 64 in
  let? ctx := sm3_update ctx tmpbuf 32 in
  let? r := sm3_finish ctx in Ret r.1.
Definition sm3_hmac (memory ctx : sm3_context) (key : list Z) (keylen : Z) (input : list Z) (ilen : Z) : outcome (list Z) :=
  let? ctx := sm3_hmac_starts memory ctx key keylen in
  let? ctx := sm3_hmac_update ctx input ilen in
  sm3_hmac_finish ctx.

Definition blank : sm3_context := mkSm3 0 0 [] (replicate 64 0) (replicate 64 0) (replicate 64 0).

(** The standard's first example. *)
Example sm3_abc : Sm3_Crypto blank (to_bytes "abc") =
  Ret [102; 199; 240; 244; 98; 238; 237; 217; 209; 242; 212; 107; 220; 16; 228; 226;
       65; 103; 196; 135; 92; 242; 247; 162; 41; 125; 160; 43; 143; 75; 168; 224].
Proof. vm_compute. reflexivity. Qed.

(** ** The standard's digest *)

(** The message, a one bit, zeros, and the length in bits as a 64-bit number. *)
Definition be64 (n : Z) : list Z := PUT_ULONG_BE (wrap 32 (n / 2 ^ 32)) ++ PUT_ULONG_BE (wrap 32 n).
Definition padded (m : list Z) : list Z :=
  m ++ 128 :: replicate ((119 - length m `mod` 64) `mod` 64) 0 ++ be64 (8 * Z.of_nat (length m)).
Definition sm3_digest (m : list Z) : list Z :=
  flat_map PUT_ULONG_BE (compress sm3_process (length (padded m) / 64) sm3_iv (padded m)).

(** What a message leaves in a context: the count of its bytes, the chaining
    value of its whole blocks, and the rest at the front of the buffer. *)
Record absorbed (ctx : sm3_context) (m : list Z) : Prop := {
  absorbed_total0 : total0 ctx = Z.of_nat (length m) mod 2 ^ 32;
  absorbed_total1 : total1 ctx = (Z.of_nat (length m) / 2 ^ 32) mod 2 ^ 64;
  absorbed_state : state ctx = compress sm3_process (length m / 64) sm3_iv m;
  absorbed_rest : take (length m mod 64) (buffer ctx) = rest m;
  absorbed_buffer : length (buffer ctx) = 64%nat
}.

(** The loop over whole blocks. *)
Lemma sm3_blocks_run fuel st x q p : (p < 64)%nat -> (64 * q + p <= length x)%nat -> (q <= fuel)%nat ->
  sm3_blocks fuel st x (Z.of_nat (64 * q + p)) = Ret (compress sm3_process q st x, drop (64 * q) x, Z.of_nat p).
Proof.
  intros Hp. revert fuel st x. induction q as [|q IH]; intros fuel st x Hl Hf.
  - destruct fuel; cbn [sm3_blocks compress]; (rewrite (proj2 (Z.leb_gt 64 _)); [done|lia]).
  - destruct fuel as [|fuel]; [lia|]. cbn [sm3_blocks compress].
    rewrite (proj2 (Z.leb_le 64 _)) by lia.
    replace (Z.of_nat (64 * S q + p) - 64) with (Z.of_nat (64 * q + p)) by lia.
    rewrite IH by (rewrite ?length_drop; lia). rewrite drop_drop. do 4 f_equal. lia.
Qed.

(** The count of bytes, as a pair of words. *)
Lemma count_update t0 t1 l n : 0 <= l -> 0 < n < 2 ^ 31 -> t0 = l mod 2 ^ 32 -> t1 = (l / 2 ^ 32) mod 2 ^ 64 ->
  let t := Z.land (wrap 64 (t0 + n)) 4294967295 in
  t = (l + n) mod 2 ^ 32 /\
  (if t <? wrap 32 n then wrap 64 (t1 + 1) else t1) = ((l + n) / 2 ^ 32) mod 2 ^ 64.
Proof.
  intros Hl Hn -> ->. set (a := l mod 2 ^ 32). set (q := l / 2 ^ 32).
  assert (l = 2 ^ 32 * q + a /\ 0 <= a < 2 ^ 32) as [El Ha].
  { split; [apply Z.div_mod; lia|apply Z.mod_pos_bound; lia]. }
  rewrite (wrap_small 64) by lia. change 4294967295 with (Z.ones 32). rewrite Z.land_ones, (wrap_small 32) by lia.
  cbn zeta. destruct (Z_lt_le_dec (a + n) (2 ^ 32)) as [Hc|Hc].
  - rewrite (Z.mod_small (a + n)) by lia. split; [apply (Z.mod_unique_pos _ _ q); lia|].
    replace (a + n <? n) with false by lia. f_equal. apply (Z.div_unique_pos _ _ _ (a + n)); lia.
  - replace ((a + n) mod 2 ^ 32) with (a + n - 2 ^ 32) by (apply (Z.mod_unique_pos _ _ 1); lia).
    split; [apply (Z.mod_unique_pos _ _ (q + 1)); lia|].
    replace (a + n - 2 ^ 32 <? n) with true by lia. unfold wrap. rewrite Zplus_mod_idemp_l. f_equal.
    apply (Z.div_unique_pos _ _ _ (a + n - 2 ^ 32)); lia.
Qed.

Section Update.
Context (ctx : sm3_context) (m : list Z) (H : absorbed ctx m).

Lemma absorbed_left : Z.land (total0 ctx) 63 = Z.of_nat (length m mod 64).
Proof.
  change 63 with (Z.ones 6). rewrite Z.land_ones, (absorbed_total0 _ _ H) by lia.
  rewrite Z.mod_mod_divide by (exists (2 ^ 26); lia). symmetry. apply Nat2Z.inj_mod.
Qed.
(** Absorbing more is going on from what is left. *)
Lemma absorb_more x c : total0 c = Z.of_nat (length (m ++ x)) mod 2 ^ 32 ->
  total1 c = (Z.of_nat (length (m ++ x)) / 2 ^ 32) mod 2 ^ 64 ->
  let t := rest m ++ x in
  state c = compress sm3_process (length t / 64) (state ctx) t ->
  take (length t mod 64) (buffer c) = drop (64 * (length t / 64)) t -> length (buffer c) = 64%nat ->
  absorbed c (m ++ x).
Proof.
  intros H0 H1 t Hs Hb Hl. destruct (compress_more sm3_process sm3_iv m x) as (Ec & Er & Em).
  constructor; try done; [by rewrite Ec, Hs, (absorbed_state _ _ H)|by rewrite Er, Em].
Qed.

Lemma update_absorbed input n : (n <= length input)%nat -> (0 < n)%nat -> Z.of_nat n < 2 ^ 31 ->
  exists c, sm3_update ctx input (Z.of_nat n) = Ret c /\ absorbed c (m ++ take n input) /\
    ipad c = ipad ctx /\ opad c = opad ctx.
Proof.
  intros Hn Hpos Hmax. unfold sm3_update. rewrite (proj2 (Z.leb_gt _ 0)) by lia.
  destruct (count_update (total0 ctx) (total1 ctx) (Z.of_nat (length m)) (Z.of_nat n)) as [E0 E1];
    [lia|lia|apply H|apply H|].
  assert (Z.of_nat (length (m ++ take n input)) = Z.of_nat (length m) + Z.of_nat n) as Elen
    by (rewrite length_app, length_take; lia).
  rewrite <- Elen in E0, E1. set (t0 := Z.land (wrap 64 _) _) in *. cbn zeta. rewrite E1.
  rewrite absorbed_left. destruct (divide64 (length m)) as (q & p & Eq & Ep & Em & Hp). rewrite Ep.
  assert (length (rest m) = p) as Hr by by rewrite length_rest.
  pose proof (absorbed_buffer _ _ H) as Hbuf. pose proof (absorbed_rest _ _ H) as Hrest. rewrite Ep in Hrest.
  destruct (negb (Z.of_nat p =? 0) && (64 - Z.of_nat p <=? Z.of_nat n)) eqn:Ec.
  - (* the buffer is filled and processed *)
    replace (Z.to_nat (64 - Z.of_nat p)) with (64 - p)%nat by lia. set (f := (64 - p)%nat).
    destruct (divide64 (n - f)) as (k & r & Ek & Er & Enf & Hrr).
    replace (Z.of_nat n - (64 - Z.of_nat p)) with (Z.of_nat (64 * k + r)) by lia.
    rewrite (sm3_blocks_run _ _ _ k r) by (rewrite ?length_drop; lia). cbn [obind].
    eexists. split; [reflexivity|]. split; [|done].
    assert (length (take f input) = f) as Hf by (rewrite length_take; lia).
    assert (copy_at (buffer ctx) (Z.of_nat p) (take f input) = rest m ++ take f input) as Ecopy.
    { rewrite <- Hrest, <- (take_copy_at _ p (take f input)) by lia. symmetry. apply take_ge.
      rewrite length_copy_at; lia. }
    assert (rest m ++ take n input = (rest m ++ take f input) ++ take (n - f) (drop f input)) as Et.
    { rewrite <- app_assoc. f_equal. rewrite <- (take_drop f (take n input)) at 1.
      by rewrite take_take, Nat.min_l, skipn_firstn_comm by lia. }
    destruct (div64_unique (S k) r (length (rest m ++ take n input))) as [Ed Emod];
      [rewrite length_app, length_take; lia|done|].
    assert (length (rest m ++ take f input) = 64%nat) as H64 by (rewrite length_app; lia).
    apply absorb_more; cbn [total0 total1 state buffer]; rewrite ?Ed, ?Emod; [done|done|..].
    + cbn [compress]. rewrite Et, take_app_length', drop_app_length' by done.
      by rewrite compress_take, Ecopy by lia.
    + replace (64 * S k)%nat with (64 + 64 * k)%nat by lia. rewrite <- drop_drop, Et, drop_app_length' by done.
      destruct (0 <? Z.of_nat r) eqn:Er0.
      * rewrite Nat2Z.id. rewrite skipn_firstn_comm. replace (n - f - 64 * k)%nat with r by lia.
        apply take_copy_front. rewrite length_take, !length_drop. lia.
      * assert (r = 0)%nat as -> by lia. rewrite skipn_firstn_comm. replace (n - f - 64 * k)%nat with 0%nat by lia. done.
    + destruct (0 <? Z.of_nat r) eqn:Er0; [|by rewrite Ecopy]. rewrite Nat2Z.id, Ecopy. change 0 with (Z.of_nat 0).
      rewrite length_copy_at; [done|]. rewrite length_take, !length_drop. lia.
  - (* the buffer is empty, or stays short of a block *)
    destruct (decide (p = 0)%nat) as [->|Hp0].
    + assert (rest m = []) as Er0 by by apply nil_length_inv.
      destruct (divide64 n) as (k & r & Ek & Er & Enf & Hrr). assert (Z.of_nat n = Z.of_nat (64 * k + r)) as -> by lia.
      rewrite (sm3_blocks_run _ _ _ k r) by lia. cbn [obind].
      eexists. split; [reflexivity|]. split; [|done].
      apply absorb_more; cbn [total0 total1 state buffer]; try done; rewrite ?Er0; cbn [app];
        rewrite ?length_take, ?Nat.min_l, ?Ek, ?Er by lia.
      * by rewrite compress_take by lia.
      * rewrite skipn_firstn_comm. replace (n - 64 * k)%nat with r by lia.
        destruct (0 <? Z.of_nat r) eqn:Er1; [|by assert (r = 0)%nat as -> by lia]. rewrite Nat2Z.id.
        apply take_copy_front. rewrite length_take, length_drop. lia.
      * destruct (0 <? Z.of_nat r) eqn:Er1; [|done]. rewrite Nat2Z.id, length_copy_at; [done|].
        rewrite length_take, length_drop. lia.
    + assert (n < 64 - p)%nat as Hlt by lia.
      assert (Z.of_nat n = Z.of_nat (64 * 0 + n)) as -> by lia. rewrite (sm3_blocks_run _ _ _ 0 n) by lia. cbn [obind].
      rewrite (proj2 (Z.ltb_lt 0 _)), Nat2Z.id by lia.
      eexists. split; [reflexivity|]. split; [|done].
      destruct (div64_unique 0 (p + n) (length (rest m ++ take n input))) as [Ed Emod];
        [rewrite length_app, length_take; lia|lia|].
      apply absorb_more; cbn [total0 total1 state buffer]; rewrite ?Ed, ?Emod; try done.
      * change (drop (64 * 0) (rest m ++ take n input)) with (rest m ++ take n input).
        rewrite <- Hrest at 1. rewrite <- take_copy_at by lia.
        rewrite length_take. f_equal. change (drop (64 * 0) input) with input. lia.
      * rewrite length_copy_at; [done|]. rewrite length_take.
        change (drop (64 * 0) input) with input. lia.
Qed.
End Update.

(** ** The interface computes the standard's digest *)

(** The memory a context is made in: what its arrays hold is arbitrary. *)
Definition context_ok (memory : sm3_context) : Prop := length (buffer memory) = 64%nat.

Lemma starts_absorbed memory : context_ok memory -> absorbed (sm3_starts memory) [].
Proof. by constructor. Qed.

Lemma Update_absorbed ctx m x : absorbed ctx m -> Z.of_nat (length x) < 2 ^ 31 ->
  exists c, Sm3_Update ctx x = Ret c /\ absorbed c (m ++ x) /\ ipad c = ipad ctx /\ opad c = opad ctx.
Proof.
  intros H Hx. unfold Sm3_Update, to_int. rewrite swrap_small by lia.
  destruct x as [|b x]; [by exists ctx; rewrite app_nil_r|].
  destruct (update_absorbed ctx m H (b :: x) (length (b :: x))) as (c & E & Hc & Hi & Ho); [done|cbn; lia|done|].
  rewrite take_ge in Hc by done. by exists c.
Qed.

(** The two words of the length field. *)
Lemma length_words l : 0 <= l ->
  wrap 32 (Z.lor (Z.shiftr (l mod 2 ^ 32) 29) (wrap 64 (Z.shiftl ((l / 2 ^ 32) mod 2 ^ 64) 3))) =
    wrap 32 (8 * l / 2 ^ 32) /\
  wrap 32 (Z.shiftl (l mod 2 ^ 32) 3) = wrap 32 (8 * l).
Proof.
  intros Hl. rewrite Z.shiftr_div_pow2, !Z.shiftl_mul_pow2 by lia. split.
  - set (h := (l / 2 ^ 32) mod 2 ^ 64). set (g := l mod 2 ^ 32).
    assert (0 <= h < 2 ^ 64) by (apply Z.mod_pos_bound; lia). assert (0 <= g < 2 ^ 32) by (apply Z.mod_pos_bound; lia).
    assert (wrap 64 (h * 2 ^ 3) = Z.shiftl (h mod 2 ^ 61) 3) as ->.
    { unfold wrap. rewrite Z.shiftl_mul_pow2 by lia. change (2 ^ 64) with (2 ^ 61 * 2 ^ 3). by rewrite Zmult_mod_distr_r. }
    assert (0 <= g / 2 ^ 29 < 2 ^ 3) by (split; [apply Z.div_pos; lia|apply Z.div_lt_upper_bound; lia]).
    rewrite Z.lor_comm, lor_shiftl_add by lia.
    assert (8 * l / 2 ^ 32 = l / 2 ^ 29) as ->.
    { change (2 ^ 32) with (8 * 2 ^ 29). by rewrite Z.div_mul_cancel_l by lia. }
    assert (l / 2 ^ 29 = 8 * (l / 2 ^ 32) + g / 2 ^ 29) as ->.
    { subst g. rewrite (Z.div_mod l (2 ^ 32)) at 1 by lia.
      replace (2 ^ 32 * (l / 2 ^ 32)) with (8 * (l / 2 ^ 32) * 2 ^ 29) by lia. rewrite Z.div_add_l by lia. done. }
    unfold wrap. rewrite <- Zplus_mod_idemp_l, <- (Zplus_mod_idemp_l (8 * _)). f_equal. f_equal.
    subst h. change (2 ^ 3) with 8. rewrite <- Z.mul_mod_idemp_l, (Z.mul_comm 8), <- (Z.mul_mod_idemp_l (l / _)) by lia.
    rewrite !Z.mod_mod_divide; [done|exists (2 ^ 32); lia|exists (2 ^ 29); lia].
  - unfold wrap. rewrite Z.mul_mod_idemp_l by lia. f_equal. lia.
Qed.

Lemma finish_digest ctx m : absorbed ctx m ->
  exists c, sm3_finish ctx = Ret (sm3_digest m, c) /\ length (buffer c) = 64%nat /\ ipad c = ipad ctx /\ opad c = opad ctx.
Proof.
  intros H. unfold sm3_finish.
  destruct (length_words (Z.of_nat (length m)) ltac:(lia)) as [Eh El].
  rewrite (absorbed_total0 _ _ H), (absorbed_total1 _ _ H), Eh, El, <- (absorbed_total0 _ _ H), absorbed_left with (m := m) by done.
  change (PUT_ULONG_BE (wrap 32 _) ++ _) with (be64 (8 * Z.of_nat (length m))).
  destruct (divide64 (length m)) as (q & p & Eq & Ep & Em & Hp). rewrite Ep.
  set (z := ((119 - p) mod 64)%nat).
  assert (z = (if p <? 56 then 55 - p else 119 - p)%nat) as Ez.
  { subst z. destruct (Nat.ltb_spec p 56).
    - symmetry. apply (Nat.mod_unique _ _ 1); lia.
    - apply Nat.mod_small. lia. }
  assert ((if Z.of_nat p <? 56 then 56 - Z.of_nat p else 120 - Z.of_nat p) = Z.of_nat (S z)) as ->.
  { rewrite Ez. destruct (Z.ltb_spec (Z.of_nat p) 56), (Nat.ltb_spec p 56); lia. }
  assert (z < 64)%nat as Hz by (rewrite Ez; destruct (Nat.ltb_spec p 56); lia).
  destruct (update_absorbed ctx m H sm3_padding (S z)) as (c1 & -> & H1 & Hi1 & Ho1); [cbn; lia|lia|lia|]. cbn [obind].
  set (m1 := m ++ take (S z) sm3_padding) in *.
  destruct (update_absorbed c1 m1 H1 (be64 (8 * Z.of_nat (length m))) 8) as (c2 & E2 & H2 & Hi2 & Ho2); [done|lia|lia|].
  change (Z.of_nat 8) with 8 in E2. rewrite E2. cbn [obind].
  change (take 8 (be64 ?n)) with (be64 n) in H2.
  assert (m1 ++ be64 (8 * Z.of_nat (length m)) = padded m) as Epad.
  { unfold padded, m1, sm3_padding. rewrite <- app_assoc, Ep. cbn [take]. fold z. by rewrite take_replicate, Nat.min_l by lia. }
  rewrite Epad in H2. exists c2. split; [|split; [by apply H2|split; congruence]].
  unfold sm3_digest. by rewrite (absorbed_state _ _ H2).
Qed.

(** C17. However a message is cut into pieces, feeding them to a new object and
    asking for the result gives the SM3 digest of the whole message, whatever
    the object's memory held before: blocks, buffer, length words and padding
    are those of the standard. *)
Theorem Sm3_incremental memory pieces : context_ok memory ->
  Forall (fun x : list Z => Z.of_nat (length x) < 2 ^ 31) pieces ->
  exists c c', foldl (fun r x => let? ctx := r in Sm3_Update ctx x) (Ret (Sm3_new memory)) pieces = Ret c /\
    Sm3_Final c = Ret (sm3_digest (concat pieces), c').
Proof.
  intros Hm Hp. pose proof (starts_absorbed memory Hm) as H. change (concat pieces) with ([] ++ concat pieces).
  unfold Sm3_new. revert H. generalize (sm3_starts memory). generalize (@nil Z).
  induction Hp as [|x pieces Hx _ IH]; intros m ctx H; cbn [foldl concat].
  - destruct (finish_digest ctx m H) as (c & E & _). exists ctx, c. by rewrite app_nil_r.
  - cbn [obind]. destruct (Update_absorbed ctx m x H Hx) as (c & -> & Hc & _).
    destruct (IH _ _ Hc) as (c1 & c2 & E1 & E2). exists c1, c2. split; [done|]. by rewrite app_assoc.
Qed.
Lemma Sm3_incremental_witness : exists c c',
  foldl (fun r x => let? ctx := r in Sm3_Update ctx x) (Ret (Sm3_new blank)) [to_bytes "a"; to_bytes "bc"] = Ret c /\
  Sm3_Final c = Ret (sm3_digest (to_bytes "abc"), c').
Proof.
  apply (Sm3_incremental blank [to_bytes "a"; to_bytes "bc"]); [reflexivity|].
  repeat constructor; vm_compute; reflexivity.
Defined.

Lemma Sm3_Crypto_digest memory input : context_ok memory -> Z.of_nat (length input) < 2 ^ 31 ->
  Sm3_Crypto memory input = Ret (sm3_digest input).
Proof.
  intros Hm Hi. unfold Sm3_Crypto.
  destruct (Update_absorbed _ [] input (starts_absorbed memory Hm) Hi) as (c & E & Hc & _).
  unfold Sm3_Update in E. rewrite E. cbn [obind app] in *.
  by destruct (finish_digest c input Hc) as (c' & -> & _).
Qed.

(** ** The size of a digest *)
Lemma length_process st m : length st = 8%nat -> length (sm3_process st m) = 8%nat.
Proof. intros H. unfold sm3_process. rewrite length_zip_with, H. done. Qed.
Lemma length_compress n st m : length st = 8%nat -> length (compress sm3_process n st m) = 8%nat.
Proof. revert st m. induction n as [|n IH]; intros st m H; [done|]. by apply IH, length_process. Qed.
Lemma length_put (l : list Z) : length (flat_map PUT_ULONG_BE l) = (4 * length l)%nat.
Proof. induction l as [|w l IH]; [done|]. cbn [flat_map length]. rewrite length_app, IH. cbn [PUT_ULONG_BE length]. lia. Qed.
Lemma put_bytes (l : list Z) : bytes_ok (flat_map PUT_ULONG_BE l).
Proof.
  induction l as [|w l IH]; [constructor|]. cbn [flat_map]. apply Forall_app. split; [|done].
  repeat constructor; apply (wrap_range 8); lia.
Qed.
Lemma sm3_digest_size m : length (sm3_digest m) = 32%nat /\ bytes_ok (sm3_digest m).
Proof. unfold sm3_digest. split; [by rewrite length_put, length_compress|apply put_bytes]. Qed.

(** ** HMAC *)
Definition hmac_pad (c : Z) (key : list Z) : list Z := map (Z.lxor c) (key ++ replicate (64 - length key) 0).
Definition hmac_digest (key m : list Z) : list Z :=
  let key := if (64 <? length key)%nat then sm3_digest key else key in
  sm3_digest (hmac_pad 92 key ++ sm3_digest (hmac_pad 54 key ++ m)).

Lemma pad_key_spec c key : (length key <= 64)%nat -> pad_key c key (Z.of_nat (length key)) = hmac_pad c key.
Proof.
  intros _. unfold pad_key, hmac_pad. rewrite Nat2Z.id, map_app. f_equal.
  - induction key as [|b key IH]; [done|]. cbn [length replicate zip_with map]. by rewrite IH.
  - generalize (64 - length key)%nat. intros n. induction n as [|n IH]; [done|]. cbn [replicate map].
    by rewrite <- IH, Z.lxor_0_r.
Qed.
Lemma length_hmac_pad c key : (length key <= 64)%nat -> length (hmac_pad c key) = 64%nat.
Proof. intros H. unfold hmac_pad. rewrite length_map, length_app, length_replicate. lia. Qed.

(** Absorbing one whole piece. *)
Lemma update_whole ctx m x n : absorbed ctx m -> n = Z.of_nat (length x) -> n < 2 ^ 31 ->
  exists c, sm3_update ctx x n = Ret c /\ absorbed c (m ++ x) /\ ipad c = ipad ctx /\ opad c = opad ctx.
Proof.
  intros H -> Hx. destruct (Update_absorbed ctx m x H Hx) as (c & E & Hc).
  unfold Sm3_Update, to_int in E. rewrite swrap_small in E by lia. by exists c.
Qed.

(** The keyed hash is the HMAC construction over the digest: the key, or
    the digest of one longer than a block, is padded to a block and combined
    with the two constants, around the inner digest. *)
Theorem sm3_hmac_spec memory ctx key m : context_ok memory -> context_ok ctx ->
  Z.of_nat (length key) < 2 ^ 31 -> Z.of_nat (length m) < 2 ^ 31 ->
  sm3_hmac memory ctx key (Z.of_nat (length key)) m (Z.of_nat (length m)) = Ret (hmac_digest key m).
Proof.
  intros Hmem Hctx Hk Hm. unfold sm3_hmac, sm3_hmac_starts, hmac_digest.
  set (key' := if (64 <? length key)%nat then sm3_digest key else key).
  assert ((if Z.of_nat (length key) >? 64 then let? sum := sm3 memory key (Z.of_nat (length key)) in Ret (sum, 32)
           else Ret (key, Z.of_nat (length key))) = Ret (key', Z.of_nat (length key')) /\ (length key' <= 64)%nat) as [-> Hl].
  { subst key'. destruct (Nat.ltb_spec 64 (length key)) as [Hlt|Hge].
    - replace (Z.of_nat (length key) >? 64) with true by lia. unfold sm3.
      destruct (update_whole _ [] key _ (starts_absorbed memory Hmem) eq_refl Hk) as (c & -> & Hc & _). cbn [obind app] in *.
      destruct (finish_digest c key Hc) as (c' & -> & _). cbn [obind fst].
      rewrite (proj1 (sm3_digest_size key)). split; [done|lia].
    - replace (Z.of_nat (length key) >? 64) with false by lia. done. }
  cbn [obind fst snd]. rewrite !pad_key_spec by done. set (c0 := mkSm3 _ _ _ _ _ _).
  assert (absorbed c0 []) as H0 by by constructor.
  destruct (update_whole c0 [] (ipad c0) 64 H0) as (c1 & -> & H1 & _ & Ho1);
    [by cbn [ipad c0]; rewrite length_hmac_pad by done|lia|]. cbn [obind app] in *.
  unfold sm3_hmac_update. destruct (update_whole c1 _ m _ H1 eq_refl Hm) as (c2 & -> & H2 & _ & Ho2). cbn [obind].
  unfold sm3_hmac_finish. destruct (finish_digest c2 _ H2) as (c3 & -> & Hb3 & _ & Ho3). cbn [obind fst snd].
  assert (opad (sm3_starts c3) = hmac_pad 92 key') as Eo by (cbn [sm3_starts opad]; by rewrite Ho3, Ho2, Ho1). rewrite Eo.
  destruct (update_whole (sm3_starts c3) [] (hmac_pad 92 key') 64 (starts_absorbed c3 Hb3)) as (c4 & -> & H4 & _);
    [by rewrite length_hmac_pad by done|lia|]. cbn [obind app] in *.
  destruct (update_whole c4 _ (sm3_digest (ipad c0 ++ m)) 32 H4) as (c5 & -> & H5 & _);
    [by rewrite (proj1 (sm3_digest_size _))|lia|]. cbn [obind].
  by destruct (finish_digest c5 _ H5) as (c6 & -> & _).
Qed.
Lemma sm3_hmac_spec_witness :
  sm3_hmac blank blank (to_bytes "key") 3 (to_bytes "message") 7 = Ret (hmac_digest (to_bytes "key") (to_bytes "message")).
Proof. apply (sm3_hmac_spec blank blank (to_bytes "key") (to_bytes "message")); reflexivity. Defined.
