(* ===== verification/Md5.v ===== *)
(** * MD5: the hash of utils/crypto.cpp

    The file carries an implementation of its own, which [HAVE_OPENSSL] would
    replace.  Its incremental interface against the padded message of RFC 1321.
    The words of a block are read through a cast pointer on x86: little-endian. *)

From S2P Require Import Prelude Blocks Hex.

Definition U32_MASK : Z := 4294967295.
Definition F (x y z : Z) : Z := Z.lxor z (Z.land x (Z.lxor y z)).
Definition G (x y z : Z) : Z := Z.lxor y (Z.land z (Z.lxor x y)).
Definition H (x y z : Z) : Z := Z.lxor (Z.lxor x y) z.
Definition I (x y z : Z) : Z := Z.lxor y (Z.lor x (Z.lxor z U32_MASK)).

(** [STEP(f, a, b, c, d, x, t, s)]: the new [a]. *)
Definition STEP (f : Z -> Z -> Z -> Z) (a b c d x t s : Z) : Z :=
  let a := wrap 32 (a + (f b c d + x + t)) in
  let a := Z.lor (wrap 32 (Z.shiftl a s)) (Z.shiftr (Z.land a U32_MASK) (32 - s)) in
  wrap 32 (a + b).

Definition SET (ptr : list Z) (n : Z) : Z :=
  let b i := nthZ ptr (4 * n + i) in
  Z.lor (Z.lor (Z.lor (b 0) (Z.shiftl (b 1) 8)) (Z.shiftl (b 2) 16)) (Z.shiftl (b 3) 24).

(** The 64 steps: function, word of the block, constant, rotation.  The four
    variables change places from each to the next. *)
Definition STEPS : list ((Z -> Z -> Z -> Z) * Z * Z * Z) :=
  [
    (F, 0, 3614090360, 7); (F, 1, 3905402710, 12); (F, 2, 606105819, 17); (F, 3, 3250441966, 22);
    (F, 4, 4118548399, 7); (F, 5, 1200080426, 12); (F, 6, 2821735955, 17); (F, 7, 4249261313, 22);
    (F, 8, 1770035416, 7); (F, 9, 2336552879, 12); (F, 10, 4294925233, 17); (F, 11, 2304563134, 22);
    (F, 12, 1804603682, 7); (F, 13, 4254626195, 12); (F, 14, 2792965006, 17); (F, 15, 1236535329, 22);
    (G, 1, 4129170786, 5); (G, 6, 3225465664, 9); (G, 11, 643717713, 14); (G, 0, 3921069994, 20);
    (G, 5, 3593408605, 5); (G, 10, 38016083, 9); (G, 15, 3634488961, 14); (G, 4, 3889429448, 20);
    (G, 9, 568446438, 5); (G, 14, 3275163606, 9); (G, 3, 4107603335, 14); (G, 8, 1163531501, 20);
    (G, 13, 2850285829, 5); (G, 2, 4243563512, 9); (G, 7, 1735328473, 14); (G, 12, 2368359562, 20);
    (H, 5, 4294588738, 4); (H, 8, 2272392833, 11); (H, 11, 1839030562, 16); (H, 14, 4259657740, 23);
    (H, 1, 2763975236, 4); (H, 4, 1272893353, 11); (H, 7, 4139469664, 16); (H, 10, 3200236656, 23);
    (H, 13, 681279174, 4); (H, 0, 3936430074, 11); (H, 3, 3572445317, 16); (H, 6, 76029189, 23);
    (H, 9, 3654602809, 4); (H, 12, 3873151461, 11); (H, 15, 530742520, 16); (H, 2, 3299628645, 23);
    (I, 0, 4096336452, 6); (I, 7, 1126891415, 10); (I, 14, 2878612391, 15); (I, 5, 4237533241, 21);
    (I, 12, 1700485571, 6); (I, 3, 2399980690, 10); (I, 10, 4293915773, 15); (I, 1, 2240044497, 21);
    (I, 8, 1873313359, 6); (I, 15, 4264355552, 10); (I, 6, 2734768916, 15); (I, 13, 1309151649, 21);
    (I, 4, 4149444226, 6); (I, 11, 3174756917, 10); (I, 2, 718787259, 15); (I, 9, 3951481745, 21)].

Record md5_state := mkAbcd { va : Z; vb : Z; vc : Z; vd : Z }.
Definition md5_step (ptr : list Z) (r : md5_state) (e : (Z -> Z -> Z -> Z) * Z * Z * Z) : md5_state :=
  let '(f, n, t, s) := e in
  mkAbcd (vd r) (STEP f (va r) (vb r) (vc r) (vd r) (SET ptr n) t s) (vb r) (vc r).
(** One turn of the loop of [body]. *)
Definition md5_block (r : md5_state) (ptr : list Z) : md5_state :=
  let r' := foldl (md5_step ptr) r STEPS in
  mkAbcd (wrap 32 (va r' + va r)) (wrap 32 (vb r' + vb r)) (wrap 32 (vc r' + vc r)) (wrap 32 (vd r' + vd r)).
(** [do ... while (size -= 64)]: the state, and what is left behind the blocks. *)
Fixpoint body (fuel : nat) (r : md5_state) (data : list Z) (size : Z) : outcome (md5_state * list Z) :=
  match fuel with
  | O => Diverge
  | S f =>
      let r := md5_block r (take 64 data) in
      let size := wrap 64 (size - 64) in
      if size =? 0 then Ret (r, drop 64 data) else body f r (drop 64 data) size
  end.

Record MD5_CTX := mkMd5 { lo : Z; hi : Z; abcd : md5_state; buffer : list Z }.
Definition md5_iv : md5_state := mkAbcd 1732584193 4023233417 2562383102 271733878.
Definition MD5_Init (ctx : MD5_CTX) : MD5_CTX := mkMd5 0 0 md5_iv (buffer ctx).

Definition MD5_Update (ctx : MD5_CTX) (data : list Z) (size : Z) : outcome MD5_CTX :=
  let saved_lo := lo ctx in
  let lo' := Z.land (wrap 64 (saved_lo + size)) 536870911 in
  let hi1 := if lo' <? saved_lo then wrap 32 (hi ctx + 1) else hi ctx in
  let hi2 := wrap 32 (hi1 + Z.shiftr size 29) in
  let used := Z.land saved_lo 63 in
  let free := 64 - used in
  if negb (used =? 0) && (size <? free)
  then Ret (mkMd5 lo' hi2 (abcd ctx) (copy_at (buffer ctx) used (take (Z.to_nat size) data)))
  else
    let? p := (if negb (used =? 0) then
                 let buf := copy_at (buffer ctx) used (take (Z.to_nat free) data) in
                 let? r := body 1 (abcd ctx) buf 64 in Ret (r.1, buf, drop (Z.to_nat free) data, size - free)
               else Ret (abcd ctx, buffer ctx, data, size)) in
    let '(r, buf, data, size) := p in
    let? p := (if 64 <=? size then
                 let? q := body (length data) r data (Z.land size (2 ^ 64 - 1 - 63)) in Ret (q.1, q.2, Z.land size 63)
               else Ret (r, data, size)) in
    let '(r, data, size) := p in
    Ret (mkMd5 lo' hi2 r (copy_at buf 0 (take (Z.to_nat size) data))).

(** The lowest bytes of a word first. *)
Definition le32 (n : Z) : list Z := [wrap 8 n; wrap 8 (Z.shiftr n 8); wrap 8 (Z.shiftr n 16); wrap 8 (Z.shiftr n 24)].
Definition result_of (r : md5_state) : list Z := le32 (va r) ++ le32 (vb r) ++ le32 (vc r) ++ le32 (vd r).
Definition MD5_Final (ctx : MD5_CTX) : outcome (list Z) :=
  let used := Z.land (lo ctx) 63 in
  let buf := copy_at (buffer ctx) used [128] in
  let used := used + 1 in
  let free := 64 - used in
  let? p := (if free <? 8 then
               let buf := copy_at buf used (replicate (Z.to_nat free) 0) in
               let? r := body 1 (abcd ctx) buf 64 in Ret (r.1, buf, 0, 64)
             else Ret (abcd ctx, buf, used, free)) in
  let '(r, buf, used, free) := p in
  let buf := copy_at buf used (replicate (Z.to_nat (free - 8)) 0) in
  let buf := copy_at buf 56 (le32 (wrap 32 (Z.shiftl (lo ctx) 3)) ++ le32 (hi ctx)) in
  let? r := body 1 r buf 64 in Ret (result_of r.1).

(** ** The class MD5 *)

(** A context on the stack, with what its memory held. *)
Definition md5bin (memory : MD5_CTX) (dat : list Z) : outcome (list Z) :=
  let? c := MD5_Update (MD5_Init memory) dat (Z.of_nat (length dat)) in MD5_Final c.
Definition hb2hex (hb : Z) : Z := let hb := Z.land hb 15 in if hb <? 10 then 48 + hb else hb - 10 + 97.
Definition md5_hex (out : list Z) : list Z := concat (map (fun b => [hb2hex (Z.shiftr b 4); hb2hex b]) out).
Definition GenerateMD5ToHex (memory : MD5_CTX) (dat : list Z) : outcome (list Z) := let? out := md5bin memory dat in Ret (md5_hex out).
Definition GenerateMD5ToBin (memory : MD5_CTX) (dat : list Z) : outcome (list Z) := md5bin memory dat.
Definition SUM6_TABLE : list Z := to_bytes "0123456789abcdefghijklmnopqrstuvwxyzABCDEFGHIJKLMNOPQRSTUVWXYZ".
Definition GenerateMD5Sum6 (memory : MD5_CTX) (dat : list Z) : outcome (list Z) :=
  let? out := md5bin memory dat in Ret (map (fun b => nthZ SUM6_TABLE (b mod 62)) (take 6 out)).

Definition BUFSIZ : nat := 8192.
(** [fread] by [BUFSIZ] bytes until it gives none; [file]: what is left of it. *)
Fixpoint file_loop (fuel : nat) (c : MD5_CTX) (file : list Z) : outcome MD5_CTX :=
  match take BUFSIZ file, fuel with
  | [], _ => Ret c
  | _, O => Diverge
  | buff, S f => let? c := MD5_Update c buff (Z.of_nat (length buff)) in file_loop f c (drop BUFSIZ file)
  end.
Definition GenerateMd5File (memory : MD5_CTX) (file : option (list Z)) : outcome (list Z) :=
  match file with
  | None => Ret []
  | Some text => let? c := file_loop (length text) (MD5_Init memory) text in let? out := MD5_Final c in Ret (md5_hex out)
  end.

Definition md5_blank : MD5_CTX := mkMd5 0 0 md5_iv (replicate 64 0).
(** Two examples of the RFC. *)
Example md5_abc : GenerateMD5ToHex md5_blank (to_bytes "abc") = Ret (to_bytes "900150983cd24fb0d6963f7d28e17f72").
Proof. vm_compute. reflexivity. Qed.
Example md5_long : GenerateMD5ToHex md5_blank (to_bytes "12345678901234567890123456789012345678901234567890123456789012345678901234567890") =
  Ret (to_bytes "57edf4a22be3c955ac49da2e2107b67a").
Proof. vm_compute. reflexivity. Qed.

(** ** The digest of RFC 1321 *)

(** The message, a one bit, zeros, and the length in bits, lowest byte first. *)
Definition le64 (n : Z) : list Z := le32 (wrap 32 n) ++ le32 (wrap 32 (n / 2 ^ 32)).
Definition md5_padded (m : list Z) : list Z :=
  m ++ 128 :: replicate ((119 - length m `mod` 64) `mod` 64) 0 ++ le64 (8 * Z.of_nat (length m)).
Definition md5_digest (m : list Z) : list Z :=
  result_of (compress md5_block (length (md5_padded m) / 64) md5_iv (md5_padded m)).

Record md5_absorbed (ctx : MD5_CTX) (m : list Z) : Prop := {
  a_lo : lo ctx = Z.of_nat (length m) mod 2 ^ 29;
  a_hi : hi ctx = (Z.of_nat (length m) / 2 ^ 29) mod 2 ^ 32;
  a_abcd : abcd ctx = compress md5_block (length m / 64) md5_iv m;
  a_rest : take (length m mod 64) (buffer ctx) = rest m;
  a_buffer : length (buffer ctx) = 64%nat
}.

Lemma body_run fuel r x q : (0 < q <= fuel)%nat -> Z.of_nat (64 * q) < 2 ^ 64 ->
  body fuel r x (Z.of_nat (64 * q)) = Ret (compress md5_block q r x, drop (64 * q) x).
Proof.
  revert fuel r x. induction q as [|q IH]; intros fuel r x Hq Hl; [lia|]. destruct fuel as [|fuel]; [lia|]. cbn [body compress].
  rewrite wrap_small by lia. replace (Z.of_nat (64 * S q) - 64) with (Z.of_nat (64 * q)) by lia.
  destruct (Z.eqb_spec (Z.of_nat (64 * q)) 0).
  - assert (q = 0)%nat as -> by lia. done.
  - rewrite IH by lia. rewrite drop_drop. do 3 f_equal. lia.
Qed.
Lemma body_block r buf : body 1 r buf 64 = Ret (md5_block r (take 64 buf), drop 64 buf).
Proof. exact (body_run 1 r buf 1 ltac:(lia) ltac:(done)). Qed.

(** The mask that leaves whole blocks. *)
Lemma land_blocks x : 0 <= x < 2 ^ 64 -> Z.land x (2 ^ 64 - 1 - 63) = 64 * (x / 64).
Proof.
  intros Hx. replace (64 * (x / 64)) with (Z.shiftl (Z.shiftr x 6) 6) by (rewrite Z.shiftl_mul_pow2, Z.shiftr_div_pow2 by lia; change (2 ^ 6) with 64; lia).
  change (2 ^ 64 - 1 - 63) with (Z.shiftl (Z.ones 58) 6). apply Z.bits_inj'. intros n Hn. rewrite Z.land_spec, !Z.shiftl_spec by done.
  destruct (Z.ltb_spec n 6); [by rewrite !(Z.testbit_neg_r _ (n - 6)), andb_false_r by lia|].
  rewrite Z.shiftr_spec, Z.testbit_ones_nonneg by lia. replace (n - 6 + 6) with n by lia.
  destruct (Z.ltb_spec (n - 6) 58); [by rewrite andb_true_r|]. rewrite andb_false_r. symmetry. destruct (decide (x = 0)) as [->|].
  - apply Z.bits_0.
  - apply Z.bits_above_log2; [lia|]. apply (Z.lt_le_trans _ 64); [|lia]. apply Z.log2_lt_pow2; lia.
Qed.

(** The count of bytes, its low 29 bits apart. *)
Lemma md5_count l n : 0 <= l -> 0 <= n < 2 ^ 63 ->
  let saved := l mod 2 ^ 29 in let low := Z.land (wrap 64 (saved + n)) 536870911 in
  low = (l + n) mod 2 ^ 29 /\
  wrap 32 ((if low <? saved then wrap 32 ((l / 2 ^ 29) mod 2 ^ 32 + 1) else (l / 2 ^ 29) mod 2 ^ 32) + Z.shiftr n 29) = ((l + n) / 2 ^ 29) mod 2 ^ 32.
Proof.
  intros Hl Hn saved low. assert (0 <= saved < 2 ^ 29) by (apply Z.mod_pos_bound; lia).
  assert (low = (l + n) mod 2 ^ 29) as El.
  { unfold low. rewrite wrap_small by lia. change 536870911 with (Z.ones 29). rewrite Z.land_ones by lia. unfold saved. by rewrite Zplus_mod_idemp_l. }
  split; [done|]. rewrite Z.shiftr_div_pow2 by lia. set (q := l / 2 ^ 29). set (k := n / 2 ^ 29). set (r := n mod 2 ^ 29).
  assert (l = 2 ^ 29 * q + saved) as Eq by (apply Z.div_mod; lia). assert (n = 2 ^ 29 * k + r) as Ek by (apply Z.div_mod; lia).
  assert (0 <= r < 2 ^ 29) by (apply Z.mod_pos_bound; lia).
  assert ((l + n) / 2 ^ 29 = q + k + (if low <? saved then 1 else 0) ) as ->.
  { destruct (Z_lt_le_dec (saved + r) (2 ^ 29)) as [Hc|Hc].
    - assert (low = saved + r) as Elow by (rewrite El; symmetry; apply (Z.mod_unique_pos _ _ (q + k)); lia).
      rewrite Elow, (proj2 (Z.ltb_ge _ _)) by lia. symmetry. apply (Z.div_unique_pos _ _ _ (saved + r)); lia.
    - assert (low = saved + r - 2 ^ 29) as Elow by (rewrite El; symmetry; apply (Z.mod_unique_pos _ _ (q + k + 1)); lia).
      rewrite Elow, (proj2 (Z.ltb_lt _ _)) by lia. symmetry. apply (Z.div_unique_pos _ _ _ (saved + r - 2 ^ 29)); lia. }
  unfold wrap. destruct (low <? saved); rewrite !Zplus_mod_idemp_l.
  - rewrite <- Z.add_assoc, Zplus_mod_idemp_l. f_equal. lia.
  - f_equal. lia.
Qed.

Section Update.
Context (ctx : MD5_CTX) (m : list Z) (A : md5_absorbed ctx m).

Lemma absorbed_used : Z.land (lo ctx) 63 = Z.of_nat (length m mod 64).
Proof.
  change 63 with (Z.ones 6). rewrite Z.land_ones, (a_lo _ _ A) by lia.
  rewrite Z.mod_mod_divide by (exists (2 ^ 23); lia). symmetry. apply Nat2Z.inj_mod.
Qed.

(** What an update has to leave, for the rest [t] with the new bytes. *)
Lemma md5_absorb_more x c : lo c = Z.of_nat (length (m ++ x)) mod 2 ^ 29 -> hi c = (Z.of_nat (length (m ++ x)) / 2 ^ 29) mod 2 ^ 32 ->
  let t := rest m ++ x in
  abcd c = compress md5_block (length t / 64) (abcd ctx) t ->
  take (length t mod 64) (buffer c) = rest t -> length (buffer c) = 64%nat -> md5_absorbed c (m ++ x).
Proof.
  intros H0 H1 t Hs Hb Hl. destruct (compress_more md5_block md5_iv m x) as (Ec & Er & Em).
  constructor; try done; [by rewrite Ec, Hs, (a_abcd _ _ A)|by rewrite Er, Em].
Qed.

(** The whole blocks of [x] and the copy of what is left to the buffer's front. *)
Lemma tail_run fuel r buf x : (length x <= fuel)%nat -> Z.of_nat (length x) < 2 ^ 63 -> length buf = 64%nat ->
  exists r' y z, (if 64 <=? Z.of_nat (length x) then let? q := body fuel r x (Z.land (Z.of_nat (length x)) (2 ^ 64 - 1 - 63)) in Ret (q.1, q.2, Z.land (Z.of_nat (length x)) 63)
                  else Ret (r, x, Z.of_nat (length x))) = Ret (r', y, z) /\
    r' = compress md5_block (length x / 64) r x /\ take (Z.to_nat z) y = rest x /\
    take (length x mod 64) (copy_at buf 0 (take (Z.to_nat z) y)) = rest x /\ length (copy_at buf 0 (take (Z.to_nat z) y)) = 64%nat.
Proof.
  intros Hf Hx Hb. destruct (divide64 (length x)) as (q & p & Eq & Ep & El & Hp).
  assert (length (rest x) = p) as Hr by (by rewrite length_rest).
  assert (forall z y, take (Z.to_nat z) y = rest x -> take p (copy_at buf 0 (take (Z.to_nat z) y)) = rest x /\ length (copy_at buf 0 (take (Z.to_nat z) y)) = 64%nat) as Hc.
  { intros z y ->. split; [by apply take_copy_front|]. change 0 with (Z.of_nat 0). rewrite length_copy_at; lia. }
  destruct (Z.leb_spec 64 (Z.of_nat (length x))).
  - rewrite land_blocks by lia. assert (64 * (Z.of_nat (length x) / 64) = Z.of_nat (64 * q)) as -> by (rewrite <- Eq; rewrite Nat2Z.inj_mul, Nat2Z.inj_div; lia).
    rewrite body_run by lia. cbn [obind fst snd]. eexists _, _, _. split; [done|]. rewrite Eq. split; [done|].
    change 63 with (Z.ones 6). rewrite Z.land_ones by lia. change (2 ^ 6) with (Z.of_nat 64). rewrite <- Nat2Z.inj_mod, Ep.
    assert (take (Z.to_nat (Z.of_nat p)) (drop (64 * q) x) = rest x) as E.
    { rewrite Nat2Z.id. unfold rest. rewrite Eq. apply take_ge. rewrite length_drop. lia. }
    split; [done|]. by apply Hc.
  - eexists _, _, _. split; [done|]. assert (q = 0 /\ p = length x)%nat as [-> ->] by lia. rewrite Eq. split; [done|]. rewrite Nat2Z.id, Ep.
    assert (take (length x) x = rest x) as E by (unfold rest; rewrite Eq; by rewrite take_ge by lia).
    split; [done|]. rewrite <- (Nat2Z.id (length x)) at 2 3. apply Hc. by rewrite Nat2Z.id.
Qed.

Lemma MD5_Update_absorbed x : Z.of_nat (length x) < 2 ^ 63 -> exists c, MD5_Update ctx x (Z.of_nat (length x)) = Ret c /\ md5_absorbed c (m ++ x).
Proof.
  intros Hx. unfold MD5_Update. destruct (md5_count (Z.of_nat (length m)) (Z.of_nat (length x)) ltac:(lia) ltac:(lia)) as [Elo Ehi].
  cbn zeta in *. rewrite <- (a_lo _ _ A) in Elo, Ehi. rewrite <- (a_hi _ _ A) in Ehi. rewrite Ehi. rewrite !Elo. clear Elo Ehi.
  replace (Z.of_nat (length m) + Z.of_nat (length x)) with (Z.of_nat (length (m ++ x))) by (rewrite length_app; lia).
  rewrite absorbed_used. destruct (divide64 (length m)) as (q & p & Eq & Ep & Em & Hp). rewrite Ep.
  assert (length (rest m) = p) as Hr by (by rewrite length_rest). pose proof (a_buffer _ _ A) as Hb. pose proof (a_rest _ _ A) as Hrest. rewrite Ep in Hrest.
  destruct (negb (Z.of_nat p =? 0) && (Z.of_nat (length x) <? 64 - Z.of_nat p)) eqn:Ec.
  - eexists. split; [done|]. rewrite Nat2Z.id, take_ge by lia. destruct (div64_unique 0 (p + length x) (length (rest m ++ x))) as [Ed Er]; [rewrite length_app; lia|lia|].
    apply md5_absorb_more; cbn [lo hi abcd buffer]; rewrite ?Ed, ?Er; [done|done|done| |].
    + unfold rest at 1. rewrite Ed. rewrite take_copy_at by lia. by rewrite Hrest.
    + rewrite length_copy_at; lia.
  - destruct (Z.eqb_spec (Z.of_nat p) 0) as [E0|E0]; cbn [negb andb] in *.
    + assert (rest m = []) as En by (apply nil_length_inv; lia). cbn [obind].
      destruct (tail_run (length x) (abcd ctx) (buffer ctx) x ltac:(lia) Hx Hb) as (r' & y & z & -> & Er & _ & Ey & Ez). cbn [obind].
      eexists. split; [done|]. by apply md5_absorb_more; cbn [lo hi abcd buffer]; rewrite ?En.
    + rewrite body_block. cbn [obind fst snd]. replace (Z.to_nat (64 - Z.of_nat p)) with (64 - p)%nat by lia. set (f := (64 - p)%nat).
      assert (length (take f x) = f) as Hf by (rewrite length_take; lia).
      assert (copy_at (buffer ctx) (Z.of_nat p) (take f x) = rest m ++ take f x) as Ecopy.
      { rewrite <- Hrest, <- (take_copy_at _ p (take f x)) by lia. symmetry. apply take_ge. rewrite length_copy_at; lia. }
      rewrite Ecopy. assert (length (rest m ++ take f x) = 64)%nat as H64 by (rewrite length_app; lia). rewrite (take_ge (rest m ++ _)) by lia.
      replace (Z.of_nat (length x) - (64 - Z.of_nat p)) with (Z.of_nat (length (drop f x))) by (rewrite length_drop; lia).
      destruct (tail_run (length (drop f x)) (md5_block (abcd ctx) (rest m ++ take f x)) (rest m ++ take f x) (drop f x)) as (r' & y & z & E & Er & _ & Ey & Ez);
        [lia|rewrite length_drop; lia|done|]. rewrite E. cbn [obind]. eexists. split; [done|].
      assert (rest m ++ x = (rest m ++ take f x) ++ drop f x) as Et by (by rewrite <- app_assoc, take_drop).
      destruct (divide64 (length (drop f x))) as (k & s & Ek & Es & Ef & Hs). destruct (div64_unique (S k) s (length (rest m ++ x))) as [Ed Emod]; [rewrite Et, length_app; lia|done|].
      apply md5_absorb_more; cbn [lo hi abcd buffer]; rewrite ?Ed, ?Emod; [done|done| | |done].
      * cbn [compress]. rewrite Et, take_app_length', drop_app_length' by done. by rewrite Er, Ek.
      * rewrite <- Es, Ey. unfold rest at 1 2. rewrite Ed, Ek, Et, drop_app_ge, H64 by lia. f_equal. lia.
Qed.
End Update.

Lemma md5_length l : 0 <= l -> le32 (wrap 32 (Z.shiftl (l mod 2 ^ 29) 3)) ++ le32 ((l / 2 ^ 29) mod 2 ^ 32) = le64 (8 * l).
Proof.
  intros Hl. unfold le64. do 2 f_equal.
  - rewrite Z.shiftl_mul_pow2 by lia. unfold wrap. change (2 ^ 32) with (2 ^ 29 * 2 ^ 3).
    rewrite (Z.mul_comm 8), !Zmult_mod_distr_r by lia. by rewrite Zmod_mod.
  - unfold wrap. f_equal. change (2 ^ 32) with (8 * 2 ^ 29). by rewrite Z.div_mul_cancel_l by lia.
Qed.

Lemma MD5_Final_digest ctx m : md5_absorbed ctx m -> MD5_Final ctx = Ret (md5_digest m).
Proof.
  intros A. unfold MD5_Final. rewrite (absorbed_used ctx m A), (a_lo _ _ A), (a_hi _ _ A), md5_length by lia.
  destruct (divide64 (length m)) as (q & p & Eq & Ep & Em & Hp). rewrite Ep. pose proof (a_rest _ _ A) as Hrest. rewrite Ep in Hrest.
  pose proof (a_buffer _ _ A) as Hb. set (L := le64 (8 * Z.of_nat (length m))). assert (length L = 8%nat) as HL by done.
  assert (length (rest m) = p) as Hr by (by rewrite length_rest).
  set (z := ((119 - p) mod 64)%nat). set (t := rest m ++ 128 :: replicate z 0 ++ L).
  assert (md5_digest m = result_of (compress md5_block (length t / 64) (abcd ctx) t)) as ->.
  { unfold md5_digest. f_equal. unfold md5_padded. fold L. rewrite Ep. fold z.
    destruct (compress_more md5_block md5_iv m (128 :: replicate z 0 ++ L)) as [-> _]. by rewrite (a_abcd _ _ A). }
  set (b1 := copy_at (buffer ctx) (Z.of_nat p) [128]).
  assert (take (p + 1) b1 = rest m ++ [128] /\ length b1 = 64%nat) as [E1 L1].
  { unfold b1. rewrite (take_copy_at _ p [128]), length_copy_at, Hrest by (cbn; lia). done. }
  assert (forall n b d, (p + 1 + n <= 64)%nat -> length b = 64%nat -> take (p + 1) b = d -> take (p + 1 + n) (copy_at b (Z.of_nat p + 1) (replicate n 0)) = d ++ replicate n 0 /\
            length (copy_at b (Z.of_nat p + 1) (replicate n 0)) = 64%nat) as Hz.
  { intros n b d Hn Hl <-. replace (Z.of_nat p + 1) with (Z.of_nat (p + 1)) by lia. rewrite length_copy_at by (rewrite length_replicate; lia).
    split; [|done]. rewrite <- (length_replicate n 0) at 1. apply take_copy_at. lia. }
  assert (forall b d, length b = 64%nat -> take 56 b = d -> take 64 (copy_at b 56 L) = d ++ L) as Hlast.
  { intros b d Hl <-. change 64%nat with (56 + 8)%nat. rewrite <- HL. apply (take_copy_at b 56). lia. }
  destruct (Z.ltb_spec (64 - (Z.of_nat p + 1)) 8) as [Hf|Hf].
  - rewrite body_block. cbn [obind fst snd]. replace (Z.to_nat (64 - (Z.of_nat p + 1))) with (63 - p)%nat by lia.
    destruct (Hz (63 - p)%nat b1 _ ltac:(lia) L1 E1) as [E2 L2]. replace (p + 1 + (63 - p))%nat with 64%nat in E2 by lia. rewrite E2.
    rewrite body_block. cbn [obind fst]. change (Z.to_nat (64 - 8)) with 56%nat.
    assert (z = 63 - p + 56)%nat as Ez by (unfold z; rewrite Nat.mod_small; lia).
    rewrite (Hlast _ (replicate 56 0)); [|rewrite (length_copy_at _ 0); [done|rewrite length_replicate; lia]|by apply take_copy_front].
    assert (t = ((rest m ++ [128]) ++ replicate (63 - p) 0) ++ replicate 56 0 ++ L) as Et by (unfold t; rewrite Ez, replicate_add, <- !app_assoc; done).
    assert (length ((rest m ++ [128]) ++ replicate (63 - p) 0) = 64%nat) as H64 by (rewrite !length_app, length_replicate; cbn [length]; lia).
    assert (length t / 64 = 2)%nat as -> by (rewrite Et, length_app, H64, length_app, length_replicate, HL; done).
    cbn [compress]. rewrite Et, take_app_length', drop_app_length' by done. rewrite take_ge by (rewrite length_app, length_replicate; lia). done.
  - cbn [obind]. replace (Z.to_nat (64 - (Z.of_nat p + 1) - 8)) with (55 - p)%nat by lia. rewrite body_block. cbn [obind fst].
    destruct (Hz (55 - p)%nat b1 _ ltac:(lia) L1 E1) as [E2 L2]. replace (p + 1 + (55 - p))%nat with 56%nat in E2 by lia.
    rewrite (Hlast _ _ L2 E2). assert (z = 55 - p)%nat as Ez by (unfold z; symmetry; apply (Nat.mod_unique _ _ 1); lia).
    assert (t = ((rest m ++ [128]) ++ replicate (55 - p) 0) ++ L) as Et by (unfold t; rewrite Ez, <- !app_assoc; done).
    assert (length t = 64%nat) as H64 by (rewrite Et, !length_app, length_replicate, HL; cbn [length]; lia).
    rewrite H64. change (64 / 64)%nat with 1%nat. cbn [compress]. rewrite take_ge by lia. by rewrite Et.
Qed.

(** C18. However a text is cut into pieces, feeding them to a fresh context, whatever
    its memory held, gives the MD5 digest of the whole: the message with a one bit,
    zeros and its length in bits behind it, taken in block by block.  So the hash of
    a file, read by buffers, is the hash of its text. *)
Theorem MD5_incremental memory pieces : length (buffer memory) = 64%nat -> Forall (fun x : list Z => Z.of_nat (length x) < 2 ^ 63) pieces ->
  (let? c := foldl (fun r x => let? c := r in MD5_Update c x (Z.of_nat (length x))) (Ret (MD5_Init memory)) pieces in MD5_Final c) =
    Ret (md5_digest (concat pieces)) /\
  forall text, Z.of_nat (length text) < 2 ^ 63 -> GenerateMd5File memory (Some text) = GenerateMD5ToHex memory text.
Proof.
  intros Hm Hp. assert (md5_absorbed (MD5_Init memory) []) as A by (by constructor). split.
  - change (concat pieces) with ([] ++ concat pieces). revert A. generalize (MD5_Init memory). generalize (@nil Z).
    induction Hp as [|x pieces Hx _ IH]; intros m c A; cbn [foldl concat].
    + rewrite app_nil_r. by apply MD5_Final_digest.
    + cbn [obind]. destruct (MD5_Update_absorbed c m A x Hx) as (c' & -> & A'). rewrite (IH _ _ A'). by rewrite app_assoc.
  - intros text Ht. unfold GenerateMd5File, GenerateMD5ToHex, md5bin. destruct (MD5_Update_absorbed _ _ A text Ht) as (c & -> & Ac). cbn [obind].
    rewrite (MD5_Final_digest c _ Ac). cbn [obind app].
    assert (forall fuel m c s, (length s <= fuel)%nat -> Z.of_nat (length s) < 2 ^ 63 -> md5_absorbed c m -> exists c', file_loop fuel c s = Ret c' /\ md5_absorbed c' (m ++ s)) as L.
    { intros fuel. induction fuel as [|fuel IH]; intros m c0 s Hf Hs A0.
      - destruct s; [|cbn in Hf; lia]. exists c0. by rewrite app_nil_r.
      - destruct s as [|b s]; [exists c0; by rewrite app_nil_r|]. set (u := b :: s) in *. cbn [file_loop].
        destruct (take BUFSIZ u) as [|b' u'] eqn:Eu; [done|]. rewrite <- Eu.
        destruct (MD5_Update_absorbed c0 m A0 (take BUFSIZ u)) as (c1 & -> & A1); [rewrite length_take; lia|]. cbn [obind].
        destruct (IH _ c1 (drop BUFSIZ u) ltac:(rewrite length_drop; cbn; cbn in Hf; unfold BUFSIZ; lia) ltac:(rewrite length_drop; lia) A1) as (c2 & E2 & A2).
        exists c2. split; [done|]. by rewrite <- app_assoc, take_drop in A2. }
    destruct (L (length text) [] _ text ltac:(lia) Ht A) as (c' & -> & A'). cbn [obind]. by rewrite (MD5_Final_digest c' _ A').
Qed.
Lemma MD5_incremental_witness :
  (let? c := foldl (fun r x => let? c := r in MD5_Update c x (Z.of_nat (length x))) (Ret (MD5_Init md5_blank)) [to_bytes "a"; to_bytes "bc"] in MD5_Final c) =
    Ret (md5_digest (to_bytes "abc")) /\
  GenerateMd5File md5_blank (Some (to_bytes "abc")) = GenerateMD5ToHex md5_blank (to_bytes "abc").
Proof.
  destruct (MD5_incremental md5_blank [to_bytes "a"; to_bytes "bc"]) as [H1 H2]; [reflexivity| |split; [exact H1|apply H2; reflexivity]].
  apply Forall_cons; split; [reflexivity|]. apply Forall_cons; split; [reflexivity|apply Forall_nil; exact Logic.I].
Defined.
