(* ===== verification/Sm2.v ===== *)
(** SM2 signatures: [utils::EccSm2] (src/utils/ecc_sm2.cpp).

    Big numbers are integers; what the program takes from OpenSSL's curves (a
    point times a number, affine coordinates, the order) and its modular inverse
    and random numbers are the class [EcGroup], whose documented laws are
    [EcLaws].  A method of OpenSSL that reports failure answers [None]. *)

From S2P Require Import Prelude Base58 Sm3.

Class EcGroup := {
  ec_point : Type;
  (* [EC_POINT_mul]: the generator [n] times, and a point [m] times if there is one *)
  EC_POINT_mul : Z -> option (ec_point * Z) -> option ec_point;
  (* affine coordinates; none at infinity *)
  get_affine : ec_point -> option (Z * Z);
  set_affine : Z -> Z -> option ec_point;
  (* a new point is at infinity *)
  EC_POINT_new : ec_point;
  ec_order : Z;
  ec_a : Z; ec_b : Z; ec_xG : Z; ec_yG : Z;
  (* success, and what the result holds in either case *)
  BN_mod_inverse : Z -> Z -> bool * Z
}.

Class EcLaws `{EcGroup} := {
  order_range : 1 < ec_order < 2 ^ 256;
  (* [s]G + [t]([d]G) = [s + t d]G, and only the residues count *)
  mul_public : forall s t d P, EC_POINT_mul d None = Some P ->
    EC_POINT_mul s (Some (P, t)) = EC_POINT_mul ((s + t * d) mod ec_order) None;
  affine_back : forall P x y, get_affine P = Some (x, y) -> set_affine x y = Some P;
  affine_range : forall P x y, get_affine P = Some (x, y) -> 0 <= x < 2 ^ 256 /\ 0 <= y < 2 ^ 256;
  inverse_ok : forall a i, BN_mod_inverse a ec_order = (true, i) -> (a * i) mod ec_order = 1
}.

(** ** Numbers and bytes *)
Definition BN_bin2bn (s : list Z) : Z := number 256 s.
(** The bytes of a number, as few as it takes. *)
Fixpoint bytes_of (fuel : nat) (n : Z) : list Z :=
  match fuel with O => [] | S f => if n =? 0 then [] else n mod 256 :: bytes_of f (n / 256) end.
Definition BN_bn2bin (n : Z) : list Z := rev (bytes_of (Z.to_nat (Z.log2 n + 1)) n).
Definition BN_num_bytes (n : Z) : Z := Z.of_nat (length (BN_bn2bin n)).

Definition Bn2FixedString (bn : Z) (len : nat) : list Z :=
  let tmp := BN_bn2bin bn in
  let l := length tmp in
  if (l <=? len)%nat then replicate (len - l) 0 ++ tmp else drop (l - len) tmp.

(** The hash: the object's memory does not matter (Sm3.v). *)
Definition hash (s : list Z) : outcome (list Z) := Sm3_Crypto blank s.

Section EccSm2.
Context `{EcGroup}.

Record EccSm2 := mkSm2 { dA_ : Z; pkey_ : ec_point; valid_ : bool }.
Definition EccSm2_new : EccSm2 := mkSm2 0 EC_POINT_new false.

(** Coordinates that cannot be had leave the numbers at zero. *)
Definition getZA (id : list Z) (pkey : ec_point) : outcome (list Z) :=
  let '(xA, yA) := default (0, 0) (get_affine pkey) in
  let entla := wrap 32 (Z.of_nat (length id) * 8) in
  hash ([wrap 8 (Z.shiftr entla 8); Z.land entla 255] ++ id ++
        Bn2FixedString ec_a 32 ++ Bn2FixedString ec_b 32 ++ Bn2FixedString ec_xG 32 ++ Bn2FixedString ec_yG 32 ++
        Bn2FixedString xA 32 ++ Bn2FixedString yA 32).

(** ** Keys *)
Definition From (skey_bin : list Z) (k : EccSm2) : bool * EccSm2 :=
  let d := BN_bin2bn skey_bin in
  if d =? ec_order then (false, mkSm2 d (pkey_ k) false)
  else
    match EC_POINT_mul d None with
    | None => (false, mkSm2 d (pkey_ k) false)
    | Some P =>
        match get_affine P with
        | None => (false, mkSm2 d P false)
        | Some _ => (true, mkSm2 d P true)
        end
    end.

(** Draws until a key fits: both coordinates as long as the order. *)
Fixpoint NewRandom (draws : list (option Z)) (k : EccSm2) : outcome (bool * EccSm2) :=
  match draws with
  | [] => Diverge
  | None :: r => NewRandom r k
  | Some d :: r =>
      if d =? ec_order then NewRandom r (mkSm2 d (pkey_ k) (valid_ k))
      else
        match EC_POINT_mul d None with
        | None => NewRandom r (mkSm2 d (pkey_ k) (valid_ k))
        | Some P =>
            match get_affine P with
            | None => NewRandom r (mkSm2 d P (valid_ k))
            | Some (x, y) =>
                if negb (BN_num_bytes ec_order =? BN_num_bytes x) || negb (BN_num_bytes ec_order =? BN_num_bytes y)
                then NewRandom r (mkSm2 d P (valid_ k))
                else Ret (true, mkSm2 d P true)
            end
        end
  end.

Definition getSkeyBin (k : EccSm2) : list Z := Bn2FixedString (dA_ k) 32.
Definition GetPublicKey (k : EccSm2) : list Z :=
  if negb (valid_ k) then []
  else
    let '(x, y) := default (0, 0) (get_affine (pkey_ k)) in
    4 :: Bn2FixedString x 32 ++ Bn2FixedString y 32.

(** ** Signing *)

(** The numbers of the signature, and whether the label [end] was reached
    from the end of the loop; a failing call goes to it with what [r] and [s]
    hold. *)
Fixpoint sign_loop (draws : list (option Z)) (dA e r s : Z) : outcome (bool * Z * Z) :=
  match draws with
  | [] => Diverge
  | None :: _ => Ret (false, r, s)
  | Some k :: draws =>
      if (k =? 0) || (k =? ec_order) then sign_loop draws dA e r s
      else
        match EC_POINT_mul k None with
        | None => Ret (false, r, s)
        | Some pt1 =>
            match get_affine pt1 with
            | None => Ret (false, r, s)
            | Some (x, _) =>
                let x1 := x mod ec_order in
                if x1 =? 0 then sign_loop draws dA e r s
                else
                  let r := (x1 + e) mod ec_order in
                  let bn := (r + k) mod ec_order in
                  if (r =? 0) || (bn =? 0) then sign_loop draws dA e r s
                  else
                    let s := (dA + 1) mod ec_order in
                    let '(ok, s) := BN_mod_inverse s ec_order in
                    if negb ok then Ret (false, r, s)
                    else
                      let s := (s * ((k - (r * dA) mod ec_order) mod ec_order)) mod ec_order in
                      if s =? 0 then sign_loop draws dA e r s else Ret (true, r, s)
            end
        end
  end.

(** [e], the digest of [ZA || M] as a number. *)
Definition message_number (id msg : list Z) (pkey : ec_point) : outcome Z :=
  let? ZA := getZA id pkey in
  let? stre := hash (ZA ++ msg) in
  Ret (BN_bin2bn stre).
Definition Sign (draws : list (option Z)) (k : EccSm2) (id msg : list Z) : outcome (list Z) :=
  if negb (valid_ k) then Ret []
  else
    let? e := message_number id msg (pkey_ k) in
    let? rs := sign_loop draws (dA_ k) e 0 0 in
    Ret (Bn2FixedString rs.1.2 32 ++ Bn2FixedString rs.2 32).

(** ** Verifying *)

(** [std::string::substr]: past the end it throws. *)
Definition substr (s : list Z) (pos len : nat) : outcome (list Z) :=
  if (length s <? pos)%nat then Throw else Ret (take len (drop pos s)).

(** 1 for a good signature, 0 for a bad one, -1 when a call failed. *)
Definition verify (pkey id msg strsig : list Z) : outcome Z :=
  let len := ((length pkey - 1) / 2)%nat in
  let? px := substr pkey 1 len in
  let? py := substr pkey (1 + len) len in
  let half := (length strsig / 2)%nat in
  let? sigr := substr strsig 0 half in
  let? sigs := substr strsig half half in
  let pub_key := default EC_POINT_new (set_affine (BN_bin2bn px) (BN_bin2bn py)) in
  let r := BN_bin2bn sigr in
  let s := BN_bin2bn sigs in
  if (r =? 0) || (ec_order <=? r) || (s =? 0) || (ec_order <=? s) then Ret 0
  else
    let t := (r + s) mod ec_order in
    if t =? 0 then Ret 0
    else
      let? e := message_number id msg pub_key in
      match EC_POINT_mul s (Some (pub_key, t)) with
      | None => Ret (-1)
      | Some point =>
          match get_affine point with
          | None => Ret (-1)
          | Some (x, _) =>
              let x1 := x mod ec_order in
              let R := (x1 + e) mod ec_order in
              Ret (if R mod ec_order =? r then 1 else 0)
          end
      end.
End EccSm2.

(** ** Fixed-length numbers *)
Lemma bytes_of_spec f n : 0 <= n < 256 ^ Z.of_nat f ->
  value 256 (bytes_of f n) = n /\ digits_ok 256 (bytes_of f n) /\
  forall k, n < 256 ^ Z.of_nat k -> (length (bytes_of f n) <= k)%nat.
Proof.
  revert n. induction f as [|f IH]; intros n Hn; cbn [bytes_of].
  { cbn in *. split; [lia|]. split; [constructor|]. intros; lia. }
  destruct (Z.eqb_spec n 0) as [->|Hz].
  { split; [done|]. split; [constructor|]. cbn. intros; lia. }
  rewrite Nat2Z.inj_succ, Z.pow_succ_r in Hn by lia.
  destruct (IH (n / 256)) as (Hv & Hd & Hk).
  { split; [apply Z.div_pos; lia|]. apply Z.div_lt_upper_bound; lia. }
  split; [|split].
  - cbn [value]. rewrite Hv. pose proof (Z.div_mod n 256). lia.
  - constructor; [apply Z.mod_pos_bound; lia|done].
  - intros [|k] Hlt; [cbn in Hlt; lia|]. cbn [length]. apply le_n_S, Hk.
    rewrite Nat2Z.inj_succ, Z.pow_succ_r in Hlt by lia. apply Z.div_lt_upper_bound; lia.
Qed.
Lemma BN_bn2bin_spec n : 0 <= n ->
  BN_bin2bn (BN_bn2bin n) = n /\ bytes_ok (BN_bn2bin n) /\ forall k, n < 256 ^ Z.of_nat k -> (length (BN_bn2bin n) <= k)%nat.
Proof.
  intros Hn. destruct (bytes_of_spec (Z.to_nat (Z.log2 n + 1)) n) as (H1 & H2 & H3).
  { split; [done|]. pose proof (Z.log2_nonneg n). rewrite Z2Nat.id by lia. destruct (Z.eq_dec n 0) as [->|Hz]; [done|].
    apply Z.lt_le_trans with (2 ^ (Z.log2 n + 1)); [apply Z.log2_spec; lia|].
    apply Z.pow_le_mono_l. lia. }
  unfold BN_bin2bn, BN_bn2bin. rewrite rev_involutive, length_rev. split; [done|]. split; [by apply digits_ok_rev|done].
Qed.
Lemma Bn2FixedString_spec n : 0 <= n < 2 ^ 256 ->
  BN_bin2bn (Bn2FixedString n 32) = n /\ length (Bn2FixedString n 32) = 32%nat /\ bytes_ok (Bn2FixedString n 32).
Proof.
  intros Hn. destruct (BN_bn2bin_spec n ltac:(lia)) as (H1 & H2 & H3). specialize (H3 32%nat ltac:(lia)).
  unfold Bn2FixedString. rewrite (proj2 (Nat.leb_le _ 32)) by done.
  split; [unfold BN_bin2bn; by rewrite number_front|]. split.
  - rewrite length_app, length_replicate. lia.
  - apply Forall_app. split; [|done]. apply Forall_replicate. unfold byte_ok. lia.
Qed.

(** ** The algebra of a signature *)

(** A residue is the number, less a multiple of the modulus. *)
Lemma mod_off n a : n <> 0 -> exists q, a mod n = a + n * q.
Proof. intros Hn. exists (- (a / n)). rewrite Z.mod_eq by done. lia. Qed.

(** [s + (r + s) d = k] when [s] is [(1 + d)^-1 (k - r d)], modulo [n]. *)
Lemma sm2_equation n d i k r s t : 1 < n -> (((d + 1) mod n) * i) mod n = 1 ->
  s = (i * ((k - (r * d) mod n) mod n)) mod n -> t = (r + s) mod n -> (s + t * d) mod n = k mod n.
Proof.
  intros Hn Hi Hs Ht. assert (n <> 0) as Hz by lia.
  destruct (mod_off n (d + 1) Hz) as [q1 E1]. rewrite E1 in Hi.
  destruct (mod_off n ((d + 1 + n * q1) * i) Hz) as [q2 E2]. rewrite E2 in Hi.
  destruct (mod_off n (r * d) Hz) as [q3 E3]. rewrite E3 in Hs.
  destruct (mod_off n (k - (r * d + n * q3)) Hz) as [q4 E4]. rewrite E4 in Hs.
  destruct (mod_off n (i * (k - (r * d + n * q3) + n * q4)) Hz) as [q5 E5]. rewrite E5 in Hs.
  destruct (mod_off n (r + s) Hz) as [q6 E6]. rewrite E6 in Ht.
  set (w := k - r * d + n * (q4 - q3)).
  assert (i * (d + 1) = 1 - n * (q1 * i + q2)) as Ei by lia.
  assert (s * (1 + d) = w * (1 - n * (q1 * i + q2)) + n * q5 * (1 + d)) as Es.
  { rewrite <- Ei, Hs. subst w. ring. }
  replace (s + t * d) with (s * (1 + d) + r * d + n * q6 * d) by (rewrite Ht; ring).
  rewrite Es. subst w.
  match goal with |- ?a mod n = _ => replace a with
    (k + (q4 - q3 - (k - r * d + n * (q4 - q3)) * (q1 * i + q2) + q5 * (1 + d) + q6 * d) * n) by ring end.
  by rewrite Z.mod_add.
Qed.

Section Laws.
Context `{EcLaws}.

(** What a loop that reached the end has found. *)
Lemma sign_loop_spec draws d e r0 s0 r s : Forall (fun o => match o with Some k => 0 <= k < ec_order | None => True end) draws ->
  sign_loop draws d e r0 s0 = Ret (true, r, s) ->
  exists k P x y, 0 < k < ec_order /\ EC_POINT_mul k None = Some P /\ get_affine P = Some (x, y) /\
    r = (x mod ec_order + e) mod ec_order /\ 0 < r < ec_order /\ 0 < s < ec_order /\
    (r + s) mod ec_order <> 0 /\ (s + (r + s) mod ec_order * d) mod ec_order = k.
Proof.
  pose proof order_range as Ho.
  intros Hd. revert r0 s0. induction Hd as [|o draws Hk Hd IH]; intros r0 s0 E; cbn [sign_loop] in E; [done|].
  destruct o as [k|]; [|done].
  destruct ((k =? 0) || (k =? ec_order)) eqn:Ek; [by eapply IH|].
  destruct (EC_POINT_mul k None) as [P|] eqn:EP; [|done].
  destruct (get_affine P) as [[x y]|] eqn:Ea; [|done]. cbn zeta in E.
  destruct (x mod ec_order =? 0); [by eapply IH|].
  set (r1 := (x mod ec_order + e) mod ec_order) in *.
  assert (0 <= r1 < ec_order) as Hr by (apply Z.mod_pos_bound; lia).
  destruct ((r1 =? 0) || ((r1 + k) mod ec_order =? 0)) eqn:Er; [by eapply IH|].
  destruct (BN_mod_inverse ((d + 1) mod ec_order) ec_order) as [[] i] eqn:Ei; cbn [negb] in E; [|done].
  set (s1 := (i * _) mod ec_order) in *.
  assert (0 <= s1 < ec_order) as Hs by (apply Z.mod_pos_bound; lia).
  destruct (s1 =? 0) eqn:Es; [by eapply IH|]. injection E as <- <-.
  assert ((s1 + (r1 + s1) mod ec_order * d) mod ec_order = k) as Hk'.
  { rewrite (sm2_equation ec_order d i k r1 s1 _ (proj1 Ho) (inverse_ok _ _ Ei) eq_refl eq_refl).
    apply Z.mod_small. lia. }
  exists k, P, x, y. split; [lia|]. do 3 (split; [done|]). split; [lia|]. split; [lia|]. split; [|done].
  intros Hz. rewrite Hz, Z.mul_0_l, Z.add_0_r, Z.mod_small in Hk' by lia.
  rewrite Hk' in Hz. apply orb_false_iff in Er as [_ Er]. lia.
Qed.

Lemma sign_verifies draws secret k id msg e r s :
  Forall (fun o => match o with Some k => 0 <= k < ec_order | None => True end) draws ->
  From secret EccSm2_new = (true, k) ->
  message_number id msg (pkey_ k) = Ret e -> sign_loop draws (dA_ k) e 0 0 = Ret (true, r, s) ->
  exists sig, Sign draws k id msg = Ret sig /\ length sig = 64%nat /\ bytes_ok sig /\ length (GetPublicKey k) = 65%nat /\
    verify (GetPublicKey k) id msg sig = Ret 1.
Proof.
  intros Hd HF He HL. pose proof order_range as Ho.
  unfold From in HF. set (d := BN_bin2bn secret) in *. destruct (d =? ec_order); [done|].
  destruct (EC_POINT_mul d None) as [P|] eqn:EP; [|done].
  destruct (get_affine P) as [[x y]|] eqn:Ea; [|done]. injection HF as <-. cbn [pkey_ dA_] in *.
  destruct (affine_range _ _ _ Ea) as [Hx Hy].
  destruct (Bn2FixedString_spec x Hx) as (Ex & Lx & _), (Bn2FixedString_spec y Hy) as (Ey & Ly & _).
  destruct (sign_loop_spec _ _ _ _ _ _ _ Hd HL) as (n & Q & u & v & Hn & EQ & Eu & Er & Hr & Hs & Ht & Ek).
  destruct (Bn2FixedString_spec r ltac:(lia)) as (Nr & Lr & Br), (Bn2FixedString_spec s ltac:(lia)) as (Ns & Ls & Bs).
  unfold Sign, GetPublicKey. cbn [valid_ negb pkey_ dA_]. rewrite He. cbn [obind]. rewrite HL, Ea. cbn [obind fst snd from_option Datatypes.id].
  eexists. split; [reflexivity|]. split; [rewrite length_app; lia|]. split; [by apply Forall_app|].
  split; [cbn [length]; rewrite length_app; lia|].
  unfold verify, substr. cbn [length]. rewrite !length_app, Lx, Ly, Lr, Ls.
  change ((S (32 + 32) - 1) / 2)%nat with 32%nat. change ((32 + 32) / 2)%nat with 32%nat.
  cbn [Nat.ltb Nat.leb Nat.add obind drop]. rewrite !drop_0, !take_app_length', !drop_app_length' by lia.
  rewrite (take_ge (Bn2FixedString y 32)), (take_ge (Bn2FixedString s 32)) by lia.
  rewrite Ex, Ey, Nr, Ns, (affine_back _ _ _ Ea). cbn [from_option Datatypes.id].
  rewrite (proj2 (Z.eqb_neq r 0)), (proj2 (Z.leb_gt _ r)), (proj2 (Z.eqb_neq s 0)), (proj2 (Z.leb_gt _ s)) by lia.
  cbn [orb]. rewrite (proj2 (Z.eqb_neq _ 0) Ht), He. cbn [obind].
  rewrite (mul_public s _ d P EP), Ek, EQ, Eu. cbn iota zeta.
  rewrite Z.mod_mod, <- Er, Z.eqb_refl by lia. done.
Qed.

(** C16. A signature verifies: what [Sign] puts together when its loop ends is
    accepted by [verify] under the key's own public key, for the same identity
    and message, whichever numbers were drawn. *)
Theorem Sign_verify draws secret k id msg e r s :
  Forall (fun o => match o with Some k => 0 <= k < ec_order | None => True end) draws ->
  From secret EccSm2_new = (true, k) ->
  message_number id msg (pkey_ k) = Ret e -> sign_loop draws (dA_ k) e 0 0 = Ret (true, r, s) ->
  exists sig, Sign draws k id msg = Ret sig /\ length sig = 64%nat /\ bytes_ok sig /\ length (GetPublicKey k) = 65%nat /\
    verify (GetPublicKey k) id msg sig = Ret 1.
Proof. apply sign_verifies. Qed.
End Laws.

(** ** A small group: the numbers modulo 101 under addition *)
Definition small_affine (P : Z) : option (Z * Z) := if (0 <? P) && (P <? 101) then Some (P, 7) else None.
Definition small_group : EcGroup := {|
  ec_point := Z;
  EC_POINT_mul := fun n q => Some ((n + match q with Some (P, m) => m * P | None => 0 end) mod 101);
  get_affine := small_affine;
  set_affine := fun x y => Some x;
  EC_POINT_new := 0;
  ec_order := 101;
  ec_a := 1; ec_b := 2; ec_xG := 1; ec_yG := 7;
  BN_mod_inverse := fun a n => let i := (a mod n) ^ 99 mod n in ((a * i) mod n =? 1, i)
|}.
Lemma small_laws : @EcLaws small_group.
Proof.
  split; cbn.
  - lia.
  - intros s t d P [= <-]. rewrite !Z.add_0_r, Z.mod_mod by lia. f_equal.
    rewrite <- (Zplus_mod_idemp_r (t * _)), <- (Zplus_mod_idemp_r (t * d)). by rewrite Z.mul_mod_idemp_r by lia.
  - unfold small_affine. intros P x y E. destruct (_ && _); [|done]. by injection E as <- <-.
  - unfold small_affine. intros P x y E. destruct (_ && _) eqn:Eb; [|done]. injection E as <- <-. lia.
  - intros a i E. injection E as E <-. by apply Z.eqb_eq.
Qed.
Definition small_key : @EccSm2 small_group := @mkSm2 small_group 5 5 true.


Lemma Sign_verify_witness : exists sig,
  @Sign small_group [Some 7; Some 11] small_key [49; 50] (to_bytes "message") = Ret sig /\
  @verify small_group (@GetPublicKey small_group small_key) [49; 50] (to_bytes "message") sig = Ret 1.
Proof.
  destruct (@Sign_verify small_group small_laws [Some 7; Some 11] [5] small_key [49; 50] (to_bytes "message")
    74929960276209564165652194561383710290057286555676213654488589506845080304020 71 43) as (sig & Hs & _ & _ & _ & Hv);
    [repeat constructor; cbn; lia|reflexivity|vm_compute; reflexivity|vm_compute; reflexivity|].
  exists sig. split; [exact Hs|exact Hv].
Defined.
