(* ===== verification/Curve.v ===== *)
(** The curve of SM2: [EccSm2::GetCFCAGroup] and [EccSm2::NewGroup]
    (src/utils/ecc_sm2.cpp), around OpenSSL's groups, which are the class
    [EcBuild].  The constants of the code are checked here by computing. *)

From S2P Require Import Prelude Hex Base58 Sm2.

Inductive GROUP_TYPE : Set := GFP | GF2M.
Class EcBuild := {
  ec_group : Type;
  EC_GROUP_new : GROUP_TYPE -> option ec_group;
  (* the changed group, if the call succeeds *)
  set_curve : GROUP_TYPE -> ec_group -> Z -> Z -> Z -> option ec_group;
  set_generator : ec_group -> Z -> Z -> Z -> option ec_group;
  BN_is_prime : Z -> bool;
  (* whether so many times the generator is the point at infinity *)
  order_ends : ec_group -> Z -> bool;
  EC_GROUP_check : ec_group -> bool
}.

(** [BN_hex2bn]: the digits at the front, after a sign. *)
Definition hex_digit (c : Z) : option Z :=
  if (48 <=? c) && (c <=? 57) then Some (c - 48)
  else if (65 <=? c) && (c <=? 70) then Some (c - 55)
  else if (97 <=? c) && (c <=? 102) then Some (c - 87)
  else None.
Fixpoint hex_value (s : list Z) (acc : Z) : Z :=
  match s with
  | c :: r => match hex_digit c with Some d => hex_value r (acc * 16 + d) | None => acc end
  | [] => acc
  end.
Definition BN_hex2bn (s : list Z) : Z :=
  match s with c :: r => if c =? 45 then - hex_value r 0 else hex_value s 0 | [] => 0 end.

(** What the code computes of the parameters. *)
Definition bn_191 : Z := BN_hex2bn (to_bytes "400000000000000000000000000000000000000000000000").
Definition discriminant (p a b : Z) : Z := (4 * (a * a * a) + 27 * (b * b)) mod p.
Definition on_curve (p a b x y : Z) : bool := (y * y) mod p =? (x * x * x + (a * x + b)) mod p.

Section Curve.
Context `{EcBuild}.

(** A check that fails goes to the end of the loop with the group as it is: [None]
    only if there is none yet, or [EC_GROUP_check] is reached and fails. *)
Definition NewGroup (type : GROUP_TYPE) (phex ahex bhex xGhex yGhex nhex : list Z) : option ec_group :=
  let p := BN_hex2bn phex in let a := BN_hex2bn ahex in let b := BN_hex2bn bhex in
  let xG := BN_hex2bn xGhex in let yG := BN_hex2bn yGhex in let n := BN_hex2bn nhex in
  let checked group := if EC_GROUP_check group then Some group else None in
  match type with
  | GFP =>
      if n <=? bn_191 then None
      else if negb (BN_is_prime p) then None
      else if negb (Z.odd p) then None
      else
        match EC_GROUP_new GFP with
        | None => None
        | Some group =>
            match set_curve GFP group p a b with
            | None => Some group
            | Some group =>
                match set_generator group xG yG n with
                | None => Some group
                | Some group =>
                    if discriminant p a b =? 0 then Some group
                    else if negb (on_curve p a b xG yG) then Some group
                    else if negb (BN_is_prime n) then Some group
                    else if negb (order_ends group n) then Some group
                    else checked group
                end
            end
        end
  | GF2M =>
      match EC_GROUP_new GF2M with
      | None => None
      | Some group =>
          match set_curve GF2M group p a b with
          | None => Some group
          | Some group =>
              match set_generator group xG yG n with
              | None => Some group
              | Some group => checked group
              end
          end
      end
  end.

Definition cfca_p : Z := BN_hex2bn (to_bytes "FFFFFFFEFFFFFFFFFFFFFFFFFFFFFFFFFFFFFFFF00000000FFFFFFFFFFFFFFFF").
Definition cfca_a : Z := BN_hex2bn (to_bytes "FFFFFFFEFFFFFFFFFFFFFFFFFFFFFFFFFFFFFFFF00000000FFFFFFFFFFFFFFFC").
Definition cfca_b : Z := BN_hex2bn (to_bytes "28E9FA9E9D9F5E344D5A9E4BCF6509A7F39789F515AB8F92DDBCBD414D940E93").
Definition cfca_xG : Z := BN_hex2bn (to_bytes "32C4AE2C1F1981195F9904466A39C9948FE30BBFF2660BE1715A4589334C74C7").
Definition cfca_yG : Z := BN_hex2bn (to_bytes "BC3736A2F4F6779C59BDCEE36B692153D0A9877CC62A474002DF32E52139F0A0").
Definition cfca_n : Z := BN_hex2bn (to_bytes "FFFFFFFEFFFFFFFFFFFFFFFFFFFFFFFF7203DF6B21C6052B53BBF40939D54123").
(** The static member is set before the calls that may fail. *)
Definition GetCFCAGroup (cfca_group_ : option ec_group) : outcome (ec_group * option ec_group) :=
  match cfca_group_ with
  | Some group => Ret (group, cfca_group_)
  | None =>
      match EC_GROUP_new GFP with
      | None => Undef NullDeref
      | Some group =>
          let group := match set_curve GFP group cfca_p cfca_a cfca_b with
                       | None => group
                       | Some group => default group (set_generator group cfca_xG cfca_yG cfca_n)
                       end in
          Ret (group, Some group)
      end
  end.

(** The checks between the making of the group and OpenSSL's own. *)
Definition parameters_pass (group : ec_group) (p a b xG yG n : Z) : bool :=
  negb (discriminant p a b =? 0) && on_curve p a b xG yG && BN_is_prime n && order_ends group n.

(** Of a group that could be made: parameters that fail hand it out unchecked; with
    parameters that pass it is a group only if OpenSSL's own check passes. *)
Theorem NewGroup_outcome phex ahex bhex xGhex yGhex nhex p a b xG yG n g0 g1 g2 :
  BN_hex2bn phex = p -> BN_hex2bn ahex = a -> BN_hex2bn bhex = b -> BN_hex2bn xGhex = xG -> BN_hex2bn yGhex = yG ->
  BN_hex2bn nhex = n -> (n <=? bn_191) = false -> BN_is_prime p = true -> Z.odd p = true ->
  EC_GROUP_new GFP = Some g0 -> set_curve GFP g0 p a b = Some g1 -> set_generator g1 xG yG n = Some g2 ->
  NewGroup GFP phex ahex bhex xGhex yGhex nhex =
    if parameters_pass g2 p a b xG yG n then if EC_GROUP_check g2 then Some g2 else None else Some g2.
Proof.
  intros Ep Ea Eb Ex Ey En Hn Hp Ho E0 E1 E2. unfold NewGroup, parameters_pass.
  rewrite Ep, Ea, Eb, Ex, Ey, En, Hn, Hp, Ho, E0, E1, E2.
  generalize (discriminant p a b =? 0), (on_curve p a b xG yG), (BN_is_prime n), (order_ends g2 n).
  by intros [] [] [] [].
Qed.
(** What has been made once is what every later call gives, finished or not. *)
Lemma GetCFCAGroup_once g0 group cached : GetCFCAGroup g0 = Ret (group, cached) -> GetCFCAGroup cached = Ret (group, cached).
Proof. unfold GetCFCAGroup. destruct g0; [by intros [= <- <-]|]. destruct (EC_GROUP_new GFP); [by intros [= <- <-]|done]. Qed.
End Curve.

(** ** Keys in hexadecimal *)
Definition hex_char (d : Z) : Z := if d <? 10 then 48 + d else 55 + d.
Definition BN_bn2hex (n : Z) : list Z :=
  if n =? 0 then [48] else concat (map (fun c => [hex_char (c / 16); hex_char (c mod 16)]) (BN_bn2bin n)).
Definition getSkeyHex `{EcGroup} (k : EccSm2) : list Z := BN_bn2hex (dA_ k).
Lemma hex_digit_char d : 0 <= d < 16 -> hex_digit (hex_char d) = Some d.
Proof.
  intros Hd. unfold hex_digit, hex_char. destruct (Z.ltb_spec d 10).
  - destruct (Z.leb_spec 48 (48 + d)), (Z.leb_spec (48 + d) 57); try lia. cbn. f_equal. lia.
  - destruct (Z.leb_spec 48 (55 + d)), (Z.leb_spec (55 + d) 57), (Z.leb_spec 65 (55 + d)), (Z.leb_spec (55 + d) 70); try lia. cbn. f_equal. lia.
Qed.
Lemma hex_char_sign d : 0 <= d < 16 -> (hex_char d =? 45) = false.
Proof. intros Hd. unfold hex_char. apply Z.eqb_neq. destruct (Z.ltb_spec d 10); lia. Qed.
Lemma hex_value_bytes l acc : bytes_ok l ->
  hex_value (concat (map (fun c => [hex_char (c / 16); hex_char (c mod 16)]) l)) acc = acc * 256 ^ Z.of_nat (length l) + number 256 l.
Proof.
  intros Hl. revert acc. induction Hl as [|c l Hc Hl IH]; intros acc; [cbn; lia|].
  cbn [map concat app hex_value]. unfold byte_ok in Hc. pose proof (Z.div_mod c 16 ltac:(lia)). pose proof (Z.mod_pos_bound c 16 ltac:(lia)).
  assert (0 <= c / 16 < 16) as Hq by (split; [apply Z.div_pos; lia|apply Z.div_lt_upper_bound; lia]).
  rewrite !hex_digit_char by lia. rewrite IH, number_cons by lia. cbn [length]. rewrite Nat2Z.inj_succ, Z.pow_succ_r by lia. nia.
Qed.
(** The printed key reads back. *)
Theorem getSkeyHex_reads `{EcGroup} k : 0 <= dA_ k < 2 ^ 256 -> BN_hex2bn (getSkeyHex k) = dA_ k.
Proof.
  intros Hk. unfold getSkeyHex, BN_bn2hex. destruct (Z.eqb_spec (dA_ k) 0) as [->|Hz]; [reflexivity|].
  destruct (BN_bn2bin_spec (dA_ k) ltac:(lia)) as (E & Hb & _).
  pose proof (hex_value_bytes (BN_bn2bin (dA_ k)) 0 Hb) as Hv. rewrite Z.mul_0_l, Z.add_0_l in Hv.
  unfold BN_bin2bn in E. rewrite E in Hv. unfold BN_hex2bn.
  destruct (BN_bn2bin (dA_ k)) as [|c l]; [cbn in E; lia|]. cbn [map concat app] in Hv |- *.
  inversion Hb as [|? ? Hc]; subst. rewrite (hex_char_sign (c / 16)); [done|]. unfold byte_ok in Hc.
  split; [apply Z.div_pos; lia|apply Z.div_lt_upper_bound; lia].
Qed.

(** ** The constants of the code *)
(** A group that is its numbers.  What OpenSSL says of primes, and of the point the
    order leads to, is given for the numbers of the code: that their order and their
    modulus are primes and that the order ends the generator is the standard's claim,
    which is not proved here. *)
#[global] Instance number_build : EcBuild := {|
  ec_group := Z * Z * Z * (Z * Z * Z);
  EC_GROUP_new _ := Some (0, 0, 0, (0, 0, 0));
  set_curve _ g p a b := if (3 <? p) && Z.odd p then Some (p, a, b, g.2) else None;
  set_generator g x y n := let '(p, a, b, _) := g in if on_curve p a b x y then Some (p, a, b, (x, y, n)) else None;
  BN_is_prime p := (p =? cfca_p) || (p =? cfca_n);
  order_ends g n := n =? cfca_n;
  EC_GROUP_check g := let '(p, a, b, (x, y, n)) := g in negb (discriminant p a b =? 0) && on_curve p a b x y
|}.

(** The group of the code is complete, and its six numbers pass what [NewGroup] computes
    itself: the modulus is odd, the discriminant is not zero, the generator lies on the
    curve and the order is above the bound. *)
Definition cfca_group : Z * Z * Z * (Z * Z * Z) := (cfca_p, cfca_a, cfca_b, (cfca_xG, cfca_yG, cfca_n)).
Theorem cfca_complete : GetCFCAGroup None = Ret (cfca_group, Some cfca_group).
Proof. vm_compute. reflexivity. Qed.
Theorem cfca_passes : (bn_191 <? cfca_n) && BN_is_prime cfca_p && Z.odd cfca_p
  && parameters_pass cfca_group cfca_p cfca_a cfca_b cfca_xG cfca_yG cfca_n = true.
Proof. vm_compute. reflexivity. Qed.
(** The remark in the code says the bound on the order is 2 to the 191; it is half of that. *)
Lemma bn_191_is : bn_191 = 2 ^ 190.
Proof. vm_compute. reflexivity. Qed.
(** An order that is not a prime makes no difference to what is handed out. *)
Definition cfca_hex : list (list Z) := map to_bytes
  ["FFFFFFFEFFFFFFFFFFFFFFFFFFFFFFFFFFFFFFFF00000000FFFFFFFFFFFFFFFF";
   "FFFFFFFEFFFFFFFFFFFFFFFFFFFFFFFFFFFFFFFF00000000FFFFFFFFFFFFFFFC";
   "28E9FA9E9D9F5E344D5A9E4BCF6509A7F39789F515AB8F92DDBCBD414D940E93";
   "32C4AE2C1F1981195F9904466A39C9948FE30BBFF2660BE1715A4589334C74C7";
   "BC3736A2F4F6779C59BDCEE36B692153D0A9877CC62A474002DF32E52139F0A0";
   "FFFFFFFEFFFFFFFFFFFFFFFFFFFFFFFF7203DF6B21C6052B53BBF40939D54121"]%string.
Definition odd_order : Z := cfca_n - 2.
Definition odd_group : Z * Z * Z * (Z * Z * Z) := (cfca_p, cfca_a, cfca_b, (cfca_xG, cfca_yG, odd_order)).
Theorem NewGroup_outcome_witness :
  NewGroup GFP (nth 0 cfca_hex []) (nth 1 cfca_hex []) (nth 2 cfca_hex []) (nth 3 cfca_hex []) (nth 4 cfca_hex []) (nth 5 cfca_hex []) = Some odd_group.
Proof.
  rewrite (@NewGroup_outcome number_build _ _ _ _ _ _ cfca_p cfca_a cfca_b cfca_xG cfca_yG odd_order
    (0, 0, 0, (0, 0, 0)) (cfca_p, cfca_a, cfca_b, (0, 0, 0)) odd_group); vm_compute; reflexivity.
Defined.
