(* ===== verification/Aes.v ===== *)
(** Secret configuration values: [utils::Aes] and [utils::AesCtr]
    (src/utils/crypto.cpp), around OpenSSL's modes of AES, which are the class
    [AesModes]. *)

From S2P Require Import Prelude Hex.

Class AesModes := {
  (* CBC with a zero initial vector: key and data *)
  cbc_encrypt : list Z -> list Z -> list Z;
  cbc_decrypt : list Z -> list Z -> outcome (list Z);
  (* CTR from a fresh state: key, initial vector and data *)
  ctr_crypt : list Z -> list Z -> list Z -> list Z
}.

(** CBC works on whole blocks, the last one filled up with zeros, and what
    follows a text does not change what the text decrypts to; CTR combines the
    data with a stream that only the key and the vector determine. *)
Definition fill16 (n : nat) : nat := ((16 - n mod 16) mod 16)%nat.
Class AesLaws `{AesModes} := {
  cbc_length : forall key x, length (cbc_encrypt key x) = (length x + fill16 (length x))%nat;
  cbc_inverse : forall key x tail, bytes_ok x -> (length tail mod 16 = 0)%nat ->
    exists r, cbc_decrypt key (cbc_encrypt key x ++ tail) = Ret (x ++ replicate (fill16 (length x)) 0 ++ r) /\
      length r = length tail;
  ctr_length : forall key iv x, length (ctr_crypt key iv x) = length x;
  ctr_involutive : forall key iv x, bytes_ok x -> ctr_crypt key iv (ctr_crypt key iv x) = x;
  ctr_bytes : forall key iv x, bytes_ok x -> bytes_ok (ctr_crypt key iv x)
}.

Section Aes.
Context `{AesModes}.

Definition key_size_ok (key : list Z) : bool :=
  (Nat.eqb (length key) 16) || (Nat.eqb (length key) 24) || (Nat.eqb (length key) 32).

(** Up to the first NUL: [resize(strlen(...))]. *)
Fixpoint upto_nul (s : list Z) : list Z :=
  match s with [] => [] | c :: r => if c =? 0 then [] else c :: upto_nul r end.

Definition Decrypto (input key : list Z) : outcome (list Z) :=
  if negb (key_size_ok key) then Ret []
  else let? enc_out := cbc_decrypt key input in Ret (upto_nul enc_out).

(** The output is made [len] zeros long and only as much of it is written as
    the input has blocks. *)
Definition crypto_len (n : nat) : nat :=
  if Nat.eqb ((n + 1) mod 16) 0 then (n + 1)%nat else (((n + 1) / 16 + 1) * 16)%nat.
Definition Crypto (input key : list Z) : list Z :=
  if negb (key_size_ok key) then to_bytes "key error"
  else
    let out := cbc_encrypt key input in
    out ++ replicate (crypto_len (length input) - length out) 0.

Definition CryptoHex (input key : list Z) : list Z := BinToHexString (Crypto input key).
Definition HexDecrypto (input key : list Z) : outcome (list Z) := Decrypto (HexStringToBin input false) key.

(** ** [AesCtr]: every 1024 bytes from a fresh state *)
Record AesCtr := mkAesCtr { iv_ : list Z; ckey_ : list Z; key_valid_ : bool }.
Definition AesCtr_new (iv ckey : list Z) : AesCtr := mkAesCtr (take 16 iv) ckey (key_size_ok ckey).
Definition AesCtr_IsValid (c : AesCtr) : bool := key_valid_ c.
Definition BYTES_SIZE : nat := 1024.

(** [n] whole pieces, then the rest if there is one. *)
Fixpoint ctr_pieces (n : nat) (c : AesCtr) (indata : list Z) : list Z :=
  match n with
  | O => if Nat.eqb (length indata mod BYTES_SIZE) 0 then [] else ctr_crypt (ckey_ c) (iv_ c) indata
  | S n => ctr_crypt (ckey_ c) (iv_ c) (take BYTES_SIZE indata) ++ ctr_pieces n c (drop BYTES_SIZE indata)
  end.
Definition AesCtr_Encrypt (c : AesCtr) (indata : list Z) : list Z :=
  if (length indata <? BYTES_SIZE)%nat then ctr_crypt (ckey_ c) (iv_ c) indata
  else ctr_pieces (length indata / BYTES_SIZE) c indata.
End Aes.

(** ** Round trips *)
Section Facts.
Context `{AesLaws}.

Lemma upto_nul_stop x r : Forall (fun c => c <> 0) x -> upto_nul (x ++ 0 :: r) = x.
Proof.
  induction 1 as [|c x Hc _ IH]; [done|]. cbn [app upto_nul]. by rewrite (proj2 (Z.eqb_neq c 0) Hc), IH.
Qed.
Lemma upto_nul_app x r : Forall (fun c => c <> 0) x -> upto_nul (x ++ r) = x ++ upto_nul r.
Proof.
  induction 1 as [|c x Hc _ IH]; [done|]. cbn [app upto_nul]. by rewrite (proj2 (Z.eqb_neq c 0) Hc), IH.
Qed.

(** How long the output is: a block more than the input fills if that is whole blocks. *)
Lemma crypto_len_spec n : crypto_len n = if Nat.eqb (n mod 16) 0 then (n + 16)%nat else (n + fill16 n)%nat.
Proof.
  unfold crypto_len, fill16. pose proof (Nat.div_mod_eq n 16) as E. pose proof (Nat.mod_upper_bound n 16 ltac:(lia)) as Hp.
  set (q := (n / 16)%nat) in *. set (p := (n mod 16)%nat) in *.
  assert ((n + 1) / 16 = (if Nat.eqb p 15 then q + 1 else q) /\ (n + 1) mod 16 = (if Nat.eqb p 15 then 0 else p + 1))%nat as [-> ->].
  { destruct (Nat.eqb_spec p 15); split; symmetry;
      first [apply (Nat.div_unique _ _ _ 0); lia|apply (Nat.mod_unique _ _ (q + 1)); lia
            |apply (Nat.div_unique _ _ _ (p + 1)); lia|apply (Nat.mod_unique _ _ q); lia]. }
  assert ((16 - p) mod 16 = if Nat.eqb p 0 then 0 else 16 - p)%nat as ->.
  { destruct (Nat.eqb_spec p 0) as [->|]; [done|]. apply Nat.mod_small. lia. }
  destruct (Nat.eqb_spec p 15) as [->|]; cbn [Nat.eqb]; [lia|].
  replace (Nat.eqb (p + 1) 0) with false by (symmetry; apply Nat.eqb_neq; lia). destruct (Nat.eqb_spec p 0); lia.
Qed.


Lemma ctr_pieces_twice n c x : bytes_ok x -> (length x / BYTES_SIZE = n)%nat ->
  length (ctr_pieces n c x) = length x /\ ctr_pieces n c (ctr_pieces n c x) = x.
Proof.
  revert x. induction n as [|n IH]; intros x Hx Hn; cbn [ctr_pieces].
  - assert (length x < BYTES_SIZE)%nat as Hl.
    { apply Nat.div_small_iff in Hn; [done|]. unfold BYTES_SIZE. lia. }
    rewrite Nat.mod_small by done. destruct (Nat.eqb_spec (length x) 0) as [E|Hne].
    + apply nil_length_inv in E as ->. done.
    + rewrite ctr_length, Nat.mod_small by done. destruct (Nat.eqb_spec (length x) 0); [done|]. by rewrite ctr_involutive.
  - assert (BYTES_SIZE <= length x)%nat as Hl.
    { destruct (Nat.lt_ge_cases (length x) BYTES_SIZE) as [Hs|]; [|done]. rewrite Nat.div_small in Hn by done. done. }
    destruct (IH (drop BYTES_SIZE x)) as [Hlen Htw].
    + by apply Forall_drop.
    + rewrite length_drop. pose proof (Nat.div_mod_eq (length x) BYTES_SIZE) as E. rewrite Hn in E.
      pose proof (Nat.mod_upper_bound (length x) BYTES_SIZE ltac:(unfold BYTES_SIZE; lia)).
      symmetry. apply (Nat.div_unique _ _ _ (length x mod BYTES_SIZE)); [done|]. lia.
    + assert (length (ctr_crypt (ckey_ c) (iv_ c) (take BYTES_SIZE x)) = BYTES_SIZE) as Ht by (rewrite ctr_length, length_take; lia).
      split; [rewrite length_app, Hlen, Ht, length_drop; lia|].
      rewrite take_app_length', drop_app_length' by done. rewrite Htw, ctr_involutive by by apply Forall_take.
      apply take_drop.
Qed.

(** Encrypting twice decrypts: the counter mode, restarted every 1024
    bytes, is its own inverse and keeps the length of its input. *)
Theorem AesCtr_involutive c x : bytes_ok x ->
  length (AesCtr_Encrypt c x) = length x /\ AesCtr_Encrypt c (AesCtr_Encrypt c x) = x.
Proof.
  intros Hx. unfold AesCtr_Encrypt. destruct (Nat.ltb_spec (length x) BYTES_SIZE) as [Hl|Hl].
  - rewrite ctr_length, (proj2 (Nat.ltb_lt _ _) Hl). split; [done|]. by apply ctr_involutive.
  - destruct (ctr_pieces_twice (length x / BYTES_SIZE) c x Hx eq_refl) as [E1 E2].
    split; [done|]. rewrite E1, (proj2 (Nat.ltb_ge _ _) Hl). exact E2.
Qed.
End Facts.

(** ** A stand-in for the cipher: every byte combined with a constant *)
Definition flip (c : Z) (x : list Z) : list Z := map (Z.lxor c) x.
Definition flip_modes : AesModes := {|
  cbc_encrypt := fun _ x => flip 90 (x ++ replicate (fill16 (length x)) 0);
  cbc_decrypt := fun _ y => if Nat.eqb (length y mod 16) 0 then Ret (flip 90 y) else Undef OutOfRange;
  ctr_crypt := fun _ _ x => flip 85 x
|}.
Lemma flip_twice c x : flip c (flip c x) = x.
Proof.
  unfold flip. induction x as [|b x IH]; [done|]. cbn [map]. by rewrite IH, <- Z.lxor_assoc, Z.lxor_nilpotent, Z.lxor_0_l.
Qed.
Lemma filled16 n m : (m mod 16 = 0 -> (n + fill16 n + m) mod 16 = 0)%nat.
Proof.
  intros Hm. unfold fill16. pose proof (Nat.div_mod_eq n 16). pose proof (Nat.mod_upper_bound n 16 ltac:(lia)).
  pose proof (Nat.div_mod_eq m 16). symmetry.
  destruct (Nat.eq_dec (n mod 16)%nat 0%nat) as [E|E].
  - rewrite E. change ((16 - 0) mod 16)%nat with 0%nat. apply (Nat.mod_unique _ _ (n / 16 + m / 16)%nat); lia.
  - rewrite (Nat.mod_small (16 - _)) by lia. apply (Nat.mod_unique _ _ (n / 16 + 1 + m / 16)%nat); lia.
Qed.
Lemma flip_laws : @AesLaws flip_modes.
Proof.
  split; cbn [cbc_encrypt cbc_decrypt ctr_crypt flip_modes].
  - intros _ x. unfold flip. by rewrite length_map, length_app, length_replicate.
  - intros _ x tail Hx Ht. exists (flip 90 tail).
    assert (Nat.modulo (length (flip 90 (x ++ replicate (fill16 (length x)) 0) ++ tail)) 16 = 0%nat) as ->.
    { unfold flip. rewrite length_app, length_map, length_app, length_replicate. by apply filled16. }
    split; [|by unfold flip; rewrite length_map]. cbn [Nat.eqb]. f_equal.
    rewrite app_assoc. unfold flip at 1. rewrite map_app. f_equal. apply flip_twice.
  - intros _ _ x. apply length_map.
  - intros _ _ x _. apply flip_twice.
  - intros _ _ x Hx. induction Hx; constructor; [|done]. apply lxor_byte; [split; lia|done].
Qed.
Definition secret16 : list Z := to_bytes "HCPwz!H1Y3jaJ*|q".

Lemma AesCtr_involutive_witness :
  @AesCtr_Encrypt flip_modes (AesCtr_new [] []) (@AesCtr_Encrypt flip_modes (AesCtr_new [] []) (replicate 1500 7)) = replicate 1500 7.
Proof.
  refine (proj2 (@AesCtr_involutive flip_modes flip_laws (AesCtr_new [] []) (replicate 1500 7) _)).
  apply Forall_replicate. split; lia.
Defined.
