(* ===== verification/Legacy.v ===== *)
(** Routines of src/utils/crypto.cpp and src/utils/sm3.cpp that the agent does
    not call: [Base58::Decode_old], [AesCtr::Encrypt] of a raw buffer,
    [Sm3::sm3_file] and [Char2Hex]; and what they have in common with the
    ones it does. *)

From S2P Require Import Prelude Hex Base58 Blocks Sm3 Sm2 Aes.

(** ** [Base58::Decode_old] *)

(** The number of the characters, or nothing at the first that is not a digit. *)
Fixpoint old_digits (str_trim : list Z) (bn : Z) : option Z :=
  match str_trim with
  | [] => Some bn
  | c :: r =>
      if negb (Z.land c 128 =? 0) then None
      else if -1 =? nthZ kBase58digits c then None
      else old_digits r (bn * 58 + nthZ kBase58digits c)
  end.
(** The result counts as an [int]; the text is empty where a digit is refused. *)
Definition Decode_old (strIn : list Z) : Z * list Z :=
  let nZeros := count_front 49 strIn in
  match old_digits (drop nZeros strIn) 0 with
  | None => (0, [])
  | Some bn => (swrap 32 (BN_num_bytes bn + Z.of_nat nZeros), replicate nZeros 0 ++ BN_bn2bin bn)
  end.

(** A character of the alphabet. *)
Definition is_digit58 (c : Z) : bool := (0 <=? c) && (c <? 128) && negb (-1 =? nthZ kBase58digits c).
Lemma alphabet_checked :
  forallb (fun c => negb (is_digit58 c) ||
    ((nthZ kBase58Dictionary (nthZ kBase58digits c) =? c) && (0 <=? nthZ kBase58digits c) && (nthZ kBase58digits c <? 58) && (Z.land c 128 =? 0)))
    (map Z.of_nat (seq 0 128)) = true.
Proof. vm_compute. reflexivity. Qed.
Lemma alphabet c : is_digit58 c = true ->
  nthZ kBase58Dictionary (nthZ kBase58digits c) = c /\ 0 <= nthZ kBase58digits c < 58 /\ Z.land c 128 = 0.
Proof.
  intros Hc. pose proof (proj1 (forallb_forall _ _) alphabet_checked c) as H.
  assert (0 <= c < 128) as Hr by (unfold is_digit58 in Hc; lia).
  cbv beta in H. rewrite Hc in H. cbn [negb orb] in H. apply andb_prop in H as [[[H1 H2]%andb_prop H3]%andb_prop H4]; [lia|].
  apply in_map_iff. exists (Z.to_nat c). split; [lia|]. apply in_seq. lia.
Qed.
Lemma alphabet_digits s : Forall (fun c => is_digit58 c = true) s ->
  s = map (nthZ kBase58Dictionary) (map (nthZ kBase58digits) s) /\ digits_ok 58 (map (nthZ kBase58digits) s).
Proof.
  induction 1 as [|c s Hc _ [IH1 IH2]]; [by split; [|constructor]|]. destruct (alphabet c Hc) as (E & Hd & _). cbn [map].
  split; [by rewrite E, <- IH1|by constructor].
Qed.
Lemma old_digits_number s acc : Forall (fun c => is_digit58 c = true) s ->
  old_digits s acc = Some (acc * 58 ^ Z.of_nat (length s) + number 58 (map (nthZ kBase58digits) s)).
Proof.
  intros Hs. revert acc. induction Hs as [|c s Hc _ IH]; intros acc; [cbn; f_equal; lia|].
  destruct (alphabet c Hc) as (_ & Hd & E). cbn [old_digits map]. rewrite E, Z.eqb_refl. cbn [negb].
  rewrite (proj2 (Z.eqb_neq (-1) (nthZ kBase58digits c))) by lia. rewrite IH, number_cons, length_map by lia.
  cbn [length]. rewrite Nat2Z.inj_succ, Z.pow_succ_r by lia. f_equal. ring.
Qed.
Lemma old_digits_refuses s acc : Forall byte_ok s -> ~ Forall (fun c => is_digit58 c = true) s -> old_digits s acc = None.
Proof.
  intros Hs. revert acc. induction Hs as [|c s Hb _ IH]; intros acc Hn; [by destruct Hn|]. cbn [old_digits].
  destruct (Z.eqb_spec (Z.land c 128) 0) as [E|]; [|done]. cbn [negb].
  destruct (Z.eqb_spec (-1) (nthZ kBase58digits c)) as [|Hd]; [done|]. apply IH. intros Hf. apply Hn. constructor; [|done].
  unfold is_digit58, byte_ok in *. rewrite (proj2 (Z.eqb_neq _ _) Hd).
  destruct (Z.ltb_spec c 128); [by rewrite (proj2 (Z.leb_le 0 c)) by lia|].
  exfalso. assert (Z.testbit (Z.land c 128) 7 = true) as Ht; [|by rewrite E in Ht].
  rewrite Z.land_spec, andb_true_r, Z.testbit_true by lia. change (2 ^ 7) with 128.
  replace (c / 128) with 1; [done|]. apply (Z.div_unique_pos _ _ _ (c - 128)); lia.
Qed.
Lemma BN_bn2bin_front n : 0 <= n -> hd 1 (BN_bn2bin n) <> 0.
Proof.
  intros Hn E. destruct (BN_bn2bin_spec n Hn) as (Ev & Hb & Hl). destruct (BN_bn2bin n) as [|c s] eqn:Es; [done|].
  cbn [hd] in E. subst c. apply Forall_cons in Hb as [_ Hb].
  pose proof (value_bound 256 ltac:(lia) (rev s) (digits_ok_rev _ _ Hb)) as Hv. rewrite length_rev in Hv.
  specialize (Hl (length s)). cbn [length] in Hl. unfold BN_bin2bn in Ev.
  rewrite number_cons in Ev by lia. lia.
Qed.

(** On texts of the alphabet the two decoders agree, count and bytes; on any other
    the old one refuses. *)
Theorem Decode_old_agrees s : Forall (fun c => is_digit58 c = true) s -> (length s <= 1400)%nat ->
  Base58_Decode_out s = Ret (Decode_old s).
Proof.
  intros Hs Hl. set (z := count_front 49 s).
  pose proof (count_front_split 49 s) as Esp. fold z in Esp. unfold skip_front in Esp. fold z in Esp.
  set (t := drop z s) in *. assert (Forall (fun c => is_digit58 c = true) t) as Ht by by apply Forall_drop.
  destruct (alphabet_digits t Ht) as [Et HD]. set (D := map (nthZ kBase58digits) t) in *.
  assert (length D = length t) as El by apply length_map.
  assert (length t <= length s)%nat as Hts by (subst t; rewrite length_drop; lia).
  assert (hd 1 D <> 0) as Hh.
  { pose proof (skip_front_hd 49 s) as Hk. unfold skip_front in Hk. fold z in Hk. fold t in Hk. subst D.
    destruct t as [|c t]; [done|]. cbn [map hd] in *. apply Forall_cons in Ht as [Hc _]. destruct (alphabet c Hc) as (Ec & _).
    intros E0. apply Hk. by rewrite <- Ec, E0. }
  destruct (decode_shown z D HD Hh) as (tmp & Hb & En & Hth & Eo).
  { apply (room_up_to_spec 1401 0); [lia|exact room_checked|lia]. }
  rewrite <- Et, <- Esp in Eo. rewrite Eo. unfold Decode_old. fold z. fold t.
  rewrite (old_digits_number t 0 Ht), Z.mul_0_l, Z.add_0_l. fold D.
  pose proof (value_bound 58 ltac:(lia) (rev D) (digits_ok_rev _ _ HD)) as Hv.
  destruct (BN_bn2bin_spec (number 58 D) ltac:(lia)) as (Ev & Hbb & Hlen).
  assert (tmp = BN_bn2bin (number 58 D)) as ->.
  { apply (number_inj 256); [lia|done|done|done|by apply BN_bn2bin_front; lia|]. rewrite En. by rewrite <- Ev at 1. }
  assert (length (BN_bn2bin (number 58 D)) <= 1400)%nat.
  { apply Hlen. rewrite length_rev in Hv. apply Z.lt_le_trans with (58 ^ Z.of_nat (length D)); [lia|].
    transitivity (256 ^ Z.of_nat (length D)); [apply Z.pow_le_mono_l; lia|apply Z.pow_le_mono_r; lia]. }
  assert (z <= length s)%nat by apply count_front_le.
  do 2 f_equal. unfold BN_num_bytes. rewrite swrap_small; [lia|lia|]. lia.
Qed.
Theorem Decode_old_refuses s : bytes_ok s -> ~ Forall (fun c => is_digit58 c = true) s -> Decode_old s = (0, []).
Proof.
  intros Hb Hn. unfold Decode_old. rewrite old_digits_refuses; [done|by apply Forall_drop|].
  intros Hd. apply Hn. rewrite (count_front_split 49 s). apply Forall_app. split; [|done].
  by apply Forall_replicate.
Qed.
(** The decoder in use takes a character of no digit for the digit 255. *)
Example Decode_takes : Base58_Decode_out (to_bytes "l") = Ret (1, [255]) /\ Decode_old (to_bytes "l") = (0, []).
Proof. split; vm_compute; reflexivity. Qed.
Lemma Decode_old_agrees_witness : Base58_Decode_out (to_bytes "11233QC4") = Ret (Decode_old (to_bytes "11233QC4")).
Proof. apply Decode_old_agrees; [by apply (bool_decide_unpack _); vm_compute|cbn; lia]. Defined.

(** ** [AesCtr::Encrypt] of a raw buffer *)
Section Raw.
Context `{AesModes}.

(** The loop on the [int] [i]: [n] is how often it can go round at the most. *)
Fixpoint raw_loop (n : nat) (c : AesCtr) (i bytes_read : Z) (indata : list Z) : outcome (list Z) :=
  if i <=? bytes_read then
    match n with
    | O => Diverge
    | S n =>
        let out := ctr_crypt (ckey_ c) (iv_ c) (take BYTES_SIZE indata) in
        if 2 ^ 31 <=? i + Z.of_nat BYTES_SIZE then Undef Overflow
        else let? rest := raw_loop n c (i + Z.of_nat BYTES_SIZE) bytes_read (drop BYTES_SIZE indata) in Ret (out ++ rest)
    end
  else
    let mod_len := bytes_read mod Z.of_nat BYTES_SIZE in
    Ret (if mod_len =? 0 then [] else ctr_crypt (ckey_ c) (iv_ c) (take (Z.to_nat mod_len) indata)).
(** A negative size goes to OpenSSL as a huge one. *)
Definition AesCtr_Encrypt_raw (c : AesCtr) (indata : list Z) (bytes_read : Z) : outcome (list Z) :=
  if (bytes_read <? 0) || (Z.of_nat (length indata) <? bytes_read) then Undef OutOfRange
  else if bytes_read <? Z.of_nat BYTES_SIZE then Ret (ctr_crypt (ckey_ c) (iv_ c) (take (Z.to_nat bytes_read) indata))
  else raw_loop (S (length indata)) c (Z.of_nat BYTES_SIZE) bytes_read indata.

Lemma raw_loop_run n c k x fuel : (length x / BYTES_SIZE = n)%nat -> (n < fuel)%nat -> 0 <= k ->
  k * 1024 + Z.of_nat (length x) < 2 ^ 31 - 1024 ->
  raw_loop fuel c ((k + 1) * 1024) (k * 1024 + Z.of_nat (length x)) x = Ret (ctr_pieces n c x).
Proof.
  change (length x / BYTES_SIZE)%nat with (length x / 1024)%nat.
  revert k x fuel. induction n as [|n IH]; intros k x fuel Hn Hf Hk Hl; destruct fuel as [|fuel]; [lia| |lia|]; cbn [raw_loop ctr_pieces].
  - assert (length x < 1024)%nat as Hs by (apply Nat.div_small_iff in Hn; [done|lia]).
    destruct (Z.leb_spec ((k + 1) * 1024) (k * 1024 + Z.of_nat (length x))); [lia|].
    unfold BYTES_SIZE. change (Z.of_nat 1024) with 1024. rewrite (Z.add_comm (k * 1024)), Z.mod_add, Z.mod_small, Nat.mod_small by lia.
    rewrite Nat2Z.id, take_ge by lia. destruct (Z.eqb_spec (Z.of_nat (length x)) 0), (Nat.eqb_spec (length x) 0); (lia || done).
  - assert (1024 <= length x)%nat as Hs.
    { destruct (Nat.lt_ge_cases (length x) 1024) as [Hs|]; [|done]. rewrite Nat.div_small in Hn by done. done. }
    destruct (Z.leb_spec ((k + 1) * 1024) (k * 1024 + Z.of_nat (length x))); [|lia].
    unfold BYTES_SIZE. change (Z.of_nat 1024) with 1024.
    destruct (Z.leb_spec (2 ^ 31) ((k + 1) * 1024 + 1024)); [lia|].
    assert (length (drop 1024 x) = length x - 1024)%nat as Ed by apply length_drop.
    replace (k * 1024 + Z.of_nat (length x)) with ((k + 1) * 1024 + Z.of_nat (length (drop 1024 x))) by lia.
    replace ((k + 1) * 1024 + 1024) with ((k + 1 + 1) * 1024) by lia.
    rewrite (IH (k + 1) (drop 1024 x) fuel); [done| |lia|lia|lia].
    rewrite Ed. symmetry. apply (Nat.div_unique _ _ _ (length x mod 1024)); [apply Nat.mod_upper_bound; lia|].
    pose proof (Nat.div_mod_eq (length x) 1024). lia.
Qed.
(** The two overloads agree on everything that fits. *)
Theorem AesCtr_Encrypt_overloads c x : Z.of_nat (length x) < 2 ^ 31 - 1024 ->
  AesCtr_Encrypt_raw c x (Z.of_nat (length x)) = Ret (AesCtr_Encrypt c x).
Proof.
  intros Hl. unfold AesCtr_Encrypt_raw, AesCtr_Encrypt.
  rewrite (proj2 (Z.ltb_ge (Z.of_nat (length x)) 0)), Z.ltb_irrefl by lia. cbn [orb].
  destruct (Nat.ltb_spec (length x) BYTES_SIZE) as [Hs|Hs].
  - rewrite (proj2 (Z.ltb_lt _ _)) by lia. by rewrite Nat2Z.id, take_ge by lia.
  - rewrite (proj2 (Z.ltb_ge _ _)) by lia. change (Z.of_nat BYTES_SIZE) with ((0 + 1) * 1024).
    rewrite <- (Z.add_0_l (Z.of_nat (length x))). change 0 with (0 * 1024) at 2.
    apply raw_loop_run; [done| |lia|lia]. apply Nat.lt_succ_r, Nat.Div0.div_le_upper_bound. unfold BYTES_SIZE. lia.
Qed.

(** The counter starts again with every kilobyte: pieces that are equal stay equal
    when they are encrypted, wherever they stand. *)
Lemma ctr_pieces_app p x n c : length p = BYTES_SIZE ->
  ctr_pieces (S n) c (p ++ x) = ctr_crypt (ckey_ c) (iv_ c) p ++ ctr_pieces n c x.
Proof. intros Hp. cbn [ctr_pieces]. by rewrite take_app_length', drop_app_length'. Qed.
Theorem AesCtr_repeats c pieces : Forall (fun p => length p = BYTES_SIZE) pieces -> pieces <> [] ->
  AesCtr_Encrypt c (concat pieces) = concat (map (ctr_crypt (ckey_ c) (iv_ c)) pieces).
Proof.
  intros Hp Hn. assert (length (concat pieces) = length pieces * BYTES_SIZE)%nat as El.
  { clear Hn. induction Hp as [|p ps Hp _ IH]; [done|]. cbn [concat length]. rewrite length_app, IH, Hp. lia. }
  unfold AesCtr_Encrypt. rewrite El. destruct (Nat.ltb_spec (length pieces * BYTES_SIZE) BYTES_SIZE) as [Hs|_].
  { destruct pieces; [done|]. cbn [length] in Hs. lia. }
  rewrite Nat.div_mul by (unfold BYTES_SIZE; lia). clear Hn El. induction Hp as [|p ps Hp _ IH]; [reflexivity|].
  cbn [length map concat]. by rewrite ctr_pieces_app, IH.
Qed.
End Raw.

Lemma AesCtr_Encrypt_overloads_witness :
  @AesCtr_Encrypt_raw flip_modes (AesCtr_new [] []) (replicate 2500 7) (Z.of_nat (length (replicate 2500 7))) =
  Ret (@AesCtr_Encrypt flip_modes (AesCtr_new [] []) (replicate 2500 7)).
Proof. apply (@AesCtr_Encrypt_overloads flip_modes). rewrite length_replicate. vm_compute. reflexivity. Defined.
Lemma AesCtr_repeats_witness :
  @AesCtr_Encrypt flip_modes (AesCtr_new [] []) (concat [replicate 1024 7; replicate 1024 7]) =
  concat [map (Z.lxor 85) (replicate 1024 7); map (Z.lxor 85) (replicate 1024 7)].
Proof.
  apply (@AesCtr_repeats flip_modes (AesCtr_new [] []) [replicate 1024 7; replicate 1024 7]); [|done].
  repeat constructor; apply length_replicate.
Defined.

(** ** [Sm3::sm3_file] *)

(** A file that opens: what can be read of it, and whether reading ends with an error. *)
Record stream := mkStream { readable : list Z; ferror : bool }.
Fixpoint file_pieces (fuel : nat) (s : list Z) (ctx : sm3_context) : outcome sm3_context :=
  if bool_decide (s = []) then Ret ctx
  else match fuel with
       | O => Diverge
       | S f => let? ctx := sm3_update ctx s (Z.min 1024 (Z.of_nat (length s))) in file_pieces f (drop 1024 s) ctx
       end.
(** 0, 1 without a file and 2 for an error; the digest is written in either of the
    two cases with a file. *)
Definition sm3_file (memory : sm3_context) (f : option stream) (output : list Z) : outcome (Z * list Z) :=
  match f with
  | None => Ret (1, output)
  | Some f =>
      let? ctx := file_pieces (S (length (readable f))) (readable f) (sm3_starts memory) in
      let? r := sm3_finish ctx in
      Ret (if ferror f then 2 else 0, r.1)
  end.
Lemma file_pieces_absorbed fuel s ctx m : (length s < fuel)%nat -> absorbed ctx m ->
  exists c, file_pieces fuel s ctx = Ret c /\ absorbed c (m ++ s).
Proof.
  revert s ctx m. induction fuel as [|fuel IH]; intros s ctx m Hf Hm; [lia|]. cbn [file_pieces].
  case_bool_decide as E; [subst s; exists ctx; by rewrite app_nil_r|].
  assert (0 < length s)%nat as Hp by (destruct s; [done|cbn; lia]).
  destruct (update_absorbed ctx m Hm s (Nat.min 1024 (length s))) as (c & Eu & Hc & _); [lia|lia|lia|].
  replace (Z.min 1024 (Z.of_nat (length s))) with (Z.of_nat (Nat.min 1024 (length s))) by lia. rewrite Eu. cbn [obind].
  destruct (IH (drop 1024 s) c _ ltac:(rewrite length_drop; lia) Hc) as (c' & -> & Hc'). exists c'. split; [done|].
  rewrite <- app_assoc in Hc'. replace (take (Nat.min 1024 (length s)) s ++ drop 1024 s) with s in Hc'; [done|].
  rewrite <- (take_drop 1024 s) at 1. f_equal. destruct (Nat.min_spec 1024 (length s)) as [[? ->]|[? ->]]; [done|].
  by rewrite !take_ge by lia.
Qed.
(** The digest of what was read, the reading complete or not. *)
Theorem sm3_file_digest memory f output : context_ok memory ->
  sm3_file memory (Some f) output = Ret (if ferror f then 2 else 0, sm3_digest (readable f)).
Proof.
  intros Hm. unfold sm3_file.
  destruct (file_pieces_absorbed (S (length (readable f))) (readable f) (sm3_starts memory) [] ltac:(lia) (starts_absorbed _ Hm)) as (c & -> & Hc).
  cbn [obind]. destruct (finish_digest c _ Hc) as (c' & -> & _). reflexivity.
Qed.
Lemma sm3_file_digest_witness :
  sm3_file blank (Some (mkStream (replicate 3000 1) true)) [] = Ret (2, sm3_digest (replicate 3000 1)).
Proof. exact (sm3_file_digest blank (mkStream (replicate 3000 1) true) [] eq_refl). Defined.

(** ** [Char2Hex] *)
Definition hex_upper (n : Z) : Z := if n <? 10 then 48 + n else 55 + n.
(** [%02X] of a [char]: a byte from 128 on is a negative number, printed with 32 bits. *)
Definition X02 (c : Z) : list Z :=
  if c <? 128 then [hex_upper (c / 16); hex_upper (c mod 16)] else replicate 6 70 ++ [hex_upper (c / 16); hex_upper (c mod 16)].
Definition Char2Hex (blob : list Z) : list Z := flat_map X02 blob.
Definition high (blob : list Z) : nat := length (List.filter (fun c => 128 <=? c) blob).
(** Two characters a byte only in ASCII. *)
Theorem Char2Hex_length blob : length (Char2Hex blob) = (2 * length blob + 6 * high blob)%nat.
Proof.
  induction blob as [|c s IH]; [done|]. unfold Char2Hex, high in *. cbn [flat_map List.filter length]. rewrite length_app, IH.
  unfold X02. destruct (Z.ltb_spec c 128), (Z.leb_spec 128 c); cbn [length app replicate]; lia.
Qed.
Example Char2Hex_high : Char2Hex [171] = to_bytes "FFFFFFAB".
Proof. reflexivity. Qed.
