(* ===== verification/Ordered.v ===== *)
(** [std::set<std::string>] and [std::map<std::string, _>] as ordered
    containers: the order of [std::string], sorted insertion, and the
    range-[for] over a map whose body may change that map.

    A map is a [gmap]; the loop visits keys in ascending order, each step
    looking for the least key above the current one in the map as it then is.
    A node that has been erased cannot be stepped from: that is the undefined
    behaviour of an iterator used after [erase]. *)

From Stdlib Require Export Sorted.
From S2P Require Import Prelude.

(** ** The order of [std::string] *)
Definition str_lt (a b : string) : Prop := String.compare a b = Lt.
#[export] Instance str_lt_dec : RelDecision str_lt.
Proof. intros a b. unfold str_lt. apply _. Defined.

Lemma ascii_compare_lt_trans a b c :
  Ascii.compare a b = Lt -> Ascii.compare b c = Lt -> Ascii.compare a c = Lt.
Proof. unfold Ascii.compare. rewrite !N.compare_lt_iff. lia. Qed.

Lemma ascii_compare_refl a : Ascii.compare a a = Eq.
Proof. unfold Ascii.compare. apply N.compare_refl. Qed.

Lemma string_compare_refl s : String.compare s s = Eq.
Proof. induction s as [|a s IH]; simpl; [done|]. by rewrite ascii_compare_refl. Qed.

#[export] Instance str_lt_strict : StrictOrder str_lt.
Proof.
  split.
  - intros s. unfold complement, str_lt. by rewrite string_compare_refl.
  - unfold str_lt. intros a. induction a as [|x a IH]; intros [|y b] [|z c]; simpl; try done.
    destruct (Ascii.compare x y) eqn:Exy, (Ascii.compare y z) eqn:Eyz; try done; intros H1 H2.
    + apply Ascii.compare_eq_iff in Exy as ->, Eyz as ->. rewrite ascii_compare_refl. by eapply IH.
    + apply Ascii.compare_eq_iff in Exy as ->. by rewrite Eyz.
    + apply Ascii.compare_eq_iff in Eyz as ->. by rewrite Exy.
    + by rewrite (ascii_compare_lt_trans _ _ _ Exy Eyz).
Qed.

Lemma str_lt_total a b : str_lt a b \/ a = b \/ str_lt b a.
Proof.
  unfold str_lt. destruct (String.compare a b) eqn:E; [|by left|].
  - apply String.compare_eq_iff in E. auto.
  - rewrite String.compare_antisym, E. auto.
Qed.

(** [starts_with] of a key. *)
Fixpoint starts_with (s prefix : string) : bool :=
  match prefix, s with
  | EmptyString, _ => true
  | String a p, String b s' => Ascii.eqb a b && starts_with s' p
  | String _ _, EmptyString => false
  end.

Lemma starts_with_app p s : starts_with (p ++ s) p = true.
Proof. induction p as [|a p IH]; simpl; [by destruct s|]. by rewrite Ascii.eqb_refl. Qed.

Lemma starts_with_inv s p : starts_with s p = true -> exists r, s = (p ++ r)%string.
Proof.
  revert s. induction p as [|a p IH]; intros s H; [by exists s|].
  destruct s as [|b s]; [done|]. simpl in H. apply andb_true_iff in H as [E%Ascii.eqb_eq H].
  destruct (IH _ H) as [r ->]. subst. by exists r.
Qed.

(** A key with the prefix is not below it. *)
Lemma starts_with_ge s p : starts_with s p = true -> ~ str_lt s p.
Proof.
  intros [r ->]%starts_with_inv. unfold str_lt.
  induction p as [|a p IH]; simpl; [by destruct r|]. by rewrite ascii_compare_refl.
Qed.

(** Keys with the prefix are contiguous: between the prefix and such a key
    there is no other. *)
Lemma starts_with_between p k k' :
  ~ str_lt k p -> str_lt k k' -> starts_with k' p = true -> starts_with k p = true.
Proof.
  revert k k'. induction p as [|a p IH]; [by intros []|].
  intros [|x k] [|y k'] Hge Hlt Hp; try done.
  simpl in Hp. apply andb_true_iff in Hp as [E%Ascii.eqb_eq Hp]. subst y.
  unfold str_lt in *. simpl in *. destruct (Ascii.compare x a) eqn:E; try done.
  apply Ascii.compare_eq_iff in E as ->. rewrite Ascii.eqb_refl. simpl.
  by eapply IH.
Qed.

(** ** Sorted sets *)

Fixpoint sset_insert (x : string) (l : list string) : list string :=
  match l with
  | [] => [x]
  | y :: r => match String.compare x y with
              | Lt => x :: l
              | Eq => l
              | Gt => y :: sset_insert x r
              end
  end.
Definition sset_of_list (l : list string) : list string := foldr sset_insert [] l.

Lemma elem_of_sset_insert x y l : y ∈ sset_insert x l <-> y = x \/ y ∈ l.
Proof.
  induction l as [|z l IH]; cbn [sset_insert].
  - rewrite list_elem_of_singleton. set_solver.
  - destruct (String.compare x z) eqn:E.
    + apply String.compare_eq_iff in E. set_solver.
    + set_solver.
    + rewrite !elem_of_cons, IH. tauto.
Qed.

Lemma sset_insert_sorted x l : StronglySorted str_lt l -> StronglySorted str_lt (sset_insert x l).
Proof.
  induction 1 as [|z l Hl IH Hz]; cbn [sset_insert]; [by repeat constructor|].
  destruct (String.compare x z) eqn:E.
  - by constructor.
  - constructor; [by constructor|]. constructor; [done|].
    eapply Forall_impl; [exact Hz|]. intros y Hy. by etransitivity.
  - constructor; [done|]. apply Forall_forall. intros y [->|Hy]%elem_of_sset_insert.
    + unfold str_lt. by rewrite String.compare_antisym, E.
    + rewrite Forall_forall in Hz. auto.
Qed.

Lemma elem_of_sset_of_list l y : y ∈ sset_of_list l <-> y ∈ l.
Proof. induction l as [|x l IH]; simpl; [done|]. rewrite elem_of_sset_insert, IH, elem_of_cons. tauto. Qed.

Lemma sset_of_list_sorted l : StronglySorted str_lt (sset_of_list l).
Proof. induction l; simpl; [constructor|]. by apply sset_insert_sorted. Qed.

(** Two sorted lists with the same elements are equal. *)
Lemma sorted_unique l1 l2 :
  StronglySorted str_lt l1 -> StronglySorted str_lt l2 -> (forall x, x ∈ l1 <-> x ∈ l2) -> l1 = l2.
Proof.
  revert l2. induction l1 as [|x l1 IH]; intros l2 H1 H2 E.
  { destruct l2 as [|y l2]; [done|]. exfalso. specialize (E y). set_solver. }
  destruct l2 as [|y l2]; [specialize (E x); set_solver|].
  apply StronglySorted_inv in H1 as [H1 F1], H2 as [H2 F2].
  rewrite Forall_forall in F1, F2.
  assert (x = y) as ->.
  { pose proof (proj1 (E x) (list_elem_of_here _ _)) as Hx.
    pose proof (proj2 (E y) (list_elem_of_here _ _)) as Hy.
    rewrite elem_of_cons in Hx, Hy. destruct Hx as [|Hx], Hy as [|Hy]; try done.
    exfalso. apply (irreflexivity str_lt x). transitivity y; auto. }
  f_equal. apply IH; [done..|]. intros z. specialize (E z). rewrite !elem_of_cons in E.
  pose proof (irreflexivity str_lt y) as Hirr.
  split; intros Hz; destruct (decide (z = y)) as [->|]; try tauto;
    exfalso; apply Hirr; auto.
Qed.

(** ** Iterating over a map that the body may change *)

Definition sorted_keys {A} (m : gmap string A) : list string := sset_of_list (map_to_list m).*1.

(** The key the iterator of [begin()] or of [++it] at [k] stands on. *)
Definition next_key {A} (m : gmap string A) (k : option string) : option string :=
  match k with
  | None => head (sorted_keys m)
  | Some k => head (filter (str_lt k) (sorted_keys m))
  end.

Section Loop.
Context {W A : Type} (proj : W -> gmap string A) (body : string -> M W unit).

(** One iteration at key [k], then the step to the next node. *)
Fixpoint map_for_from (fuel : nat) (k : option string) : M W unit :=
  match fuel, k with
  | _, None => ret tt
  | O, Some _ => lift Diverge
  | S f, Some k =>
      do! body k in
      let! w := get in
      match proj w !! k with
      | None => lift (Undef DanglingIterator)
      | Some _ => map_for_from f (next_key (proj w) (Some k))
      end
  end.

(** [for (auto& kv : map) body].  A body of this program adds at most one
    key for each key it visits, so twice the initial size bounds the loop. *)
Definition map_for : M W unit :=
  let! w := get in
  map_for_from (S (2 * size (proj w))) (next_key (proj w) None).

(** The same loop over a list of keys fixed beforehand. *)
Fixpoint keys_for (ks : list string) : M W unit :=
  match ks with
  | [] => ret tt
  | k :: r =>
      do! body k in
      let! w := get in
      match proj w !! k with
      | None => lift (Undef DanglingIterator)
      | Some _ => keys_for r
      end
  end.
End Loop.

Lemma elem_of_sorted_keys {A} (m : gmap string A) k : k ∈ sorted_keys m <-> is_Some (m !! k).
Proof.
  unfold sorted_keys. rewrite elem_of_sset_of_list, list_elem_of_fmap. split.
  - intros ([k' a] & -> & H). apply elem_of_map_to_list in H. by eexists.
  - intros [a H]. exists (k, a). split; [done|]. by apply elem_of_map_to_list.
Qed.

Lemma sorted_keys_sorted {A} (m : gmap string A) : StronglySorted str_lt (sorted_keys m).
Proof. apply sset_of_list_sorted. Qed.

Lemma sorted_keys_dom {A B} (m : gmap string A) (m' : gmap string B) :
  dom m = dom m' -> sorted_keys m = sorted_keys m'.
Proof.
  intros E. apply sorted_unique; try apply sorted_keys_sorted.
  intros k. rewrite !elem_of_sorted_keys, <- !elem_of_dom. by rewrite E.
Qed.

Lemma sset_insert_length x l : x ∉ l -> length (sset_insert x l) = S (length l).
Proof.
  induction l as [|y l IH]; intros H; [done|]. cbn [sset_insert].
  destruct (String.compare x y) eqn:E; [|done|].
  - apply String.compare_eq_iff in E as ->. set_solver.
  - simpl. rewrite IH; set_solver.
Qed.

Lemma sorted_keys_length {A} (m : gmap string A) : length (sorted_keys m) = size m.
Proof.
  unfold sorted_keys. rewrite <- length_map_to_list.
  pose proof (NoDup_fst_map_to_list m) as Hn.
  rewrite <- (length_fmap fst). induction Hn as [|x l Hx Hn IH]; [done|].
  simpl. rewrite sset_insert_length by (by rewrite elem_of_sset_of_list). by rewrite IH.
Qed.

(** Stepping from a key of a sorted list reaches the key after it. *)
Lemma filter_above_sorted l1 k l2 :
  StronglySorted str_lt (l1 ++ k :: l2) -> filter (str_lt k) (l1 ++ k :: l2) = l2.
Proof.
  intros H. rewrite filter_app, filter_cons_False by apply (irreflexivity str_lt).
  assert (filter (str_lt k) l1 = []) as ->.
  { induction l1 as [|x l1 IH]; [done|]. simpl in H. apply StronglySorted_inv in H as [H F].
    rewrite filter_cons_False; [by apply IH|]. intros Hk.
    rewrite Forall_forall in F. specialize (F k ltac:(set_solver)).
    apply (irreflexivity str_lt k). by transitivity x. }
  assert (Forall (str_lt k) l2) as F.
  { clear -H. induction l1; simpl in H; apply StronglySorted_inv in H as [? ?]; auto. }
  clear H. simpl. induction F as [|x l2 Hx F IH]; [done|]. by rewrite filter_cons_True, IH.
Qed.

(** If the body, from the states it meets, keeps the set of keys except
    possibly for erasing the current one, the loop visits exactly the keys
    present at its start, in ascending order, and never runs out of fuel. *)
Section LoopFacts.
Context {W A : Type} (proj : W -> gmap string A) (body : string -> M W unit).
Context (I : W -> Prop).
Context (Hbody : forall k w w', I w -> is_Some (proj w !! k) -> body k w = Ret (tt, w') ->
           I w' /\ (forall k', k' <> k -> is_Some (proj w' !! k') <-> is_Some (proj w !! k'))).

Lemma map_for_from_keys f ks1 ks2 w :
  I w -> StronglySorted str_lt (ks1 ++ ks2) -> sorted_keys (proj w) = ks1 ++ ks2 ->
  (length ks2 <= f)%nat ->
  map_for_from proj body f (head ks2) w = keys_for proj body ks2 w.
Proof.
  revert ks1 ks2 w. induction f as [|f IH]; intros ks1 ks2 w HI Hs E Hf;
    (destruct ks2 as [|k ks2]; [done|]); [simpl in Hf; lia|].
  cbn [map_for_from keys_for head]. unfold bind at 1 3.
  destruct (body k w) as [[[] w']| | |] eqn:Eb; try done.
  cbn [obind fst snd]. unfold bind, get; cbn [obind fst snd].
  assert (is_Some (proj w !! k)) as Hk by (apply elem_of_sorted_keys; rewrite E; set_solver).
  destruct (Hbody k w w' HI Hk Eb) as [HI' Hd].
  destruct (proj w' !! k) eqn:Ek; [|done].
  assert (sorted_keys (proj w') = ks1 ++ k :: ks2) as E'.
  { rewrite <- E. apply sorted_unique; try apply sorted_keys_sorted.
    intros x. rewrite !elem_of_sorted_keys.
    destruct (decide (x = k)) as [->|n]; [|by apply Hd]. split; [done|by rewrite Ek]. }
  unfold next_key. rewrite E', filter_above_sorted by done.
  apply (IH (ks1 ++ [k])); rewrite <- ?app_assoc; try done. simpl in Hf. lia.
Qed.

Lemma map_for_keys w :
  I w -> map_for proj body w = keys_for proj body (sorted_keys (proj w)) w.
Proof.
  intros HI. unfold map_for. unfold bind, get; cbn [obind fst snd].
  apply (map_for_from_keys _ []); [done|apply sorted_keys_sorted|done|].
  rewrite sorted_keys_length. lia.
Qed.
End LoopFacts.

Lemma preserves_map_for {W A} (I : W -> Prop) (proj : W -> gmap string A) body :
  (forall k, preserves I (body k)) -> preserves I (map_for proj body).
Proof.
  intros Hb. assert (forall f k, preserves I (map_for_from proj body f k)) as Hf.
  { induction f as [|f IH]; intros [k|]; cbn [map_for_from]; solve_preserves. }
  unfold map_for. apply preserves_bind; [apply preserves_get|]. intros w. apply Hf.
Qed.
