(* ===== verification/Database.v ===== *)
(** The key-value store: [src/database].  [RocksDbDriver] wraps RocksDB, which
    is a parameter ([RocksDb], with its documented laws in [RocksDbLaws]);
    [Storage] keeps the driver and the table of write batches
    ([DomianBatchVector]); [DatabaseManager] and [DatabaseProxy] forward to it. *)

From S2P Require Import Prelude Ordered.

(** ** RocksDB *)

(** A status is its code, 0 for ok and 1 for not found; [rdb_get] receives the
    old value of the output argument and returns the new one; [rdb_iter]
    gives the entries an iterator delivers after [Seek]. *)
Class RocksDb := {
  rdb : Type;
  wbatch : Type;
  rdb_open : string -> Z * option rdb;
  rdb_open_read_only : string -> Z * option rdb;
  rdb_get : rdb -> string -> string -> Z * string;
  rdb_put : rdb -> string -> string -> Z * rdb;
  rdb_delete : rdb -> string -> Z * rdb;
  rdb_write : rdb -> wbatch -> Z * rdb;
  rdb_iter : rdb -> string -> Z * list (string * string);
  wb_empty : wbatch;
  wb_put : wbatch -> string -> string -> wbatch;
  wb_delete : wbatch -> string -> wbatch;
  wb_clear : wbatch -> wbatch;
  status_string : Z -> string
}.

(** What one entry of a write batch does to the content of the store. *)
Definition apply_op (m : gmap string string) (op : string * option string) : gmap string string :=
  match op with
  | (k, Some v) => <[k := v]> m
  | (k, None) => delete k m
  end.

(** The documented behaviour the agent relies on: the content of the store is
    a map; an operation that reports ok has its effect; iteration is in
    ascending key order, without gaps, from the first key not below the target. *)
Class RocksDbLaws `{RocksDb} := {
  rdb_view : rdb -> gmap string string;
  wb_view : wbatch -> list (string * option string);
  rdb_get_law : forall d k old s v, rdb_get d k old = (s, v) ->
    (s = 0 <-> is_Some (rdb_view d !! k)) /\ (s = 0 -> rdb_view d !! k = Some v);
  rdb_put_law : forall d k v d', rdb_put d k v = (0, d') -> rdb_view d' = <[k := v]> (rdb_view d);
  rdb_delete_law : forall d k d', rdb_delete d k = (0, d') -> rdb_view d' = delete k (rdb_view d);
  rdb_write_law : forall d b d', rdb_write d b = (0, d') ->
    rdb_view d' = foldl apply_op (rdb_view d) (wb_view b);
  rdb_iter_law : forall d t s l, rdb_iter d t = (s, l) ->
    StronglySorted str_lt l.*1 /\
    (forall k v, (k, v) ∈ l <-> rdb_view d !! k = Some v /\ ~ str_lt k t);
  wb_empty_law : wb_view wb_empty = [];
  wb_put_law : forall b k v, wb_view (wb_put b k v) = wb_view b ++ [(k, Some v)];
  wb_delete_law : forall b k, wb_view (wb_delete b k) = wb_view b ++ [(k, None)];
  wb_clear_law : forall b, wb_view (wb_clear b) = []
}.

(** The table of batches, shared by the components below. *)
Notation batch_vector := (list (option wbatch)).

Section Database.
Context `{RocksDb}.

(** ** [RocksDbDriver] (rocks_db.cpp) *)

Record RocksDbDriver := mkDriver {
drv_db : option rdb;
drv_error_desc : string;
drv_error_code : Z
}.

Definition RocksDbDriver_new : RocksDbDriver := mkDriver None "" 0.

Definition driver_Open (db_path : string) (max_open_files : Z) : M RocksDbDriver bool :=
fun w =>
  let '(status, h) := rdb_open db_path in
  if negb (status =? 0) then Ret (false, mkDriver h (status_string status) status)
  else Ret (true, mkDriver h (drv_error_desc w) (drv_error_code w)).

Definition driver_OpenReadOnly (db_path : string) : M RocksDbDriver bool :=
fun w =>
  let '(status, h) := rdb_open_read_only db_path in
  if negb (status =? 0) then Ret (false, mkDriver h (status_string status) status)
  else Ret (true, mkDriver h (drv_error_desc w) (drv_error_code w)).

Definition driver_Close : M RocksDbDriver bool :=
do! modify (fun w => mkDriver None (drv_error_desc w) (drv_error_code w)) in
ret true.

(** An operation on the handle, whose failure is kept as text. *)
Definition with_handle (op : rdb -> Z * rdb) : M RocksDbDriver bool :=
fun w =>
  match drv_db w with
  | None => Undef NullDeref
  | Some d =>
      let '(status, d') := op d in
      if negb (status =? 0)
      then Ret (false, mkDriver (Some d') (status_string status) (drv_error_code w))
      else Ret (true, mkDriver (Some d') (drv_error_desc w) (drv_error_code w))
  end.

(** 1 for found, 0 for not found, -1 for any other status. *)
Definition driver_Get (key value : string) : M RocksDbDriver (Z * string) :=
fun w =>
  match drv_db w with
  | None => Undef NullDeref
  | Some d =>
      let '(status, v) := rdb_get d key value in
      if status =? 0 then Ret ((1, v), w)
      else if status =? 1 then Ret ((0, v), w)
      else Ret ((-1, v), mkDriver (Some d) (status_string status) (drv_error_code w))
  end.

Definition driver_Put (key value : string) : M RocksDbDriver bool :=
with_handle (fun d => rdb_put d key value).

Definition driver_Delete (key : string) : M RocksDbDriver bool :=
with_handle (fun d => rdb_delete d key).

Definition driver_WriteBatch (write_batch : wbatch) : M RocksDbDriver bool :=
with_handle (fun d => rdb_write d write_batch).

(** The loop of [GetAllByIterator]: values go into the set while the keys
  still start with the prefix. *)
Fixpoint collect_prefix (leaf_prefix : string) (entries : list (string * string)) (valuelist : list string)
: list string :=
match entries with
| (k, v) :: r =>
    if starts_with k leaf_prefix then collect_prefix leaf_prefix r (sset_insert v valuelist)
    else valuelist
| [] => valuelist
end.

Definition driver_GetAllByIterator (leaf_prefix : string) (valuelist : list string)
: M RocksDbDriver (bool * list string) :=
fun w =>
  match drv_db w with
  | None => Undef NullDeref
  | Some d =>
      let '(status, entries) := rdb_iter d leaf_prefix in
      if negb (status =? 0)
      then Ret ((false, valuelist), mkDriver (Some d) (status_string status) (drv_error_code w))
      else Ret ((true, collect_prefix leaf_prefix entries valuelist), w)
  end.

(** ** [DomianBatchVector] (storage_lock.cpp) *)

Definition MAX_BATCH_COUNT : Z := 10000.
Definition DomianBatchVector_new : batch_vector := replicate 100 None.

(** [domain_batch_record_[index]] with a signed index. *)
Definition ThreadSafeAdd (index : Z) (batch : option wbatch) : M batch_vector unit :=
fun v => if (0 <=? index) && (index <? Z.of_nat (length v))
         then Ret (tt, <[Z.to_nat index := batch]> v) else Undef OutOfRange.

Fixpoint first_free (v : batch_vector) (i : Z) : option Z :=
match v with
| [] => None
| None :: _ => Some i
| Some _ :: r => first_free r (i + 1)
end.

(** [Throw] stands for the process exit. *)
Definition ThreadSafeGetIndex : M batch_vector Z :=
fun v =>
  let index := default (Z.of_nat (length v)) (first_free v 0) in
  if index =? MAX_BATCH_COUNT then Throw else Ret (index, v).

Definition ThreadSafeGetByIndex (index : Z) : M batch_vector (option wbatch) :=
fun v =>
  if MAX_BATCH_COUNT <=? index then Ret (None, v)
  else match v !! Z.to_nat index with
       | Some b => Ret (b, v)
       | None => Undef OutOfRange
       end.

(** ** [Storage] (storage.cpp) *)

Record Storage := mkStorage {
st_db : option RocksDbDriver;
st_batch : option batch_vector
}.
Definition Storage_new : Storage := mkStorage None (Some DomianBatchVector_new).

Definition on_db {A} (m : M RocksDbDriver A) : M Storage A :=
zoom_ptr st_db (fun d s => mkStorage (Some d) (st_batch s)) m.
Definition on_batch {A} (m : M batch_vector A) : M Storage A :=
zoom_ptr st_batch (fun b s => mkStorage (st_db s) (Some b)) m.

(** [bin_home] is the directory of the executable. *)
Definition Storage_CreateDb (bin_home : string) : M Storage bool :=
fun s =>
  let db_path := (bin_home ++ "/" ++ "data" ++ "/" ++ "ledger.db")%string in
  let? r := driver_Open db_path (-1) RocksDbDriver_new in
  if negb r.1 then Ret (false, s) else Ret (true, mkStorage (Some r.2) (st_batch s)).

Definition Storage_CloseDb : M Storage unit := modify (fun _ => mkStorage None None).

(** Returns the [batch_index_] of the new [BatchIndex]. *)
Definition Storage_NewWriteBatch : M Storage Z :=
fun s =>
  match st_batch s with
  | Some _ =>
      (let! index := on_batch ThreadSafeGetIndex in
       do! on_batch (ThreadSafeAdd index (Some wb_empty)) in
       ret (wrap 32 index)) s
  | None =>
      (do! modify (fun s => mkStorage (st_db s) (Some DomianBatchVector_new)) in
       do! on_batch (ThreadSafeAdd 0 (Some wb_empty)) in
       ret 0) s
  end.

(** The [uint32_t] index becomes an [int32_t] parameter. *)
Definition Storage_ReleaseBatch (batch_index : Z) : M Storage unit :=
on_batch (ThreadSafeAdd (swrap 32 batch_index) None).

(** An operation of the batch behind an index; [none] is the answer when there
  is no batch there.  The batch object is changed in place. *)
Definition on_indexed_batch (batch_index : Z) (none : bool) (f : wbatch -> wbatch) : M Storage bool :=
let! b := on_batch (ThreadSafeGetByIndex batch_index) in
match b with
| None => ret none
| Some b => do! on_batch (modify (fun v => <[Z.to_nat batch_index := Some (f b)]> v)) in ret true
end.

Definition Storage_BatchPut (batch_index : Z) (key value : string) : M Storage bool :=
on_indexed_batch batch_index false (fun b => wb_put b key value).
Definition Storage_BatchDelete (batch_index : Z) (key : string) : M Storage bool :=
on_indexed_batch batch_index false (fun b => wb_delete b key).
Definition Storage_BatchClear (batch_index : Z) : M Storage bool :=
on_indexed_batch batch_index true wb_clear.

Definition Storage_WriteBatch (batch_index : Z) : M Storage bool :=
fun s =>
  match st_batch s with
  | None => Ret (false, s)
  | Some _ =>
      (let! b := on_batch (ThreadSafeGetByIndex batch_index) in
       match b with
       | None => ret false
       | Some b =>
           let! ok := on_db (driver_WriteBatch b) in
           if negb ok then ret false
           else
             do! on_batch (modify (fun v => <[Z.to_nat batch_index := Some (wb_clear b)]> v)) in
             ret true
       end) s
  end.

Definition Storage_DBGet (key value : string) : M Storage (Z * string) := on_db (driver_Get key value).
Definition Storage_DBPut (key value : string) : M Storage Z :=
let! stat := on_db (driver_Put key value) in ret (if negb stat then -1 else 1).
Definition Storage_DBDelete (key : string) : M Storage Z :=
let! stat := on_db (driver_Delete key) in ret (if negb stat then -1 else 1).
Definition Storage_GetAllValueByPrefix (prefix : string) (values : list string)
: M Storage (bool * list string) :=
let! r := on_db (driver_GetAllByIterator prefix values) in
if negb r.1 then ret (false, r.2) else ret (true, r.2).

(** ** [DatabaseManager] and [DatabaseProxy] *)

(** [storage_]; null until [Initialize]. *)
Record Database := mkDatabase { storage_ : option Storage }.
Definition Database_new : Database := mkDatabase None.
Definition on_storage {A} (m : M Storage A) : M Database A :=
zoom_ptr storage_ (fun s _ => mkDatabase (Some s)) m.

Definition manager_Initialize (bin_home : string) : M Database bool :=
do! modify (fun _ => mkDatabase (Some Storage_new)) in
on_storage (Storage_CreateDb bin_home).
Definition manager_DBGet (key value : string) : M Database (bool * string) :=
let! r := on_storage (Storage_DBGet key value) in
if r.1 =? 1 then ret (true, r.2) else ret (false, r.2).
Definition manager_DBPut (key value : string) : M Database bool :=
let! r := on_storage (Storage_DBPut key value) in if r =? 1 then ret true else ret false.
Definition manager_DBDelete (key : string) : M Database bool :=
let! r := on_storage (Storage_DBDelete key) in if r =? 1 then ret true else ret false.

Definition proxy_Initialize (bin_home : string) : M Database bool :=
let! ok := manager_Initialize bin_home in if negb ok then ret false else ret true.
Definition NewWriteBatch : M Database Z := on_storage Storage_NewWriteBatch.
Definition ReleaseBatch (batch_index : Z) : M Database unit :=
on_storage (Storage_ReleaseBatch (wrap 32 batch_index)).
Definition BatchPut (batch_index : Z) (key value : string) : M Database bool :=
on_storage (Storage_BatchPut batch_index key value).
Definition BatchDelete (batch_index : Z) (key : string) : M Database bool :=
on_storage (Storage_BatchDelete batch_index key).
Definition BatchClear (batch_index : Z) : M Database bool := on_storage (Storage_BatchClear batch_index).
Definition WriteBatch (batch_index : Z) : M Database bool := on_storage (Storage_WriteBatch batch_index).
Definition DBGet (key value : string) : M Database (bool * string) := manager_DBGet key value.
Definition DBPut (key value : string) : M Database bool := manager_DBPut key value.
Definition DBDelete (key : string) : M Database bool := manager_DBDelete key.
Definition GetAllValueByPrefix (prefix : string) (values : list string)
: M Database (bool * list string) :=
on_storage (Storage_GetAllValueByPrefix prefix values).

(** The destructor of [BatchIndex] releases the slot it names. *)
Definition BatchIndex_default : Z := wrap 32 (-1).
Definition BatchIndex_destroy (batch_index_ : Z) : M Database unit := ReleaseBatch batch_index_.

End Database.

(** ** What the store promises *)

Section Facts.
Context `{RocksDbLaws}.

(** The content of an open database. *)
Definition content (d : Database) : option (gmap string string) :=
  s ← storage_ d; v ← st_db s; h ← drv_db v; Some (rdb_view h).

Lemma content_inv d m : content d = Some m ->
  exists h e c b, d = mkDatabase (Some (mkStorage (Some (mkDriver (Some h) e c)) b)) /\ rdb_view h = m.
Proof.
  destruct d as [[[[[[h|] e c]|] b]|]]; simpl; try done. intros [= <-]. eauto 10.
Qed.

Definition opened (h : rdb) (e : string) (c : Z) (b : option batch_vector) : Database :=
  mkDatabase (Some (mkStorage (Some (mkDriver (Some h) e c)) b)).

Lemma DBPut_run h e c b k v :
  DBPut k v (opened h e c b) =
  if (rdb_put h k v).1 =? 0 then Ret (true, opened (rdb_put h k v).2 e c b)
  else Ret (false, opened (rdb_put h k v).2 (status_string (rdb_put h k v).1) c b).
Proof.
  cbv -[rdb_put Z.eqb negb status_string]. destruct (rdb_put h k v) as [s h']. by destruct (s =? 0).
Qed.

Lemma DBDelete_run h e c b k :
  DBDelete k (opened h e c b) =
  if (rdb_delete h k).1 =? 0 then Ret (true, opened (rdb_delete h k).2 e c b)
  else Ret (false, opened (rdb_delete h k).2 (status_string (rdb_delete h k).1) c b).
Proof.
  cbv -[rdb_delete Z.eqb negb status_string]. destruct (rdb_delete h k) as [s h']. by destruct (s =? 0).
Qed.

Lemma content_opened h e c b : content (opened h e c b) = Some (rdb_view h).
Proof. done. Qed.

Lemma elem_of_collect_prefix p es acc v :
  StronglySorted str_lt es.*1 -> (forall k u, (k, u) ∈ es -> ~ str_lt k p) ->
  v ∈ collect_prefix p es acc <-> v ∈ acc \/ exists k, (k, v) ∈ es /\ starts_with k p = true.
Proof.
  revert acc. induction es as [|[k u] es IH]; intros acc Hs Hge; cbn [collect_prefix]; [set_solver|].
  apply StronglySorted_inv in Hs as [Hs F].
  assert (forall k' u', (k', u') ∈ es -> ~ str_lt k' p) as Hge' by (intros; eapply Hge; by right).
  destruct (starts_with k p) eqn:E.
  - rewrite IH, elem_of_sset_insert by done. setoid_rewrite elem_of_cons.
    split; [intros [[->|?]|(k' & ? & ?)]; eauto 10|].
    intros [?|(k' & [[= -> ->]|?] & ?)]; eauto.
  - split; [by left|]. intros [|(k' & [[= -> ->]|Hin]%elem_of_cons & Hp)]; [done|congruence|].
    rewrite Forall_forall in F.
    specialize (F k' (list_elem_of_fmap_2 fst _ _ Hin)). rewrite (starts_with_between p k k') in E; try done.
    apply (Hge k u). by left.
Qed.

Lemma collect_prefix_sorted p es acc :
  StronglySorted str_lt acc -> StronglySorted str_lt (collect_prefix p es acc).
Proof.
  revert acc. induction es as [|[k u] es IH]; intros acc Ha; cbn [collect_prefix]; [done|].
  case_match; [|done]. by apply IH, sset_insert_sorted.
Qed.

Lemma GetAll_run h e c b p l :
  GetAllValueByPrefix p l (opened h e c b) =
  if (rdb_iter h p).1 =? 0 then Ret ((true, collect_prefix p (rdb_iter h p).2 l), opened h e c b)
  else Ret ((false, l), opened h (status_string (rdb_iter h p).1) c b).
Proof.
  cbv -[rdb_iter Z.eqb negb status_string collect_prefix].
  destruct (rdb_iter h p) as [s es]. by destruct (s =? 0).
Qed.

(** Reading back by prefix: exactly the values stored under the prefix. *)
Lemma GetAll_open d m p : content d = Some m ->
  exists ok l d', GetAllValueByPrefix p [] d = Ret ((ok, l), d') /\ content d' = Some m /\
    StronglySorted str_lt l /\
    (ok = true -> forall v, v ∈ l <-> exists k, m !! k = Some v /\ starts_with k p = true).
Proof.
  intros (h & e & c & b & -> & <-)%content_inv. fold (opened h e c b). rewrite GetAll_run.
  destruct (rdb_iter h p) as [s es] eqn:E. cbn [fst snd].
  destruct (rdb_iter_law _ _ _ _ E) as [Hs Hin].
  destruct (Z.eqb_spec s 0) as [->|]; do 3 eexists; (split; [reflexivity|]); (split; [done|]).
  - split; [apply collect_prefix_sorted; constructor|].
    intros _ v. rewrite elem_of_collect_prefix; [|done|by intros ? ? [_ ?]%Hin].
    setoid_rewrite Hin. split.
    + intros [Hv|(k & [? ?] & ?)]; [by apply elem_of_nil in Hv|eauto].
    + intros (k & ? & ?). right. eauto using starts_with_ge.
  - split; [constructor|done].
Qed.

(** ** Write batches *)

Definition batch_op (i : Z) (op : string * option string) : M Database bool :=
  match op with
  | (k, Some v) => BatchPut i k v
  | (k, None) => BatchDelete i k
  end.
Fixpoint batch_ops (i : Z) (ops : list (string * option string)) : M Database unit :=
  match ops with
  | [] => ret tt
  | op :: r => do! batch_op i op in batch_ops i r
  end.

Definition wb_op (b : wbatch) (op : string * option string) : wbatch :=
  match op with (k, Some v) => wb_put b k v | (k, None) => wb_delete b k end.

Lemma wb_view_ops b ops : wb_view (foldl wb_op b ops) = wb_view b ++ ops.
Proof.
  revert b. induction ops as [|[k [v|]] ops IH]; intros b; cbn [foldl wb_op].
  - by rewrite app_nil_r.
  - by rewrite IH, wb_put_law, <- app_assoc.
  - by rewrite IH, wb_delete_law, <- app_assoc.
Qed.

Lemma ThreadSafeGetByIndex_run i v b :
  0 <= i < MAX_BATCH_COUNT -> v !! Z.to_nat i = Some b -> ThreadSafeGetByIndex i v = Ret (b, v).
Proof.
  intros Hi E. unfold ThreadSafeGetByIndex. rewrite E.
  by destruct (Z.leb_spec MAX_BATCH_COUNT i); [lia|].
Qed.

Lemma on_indexed_batch_run h e c v i b n f :
  0 <= i < MAX_BATCH_COUNT -> v !! Z.to_nat i = Some (Some b) ->
  on_storage (on_indexed_batch i n f) (opened h e c (Some v)) =
  Ret (true, opened h e c (Some (<[Z.to_nat i := Some (f b)]> v))).
Proof.
  intros Hi E. unfold on_storage, zoom_ptr, opened, on_indexed_batch, on_batch, bind, zoom_ptr.
  cbn [storage_ st_batch]. by rewrite (ThreadSafeGetByIndex_run i v (Some b)).
Qed.

Lemma batch_ops_run h e c v i b ops :
  0 <= i < MAX_BATCH_COUNT -> v !! Z.to_nat i = Some (Some b) ->
  batch_ops i ops (opened h e c (Some v)) =
  Ret (tt, opened h e c (Some (<[Z.to_nat i := Some (foldl wb_op b ops)]> v))).
Proof.
  intros Hi. revert v b. induction ops as [|[k o] ops IH]; intros v b E.
  { cbn [batch_ops foldl]. by rewrite list_insert_id. }
  pose proof (lookup_lt_Some _ _ _ E).
  assert (batch_op i (k, o) (opened h e c (Some v)) =
    Ret (true, opened h e c (Some (<[Z.to_nat i := Some (wb_op b (k, o))]> v)))) as Eop.
  { destruct o as [x|]; [apply (on_indexed_batch_run h e c v i b false (fun b => wb_put b k x))
      |apply (on_indexed_batch_run h e c v i b false (fun b => wb_delete b k))]; done. }
  cbn [batch_ops]. rewrite (bind_ret_run _ _ _ _ _ Eop).
  rewrite (IH _ (wb_op b (k, o))) by (by apply list_lookup_insert_eq).
  by rewrite list_insert_insert_eq.
Qed.

Lemma WriteBatch_run h e c v i b :
  0 <= i < MAX_BATCH_COUNT -> v !! Z.to_nat i = Some (Some b) ->
  WriteBatch i (opened h e c (Some v)) =
  if (rdb_write h b).1 =? 0
  then Ret (true, opened (rdb_write h b).2 e c (Some (<[Z.to_nat i := Some (wb_clear b)]> v)))
  else Ret (false, opened (rdb_write h b).2 (status_string (rdb_write h b).1) c (Some v)).
Proof.
  intros Hi E. unfold WriteBatch, on_storage, zoom_ptr, opened, Storage_WriteBatch.
  cbn [storage_ st_batch]. unfold on_batch, bind, zoom_ptr. cbn [st_batch].
  rewrite (ThreadSafeGetByIndex_run i v (Some b)) by done.
  cbv -[rdb_write wb_clear status_string Z.eqb Z.to_nat insert].
  destruct (rdb_write h b) as [s h']. by destruct (s =? 0).
Qed.

Lemma first_free_spec v i0 :
  match first_free v i0 with
  | Some i => i0 <= i < i0 + Z.of_nat (length v) /\ v !! Z.to_nat (i - i0) = Some None
  | None => Forall (fun b => is_Some b) v
  end.
Proof.
  revert i0. induction v as [|[b|] v IH]; intros i0; cbn [first_free length].
  - constructor.
  - specialize (IH (i0 + 1)). destruct (first_free v (i0 + 1)) as [i|].
    + destruct IH as [Hi E]. split; [lia|].
      replace (Z.to_nat (i - i0)) with (S (Z.to_nat (i - (i0 + 1)))) by lia. done.
    + by constructor.
  - split; [lia|]. by replace (i0 - i0) with 0 by lia.
Qed.

(** The number of batches in use. *)
Definition active (v : batch_vector) : nat := length (filter is_Some v).

Lemma NewWriteBatch_run h e c v :
  Z.of_nat (length v) < MAX_BATCH_COUNT ->
  NewWriteBatch (opened h e c (Some v)) =
  match first_free v 0 with
  | Some i => Ret (i, opened h e c (Some (<[Z.to_nat i := Some wb_empty]> v)))
  | None => Undef OutOfRange
  end.
Proof.
  intros Hl. pose proof (first_free_spec v 0) as Hf.
  unfold NewWriteBatch, on_storage, zoom_ptr, opened, Storage_NewWriteBatch.
  cbn [storage_ st_batch]. unfold on_batch, bind, zoom_ptr. cbn [st_batch].
  unfold ThreadSafeGetIndex.
  assert (default (Z.of_nat (length v)) (first_free v 0) =? MAX_BATCH_COUNT = false) as ->.
  { destruct (first_free v 0); simpl; lia. }
  cbn [obind fst snd st_batch]. unfold ThreadSafeAdd.
  destruct (first_free v 0) as [i|]; cbn [default from_option].
  - destruct Hf as [Hi _]. assert (wrap 32 i = i) as Hw.
    { apply wrap_small. unfold MAX_BATCH_COUNT in Hl. change (2 ^ 32) with 4294967296. lia. }
    cbn -[Z.leb Z.ltb wrap]. rewrite Hw. by replace ((0 <=? i) && (i <? Z.of_nat (length v))) with true by lia.
  - cbn -[Z.leb Z.ltb].
    by replace ((0 <=? Z.of_nat (length v)) && (Z.of_nat (length v) <? Z.of_nat (length v))) with false by lia.
Qed.


(** A new batch takes a free slot of the table and leaves the other
    batches as they are; once every slot of the table is in use there is no
    slot left and the write of the new one is out of the vector's range. *)
Theorem NewWriteBatch_slots h e c v :
  Z.of_nat (length v) < MAX_BATCH_COUNT ->
  (exists i, NewWriteBatch (opened h e c (Some v)) =
        Ret (i, opened h e c (Some (<[Z.to_nat i := Some wb_empty]> v))) /\
      v !! Z.to_nat i = Some None /\ 0 <= i < Z.of_nat (length v)) \/
  (Forall (fun b => is_Some b) v /\ NewWriteBatch (opened h e c (Some v)) = Undef OutOfRange).
Proof.
  intros Hl. rewrite NewWriteBatch_run by done.
  pose proof (first_free_spec v 0) as Hf. destruct (first_free v 0) as [i|]; [|by right].
  rewrite Z.sub_0_r in Hf. left. exists i. split; [done|]. by destruct Hf as [? ?].
Qed.

End Facts.

(** ** An in-memory store *)
Module MemDb.

Definition iter (d : gmap string string) (t : string) : list (string * string) :=
  map (fun k => (k, default "" (d !! k))) (filter (fun k => ~ str_lt k t) (sorted_keys d)).

Definition mem_get (d : gmap string string) (k old : string) : Z * string :=
  match d !! k with Some v => (0, v) | None => (1, old) end.

Lemma mem_get_law d k old s v : mem_get d k old = (s, v) ->
  (s = 0 <-> is_Some (d !! k)) /\ (s = 0 -> d !! k = Some v).
Proof.
  unfold mem_get. destruct (d !! k) eqn:E; intros [= <- <-]; [by eauto|].
  split; [|done]. split; [done|]. by intros [? ?].
Qed.

Lemma filter_sorted (P : string -> Prop) `{forall k, Decision (P k)} l :
  StronglySorted str_lt l -> StronglySorted str_lt (filter P l).
Proof.
  induction 1 as [|k l Hl IH F]; [constructor|]. rewrite filter_cons. case_decide; [|done].
  constructor; [done|]. rewrite Forall_forall in *. intros x [_ Hx]%list_elem_of_filter. auto.
Qed.

Lemma mem_iter_law (d : gmap string string) t :
  StronglySorted str_lt (iter d t).*1 /\
  (forall k v, (k, v) ∈ iter d t <-> d !! k = Some v /\ ~ str_lt k t).
Proof.
  unfold iter. split.
  - rewrite <- list_fmap_compose. rewrite (list_fmap_ext _ id), list_fmap_id by done.
    apply filter_sorted, sorted_keys_sorted.
  - intros k v. rewrite list_elem_of_fmap. setoid_rewrite list_elem_of_filter.
    setoid_rewrite elem_of_sorted_keys. split.
    + intros (k' & [= -> ->] & Hlt & [u E]). rewrite E. done.
    + intros [E Hlt]. exists k. rewrite E. eauto.
Qed.

#[export] Instance mem_db : RocksDb := {
  rdb := gmap string string;
  wbatch := list (string * option string);
  rdb_open := fun _ => (0, Some ∅);
  rdb_open_read_only := fun _ => (0, Some ∅);
  rdb_get := mem_get;
  rdb_put := fun d k v => (0, <[k := v]> d);
  rdb_delete := fun d k => (0, delete k d);
  rdb_write := fun d b => (0, foldl apply_op d b);
  rdb_iter := fun d t => (0, iter d t);
  wb_empty := [];
  wb_put := fun b k v => b ++ [(k, Some v)];
  wb_delete := fun b k => b ++ [(k, None)];
  wb_clear := fun _ => [];
  status_string := fun _ => "status"%string
}.

#[local] Obligation Tactic := idtac.

#[export] Program Instance mem_db_laws : RocksDbLaws := {
  rdb_view := fun d => d;
  wb_view := fun b => b
}.
Next Obligation. exact mem_get_law. Qed.
Next Obligation. by intros d k v d' [= <-]. Qed.
Next Obligation. by intros d k d' [= <-]. Qed.
Next Obligation. by intros d b d' [= <-]. Qed.
Next Obligation. intros d t s l [= <- <-]. apply mem_iter_law. Qed.
Next Obligation. done. Qed.
Next Obligation. done. Qed.
Next Obligation. done. Qed.
Next Obligation. done. Qed.

End MemDb.

Section Witnesses.
Import MemDb.


Lemma NewWriteBatch_slots_witness :
  NewWriteBatch (opened (H := mem_db) (∅ : gmap string string) "" 0 (Some [Some (wb_empty (RocksDb := mem_db))])) = Undef OutOfRange.
Proof.
  destruct (NewWriteBatch_slots (H := mem_db) ∅ "" 0 [Some (wb_empty (RocksDb := mem_db))]) as [(i & _ & E & Hi)|[_ E]].
  - vm_compute. reflexivity.
  - exfalso. assert (i = 0) as -> by (simpl in Hi; lia). discriminate E.
  - exact E.
Defined.
End Witnesses.
