(* ===== verification/General.v ===== *)
(** Messages and shared data: the protobuf messages the agent fills or reads
    ([src/proto]), and [src/common/general]: [AddressPrefix], [Result],
    [TimerNotify] and the in-memory record of a cross-chain transaction
    ([CrossTx]). *)

From S2P Require Import Prelude.

(** ** [protocol::CrossTxInfo] (agent.proto) *)
Record CrossTxInfo := mkCrossTxInfo {
  crosstxid : string;
  srcbid : string;
  destbid : string;
  amount : Z;
  status : Z;
  refunded : Z;
  createtimestamp : Z;
  executetimestamp : Z;
  timeout : Z;
  errordesc : string;
  confirmseq : Z;
  sendtxhash : string;
  sendacktol1hash : string;
  sendacktol2hash : string
}.
#[export] Instance CrossTxInfo_eq_dec : EqDecision CrossTxInfo.
Proof. solve_decision. Defined.

Definition CrossTxInfo_default : CrossTxInfo :=
  mkCrossTxInfo "" "" "" 0 0 0 0 0 0 "" 0 "" "" "".

(** The generated setters; [status] and [refunded] are [int32]. *)
Definition set_status (v : Z) (m : CrossTxInfo) : CrossTxInfo :=
  mkCrossTxInfo (crosstxid m) (srcbid m) (destbid m) (amount m) (swrap 32 v) (refunded m)
    (createtimestamp m) (executetimestamp m) (timeout m) (errordesc m) (confirmseq m)
    (sendtxhash m) (sendacktol1hash m) (sendacktol2hash m).
Definition set_confirmseq (v : Z) (m : CrossTxInfo) : CrossTxInfo :=
  mkCrossTxInfo (crosstxid m) (srcbid m) (destbid m) (amount m) (status m) (refunded m)
    (createtimestamp m) (executetimestamp m) (timeout m) (errordesc m) v
    (sendtxhash m) (sendacktol1hash m) (sendacktol2hash m).
Definition set_sendtxhash (v : string) (m : CrossTxInfo) : CrossTxInfo :=
  mkCrossTxInfo (crosstxid m) (srcbid m) (destbid m) (amount m) (status m) (refunded m)
    (createtimestamp m) (executetimestamp m) (timeout m) (errordesc m) (confirmseq m)
    v (sendacktol1hash m) (sendacktol2hash m).
Definition set_sendacktol1hash (v : string) (m : CrossTxInfo) : CrossTxInfo :=
  mkCrossTxInfo (crosstxid m) (srcbid m) (destbid m) (amount m) (status m) (refunded m)
    (createtimestamp m) (executetimestamp m) (timeout m) (errordesc m) (confirmseq m)
    (sendtxhash m) v (sendacktol2hash m).
Definition set_sendacktol2hash (v : string) (m : CrossTxInfo) : CrossTxInfo :=
  mkCrossTxInfo (crosstxid m) (srcbid m) (destbid m) (amount m) (status m) (refunded m)
    (createtimestamp m) (executetimestamp m) (timeout m) (errordesc m) (confirmseq m)
    (sendtxhash m) (sendacktol1hash m) v.

(** ** Contract logs (subscribe.proto) *)
Record Tlog := mkTlog { topic : string; tlog : list string }.
Record TlogSubscribeResponse := mkTlogResponse { address : string; tlogs : list Tlog }.

Inductive TopicType : Set :=
| TOPIC_REGISTERAGENT
| TOPIC_SUBMIT
| TOPIC_STOP
| TOPIC_UPDATE_PERIOD
| TOPIC_FREEZE
| TOPIC_UN_FREEZE
| TOPIC_OTHER (v : Z).

(** The fields of [ManagerContractTlog] the agent reads. *)
Record ManagerContractTlog := mkManagerTlog {
  tlog_type : TopicType;
  submit_confirm_seq : Z;
  update_period_period : Z
}.

(** ** [protocol::Transaction] (transaction.proto): the fields the agent sets *)
Record OperationPayCoin := mkPayCoin { dest_address : string; pay_amount : Z; pay_input : string }.
Definition Operation_Type_PAY_COIN : Z := 7.
Definition Transaction_TxType_RANDOM_NONCE : Z := 1.
Record Operation := mkOperation { op_type : Z; pay_coin : OperationPayCoin }.
Record Transaction := mkTransaction {
  source_address : string;
  nonce : Z;
  operations : list Operation;
  tx_fee_limit : Z;
  tx_gas_price : Z;
  chain_id : Z;
  nonce_type : Z;
  max_ledger_seq : Z
}.

(** ** Results of a cross-chain transaction (general.h) *)
Definition CROSS_RESULT_INIT : Z := 0.
Definition CROSS_RESULT_SUCCESS : Z := 1.
Definition CROSS_RESULT_FAILED : Z := 2.
Definition CROSS_RESULT_TIMEOUT : Z := 3.

(** ** [protocol::WsMessage] (overlay.proto): what the websockets carry *)
Record WsMessage := mkWsMessage { ws_type : Z; ws_request : bool; ws_sequence : Z; ws_data : string }.
Definition OVERLAY_MSGTYPE_PING : Z := 1.
Definition CHAIN_CONTRACT_LOG : Z := 17.

(** ** [CrossTx]: [send_ack_timeout_] is not set by the constructor *)
Record CrossTx := mkCrossTx {
  cross_tx_id_ : string;
  status_ : Z;
  confirm_seq_ : Z;
  send_tx_timeout_ : Z;
  send_ack_timeout_ : option Z;
  send_tx_hash_ : string;
  send_ack_to_l1_hash_ : string;
  send_ack_to_l2_hash_ : string;
  cross_tx_info_ : string
}.
Definition CrossTx_new (serialized : string) (m : CrossTxInfo) : CrossTx :=
  mkCrossTx (crosstxid m) (status m) (confirmseq m) (timeout m) None
    (sendtxhash m) (sendacktol1hash m) (sendacktol2hash m) serialized.
Definition set_send_ack_timeout (t : Z) (c : CrossTx) : CrossTx :=
  mkCrossTx (cross_tx_id_ c) (status_ c) (confirm_seq_ c) (send_tx_timeout_ c) (Some t)
    (send_tx_hash_ c) (send_ack_to_l1_hash_ c) (send_ack_to_l2_hash_ c) (cross_tx_info_ c).

(** Reading a member that may never have been written. *)
Definition read_init {A} (o : option A) : outcome A :=
  match o with Some a => Ret a | None => Undef Uninitialised end.

(** ** [AddressPrefix] *)
Record AddressPrefix := mkAddressPrefix { chain_code_ : string; address_prefix_ : string }.
Definition AddressPrefix_new : AddressPrefix := mkAddressPrefix "" "did:bid:".
Definition AddressPrefix_Initialize (p : AddressPrefix) : bool * AddressPrefix :=
  (true, mkAddressPrefix "" "did:bid:").
Definition UpdatePrefix (p : string) (a : AddressPrefix) : AddressPrefix :=
  mkAddressPrefix (chain_code_ a) p.
Definition UpdateChainCode (c : string) (a : AddressPrefix) : AddressPrefix :=
  mkAddressPrefix c (address_prefix_ a).

(** A [std::string] handed to [printf] as [%s]: up to its first NUL. *)
Fixpoint cstr (s : string) : string :=
  match s with
  | EmptyString => EmptyString
  | String c r => if Ascii.eqb c zero then EmptyString else String c (cstr r)
  end.

Definition AddressPrefix_Encode (p : AddressPrefix) (address : string) : string :=
  if String.eqb (chain_code_ p) "" then (address_prefix_ p ++ address)%string
  else (address_prefix_ p ++ cstr (chain_code_ p) ++ ":" ++ cstr address)%string.

(** The text after the last [:] and the text up to and including it. *)
Fixpoint after_last_colon (s : string) : option string :=
  match s with
  | EmptyString => None
  | String c r =>
      match after_last_colon r with
      | Some t => Some t
      | None => if Ascii.eqb c ":" then Some r else None
      end
  end.
Fixpoint upto_last_colon (s : string) : option string :=
  match s with
  | EmptyString => None
  | String c r =>
      match upto_last_colon r with
      | Some t => Some (String c t)
      | None => if Ascii.eqb c ":" then Some (String c EmptyString) else None
      end
  end.

Definition AddressPrefix_Decode (address : string) : string :=
  match after_last_colon address with Some t => t | None => address end.

Definition CheckPrefix (p : AddressPrefix) (address : string) : bool :=
  match upto_last_colon address with
  | None => false
  | Some prefix =>
      let local_prefix :=
        if String.eqb (chain_code_ p) "" then address_prefix_ p
        else (address_prefix_ p ++ chain_code_ p ++ ":")%string in
      String.eqb prefix local_prefix
  end.

(** ** [Result] *)
Record Result := mkResult { code_ : Z; desc_ : string }.
Definition ERRCODE_SUCCESS : Z := 0.
Definition Result_new : Result := mkResult ERRCODE_SUCCESS "".
Definition Result_Reset (r : Result) : Result := mkResult 0 "".
Definition set_code (code : Z) (r : Result) : Result := mkResult code (desc_ r).
Definition set_desc (desc : string) (r : Result) : Result := mkResult (code_ r) desc.
Definition Result_assign (r result : Result) : bool * Result := (true, mkResult (code_ result) (desc_ result)).

(** ** [TimerNotify] *)
Record TimerNotify := mkTimerNotify {
  last_check_time_ : Z;
  last_slow_check_time_ : Z;
  check_interval_ : Z;
  last_execute_complete_time_ : Z;
  last_slow_execute_complete_time_ : Z;
  timer_name_ : string
}.
Definition TimerNotify_new (timer_name : string) (check_interval : Z) : TimerNotify :=
  mkTimerNotify 0 0 check_interval 0 0 timer_name.

(** The wrappers take what the virtual call and the clock do: [OnTimer] runs
    after [last_check_time_] is set, and the completion time is read after it. *)
Section Wrappers.
Context {W : Type} (timer : W -> TimerNotify) (set_timer : TimerNotify -> W -> W).
Context (OnTimer OnSlowTimer : Z -> M W unit) (HighResolution : M W Z).

Definition TimerWrapper (current_time : Z) : M W unit :=
  do! modify (fun w => let t := timer w in
        set_timer (mkTimerNotify (last_check_time_ t) (last_slow_check_time_ t) (check_interval_ t) 0
                     (last_slow_execute_complete_time_ t) (timer_name_ t)) w) in
  let! w := get in
  let! limit := lift (s64 (last_check_time_ (timer w) + check_interval_ (timer w))) in
  if current_time >? limit then
    do! modify (fun w => let t := timer w in
          set_timer (mkTimerNotify current_time (last_slow_check_time_ t) (check_interval_ t)
                       (last_execute_complete_time_ t) (last_slow_execute_complete_time_ t) (timer_name_ t)) w) in
    do! OnTimer current_time in
    let! now := HighResolution in
    modify (fun w => let t := timer w in
          set_timer (mkTimerNotify (last_check_time_ t) (last_slow_check_time_ t) (check_interval_ t) now
                       (last_slow_execute_complete_time_ t) (timer_name_ t)) w)
  else ret tt.

Definition SlowTimerWrapper (current_time : Z) : M W unit :=
  do! modify (fun w => let t := timer w in
        set_timer (mkTimerNotify (last_check_time_ t) (last_slow_check_time_ t) (check_interval_ t)
                     (last_execute_complete_time_ t) 0 (timer_name_ t)) w) in
  let! w := get in
  let! limit := lift (s64 (last_slow_check_time_ (timer w) + check_interval_ (timer w))) in
  if current_time >? limit then
    do! modify (fun w => let t := timer w in
          set_timer (mkTimerNotify (last_check_time_ t) current_time (check_interval_ t)
                       (last_execute_complete_time_ t) (last_slow_execute_complete_time_ t) (timer_name_ t)) w) in
    do! OnSlowTimer current_time in
    let! now := HighResolution in
    modify (fun w => let t := timer w in
          set_timer (mkTimerNotify (last_check_time_ t) (last_slow_check_time_ t) (check_interval_ t)
                       (last_execute_complete_time_ t) now (timer_name_ t)) w)
  else ret tt.

End Wrappers.

Definition GetLastExecuteTime (t : TimerNotify) : outcome Z :=
  s64 (last_execute_complete_time_ t - last_check_time_ t).
Definition GetSlowLastExecuteTime (t : TimerNotify) : outcome Z :=
  s64 (last_slow_execute_complete_time_ t - last_slow_check_time_ t).
Definition IsExpire (t : TimerNotify) (time_out : Z) : outcome bool :=
  let? d := GetLastExecuteTime t in Ret (d >? time_out).
Definition IsSlowExpire (t : TimerNotify) (time_out : Z) : outcome bool :=
  let? d := GetSlowLastExecuteTime t in Ret (d >? time_out).

(** ** Address prefixes: encoding and decoding *)

Fixpoint has_colon (s : string) : bool :=
  match s with EmptyString => false | String c r => Ascii.eqb c ":" || has_colon r end.

Lemma after_last_colon_None s : has_colon s = false -> after_last_colon s = None.
Proof.
  induction s as [|c s IH]; [done|]. simpl. intros [Hc Hs]%orb_false_iff.
  by rewrite (IH Hs), Hc.
Qed.

Lemma upto_last_colon_None s : has_colon s = false -> upto_last_colon s = None.
Proof.
  induction s as [|c s IH]; [done|]. simpl. intros [Hc Hs]%orb_false_iff.
  by rewrite (IH Hs), Hc.
Qed.

Lemma after_last_colon_app p s :
  has_colon s = false -> after_last_colon (p ++ ":" ++ s)%string = Some s.
Proof.
  intros Hs. induction p as [|c p IH]; simpl.
  - by rewrite after_last_colon_None.
  - simpl in IH. by rewrite IH.
Qed.

Lemma upto_last_colon_app p s :
  has_colon s = false -> upto_last_colon (p ++ ":" ++ s)%string = Some (p ++ ":")%string.
Proof.
  intros Hs. induction p as [|c p IH]; simpl.
  - by rewrite upto_last_colon_None.
  - simpl in IH. by rewrite IH.
Qed.

Lemma string_app_assoc (a b c : string) : ((a ++ b) ++ c)%string = (a ++ b ++ c)%string.
Proof. induction a as [|x a IH]; [done|]. change (String x ((a ++ b) ++ c) = String x (a ++ b ++ c))%string. by rewrite IH. Qed.

Lemma string_app_nil_r (a : string) : (a ++ "")%string = a.
Proof. induction a as [|x a IH]; [done|]. change (String x (a ++ "") = String x a)%string. by rewrite IH. Qed.

Fixpoint no_nul (s : string) : bool :=
  match s with EmptyString => true | String c r => negb (Ascii.eqb c zero) && no_nul r end.

Lemma cstr_no_nul s : no_nul s = true -> cstr s = s.
Proof.
  induction s as [|c s IH]; [done|]. simpl. intros [Hc Hs]%andb_true_iff.
  apply negb_true_iff in Hc. rewrite Hc. by rewrite IH.
Qed.

(** An address that is encoded with a prefix ending in a colon passes the
    prefix check of the same configuration, and decoding it gives the bare
    address back, with and without a chain code. *)
Theorem AddressPrefix_roundtrip p q address :
  address_prefix_ p = (q ++ ":")%string ->
  has_colon address = false -> no_nul address = true -> no_nul (chain_code_ p) = true ->
  AddressPrefix_Decode (AddressPrefix_Encode p address) = address /\
  CheckPrefix p (AddressPrefix_Encode p address) = true.
Proof.
  intros Hq Hc Hn Hcc. unfold AddressPrefix_Encode, AddressPrefix_Decode, CheckPrefix.
  rewrite Hq, !cstr_no_nul by done. destruct (String.eqb (chain_code_ p) "").
  - rewrite string_app_assoc.
    rewrite after_last_colon_app, upto_last_colon_app by done. by rewrite String.eqb_refl.
  - replace ((q ++ ":") ++ chain_code_ p ++ ":" ++ address)%string
      with (((q ++ ":") ++ chain_code_ p) ++ ":" ++ address)%string by (by rewrite !string_app_assoc).
    rewrite after_last_colon_app, upto_last_colon_app by done.
    rewrite !string_app_assoc. by rewrite String.eqb_refl.
Qed.

Lemma AddressPrefix_roundtrip_witness :
  let p := UpdateChainCode "0" AddressPrefix_new in
  AddressPrefix_Decode (AddressPrefix_Encode p "efkdYHzcgLi") = "efkdYHzcgLi"%string /\
  CheckPrefix p (AddressPrefix_Encode p "efkdYHzcgLi") = true.
Proof. cbv zeta. apply (AddressPrefix_roundtrip _ "did:bid"); reflexivity. Defined.
