(* ===== verification/Timer.v ===== *)
(** One-shot timers: [utils::Timer] (src/utils/timer.cpp).

    The timer is part of a larger state [W], for its callbacks may do anything
    there, set and cancel timers included; they do not reach the list of timers
    being run, which is private to [OnTimer]. *)

From Stdlib Require Import Sorting.Sorted.
From S2P Require Import Prelude General.

Section Timer.
Context {F : Type}.

Record TimerElement := mkElement { id_ : Z; data_ : Z; expire_time_ : Z; func_ : F }.
Definition GetIndex (e : TimerElement) : Z := id_ e.

(** [time_ele_] is a multimap: sorted by key, equal keys in the order of
    insertion. *)
Record Timer := mkTimer {
  time_ele_ : list (Z * TimerElement);
  exeute_list_ : list TimerElement;
  global_element_id_ : Z;
  timer_interval_ : Z;
  timer_last_check_ : Z
}.
Definition Timer_new : Timer := mkTimer [] [] 1 (100 * 1000) 0.

Fixpoint multimap_insert (k : Z) (e : TimerElement) (m : list (Z * TimerElement)) : list (Z * TimerElement) :=
  match m with
  | [] => [(k, e)]
  | (k', e') :: r => if k' <=? k then (k', e') :: multimap_insert k e r else (k, e) :: m
  end.

(** The reading of the clock is [now]. *)
Definition AddTimer (now micro_time data : Z) (func : F) (t : Timer) : outcome (Z * Timer) :=
  let? expire_time := s64 (now + micro_time) in
  let? next := s64 (global_element_id_ t + 1) in
  let element := mkElement (global_element_id_ t) data expire_time func in
  Ret (GetIndex element,
       mkTimer (multimap_insert expire_time element (time_ele_ t)) (exeute_list_ t) next
         (timer_interval_ t) (timer_last_check_ t)).

Fixpoint del_first (index : Z) (m : list (Z * TimerElement)) : option (list (Z * TimerElement)) :=
  match m with
  | [] => None
  | (k, e) :: r => if GetIndex e =? index then Some r else option_map (cons (k, e)) (del_first index r)
  end.
Definition DelTimer (index : Z) (t : Timer) : bool * Timer :=
  match del_first index (time_ele_ t) with
  | Some m => (true, mkTimer m (exeute_list_ t) (global_element_id_ t) (timer_interval_ t) (timer_last_check_ t))
  | None => (false, t)
  end.

Fixpoint find_expire (index : Z) (m : list (Z * TimerElement)) : Z :=
  match m with
  | [] => 0
  | (k, e) :: r => if GetIndex e =? index then k else find_expire index r
  end.
Definition GetExpireTime (index : Z) (t : Timer) : Z := find_expire index (time_ele_ t).

(** Moves the timers up to [cur_time] to the end of the list to run. *)
Fixpoint take_due (cur_time : Z) (m : list (Z * TimerElement)) : list TimerElement * list (Z * TimerElement) :=
  match m with
  | [] => ([], [])
  | (k, e) :: r =>
      if k >? cur_time then ([], m)
      else let '(due, rest) := take_due cur_time r in (e :: due, rest)
  end.
Definition CheckExpire (cur_time : Z) (t : Timer) : Timer :=
  let '(due, rest) := take_due cur_time (time_ele_ t) in
  mkTimer rest (exeute_list_ t ++ due) (global_element_id_ t) (timer_interval_ t) (timer_last_check_ t).

Section OnTimer.
Context {W : Type} (timer : W -> Timer) (set_timer : Timer -> W -> W) (call : F -> Z -> M W unit).

Definition Excute (e : TimerElement) : M W unit := call (func_ e) (data_ e).
Fixpoint run_all (l : list TimerElement) : M W unit :=
  match l with [] => ret tt | e :: r => do! Excute e in run_all r end.

Definition OnTimer (current_time : Z) : M W unit :=
  let! w := get in
  let! limit := lift (s64 (timer_last_check_ (timer w) + timer_interval_ (timer w))) in
  if current_time >? limit then
    do! modify (fun w => set_timer (CheckExpire current_time (timer w)) w) in
    let! w := get in
    do! run_all (exeute_list_ (timer w)) in
    modify (fun w => let t := timer w in
      set_timer (mkTimer (time_ele_ t) [] (global_element_id_ t) (timer_interval_ t) current_time) w)
  else ret tt.
End OnTimer.

(** ** What a timer's state is like *)

(** Sorted by key, filed under the element's own time, with ids that are all
    different and already given out. *)
Record timer_ok (t : Timer) : Prop := {
  ok_sorted : StronglySorted (fun a b => fst a <= fst b) (time_ele_ t);
  ok_keys : Forall (fun p => fst p = expire_time_ (snd p)) (time_ele_ t);
  ok_ids : NoDup (map (fun p => id_ (snd p)) (time_ele_ t));
  ok_given : Forall (fun p => 0 < id_ (snd p) < global_element_id_ t) (time_ele_ t)
}.

Lemma multimap_insert_perm k e m : multimap_insert k e m ≡ₚ (k, e) :: m.
Proof.
  induction m as [|[k' e'] m IH]; [done|]. cbn [multimap_insert]. case_match; [|done].
  rewrite IH. apply Permutation_swap.
Qed.
Lemma multimap_insert_sorted k e m : StronglySorted (fun a b => fst a <= fst b) m ->
  StronglySorted (fun a b => fst a <= fst b) (multimap_insert k e m).
Proof.
  induction 1 as [|[k' e'] m Hm IH Hall]; [by repeat constructor|]. cbn [multimap_insert].
  destruct (k' <=? k) eqn:E.
  - constructor; [done|]. rewrite multimap_insert_perm. constructor; [cbn; lia|done].
  - constructor; [by constructor|]. constructor; [cbn; lia|].
    eapply Forall_impl; [exact Hall|]. intros [? ?] ?; cbn in *; lia.
Qed.

Lemma new_ok : timer_ok Timer_new.
Proof. split; constructor. Qed.

Lemma AddTimer_ok now micro data f t i t' : timer_ok t -> 0 < global_element_id_ t ->
  AddTimer now micro data f t = Ret (i, t') -> timer_ok t' /\ 0 < global_element_id_ t'.
Proof.
  intros [H1 H2 H3 H4] Hg E. unfold AddTimer in E. obind_inv. injection E as <- <-.
  unfold s64 in *. repeat case_match; try done. simplify_eq. split; [|cbn; lia]. split; cbn.
  - by apply multimap_insert_sorted.
  - rewrite multimap_insert_perm. by constructor.
  - rewrite (Permutation_map _ (multimap_insert_perm _ _ _)). cbn. constructor; [|done].
    intros ([k e] & Ei & Hi)%list_elem_of_fmap. rewrite Forall_forall in H4. specialize (H4 _ Hi). cbn in *. lia.
  - rewrite multimap_insert_perm. constructor; [cbn; lia|]. eapply Forall_impl; [exact H4|]. intros [? ?] ?; cbn in *; lia.
Qed.

(** ** What runs when *)
Notation due_by c := (fun p : Z * TimerElement => p.1 <= c).
Notation later_than c := (fun p : Z * TimerElement => c < p.1).

Lemma take_due_spec c m : StronglySorted (fun a b => fst a <= fst b) m ->
  take_due c m = (map snd (filter (due_by c) m), filter (later_than c) m).
Proof.
  induction 1 as [|[k e] m Hm IH Hall]; [done|]. cbn [take_due]. destruct (k >? c) eqn:E.
  - assert (Forall (later_than c) ((k, e) :: m)) as Hl.
    { constructor; [cbn; lia|]. eapply Forall_impl; [exact Hall|]. intros [? ?] ?; cbn in *; lia. }
    rewrite (filter_all (later_than c)) by done. rewrite filter_no; [done|].
    eapply Forall_impl; [exact Hl|]. intros [? ?] ?; cbn in *; lia.
  - rewrite IH. rewrite !filter_cons, decide_True, decide_False by (cbn; lia). done.
Qed.

Lemma timers_filter_sorted P `{!forall x : Z * TimerElement, Decision (P x)} m :
  StronglySorted (fun a b => fst a <= fst b) m -> StronglySorted (fun a b => fst a <= fst b) (filter P m).
Proof.
  induction 1 as [|p m Hm IH Hall]; [constructor|]. rewrite filter_cons. case_decide; [|done].
  constructor; [done|]. rewrite Forall_forall in *. intros q [_ Hq]%list_elem_of_filter. by apply Hall.
Qed.
Lemma filter_ok (P : Z * TimerElement -> Prop) `{!forall x, Decision (P x)} l t g i n :
  timer_ok t -> global_element_id_ t <= g -> timer_ok (mkTimer (filter P (time_ele_ t)) l g i n).
Proof.
  intros [H1 H2 H3 H4] Hg. split; cbn; [by apply timers_filter_sorted| | |].
  - rewrite Forall_forall in *. intros q [_ Hq]%list_elem_of_filter. by apply H2.
  - eapply sublist_NoDup; [exact H3|]. apply fmap_sublist, sublist_filter.
  - rewrite Forall_forall in *. intros q [_ Hq]%list_elem_of_filter. specialize (H4 _ Hq). lia.
Qed.

(** A check at a time takes exactly the timers that are due by then, in the
    order of their times and, among equal times, of their setting; the others
    stay as they are, and the timer is well-formed again. *)
Theorem CheckExpire_due c t : timer_ok t ->
  exeute_list_ (CheckExpire c t) = exeute_list_ t ++ map snd (filter (due_by c) (time_ele_ t)) /\
  time_ele_ (CheckExpire c t) = filter (later_than c) (time_ele_ t) /\
  StronglySorted (fun a b => expire_time_ a <= expire_time_ b) (map snd (filter (due_by c) (time_ele_ t))) /\
  timer_ok (CheckExpire c t).
Proof.
  intros Hok. pose proof Hok as [H1 H2 H3 H4]. unfold CheckExpire. rewrite take_due_spec by done.
  split; [done|]. split; [done|]. split; [|by apply filter_ok].
  apply (timers_filter_sorted (due_by c)) in H1.
  assert (Forall (fun p => p.1 = expire_time_ p.2) (filter (due_by c) (time_ele_ t))) as Hk.
  { rewrite Forall_forall in *. intros q [_ Hq]%list_elem_of_filter. by apply H2. }
  induction H1 as [|p m Hm IH Hall]; [constructor|]. apply Forall_cons in Hk as [Ep Hk]. cbn [map].
  constructor; [by apply IH|]. apply Forall_forall. intros e ([k e'] & -> & Hq)%list_elem_of_fmap.
  pose proof (proj1 (Forall_forall _ _) Hall _ Hq). pose proof (proj1 (Forall_forall _ _) Hk _ Hq). cbn in *. lia.
Qed.

(** ** Setting and cancelling *)
Lemma del_first_inserted k e m : Forall (fun p => id_ p.2 <> id_ e) m -> del_first (id_ e) (multimap_insert k e m) = Some m.
Proof.
  induction 1 as [|[k' e'] m Hn _ IH]; cbn [multimap_insert del_first]; unfold GetIndex in *.
  - by rewrite Z.eqb_refl.
  - cbn in Hn. destruct (k' <=? k); cbn [del_first]; unfold GetIndex.
    + by rewrite (proj2 (Z.eqb_neq _ _) Hn), IH.
    + by rewrite Z.eqb_refl.
Qed.
Lemma find_expire_inserted k e m : Forall (fun p => id_ p.2 <> id_ e) m -> find_expire (id_ e) (multimap_insert k e m) = k.
Proof.
  induction 1 as [|[k' e'] m Hn _ IH]; cbn [multimap_insert find_expire]; unfold GetIndex in *.
  - by rewrite Z.eqb_refl.
  - cbn in Hn. destruct (k' <=? k); cbn [find_expire]; unfold GetIndex.
    + by rewrite (proj2 (Z.eqb_neq _ _) Hn).
    + by rewrite Z.eqb_refl.
Qed.

(** A timer that has been set has an id of its own and expires after its
    delay; the timers are well-formed again, and cancelling it leaves exactly
    the timers there were. *)
Theorem AddTimer_DelTimer now micro data f t i t' : timer_ok t -> 0 < global_element_id_ t ->
  AddTimer now micro data f t = Ret (i, t') ->
  timer_ok t' /\ Forall (fun p => id_ p.2 <> i) (time_ele_ t) /\ GetExpireTime i t' = now + micro /\
  exists t'', DelTimer i t' = (true, t'') /\ time_ele_ t'' = time_ele_ t.
Proof.
  intros Hok Hg E. split; [by eapply AddTimer_ok|].
  unfold AddTimer in E. obind_inv. injection E as <- <-. unfold s64 in *. repeat case_match; try done. simplify_eq.
  assert (Forall (fun p => id_ p.2 <> global_element_id_ t) (time_ele_ t)) as Hn.
  { eapply Forall_impl; [exact (ok_given _ Hok)|]. intros [? ?] ?; cbn in *; lia. }
  unfold GetIndex, GetExpireTime, DelTimer. cbn [id_ time_ele_].
  set (e := mkElement _ _ _ _). change (global_element_id_ t) with (id_ e).
  split; [done|]. split; [by apply find_expire_inserted|]. rewrite del_first_inserted by done. by eexists.
Qed.

(** ** Running them *)
Section Runs.
Context {W : Type} (timer : W -> Timer) (set_timer : Timer -> W -> W) (call : F -> Z -> M W unit).
Context (timer_set : forall t w, timer (set_timer t w) = t).

(** A turn of the timer runs exactly the callbacks that are due, each once
    and in order, in the state without them, and then forgets them; a turn
    within the interval of the last one does nothing. *)
Theorem OnTimer_runs c w w' : timer_ok (timer w) -> exeute_list_ (timer w) = [] ->
  OnTimer timer set_timer call c w = Ret (tt, w') ->
  if c >? timer_last_check_ (timer w) + timer_interval_ (timer w) then
    exists w1, run_all call (map snd (filter (due_by c) (time_ele_ (timer w))))
                 (set_timer (CheckExpire c (timer w)) w) = Ret (tt, w1) /\
      time_ele_ (timer w') = time_ele_ (timer w1) /\ exeute_list_ (timer w') = [] /\ timer_last_check_ (timer w') = c
  else w' = w.
Proof.
  intros Hok He E. unfold OnTimer in E. apply bind_inv in E as (w0 & ? & [= <- <-] & E).
  apply bind_inv in E as (limit & ? & E1 & E). apply obind_Ret in E1 as (l & E1 & [= <- <-]).
  unfold s64 in E1. destruct (in_s64 _); [|done]. injection E1 as <-.
  destruct (c >? _); [|by injection E as ->].
  apply bind_inv in E as (? & ? & [= <- <-] & E). apply bind_inv in E as (w0 & ? & [= <- <-] & E).
  apply bind_inv in E as ([] & w1 & E2 & E). injection E as <-.
  rewrite timer_set in E2. unfold CheckExpire in E2 at 1. rewrite take_due_spec in E2 by apply Hok.
  cbn [exeute_list_] in E2. rewrite He in E2. exists w1. split; [exact E2|]. by rewrite timer_set.
Qed.
End Runs.
End Timer.

(** ** A timer whose callbacks write their data to a list *)
Definition logging_world : Type := Timer (F := unit) * list Z.
Definition log_call (_ : unit) (data : Z) : M logging_world unit := modify (fun w => (w.1, w.2 ++ [data])).
Definition three_timers : Timer (F := unit) :=
  mkTimer [(10, mkElement 2 7 10 tt); (20, mkElement 1 8 20 tt); (30, mkElement 3 9 30 tt)] [] 4 0 0.
Lemma three_timers_ok : timer_ok three_timers.
Proof.
  split; cbn; [repeat constructor; cbn; lia|repeat constructor|apply (bool_decide_unpack _); done|repeat constructor; cbn; lia].
Qed.

Lemma CheckExpire_due_witness : map data_ (exeute_list_ (CheckExpire 20 three_timers)) = [7; 8] /\ timer_ok (CheckExpire 20 three_timers).
Proof.
  destruct (CheckExpire_due 20 three_timers three_timers_ok) as (E & _ & _ & Hok). rewrite E. split; [reflexivity|exact Hok].
Defined.
Lemma AddTimer_DelTimer_witness : exists t', AddTimer 5 10 0 tt three_timers = Ret (4, t') /\ GetExpireTime 4 t' = 15.
Proof.
  eexists. split; [reflexivity|].
  refine (proj1 (proj2 (proj2 (AddTimer_DelTimer 5 10 0 tt three_timers 4 _ three_timers_ok _ eq_refl)))). reflexivity.
Defined.
Lemma OnTimer_runs_witness : exists w' : logging_world,
  OnTimer fst (fun t w => (t, w.2)) log_call 20 (three_timers, []) = Ret (tt, w') /\ w'.2 = [7; 8] /\ exeute_list_ w'.1 = [].
Proof.
  eexists. split; [vm_compute; reflexivity|]. split; [reflexivity|].
  destruct (OnTimer_runs fst (fun t w => (t, w.2)) log_call (fun _ _ => eq_refl) 20 (three_timers, []) _
    three_timers_ok eq_refl ltac:(vm_compute; reflexivity)) as (w1 & _ & _ & E & _). exact E.
Defined.
