(* ===== verification/Platform.v ===== *)
(** What the agent runs on: the libraries outside the repository, as classes
    whose members are parameters of every definition that uses them, and the
    state shared by all components ([sys]: how many readings of the outside
    world have been made, the clock's offset, the database and the requests
    sent so far). *)

From S2P Require Import Prelude Strings Ordered Database General.

(** ** The libraries *)

(** [clock_gettime] (seconds, nanoseconds) and [gettimeofday] (seconds,
    microseconds), at the [n]-th reading of the outside world. *)
Class Clock := {
  clock_monotonic : nat -> Z * Z;
  time_of_day : nat -> Z * Z
}.

(** cpp-httplib: the error code (0 is [Success]) and the response body, whose
    access when there is none is a null dereference.  A default-constructed
    result has whatever the library puts there. *)
Record http_result := mkHttpResult { http_error : Z; http_body : option string }.
Class Http := {
  http_default : http_result;
  http_valid : string -> bool;
  http_get : nat -> string -> string -> http_result;
  http_post : nat -> string -> string -> string -> string -> http_result
}.
Definition http_value (r : http_result) : outcome string :=
  match http_body r with Some b => Ret b | None => Undef NullDeref end.

(** JsonCpp.  Values that come from the network are abstract: lookups and
    conversions may throw.  Documents the agent builds are [jdoc]s. *)
Inductive jdoc : Type :=
| JString (s : string)
| JInt (z : Z)
| JObject (members : list (string * jdoc))
| JArray (items : list jdoc).
Class Json := {
  jvalue : Type;
  fromString : string -> option jvalue;
  jget : jvalue -> string -> outcome jvalue;
  jindex : jvalue -> Z -> outcome jvalue;
  isMember : jvalue -> string -> outcome bool;
  isArray : jvalue -> bool;
  isNull : jvalue -> bool;
  jitems : jvalue -> list jvalue;
  asInt : jvalue -> outcome Z;
  asUInt : jvalue -> outcome Z;
  asInt64 : jvalue -> outcome Z;
  asString : jvalue -> outcome string;
  toStyledString : jdoc -> string
}.

(** Protocol buffers.  Parsing returns its success and the message, which is
    partly filled when it fails. *)
Class Protobuf := {
  parse_CrossTxInfo : string -> bool * CrossTxInfo;
  serialize_CrossTxInfo : CrossTxInfo -> string;
  parse_TlogSubscribeResponse : string -> bool * TlogSubscribeResponse;
  parse_ManagerContractTlog : list Z -> bool * ManagerContractTlog;
  serialize_Transaction : Transaction -> list Z
}.

(** The messages on the websockets; what cannot be parsed is left partly
    filled. *)
Class WsCodec := {
  parse_WsMessage : string -> bool * WsMessage;
  serialize_WsMessage : WsMessage -> string
}.

(** The documented round trip: integers within the widths of their fields, and
    strings the wire format can hold ([text_ok], valid UTF-8). *)
Definition in_range (m : CrossTxInfo) : Prop :=
  Forall (fun z => - 2 ^ 63 <= z < 2 ^ 63)
    [amount m; createtimestamp m; executetimestamp m; timeout m; confirmseq m] /\
  Forall (fun z => - 2 ^ 31 <= z < 2 ^ 31) [status m; refunded m].
Definition texts (m : CrossTxInfo) : list string :=
  [crosstxid m; srcbid m; destbid m; errordesc m; sendtxhash m; sendacktol1hash m; sendacktol2hash m].
Class ProtobufLaws `{Protobuf} := {
  text_ok : string -> Prop;
  text_ok_empty : text_ok "";
  parse_serialize : forall m, in_range m -> Forall text_ok (texts m) ->
    parse_CrossTxInfo (serialize_CrossTxInfo m) = (true, m);
  serialize_bytes : forall t, bytes_ok (serialize_Transaction t)
}.
Definition encodable `{ProtobufLaws} (m : CrossTxInfo) : Prop := in_range m /\ Forall text_ok (texts m).

(** The agent's account key ([src/common/private_key]), as the components
    that sign see it: an encoded private key gives the encoded public key, the
    signature of a blob, its validity and the address of the account; a stored
    key may first be decrypted. *)
Class AgentKey := {
  key_public : string -> outcome string;
  key_sign : string -> list Z -> outcome (list Z);
  key_valid : string -> outcome bool;
  key_address : string -> outcome string;
  HexDecrypto : string -> string -> outcome string
}.

(** ** Shared state *)
Section Platform.
Context `{RocksDb} `{Clock} `{Http}.

Record sys := mkSys {
  s_tick : nat;
  s_uprefertime : Z;
  s_db : Database;
  s_sent : list (string * string * string)
}.

(** The number of the next reading. *)
Definition tick : M sys nat :=
  fun w => Ret (s_tick w, mkSys (S (s_tick w)) (s_uprefertime w) (s_db w) (s_sent w)).

Definition on_database {A} (m : M Database A) : M sys A :=
  zoom s_db (fun d w => mkSys (s_tick w) (s_uprefertime w) d (s_sent w)) m.

(** Records a request: URL, path and body. *)
Definition record_sent (url path body : string) : M sys unit :=
  modify (fun w => mkSys (s_tick w) (s_uprefertime w) (s_db w) ((url, path, body) :: s_sent w)).

(** ** [utils::Timestamp] (timestamp.cpp) *)
Definition MICRO_UNITS_PER_SEC : Z := 1000000.
Definition NANO_UNITS_PER_MICRO : Z := 1000.
Definition SECOND_UNITS_PER_MINUTE : Z := 60.
Definition kMicroSecondsPerSecond : Z := 1000 * 1000.

Definition Timestamp_Now : M sys Z :=
  let! n := tick in
  let '(tv_sec, tv_usec) := time_of_day n in
  ret (tv_sec * kMicroSecondsPerSecond + tv_usec).

(** The monotonic clock, shifted once to the time of day of the first call. *)
Definition HighResolution : M sys Z :=
  let! n := tick in
  let '(tv_sec, tv_nsec) := clock_monotonic n in
  let uptime := tv_sec * MICRO_UNITS_PER_SEC + Z.quot tv_nsec NANO_UNITS_PER_MICRO in
  let! w := get in
  do! (if s_uprefertime w =? 0
       then let! now := Timestamp_Now in
            modify (fun w => mkSys (s_tick w) (now - uptime) (s_db w) (s_sent w))
       else ret tt) in
  let! w := get in
  ret (uptime + s_uprefertime w).

(** Only the database operations touch the database. *)
Lemma tick_keeps_db : keeps s_db tick.
Proof. intros w a w' E. by injection E as _ <-. Qed.
Lemma record_sent_keeps_db url path body : keeps s_db (record_sent url path body).
Proof. unfold record_sent. solve_keeps. Qed.
#[local] Hint Resolve tick_keeps_db : keeps.
Lemma HighResolution_keeps_db : keeps s_db HighResolution.
Proof. unfold HighResolution, Timestamp_Now. solve_keeps. Qed.

End Platform.
#[export] Hint Resolve tick_keeps_db record_sent_keeps_db HighResolution_keeps_db : keeps.

(** ** [utils::String::Format]

    The text a format produces, with the buffer's limits: up to 128 buffers of
    1 MB are tried, and longer text gives the empty string. *)
Definition kMaxStringLen : Z := 1024 * 1024.
Fixpoint Format_loop (fuel : nat) (nTimes : Z) (text : string) : string :=
  match fuel with
  | O => ""%string
  | S f =>
      if nTimes <? 256 then
        if Z.of_nat (String.length text) <? kMaxStringLen * nTimes then text
        else Format_loop f (nTimes * 2) text
      else ""%string
  end.
Definition Format (text : string) : string := Format_loop 9 1 text.

Definition dec_string (n : Z) : string := of_bytes (ToString n).

Lemma Format_short text : Z.of_nat (String.length text) < 2 ^ 20 -> Format text = text.
Proof.
  intros Hl. unfold Format. cbn [Format_loop]. unfold kMaxStringLen.
  by replace (Z.of_nat (String.length text) <? 1024 * 1024 * 1) with true by lia.
Qed.

(** Only text that fits the largest buffer survives. *)
Lemma Format_spec text :
  Format text = if Z.of_nat (String.length text) <? 2 ^ 27 then text else ""%string.
Proof.
  unfold Format, kMaxStringLen. set (n := Z.of_nat (String.length text)).
  cbn [Format_loop]. change (Z.of_nat (String.length text)) with n.
  repeat match goal with |- context [?a <? 256] => let r := eval vm_compute in (a <? 256) in change (a <? 256) with r end.
  cbn iota. unfold kMaxStringLen.
  repeat match goal with |- context [n <? ?b] => destruct (Z.ltb_spec n b); try done; try lia end.
Qed.
