(* ===== verification/Keys.v ===== *)
(** The agent's account: [KeypairUtils], [PublicKeyV4], [PrivateKeyV4] and the
    wrappers [PublicKey] and [PrivateKey] (src/common/private_key.cpp), on the
    base 58, hash, SM2 and AES components.

    Ed25519, SHA-256 and the random numbers are the class [KeyPrimitives].  The
    wrappers' virtual calls all go to the one implementation, and are modelled
    as that implementation. *)

From S2P Require Import Prelude Strings Hex Base58 Sm3 Sm2 Aes Ordered Database General Platform.

Class KeyPrimitives := {
  ed25519_publickey : list Z -> list Z;
  ed25519_sign : list Z -> list Z -> list Z -> list Z;       (* message, secret, public *)
  ed25519_sign_open : list Z -> list Z -> list Z -> Z;       (* message, public, signature *)
  Sha256_Crypto : list Z -> list Z;
  sm2_draws : list Z -> list Z -> list (option Z)            (* what is drawn for a key and a message *)
}.
Class KeyLaws `{KeyPrimitives} := {
  publickey_size : forall sk, length (ed25519_publickey sk) = 32%nat /\ bytes_ok (ed25519_publickey sk);
  sign_size : forall m sk pk, length (ed25519_sign m sk pk) = 64%nat /\ bytes_ok (ed25519_sign m sk pk);
  sign_open_ok : forall m sk, length sk = 32%nat ->
    ed25519_sign_open m (ed25519_publickey sk) (ed25519_sign m sk (ed25519_publickey sk)) = 0;
  sha256_size : forall x, length (Sha256_Crypto x) = 32%nat /\ bytes_ok (Sha256_Crypto x)
}.

(** The enumerations of private_key.h, by value. *)
Definition SIGNTYPE_NONE : Z := 0.
Definition SIGNTYPE_ED25519 : Z := 101.
Definition SIGNTYPE_CFCASM2 : Z := 122.
Definition SIGNTYPE_RSA : Z := 3.
Definition SIGNTYPE_CFCA : Z := 4.
Definition ENCODETYPE_BASE58 : Z := 102.
Definition KEY_ADDRESS : Z := 160.
Definition KEY_PUBLICKEY : Z := 176.
Definition KEY_PRIVATEKEY : Z := 192.
Definition ED25519_ADDRESS_LENGTH : nat := 22.

(** ** [KeypairUtils] *)

(** [substr] to the end. *)
Definition substr_from (s : list Z) (pos : nat) : outcome (list Z) := substr s pos (length s).
(** [at]: past the end it throws. *)
Definition at_ (s : list Z) (i : nat) : outcome Z := match s !! i with Some c => Ret c | None => Throw end.

Definition EncodePublicKey (key : list Z) : string := of_bytes (BinToHexString key).
Definition DecodePublicKey (key : string) : list Z := HexStringToBin (to_bytes key) false.
Definition EncodePrivateKey (key : list Z) : string := of_bytes (Base58_Encode key).
Definition DecodePrivateKey (key : string) : outcome (list Z) := Base58_Decode (to_bytes key).

Definition GetSignTypeDesc (type : Z) : string :=
  if type =? SIGNTYPE_CFCA then "cfca"
  else if type =? SIGNTYPE_CFCASM2 then "sm2"
  else if type =? SIGNTYPE_RSA then "rsa"
  else if type =? SIGNTYPE_ED25519 then "ed25519"
  else "".
Definition GetSignTypeByDesc (desc : string) : Z :=
  if String.eqb desc "sm2" then SIGNTYPE_CFCASM2
  else if String.eqb desc "rsa" then SIGNTYPE_RSA
  else if String.eqb desc "ed25519" then SIGNTYPE_ED25519
  else SIGNTYPE_NONE.

(** The output parameters of the two parsers; what a parser does not reach
    keeps the value the caller gave it. *)
Record key_element := mkElement {
  e_key_type : option Z;
  e_sign_type : Z;
  e_encode_type : option Z;
  e_raw : list Z
}.

(** The length test of the sign type is overwritten by the next line. *)
Definition GetPublicKeyElement (encode_pub_key : string) (e : key_element) : bool * key_element :=
  match DecodePublicKey encode_pub_key with
  | a :: b :: c :: data =>
      if negb (a =? 176) then (false, e)
      else
        let ret := c =? ENCODETYPE_BASE58 in
        (ret, if ret then mkElement (Some KEY_PUBLICKEY) b (Some c) data
              else mkElement (e_key_type e) b (Some c) (e_raw e))
  | _ => (false, e)
  end.

(** Tables of addresses already computed. *)
Notation address_cache := (gmap (list Z) string).

Section Keys.
Context `{KeyPrimitives} `{EcGroup} `{AesModes}.
Context (prefix : AddressPrefix).

Definition CalcHash (value : list Z) (sign_type : Z) : outcome (list Z) :=
  if sign_type =? SIGNTYPE_CFCASM2 then hash value else Ret (Sha256_Crypto value).

Definition EncodeAddress (stype etype : Z) (address : list Z) : string :=
  AddressPrefix_Encode prefix (of_bytes (wrap 8 stype :: wrap 8 etype :: Base58_Encode address)).
Definition DecodeAddress (address : string) : outcome (list Z) :=
  if (String.length address <? 2)%nat then Ret []
  else let? tail := substr_from (to_bytes (AddressPrefix_Decode address)) 2 in Base58_Decode tail.
Definition GetAddressIndex (address : string) : outcome (list Z) :=
  let tmp := to_bytes (AddressPrefix_Decode address) in
  if (length tmp <? 2)%nat then Ret []
  else let? tail := Base58_Decode (drop 2 tmp) in Ret (take 2 tmp ++ tail).

(** Addresses and private keys, told apart by their first characters. *)
Definition GetKeyElement (encode_key : string) (e : key_element) : outcome (bool * key_element) :=
  if starts_with encode_key (address_prefix_ prefix) then
    let base58addr := AddressPrefix_Decode encode_key in
    let? buff := DecodeAddress base58addr in
    if negb (Nat.eqb (length buff) ED25519_ADDRESS_LENGTH) then Ret (false, e)
    else
      let? a := at_ (to_bytes base58addr) 0 in
      let? b := at_ (to_bytes base58addr) 1 in
      Ret (b =? ENCODETYPE_BASE58, mkElement (Some KEY_ADDRESS) a (Some b) (drop 2 buff))
  else if starts_with encode_key "pri" then
    let? buff := Base58_Decode (to_bytes encode_key) in
    if negb (Nat.eqb (length buff) 37) then Ret (false, e)
    else
      let? a := at_ buff 3 in
      let? b := at_ buff 4 in
      Ret (b =? ENCODETYPE_BASE58, mkElement (Some KEY_PRIVATEKEY) a (Some b) (drop 5 buff))
  else Ret (false, e).

(** ** [PublicKeyV4] *)
Record PublicKeyV4 := mkPublic {
  pub_valid : bool;
  pub_type : Z;
  pub_encode_type : option Z;
  raw_pub_key_ : list Z;
  raw_address_ : list Z
}.
Definition PublicKeyV4_new (valid : bool) (type : Z) : PublicKeyV4 := mkPublic valid type None [] [].
Definition PublicKeyV4_Init (type : Z) (rawpkey : list Z) (k : PublicKeyV4) : outcome PublicKeyV4 :=
  let? h := CalcHash rawpkey type in
  let? a := substr_from h 10 in
  Ret (mkPublic (pub_valid k) type (pub_encode_type k) rawpkey a).
Definition PublicKeyV4_of (encode_pub_key : string) : outcome PublicKeyV4 :=
  let '(ok, e) := GetPublicKeyElement encode_pub_key (mkElement None SIGNTYPE_ED25519 None []) in
  let valid := ok && match e_key_type e with Some t => t =? KEY_PUBLICKEY | None => false end in
  let? h := CalcHash (e_raw e) (e_sign_type e) in
  let? a := substr_from h 10 in
  Ret (mkPublic valid (e_sign_type e) (e_encode_type e) (e_raw e) a).

(** The address of a raw public key. *)
Definition enc_address (type : Z) (raw : list Z) : outcome string :=
  let? h := CalcHash raw type in
  let? a := substr_from h 10 in
  Ret (EncodeAddress type ENCODETYPE_BASE58 a).

(** [g_pub_to_address]: addresses already computed, by raw public key. *)
Definition GetEncAddress (k : PublicKeyV4) (g_pub_to_address : address_cache) : outcome (string * address_cache) :=
  match g_pub_to_address !! raw_pub_key_ k with
  | Some a => Ret (a, g_pub_to_address)
  | None =>
      let? a := enc_address (pub_type k) (raw_pub_key_ k) in
      Ret (a, <[raw_pub_key_ k := a]> g_pub_to_address)
  end.
Definition GetEncPublicKey (k : PublicKeyV4) : string :=
  EncodePublicKey (176 :: wrap 8 (pub_type k) :: ENCODETYPE_BASE58 :: raw_pub_key_ k).

(** Ed25519 reads 32 bytes of the key, however many there are. *)
Definition read32 (s : list Z) : outcome (list Z) :=
  if (length s <? 32)%nat then Undef OutOfRange else Ret (take 32 s).
Definition signer_id : list Z := to_bytes "1234567812345678".
Definition Verify (data signature : list Z) (encode_public_key : string) : outcome bool :=
  let '(valid, e) := GetPublicKeyElement encode_public_key (mkElement None SIGNTYPE_NONE None []) in
  if negb valid || negb (bool_decide (e_key_type e = Some KEY_PUBLICKEY)) then Ret false
  else if negb (Nat.eqb (length signature) 64) then Ret false
  else if e_sign_type e =? SIGNTYPE_ED25519 then
    let? pk := read32 (e_raw e) in Ret (ed25519_sign_open data pk signature =? 0)
  else if e_sign_type e =? SIGNTYPE_CFCASM2 then
    let? v := verify (e_raw e) signer_id data signature in Ret (v =? 1)
  else Ret false.

(** ** [PrivateKeyV4] *)
Record PrivateKeyV4 := mkPrivate {
  priv_valid : bool;
  priv_type : Z;
  priv_encode_type : option Z;
  raw_priv_key_ : list Z;
  pub_key_ : option PublicKeyV4
}.
Definition PrivateKeyBase_new : PrivateKeyV4 := mkPrivate false SIGNTYPE_ED25519 None [] None.

(** The public half by sign type; an unknown type is logged and has none. *)
Definition public_of (type : Z) (raw_priv : list Z) : outcome (list Z) :=
  if type =? SIGNTYPE_ED25519 then let? sk := read32 raw_priv in Ret (ed25519_publickey sk)
  else if type =? SIGNTYPE_CFCASM2 then Ret (GetPublicKey (From raw_priv EccSm2_new).2)
  else Ret [].
Definition with_public (k : PrivateKeyV4) (raw_pub : list Z) : outcome PrivateKeyV4 :=
  let? p := PublicKeyV4_Init (priv_type k) raw_pub (PublicKeyV4_new true (priv_type k)) in
  Ret (mkPrivate (priv_valid k) (priv_type k) (priv_encode_type k) (raw_priv_key_ k) (Some p)).

Definition PrivateKeyV4_From (encode_private_key : string) (k : PrivateKeyV4) : outcome (bool * PrivateKeyV4) :=
  let? r := GetKeyElement encode_private_key (mkElement None (priv_type k) (priv_encode_type k) (raw_priv_key_ k)) in
  let '(ok, e) := r in
  let k := mkPrivate ok (e_sign_type e) (e_encode_type e) (e_raw e) (pub_key_ k) in
  if negb ok then Ret (false, k)
  else if negb (bool_decide (e_key_type e = Some KEY_PRIVATEKEY)) then
    Ret (false, mkPrivate false (priv_type k) (priv_encode_type k) (raw_priv_key_ k) (pub_key_ k))
  else
    let? raw_pub := public_of (priv_type k) (raw_priv_key_ k) in
    let? k := with_public k raw_pub in
    Ret (true, mkPrivate true (priv_type k) (priv_encode_type k) (raw_priv_key_ k) (pub_key_ k)).
Definition PrivateKeyV4_of (encode_private_key : string) : outcome PrivateKeyV4 :=
  let? r := PrivateKeyV4_From encode_private_key PrivateKeyBase_new in Ret r.2.

Definition PrivateKeyV4_Init (type : Z) (raw_priv_key : list Z) (k : PrivateKeyV4) : outcome PrivateKeyV4 :=
  let? raw_pub := public_of type raw_priv_key in
  with_public (mkPrivate (priv_valid k) type (priv_encode_type k) raw_priv_key (pub_key_ k)) raw_pub.

(** A new key pair; [random] is what [GetStrongRandBytes] gives, if anything. *)
Definition PrivateKeyV4_generate (type : Z) (random : option (list Z)) (draws : list (option Z)) : outcome PrivateKeyV4 :=
  if type =? SIGNTYPE_ED25519 then
    match random with
    | None => Ret (mkPrivate false type None (replicate 32 0) None)
    | Some sk => with_public (mkPrivate true type None sk None) (ed25519_publickey sk)
    end
  else if type =? SIGNTYPE_CFCASM2 then
    let? r := NewRandom draws EccSm2_new in
    with_public (mkPrivate true type None (getSkeyBin r.2) None) (GetPublicKey r.2)
  else with_public (mkPrivate true type None [] None) [].

Definition PrivateKeyV4_Sign (k : PrivateKeyV4) (input : list Z) : outcome (list Z) :=
  if priv_type k =? SIGNTYPE_ED25519 then
    match pub_key_ k with
    | None => Undef NullDeref
    | Some p => let? sk := read32 (raw_priv_key_ k) in
                let? pk := read32 (raw_pub_key_ p) in
                Ret (ed25519_sign input sk pk)
    end
  else if priv_type k =? SIGNTYPE_CFCASM2 then
    Sign (sm2_draws (raw_priv_key_ k) input) (From (raw_priv_key_ k) EccSm2_new).2 signer_id input
  else Ret [].

Definition GetEncPrivateKey (k : PrivateKeyV4) : string :=
  EncodePrivateKey ([24; 158; 153; wrap 8 (priv_type k); ENCODETYPE_BASE58] ++ raw_priv_key_ k).
Definition on_public {A} (k : PrivateKeyV4) (f : PublicKeyV4 -> outcome A) : outcome A :=
  match pub_key_ k with Some p => f p | None => Undef NullDeref end.

(** [PublicKey::EncodeAddress], with its own table of results. *)
Definition PublicKey_EncodeAddress (pre : string) (raw_address : list Z) (g_raw_address_to_encode : address_cache)
  : string * address_cache :=
  if negb (String.eqb pre "ef") && negb (String.eqb pre "zf") then (""%string, g_raw_address_to_encode)
  else
    let key := to_bytes pre ++ raw_address in
    match g_raw_address_to_encode !! key with
    | Some a => (a, g_raw_address_to_encode)
    | None =>
        let encoded :=
          if String.eqb pre "ef" then EncodeAddress SIGNTYPE_ED25519 ENCODETYPE_BASE58 raw_address
          else EncodeAddress SIGNTYPE_CFCASM2 ENCODETYPE_BASE58 raw_address in
        (encoded, <[key := encoded]> g_raw_address_to_encode)
    end.

(** ** The account as the other components use it

    Each use makes the key from its text; the address table is empty then, or
    holds what would be computed (theorem [GetEncAddress_cached]). *)
#[export] Instance agent_key : AgentKey := {|
  key_valid := fun s => let? k := PrivateKeyV4_of s in Ret (priv_valid k);
  key_address := fun s => let? k := PrivateKeyV4_of s in
    on_public k (fun p => let? r := GetEncAddress p ∅ in Ret r.1);
  key_public := fun s => let? k := PrivateKeyV4_of s in on_public k (fun p => Ret (GetEncPublicKey p));
  key_sign := fun s input => let? k := PrivateKeyV4_of s in PrivateKeyV4_Sign k input;
  HexDecrypto := fun input key => let? s := Aes.HexDecrypto (to_bytes input) (to_bytes key) in Ret (of_bytes s)
|}.
End Keys.

(** ** The text of a private key *)

(** The number of a key's bytes: the five in front, and less than one of them. *)
Lemma private_number t raw : length raw = 32%nat -> bytes_ok raw ->
  exists r, 0 <= r < 256 ^ 32 /\
    number 256 ([24; 158; 153; t; ENCODETYPE_BASE58] ++ raw) = r + 256 ^ 32 * (256 * (t + 256 * 1613465) + 102).
Proof.
  intros Hl Hb. exists (number 256 raw).
  pose proof (value_bound 256 ltac:(lia) (rev raw) (digits_ok_rev _ _ Hb)) as Hr. rewrite length_rev, Hl in Hr.
  split; [exact Hr|]. rewrite rev_app_distr, value_app, length_rev, Hl.
  cbn [rev app value]. unfold ENCODETYPE_BASE58. change (Z.of_nat 32) with 32. lia.
Qed.

(** Every key begins with [pri], whatever its type and secret. *)
Lemma private_front t raw : byte_ok t -> length raw = 32%nat -> bytes_ok raw ->
  bytes_ok ([24; 158; 153; t; ENCODETYPE_BASE58] ++ raw) /\
  exists r, Base58_Encode ([24; 158; 153; t; ENCODETYPE_BASE58] ++ raw) = to_bytes "pri" ++ r.
Proof.
  intros Ht Hl Hb. destruct (private_number t raw Hl Hb) as (r & Hr & En).
  assert (bytes_ok ([24; 158; 153; t; ENCODETYPE_BASE58] ++ raw)) as Hs.
  { apply Forall_app. split; [|done]. unfold byte_ok in Ht. repeat (apply Forall_cons; split; [unfold byte_ok, ENCODETYPE_BASE58; lia|]). constructor. }
  split; [done|]. rewrite Base58_Encode_shown.
  destruct (shown_front ([24; 158; 153; t; ENCODETYPE_BASE58] ++ raw) 50 [47; 49; 41] Hs) as (_ & q & Eq).
  - lia.
  - cbn; lia.
  - by apply (bool_decide_unpack _).
  - rewrite En. change (Z.of_nat (50 - 1)) with 49. change (Z.of_nat 50) with 50. unfold byte_ok in Ht. lia.
  - rewrite En. change (Z.of_nat (50 - length [47; 49; 41])) with 47. change (number 58 [47; 49; 41]) with 160991.
    symmetry. apply (Z.div_unique_pos _ _ _ (r + 256 ^ 32 * (256 * (t + 256 * 1613465) + 102) - 160991 * 58 ^ 47));
      [unfold byte_ok in Ht; lia|lia].
  - rewrite Eq. exists (map (nthZ kBase58Dictionary) q). reflexivity.
Qed.

Section KeyFacts.
Context `{KeyLaws} `{EcLaws} `{AesModes}.
Context (prefix : AddressPrefix) (prefix_ok : address_prefix_ prefix = "did:bid:"%string).

Definition secret_ok (t : Z) (raw : list Z) : Prop :=
  (t = SIGNTYPE_ED25519 \/ t = SIGNTYPE_CFCASM2) /\ length raw = 32%nat /\ bytes_ok raw.

Lemma secret_ok_bytes t raw : secret_ok t raw -> byte_ok t /\ length raw = 32%nat /\ bytes_ok raw.
Proof. intros (Ht & Hl & Hb). split; [|done]. destruct Ht as [-> | ->]; unfold byte_ok, SIGNTYPE_ED25519, SIGNTYPE_CFCASM2; lia. Qed.

(** The text of a key is taken for a private key and gives it back. *)
Lemma GetKeyElement_private t raw e : byte_ok t -> length raw = 32%nat -> bytes_ok raw ->
  GetKeyElement prefix (EncodePrivateKey ([24; 158; 153; t; ENCODETYPE_BASE58] ++ raw)) e =
    Ret (true, mkElement (Some KEY_PRIVATEKEY) t (Some ENCODETYPE_BASE58) raw).
Proof.
  intros Ht Hl Hb. destruct (private_front t raw Ht Hl Hb) as (Hs & r & Er).
  unfold GetKeyElement, EncodePrivateKey. rewrite prefix_ok, to_bytes_of_bytes by by apply Base58_Encode_bytes.
  assert (of_bytes (Base58_Encode ([24; 158; 153; t; ENCODETYPE_BASE58] ++ raw)) = ("pri" ++ of_bytes r)%string) as -> by (rewrite Er; reflexivity).
  change (starts_with ("pri" ++ of_bytes r) "did:bid:") with false. rewrite (starts_with_app "pri").
  unfold Base58_Decode.
  rewrite decode_encode by (done || rewrite length_app, Hl; cbn; lia). cbn [obind snd].
  rewrite length_app, Hl. reflexivity.
Qed.

(** The half that is made public. *)
Lemma read32_exact s : length s = 32%nat -> read32 s = Ret s.
Proof. intros E. unfold read32. rewrite E. cbn. by rewrite take_ge by lia. Qed.

Lemma CalcHash_run x t : Z.of_nat (length x) < 2 ^ 31 -> exists h, CalcHash x t = Ret h /\ length h = 32%nat /\ bytes_ok h.
Proof.
  intros Hx. unfold CalcHash. destruct (t =? SIGNTYPE_CFCASM2).
  - exists (sm3_digest x). split; [by apply Sm3_Crypto_digest|apply sm3_digest_size].
  - exists (Sha256_Crypto x). split; [done|apply sha256_size].
Qed.

Lemma public_of_run t raw : secret_ok t raw -> exists pub, public_of t raw = Ret pub /\ bytes_ok pub /\
  (length pub = 32%nat /\ t = SIGNTYPE_ED25519 \/ (length pub = 0%nat \/ length pub = 65%nat) /\ t = SIGNTYPE_CFCASM2).
Proof.
  intros ([-> | ->] & Hl & Hb); unfold public_of; cbn [Z.eqb Pos.eqb SIGNTYPE_ED25519 SIGNTYPE_CFCASM2].
  - rewrite read32_exact by done. cbn [obind]. exists (ed25519_publickey raw). destruct (publickey_size raw). eauto.
  - eexists. split; [reflexivity|]. set (k := (From raw EccSm2_new).2). unfold GetPublicKey.
    destruct (valid_ k) eqn:Ev; cbn [negb]; [|split; [constructor|right; split; [by left|done]]].
    assert (exists x y, get_affine (pkey_ k) = Some (x, y)) as (x & y & Ea).
    { subst k. unfold From in *. destruct (_ =? _); [done|]. destruct (EC_POINT_mul _ None) as [P|]; [|done].
      destruct (get_affine P) as [[x y]|] eqn:E; [|done]. by exists x, y. }
    rewrite Ea. cbn [from_option Datatypes.id]. destruct (affine_range _ _ _ Ea) as [Hx Hy].
    destruct (Bn2FixedString_spec x Hx) as (_ & Lx & Bx), (Bn2FixedString_spec y Hy) as (_ & Ly & By).
    split; [constructor; [split; lia|by apply Forall_app]|]. right. split; [right|done]. cbn [length].
    rewrite length_app. lia.
Qed.

(** The address that belongs to a public key. *)
Lemma enc_address_run t pub : Z.of_nat (length pub) < 2 ^ 31 ->
  exists h, CalcHash pub t = Ret h /\ substr_from h 10 = Ret (drop 10 h) /\
    enc_address prefix t pub = Ret (EncodeAddress prefix t ENCODETYPE_BASE58 (drop 10 h)).
Proof.
  intros Hx. destruct (CalcHash_run pub t Hx) as (h & Eh & Lh & _). exists h. split; [done|].
  assert (substr_from h 10 = Ret (drop 10 h)) as Es.
  { unfold substr_from, substr. rewrite Lh. cbn [Nat.ltb Nat.leb]. by rewrite take_ge by (rewrite length_drop; lia). }
  split; [done|]. unfold enc_address. rewrite Eh. cbn [obind]. by rewrite Es.
Qed.

(** What a key made from its text is. *)
Definition made_from (t : Z) (raw pub : list Z) (k : PrivateKeyV4) : Prop :=
  priv_valid k = true /\ priv_type k = t /\ raw_priv_key_ k = raw /\
  exists p, pub_key_ k = Some p /\ pub_valid p = true /\ pub_type p = t /\ raw_pub_key_ p = pub.
Lemma PrivateKeyV4_of_run t raw : secret_ok t raw -> exists pub k,
  public_of t raw = Ret pub /\
  PrivateKeyV4_of prefix (EncodePrivateKey ([24; 158; 153; t; ENCODETYPE_BASE58] ++ raw)) = Ret k /\ made_from t raw pub k.
Proof.
  intros Hs. destruct (public_of_run t raw Hs) as (pub & Ep & Bp & Lp), (secret_ok_bytes t raw Hs) as (? & ? & ?). exists pub.
  unfold PrivateKeyV4_of, PrivateKeyV4_From. rewrite GetKeyElement_private by done. cbn [obind]. cbn iota zeta.
  cbn [negb e_sign_type e_encode_type e_raw e_key_type priv_type raw_priv_key_ priv_encode_type pub_key_].
  rewrite bool_decide_true by done. cbn [negb]. rewrite Ep. cbn [obind].
  destruct (enc_address_run t pub) as (h & Eh & Es & _); [lia|].
  unfold with_public, PublicKeyV4_Init. cbn [priv_type]. rewrite Eh. cbn [obind]. rewrite Es. cbn [obind snd].
  eexists. split; [done|]. split; [reflexivity|].
  split; [done|]. split; [done|]. split; [done|]. eexists. split; [reflexivity|]. done.
Qed.

Lemma GetEncPrivateKey_text k : secret_ok (priv_type k) (raw_priv_key_ k) ->
  GetEncPrivateKey k = EncodePrivateKey ([24; 158; 153; priv_type k; ENCODETYPE_BASE58] ++ raw_priv_key_ k).
Proof.
  intros Hs. unfold GetEncPrivateKey. rewrite wrap_small; [done|]. apply (secret_ok_bytes _ _ Hs).
Qed.

(** C15. The text of an Ed25519 or SM2 key is accepted, makes a valid key of the
    same type with the same secret and a public half, and is the text of that
    key again. *)
Theorem private_key_roundtrip k0 : secret_ok (priv_type k0) (raw_priv_key_ k0) ->
  exists k, PrivateKeyV4_of prefix (GetEncPrivateKey k0) = Ret k /\
    priv_valid k = true /\ priv_type k = priv_type k0 /\ raw_priv_key_ k = raw_priv_key_ k0 /\
    is_Some (pub_key_ k) /\ GetEncPrivateKey k = GetEncPrivateKey k0.
Proof.
  intros Hs. rewrite (GetEncPrivateKey_text k0 Hs).
  destruct (PrivateKeyV4_of_run _ _ Hs) as (pub & k & _ & E & Hv & Ht & Hr & p & Hp & _). exists k.
  split; [done|]. do 3 (split; [done|]). split; [by exists p|]. rewrite <- Ht, <- Hr in *. by apply GetEncPrivateKey_text.
Qed.

(** The text of a public key is taken apart as it was put together. *)
Lemma GetPublicKeyElement_back p e : byte_ok (pub_type p) -> bytes_ok (raw_pub_key_ p) ->
  GetPublicKeyElement (GetEncPublicKey p) e =
    (true, mkElement (Some KEY_PUBLICKEY) (pub_type p) (Some ENCODETYPE_BASE58) (raw_pub_key_ p)).
Proof.
  intros Ht Hb. unfold GetPublicKeyElement, GetEncPublicKey, DecodePublicKey, EncodePublicKey.
  rewrite wrap_small by exact Ht. set (x := 176 :: _).
  assert (bytes_ok x) as Hx.
  { subst x. repeat (apply Forall_cons; split; [first [exact Ht|unfold byte_ok, ENCODETYPE_BASE58; lia]|]). done. }
  rewrite to_bytes_of_bytes by by apply BinToHexString_bytes. rewrite hex_roundtrip by done. reflexivity.
Qed.

(** The signer's nonces and the loop that ends, for SM2. *)
Definition sm2_signs (raw data : list Z) : Prop :=
  exists k e r s, From raw EccSm2_new = (true, k) /\
    Forall (fun o => match o with Some n => 0 <= n < ec_order | None => True end) (sm2_draws raw data) /\
    message_number signer_id data (pkey_ k) = Ret e /\
    sign_loop (sm2_draws raw data) (dA_ k) e 0 0 = Ret (true, r, s).

Lemma sign_then_verify t raw data : secret_ok t raw -> (t = SIGNTYPE_CFCASM2 -> sm2_signs raw data) ->
  exists k p sig, PrivateKeyV4_of prefix (EncodePrivateKey ([24; 158; 153; t; ENCODETYPE_BASE58] ++ raw)) = Ret k /\
    pub_key_ k = Some p /\ PrivateKeyV4_Sign k data = Ret sig /\ bytes_ok sig /\ Verify data sig (GetEncPublicKey p) = Ret true.
Proof.
  intros Hs Hsm2. destruct (PrivateKeyV4_of_run t raw Hs) as (pub & k & Epub & E & _ & Ht & Hr & p & Hp & _ & Hpt & Hpr).
  destruct (public_of_run t raw Hs) as (pub' & Epub' & Bp & Lp). assert (pub' = pub) as -> by congruence.
  destruct (secret_ok_bytes t raw Hs) as (Hbt & Hl & Hb).
  assert (forall sig, length sig = 64%nat ->
    Verify data sig (GetEncPublicKey p) =
      if t =? SIGNTYPE_ED25519 then let? pk := read32 pub in Ret (ed25519_sign_open data pk sig =? 0)
      else if t =? SIGNTYPE_CFCASM2 then let? v := verify pub signer_id data sig in Ret (v =? 1) else Ret false) as Hv.
  { intros sig Hsig. unfold Verify. rewrite GetPublicKeyElement_back by congruence.
    cbn [e_key_type e_sign_type e_raw negb orb]. rewrite bool_decide_true, Hsig, Hpt, Hpr by done. done. }
  unfold PrivateKeyV4_Sign. exists k, p. rewrite Ht, Hr, Hp. destruct (proj1 Hs) as [-> | ->].
  - exists (ed25519_sign data raw pub). split; [done|]. split; [done|].
    cbn [Z.eqb Pos.eqb SIGNTYPE_ED25519 SIGNTYPE_CFCASM2] in *.
    destruct Lp as [[Lp _]|[_ ?]]; [|done]. rewrite Hpr, !read32_exact by done. split; [done|].
    split; [apply sign_size|]. rewrite Hv by apply sign_size. rewrite read32_exact by done. cbn [obind].
    unfold public_of in Epub. cbn [Z.eqb Pos.eqb SIGNTYPE_ED25519] in Epub. rewrite read32_exact in Epub by done.
    injection Epub as <-. by rewrite sign_open_ok.
  - destruct (Hsm2 eq_refl) as (sk & e & r & s & HF & Hd & He & HL).
    destruct (sign_verifies _ raw sk signer_id data e r s Hd HF He HL) as (sig & Es & Lsig & Bsig & _ & Hver).
    exists sig. split; [done|]. split; [done|].
    cbn [Z.eqb Pos.eqb SIGNTYPE_ED25519 SIGNTYPE_CFCASM2] in *. rewrite HF. cbn [snd]. split; [done|]. split; [done|].
    rewrite Hv by done. unfold public_of in Epub. cbn [Z.eqb Pos.eqb SIGNTYPE_ED25519 SIGNTYPE_CFCASM2] in Epub.
    rewrite HF in Epub. cbn [snd] in Epub. injection Epub as <-. by rewrite Hver.
Qed.

(** C14. What an account signs verifies under its own public key: for Ed25519
    always, for SM2 whenever the drawn numbers let the signing loop end. *)
Theorem Verify_Sign t raw data : secret_ok t raw -> (t = SIGNTYPE_CFCASM2 -> sm2_signs raw data) ->
  exists k p sig, PrivateKeyV4_of prefix (EncodePrivateKey ([24; 158; 153; t; ENCODETYPE_BASE58] ++ raw)) = Ret k /\
    pub_key_ k = Some p /\ PrivateKeyV4_Sign k data = Ret sig /\ Verify data sig (GetEncPublicKey p) = Ret true.
Proof.
  intros Hs Hz. destruct (sign_then_verify t raw data Hs Hz) as (k & p & sig & ? & ? & ? & _ & ?). by exists k, p, sig.
Qed.

(** A key of any other type is accepted too: it is reported valid, though
    it has no public half, and every message's signature is empty. *)
Theorem unknown_type_accepted t raw data : byte_ok t -> t <> SIGNTYPE_ED25519 -> t <> SIGNTYPE_CFCASM2 ->
  length raw = 32%nat -> bytes_ok raw ->
  exists k p, PrivateKeyV4_of prefix (EncodePrivateKey ([24; 158; 153; t; ENCODETYPE_BASE58] ++ raw)) = Ret k /\
    priv_valid k = true /\ pub_key_ k = Some p /\ raw_pub_key_ p = [] /\ PrivateKeyV4_Sign k data = Ret [] /\
    Verify data [] (GetEncPublicKey p) = Ret false.
Proof.
  intros Ht He Hz Hl Hb. unfold PrivateKeyV4_of, PrivateKeyV4_From. rewrite GetKeyElement_private by done. cbn [obind]. cbn iota zeta.
  cbn [negb e_sign_type e_encode_type e_raw e_key_type priv_type raw_priv_key_ priv_encode_type pub_key_].
  rewrite bool_decide_true by done. cbn [negb]. unfold public_of.
  rewrite (proj2 (Z.eqb_neq t _) He), (proj2 (Z.eqb_neq t _) Hz). cbn [obind].
  destruct (enc_address_run t []) as (h & Eh & Es & _); [cbn; lia|].
  unfold with_public, PublicKeyV4_Init. cbn [priv_type]. rewrite Eh. cbn [obind]. rewrite Es. cbn [obind snd].
  eexists _, _. split; [reflexivity|]. do 3 (split; [reflexivity|]). split.
  - unfold PrivateKeyV4_Sign. cbn [priv_type]. by rewrite (proj2 (Z.eqb_neq t _) He), (proj2 (Z.eqb_neq t _) Hz).
  - unfold Verify. rewrite GetPublicKeyElement_back by (done || constructor). reflexivity.
Qed.

(** ** The table of addresses *)

(** A raw key of the length that goes with its type. *)
Definition sized (p : PublicKeyV4) : Prop :=
  length (raw_pub_key_ p) = 32%nat /\ pub_type p = SIGNTYPE_ED25519 \/
  length (raw_pub_key_ p) = 65%nat /\ pub_type p = SIGNTYPE_CFCASM2.
Definition cache_ok (c : address_cache) : Prop :=
  forall p a, sized p -> c !! raw_pub_key_ p = Some a -> enc_address prefix (pub_type p) (raw_pub_key_ p) = Ret a.

(** The table of addresses is invisible: a lookup gives the address that
    would be computed, and leaves a table of which the same is true. *)
Theorem GetEncAddress_cached p c : cache_ok c -> sized p ->
  exists a c', GetEncAddress prefix p c = Ret (a, c') /\ enc_address prefix (pub_type p) (raw_pub_key_ p) = Ret a /\ cache_ok c'.
Proof.
  intros Hc Hp. unfold GetEncAddress. destruct (c !! raw_pub_key_ p) as [a|] eqn:E; [by exists a, c; eauto|].
  destruct (enc_address_run (pub_type p) (raw_pub_key_ p)) as (h & _ & _ & Ea).
  { destruct Hp as [[-> _]|[-> _]]; lia. }
  rewrite Ea. cbn [obind]. eexists _, _. split; [reflexivity|]. split; [done|]. intros q b Hq.
  destruct (decide (raw_pub_key_ q = raw_pub_key_ p)) as [Er|Hn].
  - rewrite Er, lookup_insert_eq. intros [= <-]. rewrite <- Ea. f_equal.
    destruct Hp as [[L1 ->]|[L1 ->]], Hq as [[L2 ->]|[L2 ->]]; congruence.
  - rewrite lookup_insert_ne by done. by apply Hc.
Qed.
End KeyFacts.

(** ** Stand-ins for the primitives *)
Definition fit (n : nat) (x : list Z) : list Z := take n (map (wrap 8) x ++ replicate n 0).
Lemma fit_spec n x : length (fit n x) = n /\ bytes_ok (fit n x).
Proof.
  split; [unfold fit; rewrite length_take, length_app, length_map, length_replicate; lia|].
  apply Forall_take, Forall_app. split; [|apply Forall_replicate; split; lia].
  apply Forall_map, Forall_true. intros b. apply (wrap_range 8). lia.
Qed.
Definition plain_primitives : KeyPrimitives := {|
  ed25519_publickey := fun sk => fit 32 (map Z.succ sk);
  ed25519_sign := fun m _ pk => fit 64 (pk ++ m);
  ed25519_sign_open := fun m pk sig => if bool_decide (sig = fit 64 (pk ++ m)) then 0 else -1;
  Sha256_Crypto := fit 32;
  sm2_draws := fun _ _ => [Some 7; Some 11]
|}.
Lemma plain_laws : @KeyLaws plain_primitives.
Proof.
  split; cbn; intros; try apply fit_spec. by rewrite bool_decide_true.
Qed.
Definition sample_secret : list Z := replicate 31 0 ++ [5].
Definition sample_private (t : Z) : PrivateKeyV4 := mkPrivate true t None sample_secret None.
Lemma sample_secret_ok t : t = SIGNTYPE_ED25519 \/ t = SIGNTYPE_CFCASM2 -> secret_ok t sample_secret.
Proof. intros Ht. split; [done|]. split; [done|]. by apply (bool_decide_unpack _). Qed.
Notation sample_of := (@PrivateKeyV4_of plain_primitives small_group AddressPrefix_new).

Lemma private_key_roundtrip_witness : exists k,
  sample_of (GetEncPrivateKey (sample_private SIGNTYPE_ED25519)) = Ret k /\ priv_valid k = true /\ raw_priv_key_ k = sample_secret.
Proof.
  destruct (@private_key_roundtrip plain_primitives plain_laws small_group small_laws AddressPrefix_new eq_refl
    (sample_private SIGNTYPE_ED25519) (sample_secret_ok SIGNTYPE_ED25519 (or_introl eq_refl))) as (k & E & Hv & _ & Hr & _).
  exists k. split; [exact E|]. split; [exact Hv|exact Hr].
Defined.

Lemma sample_sm2_signs : @sm2_signs plain_primitives small_group sample_secret (to_bytes "hello").
Proof.
  exists (@mkSm2 small_group 5 5 true). eexists _, _, _. split; [reflexivity|].
  split; [cbn; repeat constructor; lia|]. split; vm_compute; reflexivity.
Qed.
Lemma Verify_Sign_witness : exists k p sig,
  sample_of (EncodePrivateKey ([24; 158; 153; SIGNTYPE_CFCASM2; ENCODETYPE_BASE58] ++ sample_secret)) = Ret k /\
  pub_key_ k = Some p /\ @PrivateKeyV4_Sign plain_primitives small_group k (to_bytes "hello") = Ret sig /\
  @Verify plain_primitives small_group (to_bytes "hello") sig (GetEncPublicKey p) = Ret true.
Proof.
  exact (@Verify_Sign plain_primitives plain_laws small_group small_laws AddressPrefix_new eq_refl SIGNTYPE_CFCASM2
    sample_secret (to_bytes "hello") (sample_secret_ok SIGNTYPE_CFCASM2 (or_intror eq_refl)) (fun _ => sample_sm2_signs)).
Defined.

Lemma unknown_type_accepted_witness : exists k,
  sample_of (EncodePrivateKey ([24; 158; 153; 1; ENCODETYPE_BASE58] ++ sample_secret)) = Ret k /\
  priv_valid k = true /\ @PrivateKeyV4_Sign plain_primitives small_group k (to_bytes "hello") = Ret [].
Proof.
  destruct (@unknown_type_accepted plain_primitives plain_laws small_group AddressPrefix_new eq_refl 1 sample_secret
    (to_bytes "hello")) as (k & p & E & Hv & _ & _ & Hs & _);
    [split; lia|discriminate|discriminate|reflexivity|exact (proj2 (proj2 (sample_secret_ok _ (or_introl eq_refl))))|].
  exists k. split; [exact E|]. split; [exact Hv|exact Hs].
Defined.

Lemma GetEncAddress_cached_witness : exists a c',
  @GetEncAddress plain_primitives AddressPrefix_new (mkPublic true SIGNTYPE_ED25519 None (fit 32 []) []) ∅ = Ret (a, c') /\
  @enc_address plain_primitives AddressPrefix_new SIGNTYPE_ED25519 (fit 32 []) = Ret a.
Proof.
  destruct (@GetEncAddress_cached plain_primitives plain_laws AddressPrefix_new
    (mkPublic true SIGNTYPE_ED25519 None (fit 32 []) []) ∅) as (a & c' & E & Ea & _);
    [intros p a Hp E; discriminate E|left; split; reflexivity|].
  exists a, c'. split; [exact E|exact Ea].
Defined.
