(* ===== verification/Digest.v ===== *)
(** The digests behind one interface: [utils::Sha256] (src/utils/crypto.cpp) around
    OpenSSL's SHA-256, which is the class [Sha256Engine], and [HashWrapper]
    (src/common/private_key.cpp), which picks it or SM3. *)

From S2P Require Import Prelude Blocks Sm3 Base58 Keys.

Class Sha256Engine := {
  sha_ctx : Type;
  SHA256_Init : sha_ctx;
  SHA256_Update : sha_ctx -> list Z -> sha_ctx;
  SHA256_Final : sha_ctx -> list Z
}.
(** Feeding in pieces is feeding the whole. *)
Class Sha256Laws `{Sha256Engine} := {
  update_twice : forall c x y, SHA256_Update (SHA256_Update c x) y = SHA256_Update c (x ++ y);
  update_nothing : forall c, SHA256_Final (SHA256_Update c []) = SHA256_Final c;
  final_size : forall c, length (SHA256_Final c) = 32%nat
}.

Section Digest.
Context `{Sha256Engine}.

(** ** [Sha256] *)
Definition Sha256_new : sha_ctx := SHA256_Init.
Definition Sha256_Update (c : sha_ctx) (input : list Z) : sha_ctx := SHA256_Update c input.
Definition Sha256_Final (c : sha_ctx) : list Z := take 32 (SHA256_Final c).
Definition Sha256_digest (input : list Z) : list Z := take 32 (SHA256_Final (SHA256_Update SHA256_Init input)).
Definition Sha256_CryptoBase58 (input : list Z) : list Z := Base58_Encode (Sha256_digest input).
Definition Sm3_CryptoBase58 (memory : sm3_context) (input : list Z) : outcome (list Z) :=
  let? d := Sm3_Crypto memory input in Ret (Base58_Encode d).

(** ** [HashWrapper] *)
Definition HASH_TYPE_SHA256 : Z := 0.
Definition HASH_TYPE_SM3 : Z := 1.
(** The object a base pointer stands for. *)
Inductive Hash := OfSm3 (c : sm3_context) | OfSha256 (c : sha_ctx).
Record HashWrapper := mkHash { hash_type : Z; hash_ : Hash }.
(** Every number but that of SM3 is SHA-256. *)
Definition HashWrapper_of (memory : sm3_context) (type : Z) : HashWrapper :=
  mkHash type (if type =? HASH_TYPE_SM3 then OfSm3 (Sm3_new memory) else OfSha256 Sha256_new).
Definition HashWrapper_new (memory : sm3_context) (ledger_type_ : Z) : HashWrapper := HashWrapper_of memory ledger_type_.
Definition HashWrapper_Update (h : HashWrapper) (input : list Z) : outcome HashWrapper :=
  match hash_ h with
  | OfSm3 c => let? c := Sm3_Update c input in Ret (mkHash (hash_type h) (OfSm3 c))
  | OfSha256 c => Ret (mkHash (hash_type h) (OfSha256 (Sha256_Update c input)))
  end.
Definition HashWrapper_Final (h : HashWrapper) : outcome (list Z * HashWrapper) :=
  match hash_ h with
  | OfSm3 c => let? r := Sm3_Final c in Ret (r.1, mkHash (hash_type h) (OfSm3 r.2))
  | OfSha256 c => Ret (Sha256_Final c, h)
  end.
(** The static member is a variable of the program. *)
Definition SetLedgerHashType (type_ : Z) : M Z unit := modify (fun _ => type_).
Definition GetLedgerHashType : M Z Z := get.
Definition HashWrapper_Crypto (memory : sm3_context) (ledger_type_ : Z) (input : list Z) : outcome (list Z) :=
  if ledger_type_ =? HASH_TYPE_SM3 then Sm3_Crypto memory input else Ret (Sha256_digest input).

(** What a type's digest of a text is. *)
Definition digest_of (type : Z) (input : list Z) : list Z :=
  if type =? HASH_TYPE_SM3 then sm3_digest input else Sha256_digest input.

Context `{!Sha256Laws}.

(** An object that has taken in [m]. *)
Definition holds (h : HashWrapper) (m : list Z) : Prop :=
  match hash_ h with
  | OfSm3 c => hash_type h = HASH_TYPE_SM3 /\ absorbed c m
  | OfSha256 c => hash_type h <> HASH_TYPE_SM3 /\ SHA256_Final c = SHA256_Final (SHA256_Update SHA256_Init m) /\
      forall x, x <> [] -> SHA256_Update c x = SHA256_Update SHA256_Init (m ++ x)
  end.
Lemma HashWrapper_of_holds memory type : context_ok memory -> holds (HashWrapper_of memory type) [].
Proof.
  intros Hm. unfold holds, HashWrapper_of. cbn [hash_ hash_type]. destruct (Z.eqb_spec type HASH_TYPE_SM3) as [->|Hn].
  - split; [done|by apply starts_absorbed].
  - split; [done|]. unfold Sha256_new. by rewrite update_nothing.
Qed.
Lemma Update_holds h m x : holds h m -> Z.of_nat (length x) < 2 ^ 31 ->
  exists h', HashWrapper_Update h x = Ret h' /\ holds h' (m ++ x) /\ hash_type h' = hash_type h.
Proof.
  intros Hh Hl. unfold holds, HashWrapper_Update in *. destruct (hash_ h) as [c|c].
  - destruct Hh as [Ht Hc]. destruct (Update_absorbed c m x Hc Hl) as (c' & -> & Hc' & _). cbn [obind]. eexists. by split.
  - destruct Hh as (Ht & Ef & Eu). eexists. split; [reflexivity|]. cbn [hash_ hash_type]. split; [|done]. split; [done|].
    unfold Sha256_Update. destruct x as [|a x].
    + rewrite app_nil_r. split; [by rewrite update_nothing|]. intros y Hy. by rewrite update_twice, Eu.
    + split; [by rewrite Eu|]. intros y Hy. rewrite update_twice, Eu by done. by rewrite app_assoc.
Qed.
Lemma Final_holds h m : holds h m -> exists h', HashWrapper_Final h = Ret (digest_of (hash_type h) m, h').
Proof.
  intros Hh. unfold holds, HashWrapper_Final, digest_of in *. destruct (hash_ h) as [c|c].
  - destruct Hh as [-> Hc]. destruct (finish_digest c m Hc) as (c' & E & _). unfold Sm3_Final. rewrite E. cbn [obind fst snd].
    rewrite Z.eqb_refl. by eexists.
  - destruct Hh as (Ht & Ef & _). rewrite (proj2 (Z.eqb_neq _ _) Ht). unfold Sha256_Final, Sha256_digest. rewrite Ef. by eexists.
Qed.
(** Through the wrapper too the pieces do not matter, and it keeps the kind it was
    made with: it is what the static [Crypto] gives while the setting is the same. *)
Theorem HashWrapper_incremental memory type pieces : context_ok memory ->
  Forall (fun x : list Z => Z.of_nat (length x) < 2 ^ 31) pieces ->
  exists h h', foldl (fun r x => let? h := r in HashWrapper_Update h x) (Ret (HashWrapper_of memory type)) pieces = Ret h /\
    HashWrapper_Final h = Ret (digest_of type (concat pieces), h').
Proof.
  intros Hm Hp. pose proof (HashWrapper_of_holds memory type Hm) as Hh. change (concat pieces) with ([] ++ concat pieces).
  assert (hash_type (HashWrapper_of memory type) = type) as Et by done.
  revert Hh Et. generalize (HashWrapper_of memory type), (@nil Z).
  induction Hp as [|x pieces Hx _ IH]; intros h m Hh Et; cbn [foldl concat].
  - destruct (Final_holds h m Hh) as (h' & E). exists h, h'. rewrite app_nil_r, <- Et. done.
  - cbn [obind]. destruct (Update_holds h m x Hh Hx) as (h1 & -> & H1 & Et1).
    destruct (IH h1 _ H1 ltac:(congruence)) as (h2 & h3 & E2 & E3). exists h2, h3. split; [done|]. by rewrite app_assoc.
Qed.
Lemma HashWrapper_Crypto_digest memory type input : context_ok memory -> Z.of_nat (length input) < 2 ^ 31 ->
  HashWrapper_Crypto memory type input = Ret (digest_of type input).
Proof.
  intros Hm Hl. unfold HashWrapper_Crypto, digest_of. destruct (type =? HASH_TYPE_SM3); [by apply Sm3_Crypto_digest|done].
Qed.
(** Thirty-two bytes, whichever it is. *)
Lemma digest_of_size type input : length (digest_of type input) = 32%nat.
Proof.
  unfold digest_of. destruct (type =? HASH_TYPE_SM3); [apply sm3_digest_size|].
  unfold Sha256_digest. rewrite length_take, final_size. done.
Qed.
End Digest.

(** ** An engine that keeps what it is fed *)
#[export] Instance keeping_engine : Sha256Engine := {|
  sha_ctx := list Z;
  SHA256_Init := [];
  SHA256_Update := app;
  SHA256_Final := fit 32
|}.
#[export] Instance keeping_laws : Sha256Laws.
Proof.
  split; intros; cbn.
  - by rewrite app_assoc.
  - by rewrite app_nil_r.
  - apply fit_spec.
Qed.
Lemma HashWrapper_incremental_witness : exists h h',
  foldl (fun r x => let? h := r in HashWrapper_Update h x) (Ret (HashWrapper_of blank 7)) [to_bytes "a"; []; to_bytes "bc"] = Ret h /\
  HashWrapper_Final h = Ret (fit 32 (to_bytes "abc"), h').
Proof.
  destruct (HashWrapper_incremental blank 7 [to_bytes "a"; []; to_bytes "bc"]) as (h & h' & E1 & E2); [reflexivity| |].
  - repeat constructor; vm_compute; reflexivity.
  - exists h, h'. split; [exact E1|]. rewrite E2. reflexivity.
Defined.
