(* ===== verification/Concrete.v ===== *)
(** Small concrete libraries, at which the hypotheses of the theorems that are
    stated for every library are checked to hold: JSON trees with a table of
    texts, a wire format for [CrossTxInfo], a fixed clock, a scripted HTTP
    server and a toy account key.  No theorem about the agent depends on them. *)

From stdpp Require Import countable.
From S2P Require Import Prelude Strings Ordered Database General Platform.

(** ** JSON trees *)
Inductive tree : Type :=
| TNull
| TBool (b : bool)
| TInt (z : Z)
| TStr (s : string)
| TArr (l : list tree)
| TObj (l : list (string * tree)).

Fixpoint assoc {A} (l : list (string * A)) (k : string) : option A :=
  match l with
  | [] => None
  | (k', a) :: r => if String.eqb k' k then Some a else assoc r k
  end.

Definition tree_get (t : tree) (k : string) : outcome tree :=
  match t with
  | TObj l => Ret (default TNull (assoc l k))
  | TNull => Ret TNull
  | _ => Throw
  end.
Definition tree_index (t : tree) (i : Z) : outcome tree :=
  match t with
  | TArr l => Ret (default TNull (l !! Z.to_nat i))
  | TNull => Ret TNull
  | _ => Throw
  end.
Definition tree_isMember (t : tree) (k : string) : outcome bool :=
  match t with
  | TObj l => Ret (match assoc l k with Some _ => true | None => false end)
  | TNull => Ret false
  | _ => Throw
  end.
Definition tree_int (w : Z) (t : tree) : outcome Z :=
  match t with
  | TInt z => if (- 2 ^ (w - 1) <=? z) && (z <? 2 ^ (w - 1)) then Ret z else Throw
  | TBool b => Ret (if b then 1 else 0)
  | TNull => Ret 0
  | _ => Throw
  end.
Definition tree_string (t : tree) : outcome string :=
  match t with
  | TStr s => Ret s
  | TInt z => Ret (dec_string z)
  | TBool b => Ret (if b then "true" else "false")%string
  | TNull => Ret ""%string
  | _ => Throw
  end.

Definition quote : string := String (ascii_of_byte 34) "".
Fixpoint print_doc (fuel : nat) (d : jdoc) : string :=
  match fuel with
  | O => ""
  | S f =>
      match d with
      | JString s => quote ++ s ++ quote
      | JInt z => dec_string z
      | JObject l => "{" ++ String.concat "," (map (fun kv => quote ++ kv.1 ++ quote ++ ":" ++ print_doc f kv.2) l) ++ "}"
      | JArray l => "[" ++ String.concat "," (map (print_doc f) l) ++ "]"
      end
  end%string.

Definition table_json (texts : list (string * tree)) : Json := {|
  jvalue := tree;
  fromString := assoc texts;
  jget := tree_get;
  jindex := tree_index;
  isMember := tree_isMember;
  isArray := fun t => match t with TArr _ => true | _ => false end;
  isNull := fun t => match t with TNull => true | _ => false end;
  jitems := fun t => match t with TArr l => l | _ => [] end;
  asInt := tree_int 32;
  asUInt := fun t => let? z := tree_int 33 t in if z <? 0 then Throw else Ret z;
  asInt64 := tree_int 64;
  asString := tree_string;
  toStyledString := print_doc 8
|}.

(** ** A wire format *)
#[export] Instance CrossTxInfo_countable : Countable CrossTxInfo.
Proof.
  apply (inj_countable'
    (fun m => (crosstxid m, srcbid m, destbid m, amount m, status m, refunded m, createtimestamp m,
       executetimestamp m, timeout m, errordesc m, confirmseq m, sendtxhash m, sendacktol1hash m,
       sendacktol2hash m))
    (fun '(a, b, c, d, e, f, g, h, i, j, k, l, m, n) => mkCrossTxInfo a b c d e f g h i j k l m n)).
  by intros [].
Defined.

Fixpoint pos_string (p : positive) : string :=
  match p with
  | xH => ""
  | xO p => String "0" (pos_string p)
  | xI p => String "1" (pos_string p)
  end.
Fixpoint string_pos (s : string) : positive :=
  match s with
  | EmptyString => xH
  | String c r => if Ascii.eqb c "1" then xI (string_pos r) else xO (string_pos r)
  end.

Lemma string_pos_pos_string p : string_pos (pos_string p) = p.
Proof. induction p as [p IH|p IH|]; simpl; by rewrite ?IH. Qed.

Definition wire_parse (s : string) : bool * CrossTxInfo :=
  match decode (string_pos s) with Some m => (true, m) | None => (false, CrossTxInfo_default) end.
Definition wire_serialize (m : CrossTxInfo) : string := pos_string (encode m).

Lemma wire_roundtrip m : wire_parse (wire_serialize m) = (true, m).
Proof. unfold wire_parse, wire_serialize. by rewrite string_pos_pos_string, decode_encode. Qed.

Definition wire_Transaction (t : Transaction) : list Z :=
  to_bytes (source_address t ++ dec_string (nonce t) ++
    String.concat ";" (map (fun o => dest_address (pay_coin o) ++ dec_string (pay_amount (pay_coin o))
       ++ pay_input (pay_coin o)) (operations t)) ++ dec_string (max_ledger_seq t))%string.

Definition table_proto (logs : list (string * TlogSubscribeResponse))
    (manager : list (list Z * ManagerContractTlog)) : Protobuf := {|
  parse_CrossTxInfo := wire_parse;
  serialize_CrossTxInfo := wire_serialize;
  parse_TlogSubscribeResponse := fun s =>
    match assoc logs s with Some m => (true, m) | None => (false, mkTlogResponse "" []) end;
  parse_ManagerContractTlog := fun s =>
    match list_find (fun e => e.1 = s) manager with
    | Some (_, e) => (true, e.2)
    | None => (false, mkManagerTlog TOPIC_REGISTERAGENT 0 0)
    end;
  serialize_Transaction := wire_Transaction
|}.

Lemma wire_Transaction_bytes t : bytes_ok (wire_Transaction t).
Proof. apply to_bytes_ok. Qed.

#[export] Instance table_proto_laws logs manager : @ProtobufLaws (table_proto logs manager).
Proof.
  exact (@Build_ProtobufLaws (table_proto logs manager) (fun _ => True) I
           (fun m _ _ => wire_roundtrip m) wire_Transaction_bytes).
Defined.

(** ** Clock, server and key *)
Definition fixed_clock (sec : Z) : Clock := {|
  clock_monotonic := fun _ => (sec, 0);
  time_of_day := fun _ => (sec, 0)
|}.

(** A server that is always reachable and answers by path. *)
Definition script_http (get post : string -> string -> http_result) : Http := {|
  http_default := mkHttpResult 4 None;
  http_valid := fun _ => true;
  http_get := fun _ url path => get url path;
  http_post := fun _ url path _ _ => post url path
|}.

Definition toy_key : AgentKey := {|
  key_public := fun k => Ret ("b0" ++ k)%string;
  key_sign := fun k b => Ret (take 4 b);
  key_valid := fun k => Ret (String.eqb (String.substring 0 3 k) "pri");
  key_address := fun k => Ret ("did:bid:" ++ k)%string;
  HexDecrypto := fun k _ => Ret k
|}.

(** A clock that stands at 1000 s, and messages that carry a log as it is. *)
Definition sample_clock : Clock := fixed_clock 1000.
Definition sample_codec : WsCodec := {|
  parse_WsMessage := fun s => (true, mkWsMessage CHAIN_CONTRACT_LOG true 0 s);
  serialize_WsMessage := ws_data
|}.
