(* ===== verification/Configure.v ===== *)
(** The configuration: [src/main/configure] and [src/common/configure_base].
    The numbers of [Layer1Configure] and [Layer2Configure] have no initial
    value, so they are [option]s here. *)

From S2P Require Import Prelude Strings Ordered Database General Platform Concrete.

Record Layer1Configure := mkLayer1 {
  l1_topics : list string;
  l1_http_endpoint : string;
  l1_ws_endpoint : string;
  l1_cross_contract : string;
  l1_private_key : string;
  l1_manager_contract : string;
  l1_agent_address : string;
  l1_start_tx_topic : string;
  l1_send_tx_topic : string;
  l1_ack_tx_topic : string;
  l1_fee_limit : option Z;
  l1_gas_price : option Z
}.
Record Layer2Configure := mkLayer2 {
  l2_http_endpoint : string;
  l2_ws_endpoint : string;
  l2_cross_contract : string;
  l2_private_key : string;
  l2_agent_address : string;
  l2_start_tx_topic : string;
  l2_send_tx_topic : string;
  l2_ack_tx_topic : string;
  l2_layer2_id : option Z;
  l2_fee_limit : option Z;
  l2_gas_price : option Z
}.
Record WebServerConfigure := mkWebServer { port_ : Z; thread_count_ : Z }.
Record LoggerConfigure := mkLogger {
  log_path : string;
  dest_str_ : string;
  level_str_ : string;
  time_capacity_ : Z;
  size_capacity_ : Z;
  dest_ : Z;
  level_ : Z;
  expire_days_ : Z
}.
Record Configure := mkConfigure {
  logger_configure_ : LoggerConfigure;
  layer1_configure_ : Layer1Configure;
  layer2_configure_ : Layer2Configure;
  webserver_configure_ : WebServerConfigure
}.

Definition Layer1Configure_new : Layer1Configure :=
  mkLayer1 [] "" "" "" "" "" "" "" "" "" None None.
Definition Layer2Configure_new : Layer2Configure :=
  mkLayer2 "" "" "" "" "" "" "" "" None None None.
Definition WebServerConfigure_new : WebServerConfigure := mkWebServer 8080 8.

(** ** Log destinations and levels (logger.h) *)
Definition LOG_DEST_NONE : Z := 0.
Definition LOG_DEST_FILE : Z := 1.
Definition LOG_DEST_OUT : Z := 2.
Definition LOG_DEST_ERR : Z := 4.
Definition LOG_DEST_PERFORMANCE : Z := 8.
Definition LOG_DEST_ALL : Z := 255.
Definition LOG_LEVEL_NONE : Z := 0.
Definition LOG_LEVEL_TRACE : Z := 1.
Definition LOG_LEVEL_DEBUG : Z := 2.
Definition LOG_LEVEL_INFO : Z := 4.
Definition LOG_LEVEL_WARN : Z := 8.
Definition LOG_LEVEL_ERROR : Z := 16.
Definition LOG_LEVEL_FATAL : Z := 32.
Definition LOG_LEVEL_PERFORMANCE : Z := 64.
Definition LOG_LEVEL_ALL : Z := 255.
Definition BYTES_PER_MEGA : Z := 1024 * 1024.

Definition LoggerConfigure_new : LoggerConfigure :=
  mkLogger "" "" "" 30 100 (Z.lor LOG_DEST_OUT LOG_DEST_FILE) LOG_LEVEL_ALL 10.
Definition Configure_new : Configure :=
  mkConfigure LoggerConfigure_new Layer1Configure_new Layer2Configure_new WebServerConfigure_new.

(** One name of the list, upper-cased. *)
Definition dest_item (dest : Z) (item : list Z) : Z :=
  let destitem := of_bytes (ToUpper item) in
  if String.eqb destitem "ALL" then LOG_DEST_ALL
  else if String.eqb destitem "STDOUT" then Z.lor dest LOG_DEST_OUT
  else if String.eqb destitem "STDERR" then Z.lor dest LOG_DEST_ERR
  else if String.eqb destitem "FILE" then Z.lor dest LOG_DEST_FILE
  else if String.eqb destitem "PERFORMANCE" then Z.lor dest LOG_DEST_PERFORMANCE
  else dest.
Definition level_item (level : Z) (item : list Z) : Z :=
  let levelitem := of_bytes (ToUpper item) in
  if String.eqb levelitem "ALL" then LOG_LEVEL_ALL
  else if String.eqb levelitem "TRACE" then Z.lor level LOG_LEVEL_TRACE
  else if String.eqb levelitem "DEBUG" then Z.lor level LOG_LEVEL_DEBUG
  else if String.eqb levelitem "INFO" then Z.lor level LOG_LEVEL_INFO
  else if String.eqb levelitem "WARNING" then Z.lor level LOG_LEVEL_WARN
  else if String.eqb levelitem "ERROR" then Z.lor level LOG_LEVEL_ERROR
  else if String.eqb levelitem "FATAL" then Z.lor level LOG_LEVEL_FATAL
  else if String.eqb levelitem "PERFORMANCE" then Z.lor level LOG_LEVEL_PERFORMANCE
  else level.
Definition parse_dests (s : string) : Z := foldl dest_item LOG_DEST_NONE (Strtok (to_bytes s) 124).
Definition parse_levels (s : string) : Z := foldl level_item LOG_LEVEL_NONE (Strtok (to_bytes s) 124).

(** A signed 32-bit product: out of range is undefined behaviour. *)
Definition s32 (z : Z) : outcome Z :=
  if (- 2 ^ 31 <=? z) && (z <? 2 ^ 31) then Ret z else Undef Overflow.

Definition DEFAULT_START_TOPIC : string :=
  "2b543a7f49dd6ca6d30b8c2491cdce5a52e11bf1169943cd065a4f64b3f50e6b".
Definition DEFAULT_SEND_TOPIC : string :=
  "484087f6a046ffc37d32313f7ef1ad396194834491546b43547d08f91b9ed773".
Definition DEFAULT_ACK_TOPIC : string :=
  "424ebb38adf5561feffc826f8b8e6073045b5665e75cbfee188470bfb6ad6af5".

Section Load.
Context `{Json} `{AgentKey}.

(** ** [ConfigureBase::GetValue]: the member if there is one, else the old value *)
Definition GetValue {A} (conv : jvalue -> outcome A) (object : jvalue) (key : string) (value : A) : outcome A :=
  let? b := isMember object key in
  if b then let? v := jget object key in conv v else Ret value.
Definition GetValue_string := GetValue asString.
Definition GetValue_uint32 := GetValue asUInt.
Definition GetValue_int32 := GetValue asInt.
Definition GetValue_int64 :=
  GetValue (fun v => let? z := asInt64 v in Ret (Some z)).

Definition LoggerConfigure_Load (value : jvalue) (c : LoggerConfigure) : outcome (bool * LoggerConfigure) :=
  let? path := GetValue_string value "path" (log_path c) in
  let? dest_str := GetValue_string value "dest" (dest_str_ c) in
  let? level_str := GetValue_string value "level" (level_str_ c) in
  let? time_capacity := GetValue_int32 value "time_capacity" (time_capacity_ c) in
  let? size_capacity := GetValue asInt64 value "size_capacity" (size_capacity_ c) in
  let? expire_days := GetValue_int32 value "expire_days" (expire_days_ c) in
  let? time_capacity := s32 (time_capacity * (3600 * 24)) in
  let size_capacity := swrap 64 (size_capacity * BYTES_PER_MEGA) in
  Ret (true, mkLogger path dest_str level_str time_capacity size_capacity
               (parse_dests dest_str) (parse_levels level_str) expire_days).

Definition default_topic (topic deflt : string) : string := if String.eqb topic "" then deflt else topic.

(** The topics of the ["cross_topic"] member, when there is one. *)
Definition load_topics (value : jvalue) (start send ack : string) : outcome (string * string * string) :=
  let? b := isMember value "cross_topic" in
  if b then
    let? cross_topic := jget value "cross_topic" in
    let? start := GetValue_string cross_topic "start_tx" start in
    let? send := GetValue_string cross_topic "send_tx" send in
    let? ack := GetValue_string cross_topic "send_ack" ack in
    Ret (start, send, ack)
  else Ret (start, send, ack).

(** [data_secret] is the key [GetDataSecuretKey] returns. *)
Definition data_secret : string := "HCPwz!H1Y3jaJ*|qw8K<eo7>Qih)rPq1".
Definition plain_key (key : string) : outcome string :=
  if negb (String.eqb (String.substring 0 3 key) "pri") then HexDecrypto key data_secret else Ret key.

(** A limit that is raised to [least] when it is below it. *)
Definition at_least (least : Z) (v : option Z) : outcome (option Z) :=
  let? z := read_init v in Ret (Some (if z <? least then least else z)).

Definition Layer1Configure_Load (value : jvalue) (c : Layer1Configure) : outcome (bool * Layer1Configure) :=
  let? http := GetValue_string value "http_endpoint" (l1_http_endpoint c) in
  let? ws := GetValue_string value "ws_endpoint" (l1_ws_endpoint c) in
  let? cross := GetValue_string value "cross_contract" (l1_cross_contract c) in
  let? fee_limit := GetValue_int64 value "fee_limit" (l1_fee_limit c) in
  let? gas_price := GetValue_int64 value "gas_price" (l1_gas_price c) in
  let? key := GetValue_string value "private_key" (l1_private_key c) in
  let? key := plain_key key in
  let? valid := key_valid key in
  if negb valid then
    Ret (false, mkLayer1 (l1_topics c) http ws cross key (l1_manager_contract c) (l1_agent_address c)
                  (l1_start_tx_topic c) (l1_send_tx_topic c) (l1_ack_tx_topic c) fee_limit gas_price)
  else
    let? addr := key_address key in
    let? gas_price := at_least 1 gas_price in
    let? fee_limit := at_least 20000 fee_limit in
    let topics := map of_bytes
      (Strtok (to_bytes "RegisterAgent|FreezeAgent|UnfreezeAgent|StopUsingAgent|Submit") 124) in
    let? ts := load_topics value (l1_start_tx_topic c) (l1_send_tx_topic c) (l1_ack_tx_topic c) in
    let '(start, send, ack) := ts in
    Ret (true, mkLayer1 topics http ws cross key "did:bid:efEnXEGWYjHRw1CzK4KpWTdusnaRokk8" addr
                 (default_topic start DEFAULT_START_TOPIC) (default_topic send DEFAULT_SEND_TOPIC)
                 (default_topic ack DEFAULT_ACK_TOPIC) fee_limit gas_price).

Definition Layer2Configure_Load (value : jvalue) (c : Layer2Configure) : outcome (bool * Layer2Configure) :=
  let? http := GetValue_string value "http_endpoint" (l2_http_endpoint c) in
  let? ws := GetValue_string value "ws_endpoint" (l2_ws_endpoint c) in
  let? cross := GetValue_string value "cross_contract" (l2_cross_contract c) in
  let? layer2_id := GetValue_int64 value "layer2_id" (l2_layer2_id c) in
  let? fee_limit := GetValue_int64 value "fee_limit" (l2_fee_limit c) in
  let? gas_price := GetValue_int64 value "gas_price" (l2_gas_price c) in
  let? key := GetValue_string value "private_key" (l2_private_key c) in
  let? key := plain_key key in
  let? valid := key_valid key in
  if negb valid then
    Ret (false, mkLayer2 http ws cross key (l2_agent_address c)
                  (l2_start_tx_topic c) (l2_send_tx_topic c) (l2_ack_tx_topic c) layer2_id fee_limit gas_price)
  else
    let? addr := key_address key in
    let? gas_price := at_least 1 gas_price in
    let? fee_limit := at_least 20000 fee_limit in
    let? ts := load_topics value (l2_start_tx_topic c) (l2_send_tx_topic c) (l2_ack_tx_topic c) in
    let '(start, send, ack) := ts in
    Ret (true, mkLayer2 http ws cross key addr
                 (default_topic start DEFAULT_START_TOPIC) (default_topic send DEFAULT_SEND_TOPIC)
                 (default_topic ack DEFAULT_ACK_TOPIC) layer2_id fee_limit gas_price).

Definition WebServerConfigure_Load (value : jvalue) (c : WebServerConfigure)
  : outcome (bool * WebServerConfigure) :=
  let? port := GetValue_uint32 value "listen_port" (port_ c) in
  let? threads := GetValue_uint32 value "thread_count" (thread_count_ c) in
  Ret (true, mkWebServer port threads).

(** The four sections must be there; they are loaded in order, and the first
    one that fails stops the load with what was loaded so far. *)
Definition LoadFromJson (values : jvalue) (c : Configure) : outcome (bool * Configure) :=
  let? b1 := isMember values "logger" in
  if negb b1 then Ret (false, c) else
  let? b2 := isMember values "layer1" in
  if negb b2 then Ret (false, c) else
  let? b3 := isMember values "webserver" in
  if negb b3 then Ret (false, c) else
  let? b4 := isMember values "layer2" in
  if negb b4 then Ret (false, c) else
  let? v := jget values "logger" in
  let? r := LoggerConfigure_Load v (logger_configure_ c) in
  let c := mkConfigure r.2 (layer1_configure_ c) (layer2_configure_ c) (webserver_configure_ c) in
  if negb r.1 then Ret (false, c) else
  let? v := jget values "layer1" in
  let? r := Layer1Configure_Load v (layer1_configure_ c) in
  let c := mkConfigure (logger_configure_ c) r.2 (layer2_configure_ c) (webserver_configure_ c) in
  if negb r.1 then Ret (false, c) else
  let? v := jget values "layer2" in
  let? r := Layer2Configure_Load v (layer2_configure_ c) in
  let c := mkConfigure (logger_configure_ c) (layer1_configure_ c) r.2 (webserver_configure_ c) in
  if negb r.1 then Ret (false, c) else
  let? v := jget values "webserver" in
  let? r := WebServerConfigure_Load v (webserver_configure_ c) in
  let c := mkConfigure (logger_configure_ c) (layer1_configure_ c) (layer2_configure_ c) r.2 in
  if negb r.1 then Ret (false, c) else Ret (true, c).

End Load.

(** ** What a successful load guarantees *)
Section LoadFacts.
Context `{Json} `{AgentKey}.

(** The account and the limits a layer needs before the agent can send. *)
Record layer_ready (key addr start send ack : string) (fee gas : option Z) : Prop := mkReady {
  ready_key : key_valid key = Ret true;
  ready_addr : key_address key = Ret addr;
  ready_topics : start <> ""%string /\ send <> ""%string /\ ack <> ""%string;
  ready_fee : exists f, fee = Some f /\ 20000 <= f;
  ready_gas : exists g, gas = Some g /\ 1 <= g
}.

Lemma default_topic_nonempty t d : d <> ""%string -> default_topic t d <> ""%string.
Proof. intros Hd. unfold default_topic. by destruct (String.eqb_spec t ""). Qed.

Lemma at_least_spec least v r : at_least least v = Ret r -> exists z, r = Some z /\ least <= z.
Proof.
  unfold at_least. intros E. obind_inv. injection E as <-. eexists. split; [done|].
  case_match; zify_bool; lia.
Qed.

Lemma Layer1_Load_ready v c0 c : Layer1Configure_Load v c0 = Ret (true, c) ->
  layer_ready (l1_private_key c) (l1_agent_address c) (l1_start_tx_topic c) (l1_send_tx_topic c)
    (l1_ack_tx_topic c) (l1_fee_limit c) (l1_gas_price c).
Proof.
  unfold Layer1Configure_Load. intros E. obind_inv.
  match type of E with (if negb ?b then _ else _) = _ => destruct b; cbn [negb] in E; [|discriminate E] end. obind_inv.
  case_match. case_match. injection E as <-. subst.
  split; cbn; [done|done| |by eapply at_least_spec|by eapply at_least_spec].
  split; [|split]; by apply default_topic_nonempty.
Qed.

Lemma Layer2_Load_ready v c0 c : Layer2Configure_Load v c0 = Ret (true, c) ->
  layer_ready (l2_private_key c) (l2_agent_address c) (l2_start_tx_topic c) (l2_send_tx_topic c)
    (l2_ack_tx_topic c) (l2_fee_limit c) (l2_gas_price c).
Proof.
  unfold Layer2Configure_Load. intros E. obind_inv.
  match type of E with (if negb ?b then _ else _) = _ => destruct b; cbn [negb] in E; [|discriminate E] end. obind_inv.
  case_match. case_match. injection E as <-. subst.
  split; cbn; [done|done| |by eapply at_least_spec|by eapply at_least_spec].
  split; [|split]; by apply default_topic_nonempty.
Qed.


(** A number that is missing from the configuration has no value at all:
    loading a layer with a valid key but no ["gas_price"] or no ["fee_limit"]
    reads an indeterminate integer. *)
Theorem Layer1_Load_missing_limit v http ws cross fee gas key plain addr :
  GetValue_string v "http_endpoint" "" = Ret http ->
  GetValue_string v "ws_endpoint" "" = Ret ws ->
  GetValue_string v "cross_contract" "" = Ret cross ->
  GetValue_int64 v "fee_limit" None = Ret fee ->
  GetValue_int64 v "gas_price" None = Ret gas ->
  GetValue_string v "private_key" "" = Ret key ->
  plain_key key = Ret plain -> key_valid plain = Ret true -> key_address plain = Ret addr ->
  isMember v "gas_price" = Ret false \/ isMember v "fee_limit" = Ret false ->
  Layer1Configure_Load v Layer1Configure_new = Undef Uninitialised.
Proof.
  intros E1 E2 E3 Efee Egas Ekey Hp Hv Ha Hmiss.
  assert (forall k z, GetValue_int64 v k None = Ret z -> isMember v k = Ret false -> z = None) as Gi.
  { intros k z E Hk. unfold GetValue_int64, GetValue in E. rewrite Hk in E. by injection E. }
  unfold Layer1Configure_Load. cbn [l1_http_endpoint l1_ws_endpoint l1_cross_contract l1_private_key
    l1_fee_limit l1_gas_price Layer1Configure_new].
  rewrite E1, E2, E3, Efee, Egas, Ekey. cbn [obind]. rewrite Hp. cbn [obind]. rewrite Hv. cbn [obind negb]. rewrite Ha. cbn [obind].
  unfold at_least, read_init. destruct Hmiss as [Hx|Hx].
  - by rewrite (Gi _ _ Egas Hx).
  - rewrite (Gi _ _ Efee Hx). by destruct gas.
Qed.

End LoadFacts.

(** ** Concrete configurations *)
Definition sample_layer (extra : list (string * tree)) : tree :=
  TObj (("http_endpoint", TStr "http://127.0.0.1:30010") :: ("private_key", TStr "priSPKabc")
        :: ("fee_limit", TInt 10) :: extra)%string.
Definition sample_config (extra : list (string * tree)) : tree :=
  TObj [("logger", TObj [("dest", TStr "FILE|stdout")]); ("layer1", sample_layer extra);
        ("layer2", sample_layer extra); ("webserver", TObj [])]%string.

Definition sample_loaded : Configure :=
  match @LoadFromJson (table_json []) toy_key (sample_config [("gas_price"%string, TInt 0)]) Configure_new with
  | Ret (_, c) => c
  | _ => Configure_new
  end.



Lemma Layer1_Load_missing_limit_witness :
  @Layer1Configure_Load (table_json []) toy_key (sample_layer []) Layer1Configure_new = Undef Uninitialised.
Proof.
  eapply (@Layer1_Load_missing_limit (table_json []) toy_key); try (vm_compute; reflexivity).
  left. vm_compute. reflexivity.
Defined.
