(* ===== verification/Tools.v ===== *)
(** The parts around the programs: the command line and the signals
    (src/common/argument.cpp), the tool that reads the database
    (src/dbtool/main.cpp), and the batch [ConsistentWriteBatch]
    (src/database/consistent_writebatch.cpp). *)

From S2P Require Import Prelude Hex Ordered Database Blocks Sm3 Keys Digest Configure.

(** ** [Argument] *)
Section Argument.
Context `{Sha256Engine}.

Definition usage : list Z := to_bytes ("Usage: agent [OPTIONS]" ++ String (ascii_of_nat 10) "OPTIONS:" ++
  String (ascii_of_nat 10) "  --version                                                     display version information" ++
  String (ascii_of_nat 10) "  --help                                                        display this help" ++
  String (ascii_of_nat 10) "")%string.
(** The two characters that tell which secret a build has. *)
Definition sk_hash (memory : sm3_context) (ledger_type_ : Z) : outcome (list Z) :=
  let? h := HashWrapper_Crypto memory ledger_type_ (to_bytes data_secret) in Ret (take 2 (BinToHexString h)).
(** Whether the program is to end, and what it prints; [argv] has the program's name first. *)
Definition Parse (memory : sm3_context) (ledger_type_ : Z) (argv : list (list Z)) : outcome (bool * list Z) :=
  match argv with
  | _ :: s :: _ =>
      if bool_decide (s = to_bytes "--version") then
        let? h := sk_hash memory ledger_type_ in Ret (true, to_bytes "secure:" ++ h ++ [10])
      else Ret (true, usage)
  | _ => Ret (false, [])
  end.

Context `{!Sha256Laws}.
(** Any argument at all ends the program; the version shows the first byte of the
    secret's digest and nothing else of it. *)
Theorem Parse_ends memory t name s r : context_ok memory ->
  exists out, Parse memory t (name :: s :: r) = Ret (true, out) /\
    (s = to_bytes "--version" -> exists c l, digest_of t (to_bytes data_secret) = c :: l /\
      out = to_bytes "secure:" ++ BinToHexString [c] ++ [10]).
Proof.
  intros Hm. cbn [Parse]. case_bool_decide as E; [|by exists usage].
  unfold sk_hash. rewrite HashWrapper_Crypto_digest; [|done|vm_compute; reflexivity]. cbn [obind].
  eexists. split; [reflexivity|]. intros _. pose proof (digest_of_size t (to_bytes data_secret)) as Hs.
  destruct (digest_of t (to_bytes data_secret)) as [|c l]; [done|]. by exists c, l.
Qed.
End Argument.
Lemma Parse_ends_witness : exists out, Parse blank HASH_TYPE_SM3 [to_bytes "agent"; to_bytes "--version"] = Ret (true, out) /\
  exists c l, sm3_digest (to_bytes data_secret) = c :: l /\ out = to_bytes "secure:" ++ BinToHexString [c] ++ [10].
Proof.
  destruct (Parse_ends blank HASH_TYPE_SM3 (to_bytes "agent") (to_bytes "--version") [] eq_refl) as (out & E & Hv).
  exists out. split; [exact E|]. exact (Hv eq_refl).
Defined.

(** ** Signals *)
Definition SIGHUP : Z := 1.
Definition SIGINT : Z := 2.
Definition SIGQUIT : Z := 3.
Definition SIGFPE : Z := 8.
Definition SIGPIPE : Z := 13.
Definition SIGTERM : Z := 15.
Inductive disposition : Set := SIG_DFL | SIG_IGN | Handler.
#[export] Instance disposition_dec : EqDecision disposition.
Proof. solve_decision. Defined.
(** What a process does about every signal, and [g_enable_]; [ends] are the signals
    whose default is to end the process. *)
Record process := mkProcess { handlers : Z -> disposition; g_enable_ : bool; alive : bool }.
Definition process_new : process := mkProcess (fun _ => SIG_DFL) true true.
Definition signal (n : Z) (d : disposition) (p : process) : process :=
  mkProcess (fun m => if m =? n then d else handlers p m) (g_enable_ p) (alive p).
Definition SignalFunc (p : process) : process := mkProcess (handlers p) false (alive p).
Definition InstallSignal (p : process) : process :=
  signal SIGFPE SIG_IGN (signal SIGPIPE SIG_IGN (signal SIGTERM Handler (signal SIGINT Handler
    (signal SIGQUIT Handler (signal SIGHUP Handler p))))).
Definition deliver (ends : Z -> bool) (p : process) (n : Z) : process :=
  if negb (alive p) then p
  else match handlers p n with
       | Handler => SignalFunc p
       | SIG_IGN => p
       | SIG_DFL => if ends n then mkProcess (handlers p) (g_enable_ p) false else p
       end.
(** The signals the program takes for a wish to end. *)
Definition asks_to_end (n : Z) : bool := existsb (Z.eqb n) [SIGHUP; SIGQUIT; SIGINT; SIGTERM].
Definition survived (n : Z) : bool := asks_to_end n || existsb (Z.eqb n) [SIGPIPE; SIGFPE].

Lemma InstallSignal_handlers p n :
  handlers (InstallSignal p) n = if asks_to_end n then Handler else if survived n then SIG_IGN else handlers p n.
Proof.
  unfold InstallSignal, signal, survived, asks_to_end. cbn [handlers existsb].
  unfold SIGFPE, SIGPIPE, SIGTERM, SIGINT, SIGQUIT, SIGHUP.
  destruct (Z.eqb_spec n 8) as [->|_]; [done|]. destruct (Z.eqb_spec n 13) as [->|_]; [done|].
  by destruct (Z.eqb_spec n 15), (Z.eqb_spec n 2), (Z.eqb_spec n 3), (Z.eqb_spec n 1).
Qed.
Lemma deliver_handlers ends p n : handlers (deliver ends p n) = handlers p.
Proof. unfold deliver. destruct (alive p); [|done]. cbn [negb]. by destruct (handlers p n), (ends n). Qed.
(** With the handlers installed a run of signals the program knows never kills it, and
    clears [g_enable_] exactly if one of them asks to end; it is never set again, so
    the readings of the stages and of the loop are true up to a point and false from
    there on. *)
Theorem signals_stop ends p ns : alive p = true -> Forall (fun n => survived n = true) ns ->
  let q := foldl (deliver ends) (InstallSignal p) ns in
  alive q = true /\ g_enable_ q = g_enable_ p && negb (existsb asks_to_end ns).
Proof.
  intros Ha Hs. assert (forall n, survived n = true -> handlers (InstallSignal p) n = if asks_to_end n then Handler else SIG_IGN) as Hh.
  { intros n Hn. by rewrite InstallSignal_handlers, Hn. }
  change (g_enable_ p) with (g_enable_ (InstallSignal p)). change (alive p) with (alive (InstallSignal p)) in Ha.
  revert Ha Hh. generalize (InstallSignal p). induction Hs as [|n ns Hn _ IH]; intros q Ha Hh; cbn [foldl existsb].
  { by rewrite andb_true_r. }
  destruct (IH (deliver ends q n)) as [H1 H2].
  - unfold deliver. rewrite Ha, (Hh n Hn). cbn [negb]. by destruct (asks_to_end n).
  - by rewrite deliver_handlers.
  - split; [done|]. rewrite H2. unfold deliver. rewrite Ha, (Hh n Hn). cbn [negb].
    destruct (asks_to_end n); cbn; [by rewrite andb_false_r|done].
Qed.
Lemma signals_stop_witness : let q := foldl (deliver (fun _ => true)) (InstallSignal process_new) [SIGPIPE; SIGTERM; SIGHUP] in
  alive q = true /\ g_enable_ q = false.
Proof. apply (signals_stop (fun _ => true) process_new [SIGPIPE; SIGTERM; SIGHUP]); [reflexivity|by repeat constructor]. Defined.
(** A division by zero raises its signal in the thread that divides, where ignoring it
    is not obeyed; what is shown is for signals sent to the process. *)

(** ** The database tool *)
Section Dbtool.
Context `{RocksDb}.

Definition is_blank (c : Z) : bool := (c =? 32) || ((9 <=? c) && (c <=? 13)).
Fixpoint skip_blank (s : list Z) : list Z :=
  match s with c :: r => if is_blank c then skip_blank r else s | [] => [] end.
Fixpoint word (s : list Z) : list Z * list Z :=
  match s with
  | c :: r => if is_blank c then ([], s) else let '(w, t) := word r in (c :: w, t)
  | [] => ([], [])
  end.
(** [cin >> s]: at the end of the input the string keeps what it has. *)
Definition read_word (old : list Z) (cin : list Z) : list Z * list Z :=
  match skip_blank cin with [] => (old, []) | s => word s end.
(** [cin >> ch] of a character that has no value yet. *)
Definition read_char (cin : list Z) : option Z * list Z :=
  match skip_blank cin with [] => (None, []) | c :: r => (Some c, r) end.
Definition default_path : list Z := to_bytes "/usr/local/agent/data/ledger.db".

(** The exit code and the last answer, [ret] and [value]. *)
Definition dbtool (cin : list Z) : outcome (Z * option (Z * string)) :=
  let '(db_path, cin) := read_word default_path cin in
  let '(ch, cin) := read_char cin in
  match ch with
  | None => Undef Uninitialised
  | Some ch =>
      if ch =? 49 then
        let? r := driver_OpenReadOnly (of_bytes db_path) RocksDbDriver_new in
        if negb r.1 then Ret (-1, None)
        else
          let '(dbkey, cin) := read_word [] cin in
          let? g := driver_Get (of_bytes dbkey) ""%string r.2 in
          let? c := driver_Close g.2 in
          Ret (0, Some g.1)
      else Ret (0, None)
  end.

Definition no_blank (w : list Z) : Prop := w <> [] /\ Forall (fun c => is_blank c = false) w.
Lemma word_spec w s : Forall (fun c => is_blank c = false) w -> (s = [] \/ exists c r, s = c :: r /\ is_blank c = true) ->
  word (w ++ s) = (w, s).
Proof.
  intros Hw Hs. induction Hw as [|c w Hc _ IH]; cbn [app word].
  - destruct Hs as [->|(c & r & -> & Hc)]; [done|]. cbn [word]. by rewrite Hc.
  - by rewrite Hc, IH.
Qed.
Lemma skip_blank_none w s : no_blank w -> skip_blank (w ++ s) = w ++ s.
Proof. intros [Hn Hw]. destruct Hw as [|c w Hc _]; [done|]. cbn. by rewrite Hc. Qed.
Lemma read_word_spec old w s : no_blank w -> (s = [] \/ exists c r, s = c :: r /\ is_blank c = true) ->
  read_word old (w ++ s) = (w, s).
Proof.
  intros Hw Hs. unfold read_word. rewrite skip_blank_none by done. pose proof (word_spec w s (proj2 Hw) Hs) as E.
  destruct Hw as [Hn _]. by destruct w.
Qed.
Lemma read_word_next old c s : is_blank c = true -> read_word old (c :: s) = read_word old s.
Proof. intros Hc. unfold read_word. cbn [skip_blank]. by rewrite Hc. Qed.

(** A path, the first choice and a key: the tool says 1 and the value if the store
    has the key, and not 1 if it has not. *)
Theorem dbtool_reads `{!RocksDbLaws} path key h : no_blank path -> no_blank key ->
  rdb_open_read_only (of_bytes path) = (0, Some h) ->
  exists ret v, dbtool (path ++ [10; 49; 10] ++ key ++ [10]) = Ret (0, Some (ret, v)) /\
    match rdb_view h !! of_bytes key with Some x => ret = 1 /\ v = x | None => ret <> 1 end.
Proof.
  intros Hp Hk Ho. unfold dbtool. rewrite read_word_spec; [|done|right; by exists 10, (49 :: 10 :: key ++ [10])].
  cbn [app]. change (read_char (10 :: 49 :: 10 :: key ++ [10])) with (Some 49, 10 :: key ++ [10]). cbn [Z.eqb Pos.eqb].
  unfold driver_OpenReadOnly. rewrite Ho. cbn [Z.eqb negb obind fst snd drv_error_desc drv_error_code].
  rewrite read_word_next, read_word_spec; [|done|right; by exists 10, []|done].
  unfold driver_Get. cbn [drv_db]. destruct (rdb_get h (of_bytes key) ""%string) as [s v] eqn:Eg.
  destruct (rdb_get_law _ _ _ _ _ Eg) as [H1 H2]. destruct (Z.eqb_spec s 0) as [->|Hn].
  - cbn. exists 1, v. split; [done|]. by rewrite H2.
  - destruct (s =? 1); cbn; eexists _, v; (split; [reflexivity|]);
      destruct (rdb_view h !! of_bytes key) eqn:E; try lia; exfalso; by apply Hn, H1.
Qed.
(** Input that ends after the path: the choice is read without a value. *)
Lemma dbtool_no_choice path : no_blank path -> dbtool path = Undef Uninitialised.
Proof. intros Hp. unfold dbtool. rewrite <- (app_nil_r path), read_word_spec by auto. done. Qed.

(** ** [ConsistentWriteBatch] *)
Inductive batch_call : Set := CPut (key value : string) | CDelete (key : string) | CClear.
Definition ConsistentWriteBatch_new : wbatch := wb_clear wb_empty.
Definition call_batch (batch_ : wbatch) (c : batch_call) : bool * wbatch :=
  match c with
  | CPut key value => (true, wb_put batch_ key value)
  | CDelete key => (true, wb_delete batch_ key)
  | CClear => (true, wb_clear batch_)
  end.
Definition run_calls (cs : list batch_call) : wbatch := foldl (fun b c => (call_batch b c).2) ConsistentWriteBatch_new cs.
(** What is left of the calls after the last [Clear]. *)
Definition pending (cs : list batch_call) : list (string * option string) :=
  foldl (fun ops c => match c with CPut k v => ops ++ [(k, Some v)] | CDelete k => ops ++ [(k, None)] | CClear => [] end) [] cs.
Lemma run_calls_view `{!RocksDbLaws} cs : wb_view (run_calls cs) = pending cs.
Proof.
  induction cs as [|c cs IH] using rev_ind; [exact (wb_clear_law _)|]. unfold run_calls, pending in *. rewrite !foldl_app. cbn [foldl].
  rewrite <- IH. destruct c; cbn [call_batch snd]; [apply wb_put_law|apply wb_delete_law|apply wb_clear_law].
Qed.
(** Written, the batch does what the calls since the last [Clear] say, in their order. *)
Theorem batch_writes `{!RocksDbLaws} h e c cs w : 
  driver_WriteBatch (run_calls cs) (mkDriver (Some h) e c) = Ret (true, w) ->
  exists h', drv_db w = Some h' /\ rdb_view h' = foldl apply_op (rdb_view h) (pending cs).
Proof.
  unfold driver_WriteBatch, with_handle. cbn [drv_db]. destruct (rdb_write h (run_calls cs)) as [s h'] eqn:E.
  destruct (Z.eqb_spec s 0) as [->|]; cbn [negb]; [|done]. intros [= <-]. exists h'. split; [done|].
  by rewrite (rdb_write_law _ _ _ E), run_calls_view.
Qed.
End Dbtool.

Lemma dbtool_reads_witness : exists ret v,
  @dbtool MemDb.mem_db (to_bytes "p" ++ [10; 49; 10] ++ to_bytes "k" ++ [10]) = Ret (0, Some (ret, v)) /\ ret <> 1.
Proof.
  destruct (@dbtool_reads MemDb.mem_db MemDb.mem_db_laws (to_bytes "p") (to_bytes "k") ∅) as (ret & v & E & Hr).
  - split; [done|]. repeat constructor.
  - split; [done|]. repeat constructor.
  - reflexivity.
  - exists ret, v. split; [exact E|exact Hr].
Defined.
Lemma batch_writes_witness : exists h' : gmap string string,
  h' = foldl apply_op ∅ [("b", Some "2")]%string.
Proof.
  destruct (@batch_writes MemDb.mem_db MemDb.mem_db_laws ∅ "" 0 [CPut "a" "1"; CClear; CPut "b" "2"]%string
    (@mkDriver MemDb.mem_db (Some (foldl apply_op ∅ [("b", Some "2")]%string)) "" 0) eq_refl) as (h' & _ & E).
  exists h'. exact E.
Defined.
