(* ===== verification/WebClient.v ===== *)
(** [HttpClient] (src/common/web_client.cpp): the questions the agent asks a
    node.  A client is the URL it was made with; an answer that cannot be used
    is [None] or [false], as the code's [return false]. *)

From S2P Require Import Prelude Strings Ordered Database General Platform Concrete Configure.

Section WebClient.
Context `{RocksDb} `{Clock} `{Http} `{Json}.
Context (cfg : Configure).

Definition makePostRequest (url request body : string) : M sys http_result :=
  do! record_sent url request body in
  let! n := tick in
  ret (http_post n url request body "application/json").

(** An unusable client leaves the caller's default result as it is. *)
Definition makeGetRequest (url request : string) : M sys http_result :=
  if negb (http_valid url) then ret http_default
  else
    do! record_sent url request "" in
    let! n := tick in
    ret (http_get n url request).

(** The body of a successful answer, parsed; [None] for an error or bad JSON. *)
Definition parse_answer (resp : http_result) : outcome (option jvalue) :=
  if negb (http_error resp =? 0) then Ret None
  else let? body := http_value resp in Ret (fromString body).

(** ... whose ["error_code"] must also be 0. *)
Definition checked_answer (resp : http_result) : outcome (option jvalue) :=
  let? r := parse_answer resp in
  match r with
  | None => Ret None
  | Some res =>
      let? e := jget res "error_code" in
      let? error_code := asInt64 e in
      Ret (if negb (error_code =? 0) then None else Some res)
  end.

Definition read_seq (resp : http_result) : outcome (option Z) :=
  let? r := checked_answer resp in
  match r with
  | None => Ret None
  | Some res =>
      let? result := jget res "result" in
      let? b := isMember result "header" in
      if b then
        let? header := jget result "header" in
        let? b := isMember header "seq" in
        if b then
          let? seq := jget header "seq" in
          let? z := asInt64 seq in
          Ret (Some z)
        else Ret None
      else Ret None
  end.

Definition GetLayerSeq (url : string) : M sys (option Z) :=
  let! resp := makeGetRequest url "/getLedger" in
  lift (read_seq resp).

Definition SubmitLayer1Transaction (url requestBody : string) : M sys http_result :=
  makePostRequest url "/submitTransaction" requestBody.
Definition SubmitLayer2Transaction (url requestBody : string) : M sys http_result :=
  makePostRequest url "/submitTransaction" requestBody.

(** The request body of a contract query. *)
Definition query_body (contract_address func returns cross_tx_id : string) : string :=
  let input := JObject [("function", JString func); ("return", JString returns);
                        ("args", JString ("'" ++ cross_tx_id ++ "'"))]%string in
  toStyledString (JObject [("contract_address", JString contract_address); ("code", JString "");
                           ("opt_type", JInt 2); ("source_address", JString "");
                           ("input", JString (toStyledString input))]%string).

(** The answer to a contract query: the data of the first result, unless its
    error carries data. *)
Definition read_query (result : http_result) : outcome (option string) :=
  match http_body result with
  | None => Ret None
  | Some body =>
      if negb (http_error result =? 0) then Ret None else
      match fromString body with
      | None => Ret None
      | Some res =>
          let? query_result := jget res "result" in
          let? b := isMember query_result "query_rets" in
          let? is_array := (if b then let? q := jget query_result "query_rets" in Ret (isArray q) else Ret false) in
          if is_array then
            let? q := jget query_result "query_rets" in
            let? query_rets := jindex q 0 in
            let? err := jget query_rets "error" in
            let? b := isMember err "data" in
            let? ok := (if b then let? d := jget err "data" in Ret (isNull d) else Ret false) in
            if ok then
              let? r := jget query_rets "result" in
              let? d := jget r "data" in
              let? s := asString d in
              Ret (Some s)
            else Ret None
          else Ret None
      end
  end.

Definition contract_of (is_layer1 : bool) : string :=
  if is_layer1 then l1_cross_contract (layer1_configure_ cfg) else l2_cross_contract (layer2_configure_ cfg).

Definition getCrossTxInfo1 (url cross_tx_id : string) (is_layer1 : bool) : M sys (option string) :=
  let! result := makePostRequest url "/callContract"
    (query_body (contract_of is_layer1) "GetCrossTxInfo1(bytes)"
       "returns(uint32,uint32,bytes,uint256,address,address)" cross_tx_id) in
  lift (read_query result).

Definition getCrossTxInfo2 (url cross_tx_id : string) (is_layer1 : bool) : M sys (option string) :=
  let! result := makePostRequest url "/callContract"
    (query_body (contract_of is_layer1) "GetCrossTxInfo2(bytes)"
       "returns(uint8,uint8,uint256,uint256,uint256,string)" cross_tx_id) in
  lift (read_query result).

(** Both parts of the record, or nothing. *)
Definition GetLayer1CrossTxInfo (url cross_tx_id : string) : M sys (option (string * string)) :=
  let! r1 := getCrossTxInfo1 url cross_tx_id true in
  match r1 with
  | None => ret None
  | Some crossTxInfo1 =>
      let! r2 := getCrossTxInfo2 url cross_tx_id true in
      match r2 with
      | None => ret None
      | Some crossTxInfo2 => ret (Some (crossTxInfo1, crossTxInfo2))
      end
  end.

Definition GetLayer2CrossTxInfo (url cross_tx_id : string) : M sys (option (string * string)) :=
  let! r1 := getCrossTxInfo1 url cross_tx_id false in
  match r1 with
  | None => ret None
  | Some crossTxInfo1 =>
      let! r2 := getCrossTxInfo2 url cross_tx_id false in
      match r2 with
      | None => ret None
      | Some crossTxInfo2 => ret (Some (crossTxInfo1, crossTxInfo2))
      end
  end.

(** The loop over the transactions returns at the first one; a failed one is
    logged with its code. *)
Definition read_tx_result (resp : http_result) : outcome bool :=
  let? r := checked_answer resp in
  match r with
  | None => Ret false
  | Some res =>
      let? result := jget res "result" in
      let? b := isMember result "transactions" in
      if b then
        let? transactions := jget result "transactions" in
        if isArray transactions then
          match jitems transactions with
          | [] => Ret false
          | tx :: _ =>
              let? b := isMember tx "error_code" in
              let? ok := (if b then let? e := jget tx "error_code" in
                                    let? z := asInt64 e in Ret (z =? 0)
                          else Ret false) in
              if ok then Ret true
              else let? e := jget tx "error_code" in
                   let? logged := asInt64 e in Ret false
          end
        else Ret false
      else Ret false
  end.

Definition GetTxResult (url tx_hash : string) : M sys bool :=
  let! resp := makeGetRequest url (Format ("/getTransactionHistory?hash=" ++ cstr tx_hash)%string) in
  lift (read_tx_result resp).

(** The balance is set to 0 when the answer has none. *)
Definition read_balance (resp : http_result) (balance : Z) : outcome (bool * Z) :=
  let? r := checked_answer resp in
  match r with
  | None => Ret (false, balance)
  | Some res =>
      let? result := jget res "result" in
      let? b := isMember result "balance" in
      if b then let? v := jget result "balance" in let? z := asInt64 v in Ret (true, z)
      else Ret (false, 0)
  end.

Definition GetBalance (url : string) (balance : Z) (address : string) : M sys (bool * Z) :=
  let! resp := makeGetRequest url ("/getAccountBase?address=" ++ address)%string in
  lift (read_balance resp balance).

(** The status in the second part of the record; [return false] is 0. *)
Definition GetCrossTxStatus (url cross_tx_id : string) : M sys Z :=
  let! r := getCrossTxInfo2 url cross_tx_id false in
  match r with
  | None => ret 0
  | Some crossTxInfo2 =>
      lift (let? info2_list := bracket_items (to_bytes crossTxInfo2) in
            let? status := vec_get info2_list 0 in
            Ret (Stoi status))
  end.

(** ** No question touches the database *)
Lemma makeGetRequest_keeps_db url r : keeps s_db (makeGetRequest url r).
Proof. unfold makeGetRequest. solve_keeps. Qed.
Lemma makePostRequest_keeps_db url r b : keeps s_db (makePostRequest url r b).
Proof. unfold makePostRequest. solve_keeps. Qed.
#[local] Hint Resolve makeGetRequest_keeps_db makePostRequest_keeps_db : keeps.
Lemma GetLayerSeq_keeps_db url : keeps s_db (GetLayerSeq url).
Proof. unfold GetLayerSeq. solve_keeps. Qed.
Lemma GetTxResult_keeps_db url h : keeps s_db (GetTxResult url h).
Proof. unfold GetTxResult. solve_keeps. Qed.
Lemma GetBalance_keeps_db url b a : keeps s_db (GetBalance url b a).
Proof. unfold GetBalance. solve_keeps. Qed.
Lemma GetLayer1CrossTxInfo_keeps_db url i : keeps s_db (GetLayer1CrossTxInfo url i).
Proof. unfold GetLayer1CrossTxInfo, getCrossTxInfo1, getCrossTxInfo2. solve_keeps. Qed.
Lemma GetLayer2CrossTxInfo_keeps_db url i : keeps s_db (GetLayer2CrossTxInfo url i).
Proof. unfold GetLayer2CrossTxInfo, getCrossTxInfo1, getCrossTxInfo2. solve_keeps. Qed.
Lemma GetCrossTxStatus_keeps_db url i : keeps s_db (GetCrossTxStatus url i).
Proof. unfold GetCrossTxStatus, getCrossTxInfo2. solve_keeps. Qed.

(** ** What the answers mean *)

Lemma checked_answer_Some resp res :
  checked_answer resp = Ret (Some res) ->
  exists body, http_error resp = 0 /\ http_body resp = Some body /\ fromString body = Some res /\
    (let? e := jget res "error_code" in asInt64 e) = Ret 0.
Proof.
  unfold checked_answer, parse_answer, http_value. intros E.
  apply obind_Ret in E as (r & Er & E).
  destruct (Z.eqb_spec (http_error resp) 0); cbn [negb] in Er; [|injection Er as <-; discriminate E].
  destruct (http_body resp) as [body|] eqn:Hb; [|discriminate Er]. injection Er as <-.
  destruct (fromString body) as [res'|] eqn:Hj; [|discriminate E].
  apply obind_Ret in E as (fld & Ee & E). apply obind_Ret in E as (z & Ez & E).
  destruct (Z.eqb_spec z 0) as [->|]; cbn [negb] in E; [|discriminate E]. injection E as ->.
  exists body. repeat (split; [done|]). by rewrite Ee.
Qed.

(** The agent takes a transaction for executed only on the node's word:
    the request succeeded, the answer parses, its [error_code] is 0 and so is
    that of the first transaction it lists. *)
Theorem GetTxResult_true url tx_hash w w' :
  GetTxResult url tx_hash w = Ret (true, w') ->
  exists resp body res result txs tx rest,
    makeGetRequest url (Format ("/getTransactionHistory?hash=" ++ cstr tx_hash)%string) w = Ret (resp, w') /\
    http_error resp = 0 /\ http_body resp = Some body /\ fromString body = Some res /\
    (let? e := jget res "error_code" in asInt64 e) = Ret 0 /\
    jget res "result" = Ret result /\ jget result "transactions" = Ret txs /\
    isArray txs = true /\ jitems txs = tx :: rest /\
    (let? e := jget tx "error_code" in asInt64 e) = Ret 0.
Proof.
  unfold GetTxResult. intros E. apply bind_inv in E as (resp & w1 & E1 & E).
  unfold lift in E. apply obind_Ret in E as (b & E & E'). injection E' as -> ->.
  unfold read_tx_result in E. apply obind_Ret in E as (r & Er & E).
  destruct r as [res|]; [|discriminate E].
  apply checked_answer_Some in Er as (body & ? & ? & ? & ?).
  apply obind_Ret in E as (result & Eresult & E). apply obind_Ret in E as (b & _ & E).
  destruct b; [|discriminate E]. apply obind_Ret in E as (txs & Etxs & E).
  destruct (isArray txs) eqn:Ha; [|discriminate E].
  destruct (jitems txs) as [|tx rest] eqn:Hi; [discriminate E|].
  apply obind_Ret in E as (b & _ & E). apply obind_Ret in E as (ok & Eok & E).
  destruct ok; [|apply obind_Ret in E as (? & _ & E); by apply obind_Ret in E as (? & _ & E)].
  destruct b; [|discriminate Eok]. apply obind_Ret in Eok as (fld & Ee & Eok).
  apply obind_Ret in Eok as (z & Ez & Eok). injection Eok as ->%Z.eqb_eq.
  exists resp, body, res, result, txs, tx, rest. repeat (split; [done|]). by rewrite Ee.
Qed.

(** Both parts of a record come from usable answers. *)
Lemma getCrossTxInfo1_Some url id b w i w' : getCrossTxInfo1 url id b w = Ret (Some i, w') ->
  exists r, read_query r = Ret (Some i).
Proof.
  intros E. apply bind_inv in E as (r & w1 & _ & E). apply obind_Ret in E as (o & E & E').
  injection E' as -> ->. by exists r.
Qed.
Lemma getCrossTxInfo2_Some url id b w i w' : getCrossTxInfo2 url id b w = Ret (Some i, w') ->
  exists r, read_query r = Ret (Some i).
Proof.
  intros E. apply bind_inv in E as (r & w1 & _ & E). apply obind_Ret in E as (o & E & E').
  injection E' as -> ->. by exists r.
Qed.

Definition two_answers (i1 i2 : string) : Prop :=
  exists r1 r2, read_query r1 = Ret (Some i1) /\ read_query r2 = Ret (Some i2).

Lemma GetLayer1CrossTxInfo_Some url id w i1 i2 w' :
  GetLayer1CrossTxInfo url id w = Ret (Some (i1, i2), w') -> two_answers i1 i2.
Proof.
  intros E. apply bind_inv in E as ([x1|] & w1 & E1 & E); [|done].
  apply bind_inv in E as ([x2|] & w2 & E2 & E); [|done]. injection E as -> -> _.
  apply getCrossTxInfo1_Some in E1 as [r1 ?]. apply getCrossTxInfo2_Some in E2 as [r2 ?]. by exists r1, r2.
Qed.
Lemma GetLayer2CrossTxInfo_Some url id w i1 i2 w' :
  GetLayer2CrossTxInfo url id w = Ret (Some (i1, i2), w') -> two_answers i1 i2.
Proof.
  intros E. apply bind_inv in E as ([x1|] & w1 & E1 & E); [|done].
  apply bind_inv in E as ([x2|] & w2 & E2 & E); [|done]. injection E as -> -> _.
  apply getCrossTxInfo1_Some in E1 as [r1 ?]. apply getCrossTxInfo2_Some in E2 as [r2 ?]. by exists r1, r2.
Qed.

(** The request of a status query always names the second layer's contract. *)
Lemma GetCrossTxStatus_request url cross_tx_id w s w' :
  GetCrossTxStatus url cross_tx_id w = Ret (s, w') ->
  head (s_sent w') = Some (url, "/callContract"%string,
    query_body (l2_cross_contract (layer2_configure_ cfg)) "GetCrossTxInfo2(bytes)"
      "returns(uint8,uint8,uint256,uint256,uint256,string)" cross_tx_id).
Proof.
  unfold GetCrossTxStatus, getCrossTxInfo2. intros E.
  apply bind_inv in E as (r & w1 & E1 & E). apply bind_inv in E1 as (resp & w2 & E2 & E1).
  unfold lift in E1. apply obind_Ret in E1 as (q & _ & E1). injection E1 as -> <-.
  assert (w' = w2) as ->.
  { destruct r; [|by injection E]. unfold lift in E. apply obind_Ret in E as (? & _ & E). by injection E. }
  unfold makePostRequest, record_sent, modify, tick, ret, bind in E2. cbn in E2. by injection E2 as _ <-.
Qed.

(** What a status query answers: the number at the front of the bracketed
    list the contract returned, converted as [atoi] does.  An answer that
    cannot be used is the same as status 0, the initial one, and the empty
    answer throws. *)
Theorem GetCrossTxStatus_spec url cross_tx_id w w1 resp :
  makePostRequest url "/callContract"
    (query_body (l2_cross_contract (layer2_configure_ cfg)) "GetCrossTxInfo2(bytes)"
       "returns(uint8,uint8,uint256,uint256,uint256,string)" cross_tx_id) w = Ret (resp, w1) ->
  (read_query resp = Ret None -> GetCrossTxStatus url cross_tx_id w = Ret (CROSS_RESULT_INIT, w1)) /\
  (read_query resp = Ret (Some ""%string) -> GetCrossTxStatus url cross_tx_id w = Throw) /\
  (forall n l, - 2 ^ 31 <= n < 2 ^ 31 ->
     Forall (Forall (fun c => c <> 44)) l -> bytes_ok (bracket (ToString n :: l)) -> last l <> Some [] ->
     read_query resp = Ret (Some (of_bytes (bracket (ToString n :: l)))) ->
     GetCrossTxStatus url cross_tx_id w = Ret (n, w1)).
Proof.
  intros E.
  assert (forall q, read_query resp = Ret q -> getCrossTxInfo2 url cross_tx_id false w = Ret (q, w1)) as E2.
  { intros q Hq. unfold getCrossTxInfo2, contract_of. rewrite (bind_ret_run _ _ _ _ _ E).
    unfold lift. by rewrite Hq. }
  unfold GetCrossTxStatus. split; [|split].
  - intros Hq. by rewrite (bind_ret_run _ _ _ _ _ (E2 _ Hq)).
  - intros Hq. by rewrite (bind_ret_run _ _ _ _ _ (E2 _ Hq)).
  - intros n l Hn Hl Hb Hlast Hq. rewrite (bind_ret_run _ _ _ _ _ (E2 _ Hq)). unfold lift.
    rewrite to_bytes_of_bytes, bracket_items_bracket; [|by constructor; [apply ToString_no_comma|] | |done].
    + cbn. by rewrite Stoi_ToString.
    + destruct l; [|done]. cbn. pose proof (ToString_nonempty n). congruence.
Qed.

End WebClient.
#[export] Hint Resolve makeGetRequest_keeps_db makePostRequest_keeps_db GetLayerSeq_keeps_db
  GetTxResult_keeps_db GetBalance_keeps_db GetLayer1CrossTxInfo_keeps_db GetLayer2CrossTxInfo_keeps_db
  GetCrossTxStatus_keeps_db : keeps.

(** ** Concrete answers *)
Definition web_json : Json := table_json
  [("tx", TObj [("error_code", TInt 0);
                ("result", TObj [("transactions", TArr [TObj [("error_code", TInt 0)]])])]);
   ("st", TObj [("result", TObj [("query_rets", TArr [TObj
       [("error", TObj [("data", TNull)]); ("result", TObj [("data", TStr "[1,0,17,0,9]")])]])])])]%string.
Definition web_server : Http := script_http (fun _ _ => mkHttpResult 0 (Some "tx"%string)) (fun _ _ => mkHttpResult 0 (Some "st"%string)).
Definition web_start : @sys MemDb.mem_db := @mkSys MemDb.mem_db 0 0 Database_new [].

Lemma GetTxResult_true_witness :
  exists w' resp, @GetTxResult MemDb.mem_db web_server web_json "http://n" "ab12" web_start = Ret (true, w') /\
  http_error resp = 0 /\ exists body, http_body resp = Some body.
Proof.
  destruct (returns_true (@GetTxResult MemDb.mem_db web_server web_json "http://n" "ab12") web_start)
    as [w' E]; [vm_compute; reflexivity|].
  destruct (@GetTxResult_true MemDb.mem_db web_server web_json _ _ _ _ E)
    as (resp & body & res & result & txs & tx & rest & _ & He & Hb & _).
  exists w', resp. split; [exact E|]. split; [exact He|]. exists body. exact Hb.
Defined.

Lemma GetCrossTxStatus_spec_witness :
  exists w1, @GetCrossTxStatus MemDb.mem_db web_server web_json sample_loaded "http://n" "ab12" web_start = Ret (1, w1).
Proof.
  eexists. refine (proj2 (proj2 (@GetCrossTxStatus_spec MemDb.mem_db web_server web_json sample_loaded
    "http://n" "ab12" web_start _ (mkHttpResult 0 (Some "st"%string)) _)) 1 (map to_bytes ["0"; "17"; "0"; "9"]%string) _ _ _ _ _).
  - reflexivity.
  - split; vm_compute; congruence.
  - repeat constructor; vm_compute; congruence.
  - apply (bool_decide_unpack (Forall byte_ok _)). vm_compute. exact I.
  - vm_compute. congruence.
  - reflexivity.
Defined.
