(* ===== verification/Transaction.v ===== *)
(** Transactions for the two chains: [Layer1Transaction] and
    [Layer2Transaction] (src/common/layer1_transaction.cpp,
    layer2_transaction.cpp), and the request that submits a signed one, as
    every sender of the agent builds it. *)

From S2P Require Import Prelude Strings Hex Basen Ordered Database General Platform Concrete Configure WebClient.

Section Transaction.
Context `{RocksDb} `{Clock} `{Http} `{Json} `{Protobuf} `{AgentKey}.
Context (cfg : Configure).

Definition Transaction_default : Transaction := mkTransaction "" 0 [] 0 0 0 0 0.

Definition Layer1Transaction_new : outcome Transaction :=
  let c := layer1_configure_ cfg in
  let? fee := read_init (l1_fee_limit c) in
  let? gas := read_init (l1_gas_price c) in
  Ret (mkTransaction (l1_agent_address c) 0 [] fee gas 0 Transaction_TxType_RANDOM_NONCE 0).
Definition Layer2Transaction_new : outcome Transaction :=
  let c := layer2_configure_ cfg in
  let? fee := read_init (l2_fee_limit c) in
  let? gas := read_init (l2_gas_price c) in
  Ret (mkTransaction (l2_agent_address c) 0 [] fee gas 0 Transaction_TxType_RANDOM_NONCE 0).

(** A payment to the chain's cross-chain contract, appended. *)
Definition add_operation (dest input : string) (amount : Z) (t : Transaction) : Transaction :=
  mkTransaction (source_address t) (nonce t)
    (operations t ++ [mkOperation Operation_Type_PAY_COIN (mkPayCoin dest amount input)])
    (tx_fee_limit t) (tx_gas_price t) (chain_id t) (nonce_type t) (max_ledger_seq t).
Definition Layer1_AddTransactionOperation (input : string) (amount : Z) (t : Transaction) : Transaction :=
  add_operation (l1_cross_contract (layer1_configure_ cfg)) input amount t.
Definition Layer2_AddTransactionOperation (input : string) (amount : Z) (t : Transaction) : Transaction :=
  add_operation (l2_cross_contract (layer2_configure_ cfg)) input amount t.

Definition set_nonce (n : Z) (t : Transaction) : Transaction :=
  mkTransaction (source_address t) n (operations t) (tx_fee_limit t) (tx_gas_price t) (chain_id t)
    (nonce_type t) (max_ledger_seq t).
Definition set_max_ledger_seq (n : Z) (t : Transaction) : Transaction :=
  mkTransaction (source_address t) (nonce t) (operations t) (tx_fee_limit t) (tx_gas_price t) (chain_id t)
    (nonce_type t) n.

(** The nonce given, or the time of day in milliseconds for 0. *)
Definition SetRandomNonce (n : Z) (t : Transaction) : M sys Transaction :=
  if negb (n =? 0) then ret (set_nonce n t)
  else
    let! k := tick in
    let '(tv_sec, tv_usec) := time_of_day k in
    ret (set_nonce (tv_sec * 1000 + tv_usec / 1000) t).

(** The transaction as it is signed: hexadecimal text of its serialisation. *)
Definition GetTransactionBlob (max_seq : Z) (t : Transaction) : M sys string :=
  let! t := (if nonce t =? 0 then SetRandomNonce 0 t else ret t) in
  let t := set_max_ledger_seq max_seq t in
  let! blob := lift (encode_b16 (serialize_Transaction t)) in
  ret (of_bytes blob).
Definition Layer1_GetTransactionBlob := GetTransactionBlob.
Definition Layer2_GetTransactionBlob := GetTransactionBlob.

(** ** Submission *)

(** The request body: one item, with the blob and one signature of the bytes
    the blob stands for. *)
Definition submit_doc (tran_blob public_key sign_data : string) : jdoc :=
  JObject [("items", JArray [JObject
    [("transaction_blob", JString tran_blob);
     ("signatures", JArray [JObject [("public_key", JString public_key); ("sign_data", JString sign_data)]])]])]%string.

Definition signed_request (private_key tran_blob : string) : outcome string :=
  let bin_tran_blob := HexStringToBin (to_bytes tran_blob) false in
  let? public_key := key_public private_key in
  let? signature := key_sign private_key bin_tran_blob in
  Ret (toStyledString (submit_doc tran_blob public_key (of_bytes (BinToHexString signature)))).

(** The results of a submission: every one must carry error code 0; the hash
    of the last one is the transaction's.  An answer without a non-empty list
    of results passes, and leaves the hash as it was. *)
Fixpoint check_results (results : list jvalue) (txhash : string) : outcome (bool * string) :=
  match results with
  | [] => Ret (true, txhash)
  | result :: r =>
      let? e := jget result "error_code" in
      let? error_code := asInt e in
      if negb (error_code =? 0) then
        let? d := jget result "error_desc" in
        let? logged := asString d in
        Ret (false, txhash)
      else
        let? h := jget result "hash" in
        let? txhash := asString h in
        check_results r txhash
  end.

Definition check_response (response txhash : string) : outcome (bool * string) :=
  match fromString response with
  | None => Ret (false, txhash)
  | Some responseBody =>
      let? results := jget responseBody "results" in
      if isArray results && (0 <? Z.of_nat (length (jitems results))) then check_results (jitems results) txhash
      else Ret (true, txhash)
  end.

Lemma GetTransactionBlob_keeps_db max_seq t : keeps s_db (GetTransactionBlob max_seq t).
Proof. unfold GetTransactionBlob, SetRandomNonce. solve_keeps. Qed.

(** ** What is signed *)

(** What the agent signs is the transaction it sends: decoding the blob of
    the request gives exactly the serialised transaction, with its nonce and
    ledger bound set, and the request carries the signature of those bytes. *)
Theorem signed_blob_is_transaction `{!ProtobufLaws} max_seq t key w blob w' :
  GetTransactionBlob max_seq t w = Ret (blob, w') ->
  exists t', operations t' = operations t /\ max_ledger_seq t' = max_seq /\
    (nonce t <> 0 -> nonce t' = nonce t) /\
    HexStringToBin (to_bytes blob) false = serialize_Transaction t' /\
    forall pub sig, key_public key = Ret pub -> key_sign key (serialize_Transaction t') = Ret sig ->
      signed_request key blob =
      Ret (toStyledString (submit_doc blob pub (of_bytes (BinToHexString sig)))).
Proof.
  unfold GetTransactionBlob. intros E. apply bind_inv in E as (t1 & w1 & E1 & E).
  rewrite encode_b16_hex in E by apply serialize_bytes.
  unfold bind, lift, ret in E. cbn [obind fst snd] in E. injection E as <- <-.
  exists (set_max_ledger_seq max_seq t1).
  assert (operations t1 = operations t /\ (nonce t <> 0 -> nonce t1 = nonce t)) as [Ho Hn].
  { destruct (Z.eqb_spec (nonce t) 0) as [E0|]; [|by injection E1 as <- <-].
    cbn [SetRandomNonce Z.eqb negb] in E1. apply bind_inv in E1 as (k & w2 & _ & E1).
    destruct (time_of_day k). injection E1 as <- <-. by split. }
  assert (HexStringToBin (to_bytes (of_bytes (BinToHexString (serialize_Transaction (set_max_ledger_seq max_seq t1))))) false
          = serialize_Transaction (set_max_ledger_seq max_seq t1)) as Hb.
  { rewrite to_bytes_of_bytes by (apply BinToHexString_bytes, serialize_bytes).
    apply hex_roundtrip, serialize_bytes. }
  repeat (split; [done|]). intros pub sig Hp Hs. unfold signed_request. rewrite Hb, Hp. cbn [obind].
  by rewrite Hs.
Qed.

End Transaction.
#[export] Hint Resolve GetTransactionBlob_keeps_db : keeps.

(** A transaction with one payment, signed at a fixed time. *)
Section Witness.
Import MemDb.
#[local] Instance blob_clock : Clock := fixed_clock 1000.
#[local] Instance blob_proto : Protobuf := table_proto [] [].
#[local] Instance blob_json : Json := table_json [].
#[local] Instance blob_key : AgentKey := toy_key.
Definition blob_transaction : Transaction := add_operation "c1" "{}" 5 Transaction_default.
Definition blob_start : sys := mkSys 0 0 Database_new [].

Lemma signed_blob_is_transaction_witness : exists t' blob,
  operations t' = operations blob_transaction /\ max_ledger_seq t' = 207 /\
  HexStringToBin (to_bytes blob) false = serialize_Transaction t'.
Proof.
  destruct (returns_run (fun _ => true) (GetTransactionBlob 207 blob_transaction) blob_start) as (blob & w' & E & _);
    [vm_compute; reflexivity|].
  destruct (signed_blob_is_transaction 207 blob_transaction "priSPK" blob_start blob w' E) as (t' & Ho & Hm & _ & Hb & _).
  exists t', blob. split; [exact Ho|]. split; [exact Hm|exact Hb].
Defined.
End Witness.
