(* ===== verification/Account.v ===== *)
(** The request the agent submits, with its account as it really is: the
    transaction component (Transaction.v) over the keys of Keys.v. *)

From S2P Require Import Prelude Strings Hex Base58 Sm3 Sm2 Aes Ordered Database General Platform Concrete.
From S2P Require Import Configure WebClient Keys Transaction.

Section Account.
Context `{RocksDb} `{Clock} `{Http} `{Json} `{ProtobufLaws} `{KeyLaws} `{EcLaws} `{AesModes}.
Context (prefix : AddressPrefix) (prefix_ok : address_prefix_ prefix = "did:bid:"%string).

(** The text of an account's private key. *)
Definition key_text (t : Z) (secret : list Z) : string :=
  EncodePrivateKey ([24; 158; 153; t; ENCODETYPE_BASE58] ++ secret).

(** C13. Whoever receives a request can check it: the body carries the blob of
    the transaction, a public key, and a signature in hexadecimal, and that
    signature of the very bytes of the transaction verifies under that key. *)
Theorem request_verifies kind secret max_seq t w blob w' :
  secret_ok kind secret ->
  (forall data, kind = SIGNTYPE_CFCASM2 -> sm2_signs secret data) ->
  GetTransactionBlob max_seq t w = Ret (blob, w') ->
  exists t' pub sign_data,
    operations t' = operations t /\ max_ledger_seq t' = max_seq /\
    HexStringToBin (to_bytes blob) false = serialize_Transaction t' /\
    @signed_request _ (agent_key prefix) (key_text kind secret) blob =
      Ret (toStyledString (submit_doc blob pub sign_data)) /\
    Verify (serialize_Transaction t') (HexStringToBin (to_bytes sign_data) false) pub = Ret true.
Proof.
  intros Hs Hz E.
  destruct (signed_blob_is_transaction (H4 := agent_key prefix) max_seq t (key_text kind secret) w blob w' E)
    as (t' & Ho & Hm & _ & Hb & Hr).
  destruct (sign_then_verify prefix prefix_ok kind secret (serialize_Transaction t') Hs (Hz _)) as (k & p & sig & Ek & Ep & Esig & Bsig & Hv).
  exists t', (GetEncPublicKey p), (of_bytes (BinToHexString sig)). do 3 (split; [done|]). split.
  - apply Hr; cbn [key_public key_sign agent_key]; unfold key_text; rewrite Ek; cbn [obind]; [|done].
    unfold on_public. by rewrite Ep.
  - rewrite to_bytes_of_bytes, hex_roundtrip by (try apply BinToHexString_bytes; done). exact Hv.
Qed.
End Account.

Section Witness.
Import MemDb.
#[local] Instance request_clock : Clock := fixed_clock 1000.
#[local] Instance request_proto : Protobuf := table_proto [] [].
#[local] Instance request_json : Json := table_json [].

Lemma request_verifies_witness : exists blob w' t' pub sign_data,
  GetTransactionBlob 207 blob_transaction blob_start = Ret (blob, w') /\
  operations t' = operations blob_transaction /\
  @Verify plain_primitives small_group (serialize_Transaction t') (HexStringToBin (to_bytes sign_data) false) pub = Ret true.
Proof.
  destruct (returns_run (fun _ => true) (GetTransactionBlob 207 blob_transaction) blob_start) as (blob & w' & E & _);
    [vm_compute; reflexivity|].
  destruct (@request_verifies _ _ _ _ _ plain_primitives plain_laws small_group small_laws flip_modes AddressPrefix_new eq_refl
    SIGNTYPE_ED25519 sample_secret 207 blob_transaction blob_start blob w'
    (sample_secret_ok SIGNTYPE_ED25519 (or_introl eq_refl)) (fun _ E => ltac:(discriminate E)) E)
    as (t' & pub & sd & Ho & _ & _ & _ & Hv).
  exists blob, w', t', pub, sd. split; [exact E|]. split; [exact Ho|exact Hv].
Defined.
End Witness.
