(* ===== verification/Pending.v ===== *)
(** The tables of pending cross-chain transactions that both directions keep
    (send-tx, send-ack, reply-ack, and start-tx for the second direction): an
    in-memory [std::map] from transaction id to [CrossTx], mirrored in the
    database under a prefix.  The operations the two handlers share are here;
    the handlers say which table and which prefix. *)

From S2P Require Import Prelude Strings Ordered Database General Platform.

(** [std::map::emplace]: an existing entry is kept. *)
Definition emplace {A} (k : string) (a : A) (m : gmap string A) : gmap string A :=
  match m !! k with Some _ => m | None => <[k := a]> m end.

Lemma lookup_emplace {A} k (a : A) m k' :
  emplace k a m !! k' = if decide (k' = k) then Some (default a (m !! k)) else m !! k'.
Proof.
  unfold emplace. destruct (m !! k) eqn:E; case_decide; subst; try done; simplify_map_eq; done.
Qed.

Lemma emplace_present {A} k (a b : A) m : m !! k = Some b -> emplace k a m = m.
Proof. intros E. unfold emplace. by rewrite E. Qed.

(** ** Reading a record of the contract *)

(** [info1] is ["[_,_,id,amount,src,dest]"] and [info2]
    ["[status,refunded,created,executed,timeout,error]"]; the loop over
    [getline] gives their pieces, which are then taken by position. *)
Definition info_lists (cross_info1 cross_info2 : string) : outcome (list (list Z) * list (list Z)) :=
  let? info1_list := bracket_items (to_bytes cross_info1) in
  let? info2_list := bracket_items (to_bytes cross_info2) in
  Ret (info1_list, info2_list).

(** The fields both handlers take, given the destination. *)
Definition fill_info (destbid : string) (info1_list info2_list : list (list Z)) : outcome CrossTxInfo :=
  let? id := vec_get info1_list 2 in
  let? am := vec_get info1_list 3 in
  let? sr := vec_get info1_list 4 in
  let? st := vec_get info2_list 0 in
  let? rf := vec_get info2_list 1 in
  let? cr := vec_get info2_list 2 in
  let? ex := vec_get info2_list 3 in
  let? tm := vec_get info2_list 4 in
  let errordesc := match info2_list !! 5%nat with Some e => of_bytes e | None => ""%string end in
  Ret (mkCrossTxInfo (of_bytes id) (of_bytes sr) destbid (Stol am) (Stoi st) (Stoi rf)
         (Stol cr) (Stol ex) (Stol tm) errordesc 0 "" "" "").

(** The arguments of the contract calls. *)
Definition send_args (m : CrossTxInfo) : string :=
  Format ("'" ++ cstr (crosstxid m) ++ "'," ++ cstr (srcbid m) ++ "," ++ cstr (destbid m) ++ ","
          ++ dec_string (amount m) ++ "," ++ dec_string (timeout m))%string.
Definition ack_args (m : CrossTxInfo) (error_desc : string) : string :=
  Format ("'" ++ cstr (crosstxid m) ++ "'," ++ dec_string (status m) ++ ",'" ++ cstr error_desc ++ "',"
          ++ dec_string (executetimestamp m))%string.

Definition call_doc (func args : string) : jdoc :=
  JObject [("function", JString func); ("args", JString args)]%string.
Definition SEND_TX_FUNCTION : string := "SendTx(bytes,address,address,uint256,uint256)".
Definition SEND_ACKED_FUNCTION : string := "SendAckedTx(bytes,uint8,string,uint256)".

(** ** Saving, clearing and loading one table

    A handler's state contains the shared state and its tables; [HasSys] and
    [Table] are the accessors of the one and of each of the others. *)
Class HasSys `{RocksDb} (W : Type) := {
  the_sys : W -> sys;
  set_sys : sys -> W -> W;
  the_sys_set : forall s w, the_sys (set_sys s w) = s;
  set_sys_set : forall s s' w, set_sys s (set_sys s' w) = set_sys s w;
  set_sys_id : forall w, set_sys (the_sys w) w = w
}.
Record Table `{RocksDb} (W : Type) `{!HasSys W} := mkTable {
  rows : W -> gmap string CrossTx;
  set_rows : gmap string CrossTx -> W -> W;
  rows_set : forall m w, rows (set_rows m w) = m;
  rows_set_sys : forall s w, rows (set_sys s w) = rows w;
  the_sys_set_rows : forall m w, the_sys (set_rows m w) = the_sys w;
  set_sys_rows : forall s m w, set_sys s (set_rows m w) = set_rows m (set_sys s w);
  set_rows_set : forall m m' w, set_rows m (set_rows m' w) = set_rows m w;
  set_rows_id : forall w, set_rows (rows w) w = w
}.
Arguments rows {_ _ _} _ _.
Arguments set_rows {_ _ _} _ _ _.

Section Table.
Context `{RocksDb} `{Clock} `{Protobuf} {W : Type} `{!HasSys W}.

Definition sysop {A} (m : M sys A) : M W A := zoom the_sys set_sys m.

(** The timeout of an acknowledgement: a minute from now. *)
Definition ack_deadline : M W Z :=
  let! now := sysop HighResolution in ret (now + MICRO_UNITS_PER_SEC * 60).

Context (T : Table W).

Definition table_emplace (k : string) (c : CrossTx) : M W unit :=
  modify (fun w => set_rows T (emplace k c (rows T w)) w).
Definition table_erase (k : string) : M W unit :=
  modify (fun w => set_rows T (delete k (rows T w)) w).

(** [SaveSendTxInfo], [SaveStartTxInfo]: the database's answer is ignored. *)
Definition save_plain (dbkey : string) (c : CrossTx) : M W bool :=
  do! sysop (on_database (DBPut dbkey (cross_tx_info_ c))) in
  do! table_emplace (cross_tx_id_ c) c in
  ret true.

(** [SaveSendAckInfo], [SaveReplyAckInfo]: the database is written, and the
    entry in memory gets a deadline. *)
Definition save_ack (dbkey : string) (c : CrossTx) : M W bool :=
  do! sysop (on_database (DBPut dbkey (cross_tx_info_ c))) in
  let! t := ack_deadline in
  do! table_emplace (cross_tx_id_ c) (set_send_ack_timeout t c) in
  ret true.

(** The same with the deadline set before the database is written. *)
Definition save_ack_stamped (dbkey : string) (c : CrossTx) : M W bool :=
  let! t := ack_deadline in
  do! sysop (on_database (DBPut dbkey (cross_tx_info_ c))) in
  do! table_emplace (cross_tx_id_ c) (set_send_ack_timeout t c) in
  ret true.

Definition clear_entry (dbkey id : string) : M W bool :=
  do! sysop (on_database (DBDelete dbkey)) in
  do! table_erase id in
  ret true.

(** The object of the current node: an erased node cannot be read. *)
Definition node (k : string) : M W CrossTx :=
  let! w := get in
  match rows T w !! k with Some c => ret c | None => lift (Undef DanglingIterator) end.
Definition node_set_ack_timeout (k : string) (t : Z) : M W unit :=
  let! c := node k in
  modify (fun w => set_rows T (<[k := set_send_ack_timeout t c]> (rows T w)) w).

(** The entries [Initialize] makes of the stored values. *)
Fixpoint load_values (with_deadline : bool) (values : list string) : M W unit :=
  match values with
  | [] => ret tt
  | v :: r =>
      let '(ok, m) := parse_CrossTxInfo v in
      do! (if ok then
             let c := CrossTx_new (serialize_CrossTxInfo m) m in
             if with_deadline then
               let! t := ack_deadline in table_emplace (cross_tx_id_ c) (set_send_ack_timeout t c)
             else table_emplace (cross_tx_id_ c) c
           else ret tt) in
      load_values with_deadline r
  end.

Definition load_table (prefix : string) (with_deadline : bool) : M W unit :=
  let! r := sysop (on_database (GetAllValueByPrefix prefix [])) in
  if r.1 then load_values with_deadline r.2 else ret tt.
End Table.

(** ** What the operations do to a table and to the store *)

(** A store whose operations always succeed. *)
Class Reliable `{RocksDb} : Prop := {
  put_ok : forall d k v, (rdb_put d k v).1 = 0;
  delete_ok : forall d k, (rdb_delete d k).1 = 0;
  iter_ok : forall d t, (rdb_iter d t).1 = 0
}.

#[export] Instance mem_db_reliable : @Reliable MemDb.mem_db.
Proof. by split. Qed.

(** The entry made of a message, without and with a deadline. *)
Definition entry `{Protobuf} (deadline : option Z) (m : CrossTxInfo) : CrossTx :=
  let c := CrossTx_new (serialize_CrossTxInfo m) m in
  match deadline with None => c | Some t => set_send_ack_timeout t c end.

Section Effects.
Context `{RocksDbLaws} `{!Reliable} `{Clock} `{Protobuf} {W : Type} `{!HasSys W}.

(** From [s] to [s'] the content of the store changes by [f], if it was open. *)
Definition db_step (f : gmap string string -> gmap string string) (s s' : sys) : Prop :=
  forall db, content (s_db s) = Some db -> content (s_db s') = Some (f db).

Definition db_same : sys -> sys -> Prop := db_step (fun db => db).

Lemma db_step_keeps {A} (m : M sys A) s a s' : keeps s_db m -> m s = Ret (a, s') -> db_same s s'.
Proof. intros Hm E db Hdb. by rewrite (Hm _ _ _ E). Qed.

Lemma db_step_trans f g h s1 s2 s3 :
  db_step f s1 s2 -> db_step g s2 s3 -> (forall db, h db = g (f db)) -> db_step h s1 s3.
Proof. intros Hf Hg Hh db Hdb. rewrite Hh. apply (Hg (f db)), Hf, Hdb. Qed.

Lemma sysop_inv {A} (m : M sys A) (w : W) a w' :
  sysop m w = Ret (a, w') -> exists s', m (the_sys w) = Ret (a, s') /\ w' = set_sys s' w.
Proof.
  intros E. apply obind_Ret in E as ([b s'] & E1 & E). injection E as -> <-. by exists s'.
Qed.

Lemma sysop_run {A} (m : M sys A) (w : W) a s' : m (the_sys w) = Ret (a, s') -> sysop m w = Ret (a, set_sys s' w).
Proof. intros E. unfold sysop, zoom. by rewrite E. Qed.

Lemma DBPut_step k v s b s' :
  on_database (DBPut k v) s = Ret (b, s') -> db_step (insert k v) s s'.
Proof.
  intros E db Hdb. apply obind_Ret in E as ([b' d'] & E1 & E). injection E as -> <-. cbn.
  destruct (content_inv _ _ Hdb) as (h & e & c & bt & Ed & <-). rewrite Ed in E1.
  fold (opened h e c bt) in E1. rewrite DBPut_run, put_ok in E1. injection E1 as _ <-.
  rewrite content_opened. f_equal. apply rdb_put_law. rewrite (surjective_pairing (rdb_put h k v)).
  by rewrite put_ok.
Qed.

Lemma DBDelete_step k s b s' :
  on_database (DBDelete k) s = Ret (b, s') -> db_step (delete k) s s'.
Proof.
  intros E db Hdb. apply obind_Ret in E as ([b' d'] & E1 & E). injection E as -> <-. cbn.
  destruct (content_inv _ _ Hdb) as (h & e & c & bt & Ed & <-). rewrite Ed in E1.
  fold (opened h e c bt) in E1. rewrite DBDelete_run, delete_ok in E1. injection E1 as _ <-.
  rewrite content_opened. f_equal. apply rdb_delete_law. rewrite (surjective_pairing (rdb_delete h k)).
  by rewrite delete_ok.
Qed.

Context (T : Table W).

Lemma table_emplace_inv k c (w : W) u w' :
  table_emplace T k c w = Ret (u, w') -> w' = set_rows T (emplace k c (rows T w)) w.
Proof. intros E. by injection E. Qed.

Lemma save_plain_inv dbkey c w b w' : save_plain T dbkey c w = Ret (b, w') ->
  b = true /\ exists s', w' = set_rows T (emplace (cross_tx_id_ c) c (rows T w)) (set_sys s' w) /\
    db_step (insert dbkey (cross_tx_info_ c)) (the_sys w) s'.
Proof.
  intros E. apply bind_inv in E as (p & w1 & E1 & E). apply sysop_inv in E1 as (s' & E1 & ->).
  apply bind_inv in E as (u & w2 & E2 & E). apply table_emplace_inv in E2 as ->.
  injection E as <- <-. split; [done|]. exists s'. rewrite rows_set_sys. split; [done|].
  by eapply DBPut_step.
Qed.

Lemma ack_deadline_inv (w : W) t w' :
  ack_deadline w = Ret (t, w') -> exists s', w' = set_sys s' w /\ db_same (the_sys w) s'.
Proof.
  intros E. apply bind_inv in E as (now & w1 & E1 & E). apply sysop_inv in E1 as (s' & E1 & ->).
  injection E as _ <-. exists s'. split; [done|]. eapply db_step_keeps; [|exact E1]. auto with keeps.
Qed.

Lemma save_ack_inv dbkey c w b w' : save_ack T dbkey c w = Ret (b, w') ->
  b = true /\ exists s' t,
    w' = set_rows T (emplace (cross_tx_id_ c) (set_send_ack_timeout t c) (rows T w)) (set_sys s' w) /\
    db_step (insert dbkey (cross_tx_info_ c)) (the_sys w) s'.
Proof.
  intros E. apply bind_inv in E as (p & w1 & E1 & E). apply sysop_inv in E1 as (s1 & E1 & ->).
  apply bind_inv in E as (t & w2 & E2 & E). apply ack_deadline_inv in E2 as (s2 & -> & Hs2).
  apply bind_inv in E as (u & w3 & E3 & E). apply table_emplace_inv in E3 as ->.
  injection E as <- <-. split; [done|]. exists s2, t. rewrite !rows_set_sys, set_sys_set. split; [done|].
  rewrite the_sys_set in Hs2. eapply db_step_trans; [by eapply DBPut_step|exact Hs2|done].
Qed.

Lemma save_ack_stamped_inv dbkey c w b w' : save_ack_stamped T dbkey c w = Ret (b, w') ->
  b = true /\ exists s' t,
    w' = set_rows T (emplace (cross_tx_id_ c) (set_send_ack_timeout t c) (rows T w)) (set_sys s' w) /\
    db_step (insert dbkey (cross_tx_info_ c)) (the_sys w) s'.
Proof.
  intros E. apply bind_inv in E as (t & w2 & E2 & E). apply ack_deadline_inv in E2 as (s1 & -> & Hs1).
  apply bind_inv in E as (p & w1 & E1 & E). apply sysop_inv in E1 as (s2 & E1 & ->).
  apply bind_inv in E as (u & w3 & E3 & E). apply table_emplace_inv in E3 as ->.
  injection E as <- <-. split; [done|]. exists s2, t. rewrite !rows_set_sys, set_sys_set. split; [done|].
  rewrite the_sys_set in E1. eapply db_step_trans; [exact Hs1|by eapply DBPut_step|done].
Qed.

Lemma clear_entry_inv dbkey id w b w' : clear_entry T dbkey id w = Ret (b, w') ->
  b = true /\ exists s', w' = set_rows T (delete id (rows T w)) (set_sys s' w) /\
    db_step (delete dbkey) (the_sys w) s'.
Proof.
  intros E. apply bind_inv in E as (p & w1 & E1 & E). apply sysop_inv in E1 as (s' & E1 & ->).
  apply bind_inv in E as (u & w2 & E2 & E). injection E2 as _ <-.
  injection E as <- <-. split; [done|]. exists s'. rewrite rows_set_sys. split; [done|].
  by eapply DBDelete_step.
Qed.

(** Clearing in an open database returns, and the entry is gone. *)
Lemma clear_entry_total dbkey id (w : W) db : content (s_db (the_sys w)) = Some db ->
  exists w', clear_entry T dbkey id w = Ret (true, w') /\ rows T w' !! id = None.
Proof.
  intros Hdb. destruct (content_inv _ _ Hdb) as (h & e & c & bt & Ed & _).
  assert (exists b s', on_database (DBDelete dbkey) (the_sys w) = Ret (b, s')) as (b & s' & E1).
  { unfold on_database, zoom. rewrite Ed. fold (opened h e c bt). rewrite DBDelete_run, delete_ok. by eexists _, _. }
  assert (clear_entry T dbkey id w = Ret (true, set_rows T (delete id (rows T (set_sys s' w))) (set_sys s' w))) as E.
  { unfold clear_entry. unfold sysop at 1, zoom at 1, bind at 1. rewrite E1. done. }
  eexists. split; [exact E|]. rewrite rows_set. apply lookup_delete_eq.
Qed.

(** ** Sending a call and recording it

    The operations that submit a transaction have one shape: nothing changes if
    the submission fails, and otherwise the message, with the hash that came
    back, is saved under its id. *)
Definition accepted (send : M sys (bool * string)) (h : string) : Prop :=
  exists s s', send s = Ret ((true, h), s').
Definition sent_plain (send : M sys (bool * string)) (key : string -> string) (mk : string -> CrossTxInfo) (w : W) (b : bool) (w' : W) : Prop :=
  if b then
    exists s' h, accepted send h /\
      w' = set_rows T (emplace (crosstxid (mk h)) (entry None (mk h)) (rows T w)) (set_sys s' w) /\
      db_step (insert (key (crosstxid (mk h))) (serialize_CrossTxInfo (mk h))) (the_sys w) s'
  else exists s', w' = set_sys s' w /\ db_same (the_sys w) s'.
Definition sent_ack (send : M sys (bool * string)) (key : string -> string) (mk : string -> CrossTxInfo) (w : W) (b : bool) (w' : W) : Prop :=
  if b then
    exists s' t h, accepted send h /\
      w' = set_rows T (emplace (crosstxid (mk h)) (entry (Some t) (mk h)) (rows T w)) (set_sys s' w) /\
      db_step (insert (key (crosstxid (mk h))) (serialize_CrossTxInfo (mk h))) (the_sys w) s'
  else exists s', w' = set_sys s' w /\ db_same (the_sys w) s'.

(** A change of the shared state alone may come first. *)
Lemma sent_plain_from send key mk s1 w b w' :
  db_same (the_sys w) s1 -> sent_plain send key mk (set_sys s1 w) b w' -> sent_plain send key mk w b w'.
Proof.
  intros Hs1. destruct b.
  - intros (s2 & h & Ha & -> & Hs2). exists s2, h. rewrite the_sys_set in Hs2. rewrite rows_set_sys, set_sys_set.
    do 2 (split; [done|]). by eapply db_step_trans.
  - intros (s2 & -> & Hs2). exists s2. rewrite the_sys_set in Hs2. rewrite set_sys_set.
    split; [done|]. by eapply db_step_trans.
Qed.

Lemma sent_ack_from send key mk s1 w b w' :
  db_same (the_sys w) s1 -> sent_ack send key mk (set_sys s1 w) b w' -> sent_ack send key mk w b w'.
Proof.
  intros Hs1. destruct b.
  - intros (s2 & t & h & Ha & -> & Hs2). exists s2, t, h. rewrite the_sys_set in Hs2. rewrite rows_set_sys, set_sys_set.
    do 2 (split; [done|]). by eapply db_step_trans.
  - intros (s2 & -> & Hs2). exists s2. rewrite the_sys_set in Hs2. rewrite set_sys_set.
    split; [done|]. by eapply db_step_trans.
Qed.

Definition new_entry (m : CrossTxInfo) : CrossTx := CrossTx_new (serialize_CrossTxInfo m) m.

Context (key : string -> string) (mk : string -> CrossTxInfo) (send : M sys (bool * string)).
Context (Hsend : keeps s_db send).

Lemma send_plain_inv w b w' :
  (let! r := sysop send in
   if negb r.1 then ret false
   else do! save_plain T (key (crosstxid (mk r.2))) (new_entry (mk r.2)) in ret true) w = Ret (b, w') ->
  sent_plain send key mk w b w'.
Proof.
  intros E. apply bind_inv in E as (r & w1 & E1 & E). apply sysop_inv in E1 as (s1 & E1 & ->).
  pose proof (db_step_keeps _ _ _ _ Hsend E1) as Hs1. destruct r as [[] h]; cbn [negb fst snd] in E.
  - apply bind_inv in E as (u & w2 & E2 & E). injection E as <- <-.
    apply save_plain_inv in E2 as (_ & s2 & -> & Hs2). exists s2, h.
    rewrite rows_set_sys, set_sys_set. split; [by eexists _, _|]. split; [done|]. rewrite the_sys_set in Hs2.
    eapply db_step_trans; [exact Hs1|exact Hs2|done].
  - injection E as <- <-. by exists s1.
Qed.

Lemma send_save_ack_inv (save : string -> CrossTx -> M W bool) w b w' :
  (forall k c w b w', save k c w = Ret (b, w') ->
     b = true /\ exists s' t,
       w' = set_rows T (emplace (cross_tx_id_ c) (set_send_ack_timeout t c) (rows T w)) (set_sys s' w) /\
       db_step (insert k (cross_tx_info_ c)) (the_sys w) s') ->
  (let! r := sysop send in
   if negb r.1 then ret false
   else do! save (key (crosstxid (mk r.2))) (new_entry (mk r.2)) in ret true) w = Ret (b, w') ->
  sent_ack send key mk w b w'.
Proof.
  intros Hsave E. apply bind_inv in E as (r & w1 & E1 & E). apply sysop_inv in E1 as (s1 & E1 & ->).
  pose proof (db_step_keeps _ _ _ _ Hsend E1) as Hs1. destruct r as [[] h]; cbn [negb fst snd] in E.
  - apply bind_inv in E as (u & w2 & E2 & E). injection E as <- <-.
    apply Hsave in E2 as (_ & s2 & t & -> & Hs2). exists s2, t, h.
    rewrite rows_set_sys, set_sys_set. split; [by eexists _, _|]. split; [done|]. rewrite the_sys_set in Hs2.
    eapply db_step_trans; [exact Hs1|exact Hs2|done].
  - injection E as <- <-. by exists s1.
Qed.
End Effects.

(** ** Messages the wire format holds *)
Section Encodable.
Context `{ProtobufLaws}.

Lemma encodable_status v m : encodable m -> encodable (set_status v m).
Proof.
  intros [[H64 H32] Ht]. split; [split|]; [exact H64| |exact Ht].
  apply Forall_cons_2; [by apply (swrap_range 32)|]. by apply Forall_cons_1 in H32 as [_ ?].
Qed.
Lemma encodable_confirmseq v m : - 2 ^ 63 <= v < 2 ^ 63 -> encodable m -> encodable (set_confirmseq v m).
Proof.
  intros Hv [[H64 H32] Ht]. split; [split|]; [|exact H32|exact Ht].
  rewrite !Forall_cons in *. naive_solver.
Qed.
Lemma encodable_sendtxhash h m : text_ok h -> encodable m -> encodable (set_sendtxhash h m).
Proof. intros Hh [Hr Ht]. split; [exact Hr|]. unfold texts in *. cbn. rewrite !Forall_cons in *. naive_solver. Qed.
Lemma encodable_sendacktol1hash h m : text_ok h -> encodable m -> encodable (set_sendacktol1hash h m).
Proof. intros Hh [Hr Ht]. split; [exact Hr|]. unfold texts in *. cbn. rewrite !Forall_cons in *. naive_solver. Qed.
Lemma encodable_sendacktol2hash h m : text_ok h -> encodable m -> encodable (set_sendacktol2hash h m).
Proof. intros Hh [Hr Ht]. split; [exact Hr|]. unfold texts in *. cbn. rewrite !Forall_cons in *. naive_solver. Qed.

(** The message of an entry can be read back. *)
Lemma parse_entry d m : encodable m -> parse_CrossTxInfo (cross_tx_info_ (entry d m)) = (true, m).
Proof. intros [Hr Ht]. destruct d; by apply parse_serialize. Qed.
Lemma entry_id d m : cross_tx_id_ (entry d m) = crosstxid m.
Proof. by destruct d. Qed.

(** A record read from texts of the wire format is one the wire format holds. *)
Lemma encodable_fill d l1 l2 m : text_ok d -> (forall p, p ∈ l1 \/ p ∈ l2 -> text_ok (of_bytes p)) ->
  fill_info d l1 l2 = Ret m -> encodable m.
Proof.
  intros Hd Hp E. unfold fill_info in E.
  apply obind_Ret in E as (id & E1%vec_get_Ret & E). apply obind_Ret in E as (am & E2%vec_get_Ret & E).
  apply obind_Ret in E as (sr & E3%vec_get_Ret & E). apply obind_Ret in E as (st & E4%vec_get_Ret & E).
  apply obind_Ret in E as (rf & E5%vec_get_Ret & E). apply obind_Ret in E as (cr & E6%vec_get_Ret & E).
  apply obind_Ret in E as (ex & E7%vec_get_Ret & E). apply obind_Ret in E as (tm & E8%vec_get_Ret & E).
  injection E as <-. pose proof text_ok_empty. split; [split|].
  - repeat constructor; cbn [amount createtimestamp executetimestamp timeout confirmseq];
      try apply Stol_range; lia.
  - repeat constructor; apply Stoi_range.
  - unfold texts. cbn. repeat constructor; try done;
      try (apply Hp; eauto using list_elem_of_lookup_2; done).
    destruct (l2 !! 5%nat) eqn:E; [|done]. apply Hp. right. by eapply list_elem_of_lookup_2.
Qed.
End Encodable.

(** ** Well-formed tables

    Every entry is filed under the id of its message and made of it by the
    constructor; in the acknowledgement tables it also has a deadline. *)
Section Filed.
Context `{ProtobufLaws}.

Definition deadlined (with_deadline : bool) (d : option Z) : Prop :=
  if with_deadline then is_Some d else d = None.
Definition filed (dl : bool) (t : gmap string CrossTx) : Prop :=
  forall id c, t !! id = Some c ->
    exists m d, crosstxid m = id /\ deadlined dl d /\ encodable m /\ c = entry d m.

Lemma filed_empty dl : filed dl ∅.
Proof. intros id c E. by rewrite lookup_empty in E. Qed.

Lemma filed_emplace dl t d m : filed dl t -> deadlined dl d -> encodable m ->
  filed dl (emplace (crosstxid m) (entry d m) t).
Proof.
  intros Ht Hd Hm id c. rewrite lookup_emplace. case_decide as E; [|apply Ht].
  subst. intros [= <-]. destruct (t !! crosstxid m) as [c|] eqn:E; [by apply Ht|]. by exists m, d.
Qed.

Lemma filed_delete dl t id : filed dl t -> filed dl (delete id t).
Proof. intros Ht id' c E. apply lookup_delete_Some in E as [_ E]. by apply Ht. Qed.

Lemma filed_deadline t k c dl : filed true t -> t !! k = Some c -> filed true (<[k := set_send_ack_timeout dl c]> t).
Proof.
  intros Ht Ek id c' E. apply lookup_insert_Some in E as [[<- <-]|[_ E]]; [|by apply Ht].
  destruct (Ht _ _ Ek) as (m & d & Hm & [t0 ->] & He & ->). exists m, (Some dl). split; [done|].
  split; [by eexists|done].
Qed.
End Filed.
#[export] Hint Resolve filed_empty filed_emplace filed_delete : core.

(** ** Loading a table *)
Section Loading.
Context `{RocksDbLaws} `{!Reliable} `{Clock} `{ProtobufLaws} {W : Type} `{!HasSys W} (T : Table W).

(** What the loop of [Initialize] makes of a list of stored values. *)
Inductive loads (dl : bool) : list string -> gmap string CrossTx -> gmap string CrossTx -> Prop :=
| loads_nil t : loads dl [] t t
| loads_bad v r t t' : (parse_CrossTxInfo v).1 = false -> loads dl r t t' ->
    loads dl (v :: r) t t'
| loads_good v r m d t t' : parse_CrossTxInfo v = (true, m) -> deadlined dl d ->
    loads dl r (emplace (crosstxid m) (entry d m) t) t' -> loads dl (v :: r) t t'.

Lemma load_values_inv dl vs w u w' : load_values T dl vs w = Ret (u, w') ->
  exists s' t', w' = set_rows T t' (set_sys s' w) /\ db_same (the_sys w) s' /\ loads dl vs (rows T w) t'.
Proof.
  revert w. induction vs as [|v vs IH]; intros w E; cbn [load_values] in E.
  { injection E as _ <-. exists (the_sys w), (rows T w). rewrite set_sys_id, set_rows_id.
    split; [done|]. split; [by intros db|constructor]. }
  destruct (parse_CrossTxInfo v) as [[|] m] eqn:Ep;
    apply bind_inv in E as (u1 & w1 & E1 & E); apply IH in E as (s2 & t2 & -> & Hs2 & Hl).
  - assert (exists s1 d, w1 = set_rows T (emplace (crosstxid m) (entry d m) (rows T w)) (set_sys s1 w) /\
      db_same (the_sys w) s1 /\ deadlined dl d) as (s1 & d & -> & Hs1 & Hd).
    { destruct dl.
      - apply bind_inv in E1 as (t & w2 & E2 & E1). apply ack_deadline_inv in E2 as (s1 & -> & Hs1).
        apply table_emplace_inv in E1 as ->. exists s1, (Some t). rewrite rows_set_sys.
        split; [done|]. split; [done|by eexists].
      - apply table_emplace_inv in E1 as ->. exists (the_sys w), None. rewrite set_sys_id.
        split; [done|]. split; [by intros db|done]. }
    rewrite rows_set in Hl. rewrite the_sys_set_rows, the_sys_set in Hs2.
    exists s2, t2. rewrite set_sys_rows, set_sys_set, set_rows_set. split; [done|].
    split; [by eapply db_step_trans|]. by eapply loads_good.
  - injection E1 as _ <-. exists s2, t2. split; [done|]. split; [done|]. apply loads_bad; [by rewrite Ep|done].
Qed.

Lemma loads_spec dl vs t t' : loads dl vs t t' ->
  (forall id, is_Some (t' !! id) <->
     is_Some (t !! id) \/ exists v m, v ∈ vs /\ parse_CrossTxInfo v = (true, m) /\ crosstxid m = id) /\
  ((forall v m, v ∈ vs -> parse_CrossTxInfo v = (true, m) -> encodable m) -> filed dl t -> filed dl t').
Proof.
  induction 1 as [t|v r t t' Hv _ IH|v r m d t t' Hv Hd _ IH].
  - split; [|done]. intros id. split; [by left|]. intros [?|(v & m & Hv & _)]; [done|by apply elem_of_nil in Hv].
  - destruct IH as [IHd IHf]. split; [|intros He; apply IHf; set_solver]. intros id. rewrite IHd.
    setoid_rewrite elem_of_cons. split; [intros [?|(v' & m & ? & ?)]; eauto 10|].
    intros [?|(v' & m & [->|?] & Hp & ?)]; eauto 10. by rewrite Hp in Hv.
  - destruct IH as [IHd IHf]. split.
    + intros id. rewrite IHd, lookup_emplace. setoid_rewrite elem_of_cons. split.
      * intros [Hs|(v' & m' & ? & ?)]; [|eauto 10]. case_decide; [|by left].
        subst. right. exists v, m. auto.
      * intros [Hs|(v' & m' & [->|?] & Hp & <-)]; [| |eauto 10].
        -- left. case_decide; [by eexists|done].
        -- rewrite Hv in Hp. injection Hp as <-. left. rewrite decide_True by done. by eexists.
    + intros He Ht. apply IHf; [set_solver|]. apply filed_emplace; [done..|]. apply (He v); [set_solver|done].
Qed.

Definition stored (db : gmap string string) (prefix : string) (m : CrossTxInfo) : Prop :=
  exists k v, db !! k = Some v /\ starts_with k prefix = true /\ parse_CrossTxInfo v = (true, m).

Lemma load_table_inv prefix dl w u w' db : content (s_db (the_sys w)) = Some db ->
  load_table T prefix dl w = Ret (u, w') ->
  exists s' t', w' = set_rows T t' (set_sys s' w) /\ db_same (the_sys w) s' /\
    (forall id, is_Some (t' !! id) <-> is_Some (rows T w !! id) \/ exists m, stored db prefix m /\ crosstxid m = id) /\
    ((forall m, stored db prefix m -> encodable m) -> filed dl (rows T w) -> filed dl t').
Proof.
  intros Hdb E. apply bind_inv in E as (r & w1 & E1 & E). apply sysop_inv in E1 as (s1 & E1 & ->).
  apply obind_Ret in E1 as ([b d'] & E1 & E2). injection E2 as <- <-.
  destruct (GetAll_open _ _ prefix Hdb) as (ok & l & d2 & E2 & Hc & _ & Hl). rewrite E2 in E1.
  injection E1 as <- <-. cbn [fst snd] in E.
  assert (ok = true) as ->.
  { destruct (content_inv _ _ Hdb) as (h & e & c & bt & Ed & _). rewrite Ed in E2.
    fold (opened h e c bt) in E2. rewrite GetAll_run, iter_ok in E2. by injection E2 as <- _ _. }
  apply load_values_inv in E as (s2 & t' & -> & Hs2 & Hld). apply loads_spec in Hld as [Hd Hf].
  rewrite the_sys_set in Hs2. rewrite rows_set_sys in Hd, Hf. exists s2, t'. rewrite set_sys_set.
  assert (forall v, v ∈ l <-> exists k, db !! k = Some v /\ starts_with k prefix = true) as Hv by by apply Hl.
  split; [done|]. split; [|split].
  - intros db' Hdb'. apply Hs2. cbn. rewrite Hc. congruence.
  - intros id. rewrite Hd. unfold stored. setoid_rewrite Hv. naive_solver.
  - intros He. apply Hf. intros v m (k & ? & ?)%Hv Hp. apply He. by exists k, v.
Qed.
End Loading.

(** ** The database as a mirror of a table *)
Section Mirror.
Context `{ProtobufLaws}.

(** Ids the database keys do not confuse: no NUL, and short enough to format. *)
Definition id_ok (id : string) : Prop := no_nul id = true /\ Z.of_nat (String.length id) < 2 ^ 19.

Definition mirrored (prefix : string) (t : gmap string CrossTx) (db : gmap string string) : Prop :=
  (forall id, is_Some (t !! id) -> id_ok id /\
     exists m, db !! (prefix ++ id)%string = Some (serialize_CrossTxInfo m) /\ crosstxid m = id /\ encodable m) /\
  (forall k v, db !! k = Some v -> starts_with k prefix = true ->
     exists id, k = (prefix ++ id)%string /\ is_Some (t !! id)).

Definition apart (p p' : string) : Prop := forall x, starts_with (p ++ x) p' = false.

Lemma mirrored_save p t db m c :
  mirrored p t db -> id_ok (crosstxid m) -> encodable m ->
  mirrored p (emplace (crosstxid m) c t) (<[(p ++ crosstxid m)%string := serialize_CrossTxInfo m]> db).
Proof.
  intros [Ht Hdb] Hid Henc. split.
  - intros id Hs. rewrite lookup_emplace in Hs. destruct (decide (id = crosstxid m)) as [->|Hne].
    + split; [done|]. exists m. by rewrite lookup_insert_eq.
    + destruct (Ht _ Hs) as [? (m' & E & ?)]. split; [done|]. exists m'. split; [|done].
      rewrite lookup_insert_ne; [done|]. intros E'. by apply (inj (String.append p)) in E'.
  - intros k v E Hp. apply lookup_insert_Some in E as [[<- _]|[_ E]].
    + exists (crosstxid m). split; [done|]. rewrite lookup_emplace, decide_True by done. by eexists.
    + destruct (Hdb _ _ E Hp) as (id & -> & Hs). exists id. split; [done|].
      rewrite lookup_emplace. case_decide; [by eexists|done].
Qed.

Lemma mirrored_other p p' t db x v : apart p' p -> apart p p' ->
  mirrored p t db -> mirrored p t (<[(p' ++ x)%string := v]> db).
Proof.
  intros Ha Ha' [Ht Hdb]. split.
  - intros id Hs. destruct (Ht _ Hs) as [? (m' & E & ?)]. split; [done|]. exists m'. split; [|done].
    rewrite lookup_insert_ne; [done|]. intros E'. specialize (Ha x). by rewrite E', starts_with_app in Ha.
  - intros k u E Hp. apply lookup_insert_Some in E as [[<- _]|[_ E]]; [|by eapply Hdb].
    by rewrite Ha in Hp.
Qed.

Lemma mirrored_clear p t db id :
  mirrored p t db -> mirrored p (delete id t) (delete (p ++ id)%string db).
Proof.
  intros [Ht Hdb]. split.
  - intros id' [c E]. apply lookup_delete_Some in E as [Hne E].
    destruct (Ht id' ltac:(by eexists)) as [? (m & Em & ?)]. split; [done|]. exists m. split; [|done].
    rewrite lookup_delete_ne; [done|]. intros E'. by apply (inj (String.append p)) in E'.
  - intros k v E Hp. apply lookup_delete_Some in E as [Hne E].
    destruct (Hdb _ _ E Hp) as (id' & -> & Hs). exists id'. split; [done|].
    rewrite lookup_delete_ne; [done|]. by intros ->.
Qed.

Lemma mirrored_clear_other p p' t db x : apart p' p -> mirrored p t db -> mirrored p t (delete (p' ++ x)%string db).
Proof.
  intros Ha [Ht Hdb]. split.
  - intros id Hs. destruct (Ht _ Hs) as [? (m' & E & ?)]. split; [done|]. exists m'. split; [|done].
    rewrite lookup_delete_ne; [done|]. intros E'. specialize (Ha x). by rewrite E', starts_with_app in Ha.
  - intros k u E Hp. apply lookup_delete_Some in E as [_ E]. by eapply Hdb.
Qed.

Lemma mirrored_update p t db k c : is_Some (t !! k) -> mirrored p t db -> mirrored p (<[k := c]> t) db.
Proof.
  intros Hk [Ht Hdb].
  assert (forall id, is_Some (<[k := c]> t !! id) <-> is_Some (t !! id)) as E.
  { intros id. rewrite lookup_insert_is_Some'. destruct (decide (id = k)) as [->|]; naive_solver. }
  split; [intros id; rewrite E; apply Ht|]. intros k' v Ek Hp.
  destruct (Hdb _ _ Ek Hp) as (id & ? & ?). exists id. by rewrite E.
Qed.

(** Reading the mirror back finds the ids of the table. *)
Lemma mirrored_stored p t db m : mirrored p t db -> stored db p m -> encodable m /\ is_Some (t !! crosstxid m).
Proof.
  intros [Ht Hdb] (k & v & Ek & Hp & Hm). destruct (Hdb _ _ Ek Hp) as (id & -> & Hs).
  destruct (Ht _ Hs) as [_ (m' & Em & Hid & Henc)]. rewrite Ek in Em. injection Em as ->.
  rewrite parse_serialize in Hm by apply Henc. injection Hm as <-. by rewrite Hid.
Qed.

Lemma mirrored_reload p t db : mirrored p t db ->
  forall id, is_Some (t !! id) <-> exists m, stored db p m /\ crosstxid m = id.
Proof.
  intros Hm id. split.
  - intros Hs. destruct Hm as [Ht Hdb]. destruct (Ht _ Hs) as [_ (m & Em & Hid & Henc)].
    exists m. split; [|done]. exists (p ++ id)%string, (serialize_CrossTxInfo m).
    split; [done|]. split; [apply starts_with_app|]. by apply parse_serialize; apply Henc.
  - intros (m & Hs & <-). by eapply mirrored_stored.
Qed.

Lemma mirrored_same_dom p (t t' : gmap string CrossTx) db : (forall id, is_Some (t' !! id) <-> is_Some (t !! id)) ->
  mirrored p t db -> mirrored p t' db.
Proof.
  intros E [Ht Hdb]. split; [intros id; rewrite E; apply Ht|].
  intros k v Ek Hp. destruct (Hdb _ _ Ek Hp) as (id & ? & ?). exists id. by rewrite E.
Qed.
End Mirror.

(** Format on ids that fit. *)
Lemma Format_key prefix id : Z.of_nat (String.length prefix) < 2 ^ 19 -> id_ok id -> no_nul prefix = true ->
  Format (cstr prefix ++ cstr id)%string = (prefix ++ id)%string.
Proof.
  intros Hp [Hn Hl] Hpn. rewrite !cstr_no_nul by done. apply Format_short.
  assert (forall a b : string, String.length (a ++ b) = (String.length a + String.length b)%nat) as ->.
  { intros a b. induction a as [|c a IH]; [done|]. simpl. f_equal. exact IH. }
  lia.
Qed.

(** ** Ids taken from a record of the contract *)
Lemma no_nul_bytes s : no_nul s = true <-> Forall (fun c => c <> 0) (to_bytes s).
Proof.
  assert (forall a, byte_of_ascii a = 0 <-> a = zero) as Hz.
  { intros a. split; [|by intros ->]. intros E. rewrite <- (ascii_of_byte_of_ascii a), E. done. }
  induction s as [|a s IH]; [done|]. cbn [no_nul]. unfold to_bytes in *. cbn [list_ascii_of_string map].
  rewrite Forall_cons, andb_true_iff, IH, negb_true_iff, Ascii.eqb_neq, <- Hz. done.
Qed.

Lemma length_of_bytes l : String.length (of_bytes l) = length l.
Proof. unfold of_bytes. induction l as [|b l IH]; [done|]. simpl. by f_equal. Qed.

Lemma length_to_bytes s : length (to_bytes s) = String.length s.
Proof. unfold to_bytes. induction s as [|a s IH]; [done|]. simpl. by f_equal. Qed.

Lemma fill_info_id d l1 l2 m : fill_info d l1 l2 = Ret m ->
  exists p, l1 !! 2%nat = Some p /\ crosstxid m = of_bytes p.
Proof.
  unfold fill_info. intros E. apply obind_Ret in E as (p & Ep & E). apply vec_get_Ret in Ep.
  exists p. split; [done|].
  repeat (apply obind_Ret in E as (? & _ & E)). by injection E as <-.
Qed.

Lemma info_id_ok i1 i2 d l m : id_ok i1 -> info_lists i1 i2 = Ret l -> fill_info d l.1 l.2 = Ret m ->
  id_ok (crosstxid m).
Proof.
  intros [Hn Hl] E1 E2. apply fill_info_id in E2 as (p & Hp & ->).
  unfold info_lists in E1. apply obind_Ret in E1 as (l1 & E1 & E). apply obind_Ret in E as (l2 & _ & E).
  injection E as <-. cbn [fst] in Hp. apply list_elem_of_lookup_2 in Hp.
  apply no_nul_bytes in Hn.
  pose proof (bracket_items_pieces (fun c => byte_ok c /\ c <> 0) (to_bytes i1) l1 p) as Hpc.
  destruct Hpc as [Hc Hlen]; [|exact E1|done|].
  { apply Forall_and. split; [apply to_bytes_ok|done]. }
  apply Forall_and in Hc as [Hb Hc]. split.
  - apply no_nul_bytes. by rewrite to_bytes_of_bytes.
  - rewrite length_of_bytes. rewrite length_to_bytes in Hlen. lia.
Qed.
