(* ===== verification/Network.v ===== *)
(** The peer-to-peer network: [Network] and [Connection]
    (src/common/network.cpp) on the sockets of [WssSocketServer] and
    [WssSocketClient] (src/common/network_adapter.cpp).

    A connection is two objects: the adapter's [WssConnection], in a map by its
    handle until it is closed and in a second map by time until it is deleted,
    and the network's [Connection], in a map by its id.  A callback of
    websocketpp, a call and a turn of the check loop are atomic steps, though the
    code takes the lock once for each half of a message and of [Connect], and
    not at all for a pong.  websocketpp is the class [Wspp]; its connections are
    numbers.  Hooks of subclasses are parameters, or do nothing as they do here;
    peers' addresses are only printed, and are left out. *)

From stdpp Require Import sorting.
From S2P Require Import Prelude Ordered Database General Platform Pending.

(** What the [n]-th reading of websocketpp says: the code and text of an
    operation's error, the connection made for an address, and whether an
    accepted connection is still there. *)
Class Wspp := {
  wspp_send : nat -> Z -> string -> Z * string;
  wspp_close : nat -> Z -> string -> Z * string;
  wspp_pause : nat -> Z -> Z * string;
  wspp_get_connection : nat -> string -> option Z * (Z * string);
  wspp_accepted : nat -> Z -> bool;
  wspp_listen : nat -> string -> Z * string;
  wspp_accept : nat -> Z * string;
  wspp_port : nat -> Z
}.
(** [protocol::Ping] and [Pong]: their nonces. *)
Class PingCodec := {
  parse_Ping : string -> option Z;
  parse_Pong : string -> option Z;
  serialize_Ping : Z -> string;
  serialize_Pong : Z -> string
}.

Definition OVERLAY_PING : Z := 1.

(** ** The adapter *)
Record WssConnection := mkWss { con_id : Z; con_hdl : Z; con_uri : string }.
(** [conns] are [server_conns_] or [client_conns_], [delayed] the connections
    to be deleted, by time; [hdl_to_ids_] is the server's. *)
Record Sockets := mkSockets {
  conns : gmap Z WssConnection;
  delayed : gmap Z WssConnection;
  hdl_to_ids_ : gmap Z Z
}.
Definition Sockets_new : Sockets := mkSockets ∅ ∅ ∅.
Definition set_conns (m : gmap Z WssConnection) (s : Sockets) : Sockets := mkSockets m (delayed s) (hdl_to_ids_ s).
Definition set_delayed (m : gmap Z WssConnection) (s : Sockets) : Sockets := mkSockets (conns s) m (hdl_to_ids_ s).
Definition set_hdl_to_ids (m : gmap Z Z) (s : Sockets) : Sockets := mkSockets (conns s) (delayed s) m.

(** [std::map::insert]. *)
Definition insert_new {A} (k : Z) (a : A) (m : gmap Z A) : gmap Z A :=
  match m !! k with Some _ => m | None => <[k := a]> m end.
(** The keys in the order the code walks them. *)
Definition keys_of {A} (m : gmap Z A) : list Z := merge_sort Z.le (map fst (map_to_list m)).

(** ** [Connection] *)
Record Connection := mkConnection {
  in_bound_ : bool;
  handle_ : Z;
  uri_ : string;
  id_ : Z;
  connect_start_time_ : Z;
  connect_end_time_ : Z;
  last_receive_time_ : Z;
  last_send_time_ : Z;
  delay_ : Z;
  sequence_ : Z
}.
Definition set_receive (t : Z) (c : Connection) : Connection :=
  mkConnection (in_bound_ c) (handle_ c) (uri_ c) (id_ c) (connect_start_time_ c) (connect_end_time_ c) t
    (last_send_time_ c) (delay_ c) (sequence_ c).
Definition set_connected_at (t : Z) (c : Connection) : Connection :=
  mkConnection (in_bound_ c) (handle_ c) (uri_ c) (id_ c) (connect_start_time_ c) t t
    (last_send_time_ c) (delay_ c) (sequence_ c).
Definition set_send (t : Z) (c : Connection) : Connection :=
  mkConnection (in_bound_ c) (handle_ c) (uri_ c) (id_ c) (connect_start_time_ c) (connect_end_time_ c)
    (last_receive_time_ c) t (delay_ c) (sequence_ c).
Definition set_delay (d : Z) (c : Connection) : Connection :=
  mkConnection (in_bound_ c) (handle_ c) (uri_ c) (id_ c) (connect_start_time_ c) (connect_end_time_ c)
    (last_receive_time_ c) (last_send_time_ c) d (sequence_ c).
Definition set_sequence (n : Z) (c : Connection) : Connection :=
  mkConnection (in_bound_ c) (handle_ c) (uri_ c) (id_ c) (connect_start_time_ c) (connect_end_time_ c)
    (last_receive_time_ c) (last_send_time_ c) (delay_ c) n.

Section Network.
Context `{RocksDb} `{Clock} `{WsCodec} `{PingCodec} `{Wspp}.
(** What a subclass makes of an opened connection and of the timer; [true] in
    [Network] itself. *)
Context (OnConnectOpen : Connection -> bool) (OnNetworkTimer : Connection -> Z -> bool).

(** [g_id] numbers the adapter's connections; [deleted] are the numbers of those
    that have been deleted. *)
Record Network := mkNetwork {
  n_sys : sys;
  server_ : Sockets;
  client_ : Sockets;
  g_id : Z;
  deleted : list Z;
  connections_ : gmap Z Connection;
  connections_delete_ : gmap Z Connection;
  connection_handles_ : gmap Z Z;
  next_id_ : Z;
  enabled_ : bool;
  thread_inited_ : bool;
  listen_port_ : option Z
}.
#[export] Instance Network_sys : HasSys Network := {|
  the_sys := n_sys;
  set_sys := fun s n => mkNetwork s (server_ n) (client_ n) (g_id n) (deleted n) (connections_ n)
    (connections_delete_ n) (connection_handles_ n) (next_id_ n) (enabled_ n) (thread_inited_ n) (listen_port_ n);
  the_sys_set := fun _ _ => eq_refl; set_sys_set := fun _ _ _ => eq_refl;
  set_sys_id := fun n => match n with mkNetwork _ _ _ _ _ _ _ _ _ _ _ _ => eq_refl end
|}.
Definition Network_new (s : sys) : Network :=
  mkNetwork s Sockets_new Sockets_new 1 [] ∅ ∅ ∅ 0 false false None.
Definition connect_time_out_ : Z := 60 * MICRO_UNITS_PER_SEC.

(** The server's sockets are [true]. *)
Definition sockets (side : bool) (n : Network) : Sockets := if side then server_ n else client_ n.
Definition set_sockets (side : bool) (s : Sockets) (n : Network) : Network :=
  mkNetwork (n_sys n) (if side then s else server_ n) (if side then client_ n else s) (g_id n) (deleted n)
    (connections_ n) (connections_delete_ n) (connection_handles_ n) (next_id_ n) (enabled_ n) (thread_inited_ n) (listen_port_ n).
Definition set_ids (g : Z) (d : list Z) (n : Network) : Network :=
  mkNetwork (n_sys n) (server_ n) (client_ n) g d
    (connections_ n) (connections_delete_ n) (connection_handles_ n) (next_id_ n) (enabled_ n) (thread_inited_ n) (listen_port_ n).
Definition set_tables (c cd : gmap Z Connection) (h : gmap Z Z) (next : Z) (n : Network) : Network :=
  mkNetwork (n_sys n) (server_ n) (client_ n) (g_id n) (deleted n) c cd h next
    (enabled_ n) (thread_inited_ n) (listen_port_ n).
Definition set_status (en th : bool) (port : option Z) (n : Network) : Network :=
  mkNetwork (n_sys n) (server_ n) (client_ n) (g_id n) (deleted n)
    (connections_ n) (connections_delete_ n) (connection_handles_ n) (next_id_ n) en th port.

Notation NM := (M Network).

(** *** Sockets *)
Definition GetConnectFromHandle (side : bool) (id : Z) : NM (option WssConnection) :=
  let! n := get in ret (conns (sockets side n) !! id).

(** A new [WssConnection] takes the next number. *)
Definition new_WssConnection (hdl : Z) (uri : string) : NM WssConnection :=
  let! n := get in
  let! g := lift (s64 (g_id n + 1)) in
  do! modify (set_ids g (deleted n)) in
  ret (mkWss (g_id n) hdl uri).

Definition set_error (e : Z * string) (r : Result) : Result := set_desc (snd e) (set_code (fst e) r).

(** [Send] of either: [ec] is left alone when the handle is unknown. *)
Definition Sockets_Send (side : bool) (handle : Z) (message : string) (ec : Result) : NM (bool * Result) :=
  let! con := GetConnectFromHandle side handle in
  match con with
  | None => ret (false, ec)
  | Some wss_con =>
      let! n := sysop tick in
      let ec := set_error (wspp_send n (con_hdl wss_con) message) ec in
      ret (code_ ec =? 0, ec)
  end.

(** [Close]: the connection waits for its deletion, 15 s on the server's side
    and 300 s on the client's. *)
Definition close_delay (side : bool) : Z := if side then 15 else 300.
Definition Sockets_Close (side : bool) (handle : Z) (reason : string) (ec : Result) : NM (bool * Result) :=
  let! con := GetConnectFromHandle side handle in
  match con with
  | None => ret (false, ec)
  | Some wss_con =>
      let! n := sysop tick in
      let ec := set_error (wspp_close n (con_hdl wss_con) reason) ec in
      let! now := sysop HighResolution in
      let! at_ := lift (s64 (now + close_delay side * MICRO_UNITS_PER_SEC)) in
      do! modify (fun n => set_sockets side (set_delayed (insert_new at_ wss_con (delayed (sockets side n))) (sockets side n)) n) in
      do! modify (fun n => set_sockets side (set_conns (delete handle (conns (sockets side n))) (sockets side n)) n) in
      ret (code_ ec =? 0, ec)
  end.
Definition PauseReading (handle : Z) (ec : Result) : NM (bool * Result) :=
  let! con := GetConnectFromHandle true handle in
  match con with
  | None => ret (false, ec)
  | Some wss_con =>
      let! n := sysop tick in
      let ec := set_error (wspp_pause n (con_hdl wss_con)) ec in
      ret (code_ ec =? 0, ec)
  end.
Definition GetConnect (uri : string) (err : Result) : NM (option WssConnection * Result) :=
  let! n := sysop tick in
  match wspp_get_connection n uri with
  | (None, e) => ret (None, set_error e err)
  | (Some hdl, _) =>
      let! wss_con := new_WssConnection hdl uri in
      do! modify (fun n => set_sockets false (set_conns (<[con_id wss_con := wss_con]> (conns (client_ n))) (client_ n)) n) in
      ret (Some wss_con, err)
  end.
Definition Sockets_Connect (id : Z) : NM bool :=
  let! con := GetConnectFromHandle false id in
  ret (match con with Some _ => true | None => false end).

(** The timer of either: what has waited long enough is deleted. *)
Definition Sockets_OnTimer (side : bool) (current_time : Z) : NM unit :=
  modify (fun n =>
    let s := sockets side n in
    let gone := filter (fun p : Z * WssConnection => p.1 < current_time) (delayed s) in
    set_ids (g_id n) (map (fun p => con_id p.2) (map_to_list gone) ++ deleted n)
      (set_sockets side (set_delayed (filter (fun p => ~ p.1 < current_time) (delayed s)) s) n)).

(** *** [Connection] *)

(** An update of the object with an id; one that is in no table any more is
    not looked at again. *)
Definition update (id : Z) (f : Connection -> Connection) : NM unit :=
  modify (fun n => set_tables (alter f id (connections_ n)) (connections_delete_ n) (connection_handles_ n) (next_id_ n) n).

Definition Connection_new (server : bool) (hdl : Z) (uri : string) (id : Z) : NM Connection :=
  let! now := sysop HighResolution in
  ret (mkConnection server hdl uri id now (if server then now else 0) now 0 0 0).

(** Up to three tries. *)
Fixpoint send_tries (retry : nat) (c : Connection) (message : string) (r : Result) : NM Result :=
  match retry with
  | O => ret r
  | S retry =>
      let! p := Sockets_Send (in_bound_ c) (handle_ c) message r in
      if code_ p.2 =? 0 then ret p.2 else send_tries retry c message p.2
  end.
Definition SendByteMessage (c : Connection) (message : string) : NM bool :=
  let! r := send_tries 3 c message Result_new in ret (code_ r =? 0).
Definition SendMsg (c : Connection) (type : Z) (request : bool) (sequence : Z) (data : string) : NM bool :=
  SendByteMessage c (serialize_WsMessage (mkWsMessage type request sequence data)).
Definition SendRequest (c : Connection) (type : Z) (data : string) : NM bool :=
  let! next := lift (s64 (sequence_ c + 1)) in
  do! update (id_ c) (set_sequence next) in
  SendByteMessage c (serialize_WsMessage (mkWsMessage type true (sequence_ c) data)).
Definition SendResponse (c : Connection) (req_message : WsMessage) (data : string) : NM bool :=
  SendMsg c (ws_type req_message) false (ws_sequence req_message) data.

(** The error code it reports is never set: it is always [true]. *)
Definition PingCustom (c : Connection) : NM bool :=
  let! nonce := sysop HighResolution in
  do! SendRequest c OVERLAY_PING (serialize_Ping nonce) in
  let! now := sysop HighResolution in
  do! update (id_ c) (set_send now) in
  ret true.
Definition Connection_Close (c : Connection) (reason : string) : NM bool :=
  do! (if in_bound_ c then
         let! p := PauseReading (handle_ c) Result_new in
         do! Sockets_Close true (handle_ c) reason p.2 in ret tt
       else do! Sockets_Close false (handle_ c) reason Result_new in ret tt) in
  ret true.

(** The error of a connection that is not there is looked up through the null
    pointer; that of one that is there is not looked up. *)
Definition GetErrorCode (c : Connection) : NM Result :=
  let! con := GetConnectFromHandle (in_bound_ c) (handle_ c) in
  match con with
  | None => lift (Undef NullDeref)
  | Some _ => ret Result_new
  end.

(** How long ago; read only if the connection is up. *)
Definition older (c : Connection) (since interval : Z) : NM bool :=
  if connect_end_time_ c >? 0 then
    let! now := sysop HighResolution in
    let! d := lift (s64 (now - since)) in
    ret (d >? interval)
  else ret false.
Definition NeedPing (c : Connection) (interval : Z) : NM bool := older c (last_send_time_ c) interval.
Definition IsDataExpired (c : Connection) (time_out : Z) : NM bool := older c (last_receive_time_ c) time_out.
Definition TouchReceiveTime (c : Connection) : NM unit :=
  let! now := sysop HighResolution in update (id_ c) (set_receive now).
Definition SetConnectTime (c : Connection) : NM unit :=
  let! now := sysop HighResolution in update (id_ c) (set_connected_at now).
Definition SetDelay (c : Connection) : NM unit :=
  let! now := sysop HighResolution in
  let! d := lift (s64 (now - last_send_time_ c)) in
  update (id_ c) (set_delay (Z.quot d 2)).

(** ** [Network] *)
Definition GetConnection (id : Z) : NM (option Connection) :=
  let! n := get in ret (connections_ n !! id).
Definition GetConnectionFromHandle (hdl : Z) : NM (option Connection) :=
  let! n := get in
  match connection_handles_ n !! hdl with
  | None => ret None
  | Some id => GetConnection id
  end.

Definition RemoveConnection (c : Connection) : NM unit :=
  do! Connection_Close c "no reason" in
  let! now := sysop HighResolution in
  let! at_ := lift (s64 (now + 5 * MICRO_UNITS_PER_SEC)) in
  modify (fun n => set_tables (delete (id_ c) (connections_ n)) (insert_new at_ c (connections_delete_ n))
                     (delete (handle_ c) (connection_handles_ n)) (next_id_ n) n).

(** A new connection gets the next id. *)
Definition add_connection (server : bool) (hdl : Z) (uri : string) : NM Connection :=
  let! n := get in
  let new_id := next_id_ n in
  let! next := lift (s64 (new_id + 1)) in
  do! modify (fun n => set_tables (connections_ n) (connections_delete_ n) (connection_handles_ n) next n) in
  let! conn := Connection_new server hdl uri new_id in
  do! modify (fun n => set_tables (insert_new new_id conn (connections_ n)) (connections_delete_ n)
                         (insert_new hdl new_id (connection_handles_ n)) (next_id_ n) n) in
  ret conn.
Definition OnOpen (hdl : Z) : NM unit :=
  let! conn := add_connection true hdl "" in
  if OnConnectOpen conn then ret tt
  else do! Connection_Close conn "connections exceed" in RemoveConnection conn.
Definition OnClose (hdl : Z) : NM unit :=
  let! conn := GetConnectionFromHandle hdl in
  match conn with Some conn => RemoveConnection conn | None => ret tt end.
Definition OnFailed (hdl : Z) : NM unit :=
  let! conn := GetConnectionFromHandle hdl in
  match conn with
  | Some conn => do! GetErrorCode conn in RemoveConnection conn
  | None => ret tt
  end.
Definition OnClientOpen (hdl : Z) : NM unit :=
  let! conn := GetConnectionFromHandle hdl in
  match conn with
  | Some conn =>
      do! SetConnectTime conn in
      let! c := GetConnection (id_ conn) in
      if OnConnectOpen (default conn c) then ret tt
      else do! Connection_Close conn "no reason" in RemoveConnection conn
  | None => ret tt
  end.
Definition OnPong (hdl : Z) : NM unit :=
  let! conn := GetConnectionFromHandle hdl in
  match conn with Some conn => TouchReceiveTime conn | None => ret tt end.

Definition OnRequestPing (message : WsMessage) (conn_id : Z) : NM bool :=
  match parse_Ping (ws_data message) with
  | None => ret false
  | Some nonce =>
      let! con := GetConnection conn_id in
      match con with
      | None => ret false
      | Some con => SendResponse con message (serialize_Pong nonce)
      end
  end.
Definition OnResponsePing (message : WsMessage) (conn_id : Z) : NM bool :=
  match parse_Pong (ws_data message) with
  | None => ret false
  | Some _ =>
      let! conn := GetConnection conn_id in
      match conn with
      | None => ret true
      | Some conn =>
          do! TouchReceiveTime conn in
          do! SetDelay conn in
          ret true
      end
  end.
(** A message of a known type that is not handled costs the connection. *)
Definition OnMessage (hdl : Z) (msg : string) : NM unit :=
  let message := snd (parse_WsMessage msg) in
  let! conn := GetConnectionFromHandle hdl in
  match conn with
  | None => ret tt
  | Some conn =>
      do! TouchReceiveTime conn in
      if ws_type message =? OVERLAY_PING then
        let! ok := (if ws_request message then OnRequestPing message (id_ conn) else OnResponsePing message (id_ conn)) in
        if ok then ret tt
        else
          let! c := GetConnection (id_ conn) in
          match c with Some c => RemoveConnection c | None => ret tt end
      else ret tt
  end.

Definition Connect (uri : string) : NM bool :=
  let! r := GetConnect uri Result_new in
  match fst r with
  | None => ret false
  | Some con =>
      let handle := con_id con in
      do! add_connection false handle uri in
      do! Sockets_Connect handle in
      ret true
  end.

(** One turn of the loop of [Start] (after ten milliseconds): the connections
    are looked at in order, those that are to go are removed afterwards, and
    what has been removed long enough is dropped. *)
Fixpoint check_all (ids : list Z) (now : Z) : NM (list Connection) :=
  match ids with
  | [] => ret []
  | id :: ids =>
      let! c := GetConnection id in
      match c with
      | None => check_all ids now
      | Some c =>
          let! ping := NeedPing c (Z.quot connect_time_out_ 4) in
          do! (if ping then do! PingCustom c in ret tt else ret tt) in
          let! old := IsDataExpired c connect_time_out_ in
          do! (if old then do! Connection_Close c "expired" in ret tt else ret tt) in
          let! c' := GetConnection id in
          let app := OnNetworkTimer (default c c') now in
          do! (if app then ret tt else do! Connection_Close c "app error" in ret tt) in
          let! rest := check_all ids now in
          ret ((if old then [c] else []) ++ (if app then [] else [c]) ++ rest)
      end
  end.
Fixpoint remove_all (l : list Connection) : NM unit :=
  match l with [] => ret tt | c :: r => do! RemoveConnection c in remove_all r end.
Definition check_turn (last_check_time : Z) : NM Z :=
  let! now := sysop HighResolution in
  let! d := lift (s64 (now - last_check_time)) in
  if d >? MICRO_UNITS_PER_SEC then
    let! n := get in
    let! delete_list := check_all (keys_of (connections_ n)) now in
    do! remove_all delete_list in
    do! modify (fun n => set_tables (connections_ n) (filter (fun p => ~ p.1 < now) (connections_delete_ n))
                           (connection_handles_ n) (next_id_ n) n) in
    ret now
  else ret last_check_time.

(** Listening, before the loop: [None] for [InetAddress::None()]. *)
Definition Start (ip : option string) : NM bool :=
  let! ok := match ip with
    | None => ret true
    | Some ip =>
        let! n := sysop tick in
        if negb (fst (wspp_listen n ip) =? 0) then ret false
        else
          let! n := sysop tick in
          if negb (fst (wspp_accept n) =? 0) then ret false
          else
            let! n := sysop tick in
            do! modify (fun w => set_status (enabled_ w) (thread_inited_ w) (Some (wrap 16 (wspp_port n))) w) in
            ret true
    end in
  if negb ok then do! modify (fun w => set_status (enabled_ w) true (listen_port_ w) w) in ret false
  else do! modify (fun w => set_status true true (listen_port_ w) w) in ret true.
Definition Stop : NM unit := modify (fun w => set_status false (thread_inited_ w) (listen_port_ w) w).

(** ** The callbacks of websocketpp *)

(** The server's come with websocketpp's handle. *)
Definition server_OnOpen (hdl : Z) : NM unit :=
  let! n := sysop tick in
  if negb (wspp_accepted n hdl) then ret tt
  else
    let! con := new_WssConnection hdl "" in
    do! modify (fun n =>
      set_sockets true (mkSockets (<[con_id con := con]> (conns (server_ n))) (delayed (server_ n))
                          (<[hdl := con_id con]> (hdl_to_ids_ (server_ n)))) n) in
    OnOpen (con_id con).
Definition with_id (hdl : Z) (f : Z -> NM unit) : NM unit :=
  let! n := get in
  match hdl_to_ids_ (server_ n) !! hdl with Some id => f id | None => ret tt end.
(** For a handle it does not know it passes -1 on. *)
Definition with_id_or_none (hdl : Z) (f : Z -> NM unit) : NM unit :=
  let! n := get in f (default (-1) (hdl_to_ids_ (server_ n) !! hdl)).

(** The client's come to the connection object itself. *)
Definition client_object (id : Z) (f : NM unit) : NM unit :=
  let! n := get in
  if bool_decide (id ∈ deleted n) then lift (Undef DanglingIterator) else f.

Inductive net_event : Set :=
| Accepted (hdl : Z) | ServerClosed (hdl : Z) | ServerFailed (hdl : Z) | ServerMessage (hdl : Z) (msg : string) | ServerPong (hdl : Z)
| Opened (id : Z) | ClientClosed (id : Z) | ClientFailed (id : Z) | ClientMessage (id : Z) (msg : string) | ClientPong (id : Z)
| ConnectTo (uri : string) | CheckTurn (last_check_time : Z) | SocketTimer (side : bool) (current_time : Z).
Definition net_step (e : net_event) : NM unit :=
  match e with
  | Accepted hdl => server_OnOpen hdl
  | ServerClosed hdl => with_id hdl OnClose
  | ServerFailed hdl => with_id_or_none hdl OnFailed
  | ServerMessage hdl msg => with_id hdl (fun id => OnMessage id msg)
  | ServerPong hdl => with_id_or_none hdl OnPong
  | Opened id => client_object id (OnClientOpen id)
  | ClientClosed id => client_object id (OnClose id)
  | ClientFailed id => client_object id (OnFailed id)
  | ClientMessage id msg => client_object id (OnMessage id msg)
  | ClientPong id => client_object id (OnPong id)
  | ConnectTo uri => do! Connect uri in ret tt
  | CheckTurn last => do! check_turn last in ret tt
  | SocketTimer side t => Sockets_OnTimer side t
  end.
End Network.
