(* ===== verification/NetworkFacts.v ===== *)
(** What holds of the peer-to-peer network: its tables and the adapter's stay in
    step through every callback, call and check, so that the lookups the code
    does not guard succeed; which connections a check removes; and what sending
    to a connection reports. *)

From stdpp Require Import sorting.
From S2P Require Import Prelude Ordered Database General Platform Concrete Pending Network.

Section Facts.
Context `{RocksDb} `{Clock} `{WsCodec} `{PingCodec} `{Wspp}.
Context (OnConnectOpen : Connection -> bool) (OnNetworkTimer : Connection -> Z -> bool).

(** ** The invariant *)

(** A connection's identity does not change. *)
Definition shape (c : Connection) : Z * Z * bool := (id_ c, handle_ c, in_bound_ c).
(** What the invariant is about. *)
Definition skeleton (n : Network) :=
  (shape <$> connections_ n, connection_handles_ n, next_id_ n, g_id n, deleted n, (server_ n, client_ n)).

(** [C] are the handles that are closed while their connection is still to be
    removed; between steps there are none. *)
Record net_inv (C : Z -> Prop) (n : Network) : Prop := {
  inv_id : forall id c, connections_ n !! id = Some c ->
    id_ c = id /\ id < next_id_ n /\ connection_handles_ n !! handle_ c = Some id /\
    (C (handle_ c) \/ is_Some (conns (sockets (in_bound_ c) n) !! handle_ c));
  inv_handle : forall h id, connection_handles_ n !! h = Some id ->
    h < g_id n /\ exists c, connections_ n !! id = Some c /\ handle_ c = h;
  inv_con : forall s h w, conns (sockets s n) !! h = Some w ->
    con_id w = h /\ h < g_id n /\ ~ C h /\
    exists id c, connections_ n !! id = Some c /\ handle_ c = h /\ in_bound_ c = s;
  inv_delayed : forall s t w, delayed (sockets s n) !! t = Some w ->
    con_id w < g_id n /\ forall s', conns (sockets s' n) !! con_id w = None;
  inv_deleted : forall i, i ∈ deleted n -> i < g_id n /\ forall s, conns (sockets s n) !! i = None
}.
Notation none := (fun _ : Z => False).
Definition net_ok (n : Network) : Prop := net_inv none n.

Lemma shape_lookup n id t : (shape <$> connections_ n) !! id = Some t <->
  exists c, connections_ n !! id = Some c /\ shape c = t.
Proof. rewrite lookup_fmap. destruct (connections_ n !! id); cbn; naive_solver. Qed.

Lemma inv_skeleton C n n' : skeleton n' = skeleton n -> net_inv C n -> net_inv C n'.
Proof.
  intros E [I1 I2 I3 I4 I5]. injection E as Ec Eh En Eg Ed Es El.
  assert (forall s, sockets s n' = sockets s n) as Ess by (by intros []).
  assert (forall id c, connections_ n !! id = Some c -> exists c', connections_ n' !! id = Some c' /\ shape c' = shape c) as Hto.
  { intros id c Hc. apply shape_lookup. rewrite Ec. apply shape_lookup. eauto. }
  split.
  - intros id c' Hc'. assert (exists c, connections_ n !! id = Some c /\ shape c = shape c') as (c & Hc & Es').
    { apply shape_lookup. rewrite <- Ec. apply shape_lookup. eauto. }
    injection Es' as E1 E2 E3. rewrite <- E1, <- E2, <- E3, Eh, En, Ess. by apply I1.
  - intros h id Hh. rewrite Eh in Hh. rewrite Eg. destruct (I2 _ _ Hh) as (? & c & Hc & <-). split; [done|].
    destruct (Hto _ _ Hc) as (c' & ? & E'). injection E' as _ E' _. eauto.
  - intros s h w Hw. rewrite Ess in Hw. rewrite Eg. destruct (I3 _ _ _ Hw) as (? & ? & ? & id & c & Hc & <- & <-).
    split; [done|]. split; [done|]. split; [done|].
    destruct (Hto _ _ Hc) as (c' & ? & E'). injection E' as _ E1 E2. eauto.
  - intros s t w Hw. rewrite Ess in Hw. rewrite Eg. destruct (I4 _ _ _ Hw). split; [done|]. intros s'. by rewrite Ess.
  - intros i Hi. rewrite Ed in Hi. rewrite Eg. destruct (I5 _ Hi). split; [done|]. intros s. by rewrite Ess.
Qed.

(** ** What leaves the skeleton as it is *)
Lemma sysop_skeleton {A} (m : M sys A) : keeps skeleton (sysop m).
Proof. by apply keeps_zoom. Qed.
Lemma update_skeleton id f : (forall c, shape (f c) = shape c) -> keeps skeleton (update id f).
Proof.
  intros Hf. apply keeps_modify. intros n. unfold skeleton. cbn. do 5 f_equal.
  apply map_eq. intros i. rewrite !lookup_fmap. destruct (decide (i = id)) as [->|Hne].
  - rewrite lookup_alter_eq. destruct (connections_ n !! id); cbn; [by rewrite Hf|done].
  - by rewrite lookup_alter_ne.
Qed.
#[local] Hint Resolve sysop_skeleton : keeps.
Ltac skeleton_kept :=
  repeat first
    [ apply keeps_ret | apply keeps_lift | apply keeps_get | apply sysop_skeleton
    | apply update_skeleton; intros; reflexivity | solve [eauto 2 with keeps]
    | apply keeps_bind; [|intros] | case_match ].

Lemma GetConnectFromHandle_skeleton s h : keeps skeleton (GetConnectFromHandle s h).
Proof. unfold GetConnectFromHandle. skeleton_kept. Qed.
Lemma GetConnection_skeleton id : keeps skeleton (GetConnection id).
Proof. unfold GetConnection. skeleton_kept. Qed.
#[local] Hint Resolve GetConnectFromHandle_skeleton GetConnection_skeleton : keeps.
Lemma Sockets_Send_skeleton s h m e : keeps skeleton (Sockets_Send s h m e).
Proof. unfold Sockets_Send. skeleton_kept. Qed.
#[local] Hint Resolve Sockets_Send_skeleton : keeps.
Lemma SendByteMessage_skeleton c m : keeps skeleton (SendByteMessage c m).
Proof.
  assert (forall k r, keeps skeleton (send_tries k c m r)) as Ht.
  { induction k as [|k IH]; intros r; cbn [send_tries]; skeleton_kept. }
  unfold SendByteMessage. skeleton_kept.
Qed.
#[local] Hint Resolve SendByteMessage_skeleton : keeps.
Lemma PingCustom_skeleton c : keeps skeleton (PingCustom c).
Proof. unfold PingCustom, SendRequest. skeleton_kept. Qed.
Lemma PauseReading_skeleton h e : keeps skeleton (PauseReading h e).
Proof. unfold PauseReading. skeleton_kept. Qed.
Lemma older_skeleton c t i : keeps skeleton (older c t i).
Proof. unfold older. skeleton_kept. Qed.
Lemma TouchReceiveTime_skeleton c : keeps skeleton (TouchReceiveTime c).
Proof. unfold TouchReceiveTime. skeleton_kept. Qed.
Lemma SetDelay_skeleton c : keeps skeleton (SetDelay c).
Proof. unfold SetDelay. skeleton_kept. Qed.
Lemma SetConnectTime_skeleton c : keeps skeleton (SetConnectTime c).
Proof. unfold SetConnectTime. skeleton_kept. Qed.
#[local] Hint Resolve PingCustom_skeleton PauseReading_skeleton older_skeleton TouchReceiveTime_skeleton
  SetDelay_skeleton SetConnectTime_skeleton : keeps.

Lemma keeps_inv {A} C (m : M Network A) n a n' : keeps skeleton m -> net_inv C n -> m n = Ret (a, n') -> net_inv C n'.
Proof. intros Hk Hi E. eapply inv_skeleton; [by eapply Hk|done]. Qed.

(** ** Closing and removing *)

(** The connection is the one its id leads to, or is gone. *)
Definition live (c : Connection) (n : Network) : Prop :=
  exists c', connections_ n !! id_ c = Some c' /\ shape c' = shape c.
Definition gone (c : Connection) (n : Network) : Prop :=
  connections_ n !! id_ c = None /\ connection_handles_ n !! handle_ c = None.

(** [Close] takes a connection out of the adapter's map, and only there. *)
Lemma Sockets_Close_inv s h reason e n r n' : Sockets_Close s h reason e n = Ret (r, n') ->
  exists sy d, n' = set_sys sy (set_sockets s (mkSockets (delete h (conns (sockets s n))) d (hdl_to_ids_ (sockets s n))) n) /\
    forall t w, d !! t = Some w -> delayed (sockets s n) !! t = Some w \/ conns (sockets s n) !! h = Some w.
Proof.
  unfold Sockets_Close. intros E. apply bind_inv in E as (con & n0 & [= <- <-] & E).
  destruct (conns (sockets s n) !! h) as [w|] eqn:Ec.
  - apply bind_inv in E as (k & n1 & E1 & E). apply sysop_inv in E1 as (s1 & _ & ->).
    apply bind_inv in E as (now & n2 & E2 & E). apply sysop_inv in E2 as (s2 & _ & ->).
    apply bind_inv in E as (at_ & n3 & E3 & E). apply obind_Ret in E3 as (? & _ & [= <- <-]).
    injection E as _ <-. exists s2, (insert_new x w (delayed (sockets s n))). split; [by destruct n, s|].
    intros t w' Ht. unfold insert_new in Ht. destruct (delayed (sockets s n) !! x) eqn:Ex; [by left|].
    destruct (decide (t = x)) as [->|Hne].
    + rewrite lookup_insert_eq in Ht. injection Ht as <-. by right.
    + rewrite lookup_insert_ne in Ht by done. by left.
  - injection E as _ <-. exists (n_sys n), (delayed (sockets s n)). split; [|by left].
    rewrite delete_id by done. destruct n as [? [] [] ? ? ? ? ? ? ? ? ?]; by destruct s.
Qed.

(** A handle belongs to one connection. *)
Lemma same_handle C n id c id' c' : net_inv C n -> connections_ n !! id = Some c -> connections_ n !! id' = Some c' ->
  handle_ c = handle_ c' -> id = id' /\ c = c'.
Proof.
  intros Hi Hc Hc' Hh. destruct (inv_id _ _ Hi _ _ Hc) as (_ & _ & E1 & _).
  destruct (inv_id _ _ Hi _ _ Hc') as (_ & _ & E2 & _). rewrite Hh, E2 in E1. injection E1 as ->. by simplify_eq.
Qed.

Lemma sockets_set s s' k n : sockets s' (set_sockets s k n) = if Bool.eqb s s' then k else sockets s' n.
Proof. by destruct s, s'. Qed.

Lemma Sockets_Close_closes C c reason e n r n' : net_inv C n -> live c n \/ gone c n ->
  Sockets_Close (in_bound_ c) (handle_ c) reason e n = Ret (r, n') ->
  net_inv (fun h => C h \/ h = handle_ c) n' /\ connections_ n' = connections_ n /\ connection_handles_ n' = connection_handles_ n.
Proof.
  intros Hi Hl E. apply Sockets_Close_inv in E as (sy & d & -> & Hd). set (s := in_bound_ c) in *. set (h := handle_ c) in *.
  pose proof Hi as [I1 I2 I3 I4 I5].
  assert (forall s' w, conns (sockets s' n) !! h = Some w -> s' = s /\ exists c', connections_ n !! id_ c = Some c' /\ shape c' = shape c) as Hh.
  { intros s' w Hw. destruct (I3 _ _ _ Hw) as (_ & _ & _ & id & c' & Hc' & Eh & Es). destruct Hl as [(c0 & Hc0 & E0)|[_ Hg]].
    - injection E0 as E1 E2 E3. assert (handle_ c' = handle_ c0) as Ehh by (unfold h in Eh; congruence).
      destruct (same_handle C n _ _ _ _ Hi Hc' Hc0 Ehh) as [-> ->]. split; [unfold s; congruence|].
      exists c0. split; [done|]. unfold shape. congruence.
    - destruct (I1 _ _ Hc') as (_ & _ & E1 & _). unfold h in Eh. rewrite Eh, Hg in E1. done. }
  split; [|by destruct n]. assert (forall s' k, conns (sockets s' (set_sys sy (set_sockets s (mkSockets (delete h (conns (sockets s n))) d
      (hdl_to_ids_ (sockets s n))) n))) !! k = if decide (k = h) then None else conns (sockets s' n) !! k) as Hcs.
  { intros s' k. change (sockets s' (set_sys sy ?m)) with (sockets s' m). rewrite sockets_set.
    destruct (Bool.eqb s s') eqn:Eb.
    - apply eqb_prop in Eb as <-. cbn [conns]. case_decide as Ek; [subst k; apply lookup_delete_eq|by rewrite lookup_delete_ne].
    - case_decide as Ek; [|done]. subst k. destruct (conns (sockets s' n) !! h) as [w|] eqn:Ew; [|done].
      destruct (Hh _ _ Ew) as [-> _]. by rewrite eqb_reflx in Eb. }
  split.
  - intros id c' Hc'. destruct (I1 id c' Hc') as (? & ? & ? & Hor). split; [done|]. split; [done|]. split; [done|].
    destruct (decide (handle_ c' = h)) as [Eh|Hne]; [by left; right|].
    destruct Hor as [?|Hw]; [by left; left|]. right. rewrite Hcs. by rewrite decide_False.
  - intros k id Hk. apply (I2 k id Hk).
  - intros s' k w Hw. rewrite Hcs in Hw. case_decide as Ek; [done|]. destruct (I3 _ _ _ Hw) as (? & ? & ? & Hex).
    split; [done|]. split; [done|]. split; [naive_solver|done].
  - intros s' t w Hw. change (sockets s' (set_sys sy ?m)) with (sockets s' m) in Hw. rewrite sockets_set in Hw.
    assert (delayed (sockets s' n) !! t = Some w \/ conns (sockets s n) !! h = Some w) as [Ho|Hn].
    { destruct (Bool.eqb s s') eqn:Eb; [|by left]. apply eqb_prop in Eb as <-. by apply Hd. }
    + destruct (I4 _ _ _ Ho) as (? & Hno). split; [done|]. intros s''. rewrite Hcs. by case_decide.
    + destruct (I3 _ _ _ Hn) as (Ew & ? & _). rewrite Ew. split; [done|]. intros s''. rewrite Hcs. by rewrite decide_True.
  - intros i Hin. destruct (I5 i Hin) as (? & Hno). split; [done|]. intros s''. rewrite Hcs. by case_decide.
Qed.

(** The tables of the network, which closing leaves alone. *)
Definition tables (n : Network) := (shape <$> connections_ n, connection_handles_ n).
Lemma keeps_tables {A} (m : M Network A) : keeps skeleton m -> keeps tables m.
Proof. intros Hk n a n' E. apply Hk in E. unfold skeleton in E. unfold tables. congruence. Qed.
Lemma live_tables c n n' : tables n' = tables n -> live c n -> live c n'.
Proof.
  intros E (c' & Hc & Es). injection E as E _. apply (shape_lookup n'). rewrite E. apply shape_lookup. eauto.
Qed.
Lemma gone_tables c n n' : tables n' = tables n -> gone c n -> gone c n'.
Proof.
  intros E [Hc Hh]. injection E as E Eh. split; [|by rewrite Eh].
  destruct (connections_ n' !! id_ c) as [c'|] eqn:Ec; [|done].
  destruct (proj1 (shape_lookup n (id_ c) (shape c'))) as (? & ? & _); [|congruence].
  rewrite <- E. apply shape_lookup. eauto.
Qed.

Lemma Connection_Close_closes C c reason n r n' : net_inv C n -> live c n \/ gone c n ->
  Connection_Close c reason n = Ret (r, n') ->
  net_inv (fun h => C h \/ h = handle_ c) n' /\ tables n' = tables n.
Proof.
  intros Hi Hl E. unfold Connection_Close in E. apply bind_inv in E as ([] & n1 & E1 & [= _ <-]).
  destruct (in_bound_ c) eqn:Eb.
  - apply bind_inv in E1 as (p & n2 & E2 & E1). apply bind_inv in E1 as (q & n3 & E3 & [= <-]).
    pose proof (PauseReading_skeleton _ _ _ _ _ E2) as Hs. rewrite <- Eb in E3.
    pose proof (keeps_tables _ (PauseReading_skeleton _ _) _ _ _ E2) as Ht.
    apply (Sockets_Close_closes C c) in E3 as (Hi' & E4 & E5); [|by eapply inv_skeleton|].
    + split; [done|]. rewrite <- Ht. unfold tables. by rewrite E4, E5.
    + destruct Hl; [left; by eapply live_tables|right; by eapply gone_tables].
  - apply bind_inv in E1 as (q & n3 & E3 & [= <-]). rewrite <- Eb in E3.
    apply (Sockets_Close_closes C c) in E3 as (Hi' & E4 & E5); [|done|done].
    split; [done|]. unfold tables. by rewrite E4, E5.
Qed.

(** A removed connection is closed and in no table. *)
Lemma RemoveConnection_removes C c n n' : net_inv C n -> live c n \/ gone c n ->
  RemoveConnection c n = Ret (tt, n') ->
  net_inv (fun h => C h /\ h <> handle_ c) n' /\ gone c n' /\
  connection_handles_ n' = delete (handle_ c) (connection_handles_ n) /\
  shape <$> connections_ n' = delete (id_ c) (shape <$> connections_ n).
Proof.
  intros Hi Hl E. unfold RemoveConnection in E. apply bind_inv in E as (b & n1 & E1 & E).
  apply bind_inv in E as (now & n2 & E2 & E). apply sysop_inv in E2 as (s2 & _ & ->).
  apply bind_inv in E as (at_ & n3 & E3 & E). apply obind_Ret in E3 as (? & _ & [= <- <-]).
  injection E as <-. apply (Connection_Close_closes C c) in E1 as (Hi1 & Ht); [|done|done].
  assert (live c n1 \/ gone c n1) as Hl1 by (destruct Hl; [left; by eapply live_tables|right; by eapply gone_tables]).
  injection Ht as Ec Eh. clear Hl Hi.
  pose proof Hi1 as [I1 I2 I3 I4 I5]. cbn [connections_ connection_handles_ set_tables set_sys Network_sys] in *.
  assert (forall id c', connections_ n1 !! id = Some c' -> id <> id_ c -> handle_ c' <> handle_ c) as Hother.
  { intros id c' Hc' Hne Heq. destruct (I1 _ _ Hc') as (_ & _ & E1 & _). rewrite Heq in E1. destruct Hl1 as [(c0 & Hc0 & E0)|[_ Hg]].
    - injection E0 as _ E0 _. destruct (same_handle _ _ _ _ _ _ Hi1 Hc' Hc0 ltac:(congruence)) as [-> _]. done.
    - by rewrite Hg in E1. }
  split; [split|split; [split|split]]; cbn [connections_ connection_handles_ next_id_ g_id deleted set_tables].
  - intros id c' [Hne Hc']%lookup_delete_Some. destruct (I1 _ _ Hc') as (? & ? & Ehh & Hor).
    pose proof (Hother _ _ Hc' (not_eq_sym Hne)) as Hnh. split; [done|]. split; [done|]. split.
    + by rewrite lookup_delete_ne.
    + destruct Hor as [[?|?]|?]; [by left|done|by right].
  - intros h id [Hne Hh]%lookup_delete_Some. destruct (I2 _ _ Hh) as (? & c' & Hc' & Ehc). split; [done|].
    exists c'. split; [|done]. rewrite lookup_delete_ne; [done|]. intros <-.
    destruct Hl1 as [(c0 & Hc0 & E0)|[Hg _]]; [|congruence]. injection E0 as _ E0 _. congruence.
  - intros s h w Hw. destruct (I3 s h w Hw) as (? & ? & Hc & id & c' & Hc' & Ehc & ?). split; [done|]. split; [done|].
    split; [naive_solver|]. exists id, c'. split; [|done]. rewrite lookup_delete_ne; [done|]. intros <-.
    apply Hc. right. destruct Hl1 as [(c0 & Hc0 & E0)|[Hg _]]; [|congruence]. injection E0 as _ E0 _. congruence.
  - intros s t w Hw. exact (I4 s t w Hw).
  - exact I5.
  - apply lookup_delete_eq.
  - apply lookup_delete_eq.
  - by rewrite Eh.
  - by rewrite fmap_delete, Ec.
Qed.

Lemma removed_stays c c' n n' : live c n \/ gone c n ->
  connection_handles_ n' = delete (handle_ c) (connection_handles_ n) ->
  shape <$> connections_ n' = delete (id_ c) (shape <$> connections_ n) ->
  live c' n \/ gone c' n -> live c' n' \/ gone c' n'.
Proof.
  intros Hl Eh Ec Hl'. destruct (decide (id_ c' = id_ c)) as [E|Hne].
  - right. split.
    + apply (fmap_None shape). rewrite <- lookup_fmap, Ec, E. apply lookup_delete_eq.
    + rewrite Eh. destruct Hl' as [(c1 & Hc1 & E1)|[_ Hg]].
      * destruct Hl as [(c0 & Hc0 & E0)|[Hg _]]; [|congruence].
        assert (handle_ c' = handle_ c) as -> by (unfold shape in *; congruence). apply lookup_delete_eq.
      * rewrite lookup_delete_None. by right.
  - destruct Hl' as [(c1 & Hc1 & E1)|[Hg1 Hg2]].
    + left. apply (shape_lookup n'). rewrite Ec, lookup_delete_ne by done. apply shape_lookup. eauto.
    + right. split.
      * apply (fmap_None shape). rewrite <- lookup_fmap, Ec, lookup_delete_ne, lookup_fmap, Hg1 by done. done.
      * rewrite Eh, lookup_delete_None. by right.
Qed.

Lemma inv_iff C C' n : (forall h, C h <-> C' h) -> net_inv C n -> net_inv C' n.
Proof.
  intros Hc [I1 I2 I3 I4 I5]. split; [|done| |done|done].
  - intros id c Hl. destruct (I1 _ _ Hl) as (? & ? & ? & Hor). rewrite <- Hc. done.
  - intros s h w Hw. destruct (I3 _ _ _ Hw) as (? & ? & ? & ?). rewrite <- Hc. done.
Qed.
Definition of_list (l : list Connection) (h : Z) : Prop := exists c, c ∈ l /\ handle_ c = h.
Lemma of_list_nil h : of_list [] h <-> False.
Proof. split; [|done]. by intros (? & ?%not_elem_of_nil & _). Qed.
Lemma of_list_cons c l h : of_list (c :: l) h <-> h = handle_ c \/ of_list l h.
Proof. unfold of_list. split; [intros (x & [->|?]%elem_of_cons & <-); eauto|]. intros [->|(x & ? & <-)]; [exists c|exists x]; (split; [rewrite elem_of_cons; auto|done]). Qed.
Lemma of_list_app l l' h : of_list (l ++ l') h <-> of_list l h \/ of_list l' h.
Proof. induction l as [|c l IH]; cbn [app]; rewrite ?of_list_nil, ?of_list_cons; [naive_solver|]. rewrite IH. naive_solver. Qed.

Lemma remove_all_ok l C n n' : net_inv C n -> (forall h, C h -> of_list l h) ->
  (forall c, c ∈ l -> live c n \/ gone c n) -> remove_all l n = Ret (tt, n') ->
  net_ok n' /\ shape <$> connections_ n' = filter (fun p => p.1 ∉ map id_ l) (shape <$> connections_ n).
Proof.
  revert C n. induction l as [|c l IH]; intros C n Hi HC Hl E; cbn [remove_all] in E.
  - injection E as <-. split.
    + refine (inv_iff _ _ _ _ Hi). intros h. split; [|done]. intros (? & ?%not_elem_of_nil & _)%HC. done.
    + symmetry. apply map_filter_id. intros i x _. cbn. apply not_elem_of_nil.
  - apply bind_inv in E as ([] & n1 & E1 & E). pose proof (Hl c (list_elem_of_here _ _)) as Hc.
    apply (RemoveConnection_removes C) in E1 as (Hi1 & _ & Eh & Ec); [|done|done].
    apply (IH _ _ Hi1) in E as [Hok Ef].
    + split; [done|]. rewrite Ef, Ec. cbn [map]. apply map_eq. intros i. apply option_eq. intros x.
      rewrite !map_lookup_filter_Some, lookup_delete_Some. cbn. rewrite elem_of_cons. naive_solver.
    + intros h [HCh Hne]. destruct (HC _ HCh) as (c' & [->|Hin]%elem_of_cons & Eq); [done|by exists c'].
    + intros c' Hc'. eapply removed_stays; [exact Hc|done|done|]. apply Hl. by right.
Qed.

Lemma check_close c reason (b : bool) C n x n' : net_inv C n -> live c n ->
  (if b then do! Connection_Close c reason in ret tt else ret tt) n = Ret (x, n') ->
  net_inv (fun h => C h \/ (b = true /\ h = handle_ c)) n' /\ tables n' = tables n.
Proof.
  intros Hi Hl E. destruct b.
  - apply bind_inv in E as (r & n1 & E1 & [= _ <-]).
    apply (Connection_Close_closes C) in E1 as [Hi1 Ht]; [|done|by left]. split; [|done].
    refine (inv_iff _ _ _ _ Hi1). naive_solver.
  - injection E as _ <-. split; [|done]. refine (inv_iff _ _ _ _ Hi). naive_solver.
Qed.

Lemma check_all_ok ids now C n l n' : net_inv C n -> check_all OnNetworkTimer ids now n = Ret (l, n') ->
  net_inv (fun h => C h \/ of_list l h) n' /\ tables n' = tables n /\ forall c, c ∈ l -> live c n'.
Proof.
  revert C n l. induction ids as [|id ids IH]; intros C n l Hi E; cbn [check_all] in E.
  { injection E as <- <-. split; [|split; [done|by intros c ?%not_elem_of_nil]].
    refine (inv_iff _ _ _ _ Hi). intros h. split; [by left|]. intros [?|(? & ?%not_elem_of_nil & _)]; done. }
  apply bind_inv in E as (oc & n0 & [= <- <-] & E).
  destruct (connections_ n !! id) as [c|] eqn:Ec; [|by eapply IH].
  destruct (inv_id _ _ Hi _ _ Ec) as (<- & _).
  assert (live c n) as Hl by (exists c; done).
  apply bind_inv in E as (ping & n1 & E1 & E). unfold NeedPing in E1.
  pose proof (older_skeleton _ _ _ _ _ _ E1) as S1.
  apply bind_inv in E as ([] & n2 & E2 & E).
  assert (skeleton n2 = skeleton n1) as S2.
  { refine ((_ : keeps skeleton _) n1 tt n2 E2). destruct ping; skeleton_kept. }
  apply bind_inv in E as (old & n3 & E3 & E). unfold IsDataExpired in E3.
  pose proof (older_skeleton _ _ _ _ _ _ E3) as S3. rewrite S2, S1 in S3. clear S1 S2 E1 E2 E3.
  assert (tables n3 = tables n) as T3 by (unfold skeleton in S3; unfold tables; congruence).
  apply bind_inv in E as ([] & n4 & E4 & E).
  apply (check_close _ _ _ C) in E4 as [Hi4 T4]; [|by eapply inv_skeleton|by eapply live_tables].
  assert (live c n4) as Hl4 by (eapply live_tables; [exact T4|]; by eapply live_tables).
  apply bind_inv in E as (c' & n5 & [= <- <-] & E). set (app := OnNetworkTimer _ now) in E.
  apply bind_inv in E as ([] & n6 & E6 & E).
  assert ((if negb app then do! Connection_Close c "app error" in ret tt else ret tt) n4 = Ret (tt, n6)) as E6'
    by (by destruct app).
  apply (check_close _ _ _ (fun h => C h \/ (old = true /\ h = handle_ c))) in E6' as [Hi6 T6]; [|done|done].
  apply bind_inv in E as (rest & n7 & E7 & [= <- <-]). apply (IH _ _ _ Hi6) in E7 as (Hi7 & T7 & Hr).
  assert (live c n7) as Hl7 by (apply (live_tables c n4); [congruence|done]).
  split; [|split; [congruence|]].
  - refine (inv_iff _ _ _ _ Hi7). intros h. rewrite !of_list_app.
    destruct old, app; cbn [negb]; rewrite ?of_list_cons, ?of_list_nil; naive_solver.
  - intros c1. rewrite !elem_of_app. intros [Hin|[Hin|Hin]]; [| |by apply Hr];
      destruct old, app; try (by apply not_elem_of_nil in Hin); by apply list_elem_of_singleton in Hin as ->.
Qed.

(** ** New connections *)
Lemma next_free C n : net_inv C n -> connections_ n !! next_id_ n = None.
Proof.
  intros Hi. destruct (connections_ n !! next_id_ n) eqn:E; [|done]. apply (inv_id _ _ Hi) in E as (_ & ? & _). lia.
Qed.
Lemma handle_free C n : net_inv C n -> connection_handles_ n !! g_id n = None.
Proof.
  intros Hi. destruct (connection_handles_ n !! g_id n) eqn:E; [|done]. apply (inv_handle _ _ Hi) in E as (? & _). lia.
Qed.
Lemma con_free C n s : net_inv C n -> conns (sockets s n) !! g_id n = None.
Proof.
  intros Hi. destruct (conns (sockets s n) !! g_id n) eqn:E; [|done]. apply (inv_con _ _ Hi) in E as (_ & ? & _). lia.
Qed.

(** The adapter has a new connection that the network does not know yet. *)
Record accepted (s : bool) (w : WssConnection) (n n' : Network) : Prop := {
  acc_tables : connections_ n' = connections_ n;
  acc_handles : connection_handles_ n' = connection_handles_ n;
  acc_next : next_id_ n' = next_id_ n;
  acc_g : con_id w = g_id n /\ g_id n' = g_id n + 1;
  acc_deleted : deleted n' = deleted n;
  acc_conns : forall s', conns (sockets s' n') = (if Bool.eqb s s' then <[g_id n := w]> (conns (sockets s' n)) else conns (sockets s' n));
  acc_delayed : forall s', delayed (sockets s' n') = delayed (sockets s' n)
}.

Lemma add_connection_inv s hdl uri n c n' : add_connection s hdl uri n = Ret (c, n') ->
  exists sy, n' = set_sys sy (set_tables (insert_new (next_id_ n) c (connections_ n)) (connections_delete_ n)
                       (insert_new hdl (next_id_ n) (connection_handles_ n)) (next_id_ n + 1) n) /\
    id_ c = next_id_ n /\ handle_ c = hdl /\ in_bound_ c = s.
Proof.
  unfold add_connection. intros E. apply bind_inv in E as (? & ? & [= <- <-] & E).
  apply bind_inv in E as (x & ? & E1 & E). apply obind_Ret in E1 as (? & E1 & [= <- <-]).
  apply bind_inv in E as (? & ? & [= <- <-] & E). apply bind_inv in E as (conn & n2 & E2 & E).
  unfold Connection_new in E2. apply bind_inv in E2 as (now & n3 & E3 & [= <- <-]). apply sysop_inv in E3 as (sy & _ & ->).
  injection E as <- <-. unfold s64 in E1. destruct (in_s64 _); [|done]. injection E1 as <-. by exists sy.
Qed.

Lemma added_ok s w uri n0 n1 c n2 : net_ok n0 -> accepted s w n0 n1 -> add_connection s (con_id w) uri n1 = Ret (c, n2) ->
  net_ok n2 /\ live c n2.
Proof.
  intros Hi [A1 A2 A3 [A4 A4'] A5 A6 A7] E. apply add_connection_inv in E as (sy & -> & Eid & Eh & Es).
  pose proof (next_free _ _ Hi) as Fn. pose proof (handle_free _ _ Hi) as Fh. pose proof (con_free _ _ true Hi) as Ft.
  pose proof (con_free _ _ false Hi) as Ff. pose proof Hi as [I1 I2 I3 I4 I5].
  rewrite A3, A4 in *. unfold insert_new. rewrite A1, A2, Fn, Fh.
  set (n2 := set_sys _ _).
  assert (forall s', sockets s' n2 = sockets s' n1) as Hs by done.
  assert (connections_ n2 = <[next_id_ n0 := c]> (connections_ n0)) as B1 by done.
  assert (connection_handles_ n2 = <[g_id n0 := next_id_ n0]> (connection_handles_ n0)) as B2 by done.
  assert (next_id_ n2 = next_id_ n0 + 1 /\ g_id n2 = g_id n0 + 1 /\ deleted n2 = deleted n0) as (B3 & B4 & B5) by done.
  clearbody n2.
  split.
  - split.
    + intros id c' Hc'. rewrite B1 in Hc'. rewrite B2, B3, Hs, A6. apply lookup_insert_Some in Hc' as [[<- <-]|[Hne Hc']].
      * split; [done|]. split; [lia|]. rewrite Eh, lookup_insert_eq. split; [done|]. right.
        rewrite Es, eqb_reflx, lookup_insert_eq. by eexists.
      * destruct (I1 _ _ Hc') as (? & ? & Hh & [[]|Hc]). split; [done|]. split; [lia|].
        assert (handle_ c' <> g_id n0) by (intros Eq; rewrite Eq, Fh in Hh; done).
        split; [by rewrite lookup_insert_ne|]. right. destruct (Bool.eqb s (in_bound_ c')); [|done].
        by rewrite lookup_insert_ne.
    + intros h id Hh. rewrite B2 in Hh. rewrite B1, B4.
      apply lookup_insert_Some in Hh as [[<- <-]|[Hne Hh]].
      * split; [lia|]. exists c. by rewrite lookup_insert_eq.
      * destruct (I2 _ _ Hh) as (? & c' & Hc' & ?). split; [lia|]. exists c'. rewrite lookup_insert_ne; [done|].
        intros <-. congruence.
    + intros s' h w' Hw. rewrite Hs, A6 in Hw. rewrite B1, B4.
      assert ((s' = s /\ h = g_id n0 /\ w' = w) \/ conns (sockets s' n0) !! h = Some w') as [(-> & -> & ->)|Ho].
      { destruct (Bool.eqb s s') eqn:Eb; [|by right]. apply eqb_prop in Eb as <-.
        apply lookup_insert_Some in Hw as [[<- <-]|[_ Hw]]; [by left|by right]. }
      * split; [done|]. split; [lia|]. split; [auto|]. exists (next_id_ n0), c. by rewrite lookup_insert_eq.
      * destruct (I3 _ _ _ Ho) as (? & ? & ? & id & c' & Hc' & ? & ?). split; [done|]. split; [lia|]. split; [done|].
        exists id, c'. rewrite lookup_insert_ne; [done|]. intros <-. congruence.
    + intros s' t w' Hw. rewrite Hs, A7 in Hw. destruct (I4 _ _ _ Hw) as (? & Hno).
      rewrite B4. split; [lia|]. intros s''. rewrite Hs, A6.
      destruct (Bool.eqb s s''); [|apply Hno]. rewrite lookup_insert_ne by lia. apply Hno.
    + intros i Hin. rewrite B5 in Hin. rewrite B4.
      destruct (I5 _ Hin) as (? & Hno). split; [lia|]. intros s''. rewrite Hs, A6.
      destruct (Bool.eqb s s''); [|apply Hno]. rewrite lookup_insert_ne by lia. apply Hno.
  - exists c. split; [|done]. by rewrite B1, Eid, lookup_insert_eq.
Qed.

(** ** Every step keeps the invariant *)
Lemma remove_live c n n' : net_ok n -> live c n -> RemoveConnection c n = Ret (tt, n') -> net_ok n'.
Proof.
  intros Hi Hl E. apply (RemoveConnection_removes none) in E as (Hi' & _); [|done|by left].
  refine (inv_iff _ _ _ _ Hi'). naive_solver.
Qed.
Lemma close_and_remove c reason n n' : net_ok n -> live c n ->
  (do! Connection_Close c reason in RemoveConnection c) n = Ret (tt, n') -> net_ok n'.
Proof.
  intros Hi Hl E. apply bind_inv in E as (r & n1 & E1 & E).
  apply (Connection_Close_closes none) in E1 as [Hi1 Ht]; [|done|by left].
  apply (RemoveConnection_removes _ _ _ _ Hi1) in E as (Hi' & _); [|left; by eapply live_tables].
  refine (inv_iff _ _ _ _ Hi'). naive_solver.
Qed.
Lemma GetConnection_inv id n oc n' : GetConnection id n = Ret (oc, n') -> n' = n /\ oc = connections_ n !! id.
Proof. by intros [= <- <-]. Qed.
Lemma GetConnectionFromHandle_inv h n oc n' : net_ok n -> GetConnectionFromHandle h n = Ret (oc, n') ->
  n' = n /\ match oc with Some c => live c n /\ handle_ c = h | None => connection_handles_ n !! h = None end.
Proof.
  intros Hi E. unfold GetConnectionFromHandle in E. apply bind_inv in E as (? & ? & [= <- <-] & E).
  destruct (connection_handles_ n !! h) as [id|] eqn:Eh; [|by injection E as <- <-].
  apply GetConnection_inv in E as [-> ->]. split; [done|].
  destruct (inv_handle _ _ Hi _ _ Eh) as (_ & c & Hc & <-). rewrite Hc. split; [|done].
  exists c. split; [|done]. by destruct (inv_id _ _ Hi _ _ Hc) as (-> & _).
Qed.
Lemma live_skeleton c n n' : skeleton n' = skeleton n -> live c n -> live c n'.
Proof. intros E. apply live_tables. unfold skeleton in E. unfold tables. congruence. Qed.
Lemma found_live id n c : net_ok n -> connections_ n !! id = Some c -> live c n.
Proof. intros Hi Hc. exists c. split; [|done]. by destruct (inv_id _ _ Hi _ _ Hc) as (-> & _). Qed.

Lemma OnClose_ok h n n' : net_ok n -> OnClose h n = Ret (tt, n') -> net_ok n'.
Proof.
  intros Hi E. unfold OnClose in E. apply bind_inv in E as (oc & n1 & E1 & E).
  apply GetConnectionFromHandle_inv in E1 as [-> Hc]; [|done]. destruct oc as [c|]; [|by injection E as <-].
  eapply remove_live; [exact Hi|apply Hc|exact E].
Qed.
Lemma OnFailed_ok h n n' : net_ok n -> OnFailed h n = Ret (tt, n') -> net_ok n'.
Proof.
  intros Hi E. unfold OnFailed in E. apply bind_inv in E as (oc & n1 & E1 & E).
  apply GetConnectionFromHandle_inv in E1 as [-> Hc]; [|done]. destruct oc as [c|]; [|by injection E as <-].
  apply bind_inv in E as (r & n2 & E2 & E). assert (skeleton n2 = skeleton n) as S2.
  { refine ((_ : keeps skeleton (GetErrorCode c)) n r n2 E2). unfold GetErrorCode. skeleton_kept. }
  eapply remove_live; [by eapply inv_skeleton|by eapply live_skeleton, Hc|exact E].
Qed.
Lemma OnClientOpen_ok h n n' : net_ok n -> OnClientOpen OnConnectOpen h n = Ret (tt, n') -> net_ok n'.
Proof.
  intros Hi E. unfold OnClientOpen in E. apply bind_inv in E as (oc & n1 & E1 & E).
  apply GetConnectionFromHandle_inv in E1 as [-> Hc]; [|done]. destruct oc as [c|]; [|by injection E as <-].
  apply bind_inv in E as ([] & n2 & E2 & E). pose proof (SetConnectTime_skeleton _ _ _ _ E2) as S2.
  assert (net_ok n2) as Hi2 by (by eapply inv_skeleton).
  apply bind_inv in E as (oc & n3 & E3 & E). apply GetConnection_inv in E3 as [-> _].
  destruct (OnConnectOpen _); [by injection E as <-|].
  eapply close_and_remove; [exact Hi2|by eapply live_skeleton, Hc|exact E].
Qed.
Lemma OnMessage_ok h msg n n' : net_ok n -> OnMessage h msg n = Ret (tt, n') -> net_ok n'.
Proof.
  intros Hi E. unfold OnMessage in E. apply bind_inv in E as (oc & n1 & E1 & E).
  apply GetConnectionFromHandle_inv in E1 as [-> Hc]; [|done]. destruct oc as [c|]; [|by injection E as <-].
  apply bind_inv in E as ([] & n2 & E2 & E). pose proof (TouchReceiveTime_skeleton _ _ _ _ E2) as S2.
  assert (net_ok n2) as Hi2 by (by eapply inv_skeleton).
  destruct (ws_type _ =? OVERLAY_PING); [|by injection E as <-].
  apply bind_inv in E as (ok & n3 & E3 & E). assert (skeleton n3 = skeleton n2) as S3.
  { refine ((_ : keeps skeleton _) n2 ok n3 E3). unfold OnRequestPing, OnResponsePing, SendResponse, SendMsg. skeleton_kept. }
  assert (net_ok n3) as Hi3 by (by eapply inv_skeleton). destruct ok; [by injection E as <-|].
  apply bind_inv in E as (oc & n4 & E4 & E). apply GetConnection_inv in E4 as [-> ->].
  destruct (connections_ n3 !! id_ c) as [c'|] eqn:Ec; [|by injection E as <-].
  eapply remove_live; [exact Hi3|by eapply found_live|exact E].
Qed.

Lemma new_WssConnection_inv hdl uri n w n' : new_WssConnection hdl uri n = Ret (w, n') ->
  w = mkWss (g_id n) hdl uri /\ n' = set_ids (g_id n + 1) (deleted n) n.
Proof.
  unfold new_WssConnection. intros E. apply bind_inv in E as (? & ? & [= <- <-] & E).
  apply bind_inv in E as (x & ? & E1 & E). apply obind_Ret in E1 as (? & E1 & [= <- <-]).
  unfold s64 in E1. destruct (in_s64 _); [|done]. injection E1 as <-. by injection E as <- <-.
Qed.
Lemma server_OnOpen_ok hdl n n' : net_ok n -> server_OnOpen OnConnectOpen hdl n = Ret (tt, n') -> net_ok n'.
Proof.
  intros Hi E. unfold server_OnOpen in E. apply bind_inv in E as (k & n1 & E1 & E).
  apply sysop_inv in E1 as (sy & _ & ->). destruct (wspp_accepted k hdl); cbn [negb] in E;
    [|injection E as <-; by eapply inv_skeleton; [|exact Hi]].
  apply bind_inv in E as (w & n2 & E2 & E). apply new_WssConnection_inv in E2 as [-> ->].
  apply bind_inv in E as ([] & n3 & [= <-] & E). unfold OnOpen in E.
  apply bind_inv in E as (c & n4 & E4 & E).
  apply (added_ok true (mkWss (g_id n) hdl "") "" n) in E4 as [Hi4 Hl]; [|exact Hi|split; [done..|by intros []|by intros []]].
  destruct (OnConnectOpen c); [by injection E as <-|]. by eapply close_and_remove.
Qed.
Lemma Connect_ok uri n b n' : net_ok n -> Connect uri n = Ret (b, n') -> net_ok n'.
Proof.
  intros Hi E. unfold Connect in E. apply bind_inv in E as (r & n1 & E1 & E). unfold GetConnect in E1.
  apply bind_inv in E1 as (k & n2 & E2 & E1). apply sysop_inv in E2 as (sy & _ & ->).
  destruct (wspp_get_connection k uri) as [[hdl|] e].
  - apply bind_inv in E1 as (w & n3 & E3 & E1). apply new_WssConnection_inv in E3 as [-> ->].
    apply bind_inv in E1 as ([] & n4 & [= <-] & [= <- <-]). cbn [fst] in E.
    apply bind_inv in E as (c & n5 & E5 & E).
    apply (added_ok false (mkWss (g_id n) hdl uri) uri n) in E5 as [Hi5 _]; [|exact Hi|split; [done..|by intros []|by intros []]].
    apply bind_inv in E as (x & n6 & E6 & [= _ <-]). by injection E6 as _ <-.
  - injection E1 as <- <-. injection E as _ <-. by eapply inv_skeleton; [|exact Hi].
Qed.
(** What a turn removes is what its check lists. *)
Lemma check_turn_ok last n t n' : net_ok n -> check_turn OnNetworkTimer last n = Ret (t, n') ->
  net_ok n' /\ exists l, shape <$> connections_ n' = filter (fun p => p.1 ∉ map id_ l) (shape <$> connections_ n) /\
    (l = [] \/ exists sy ids now n1, check_all OnNetworkTimer ids now (set_sys sy n) = Ret (l, n1)).
Proof.
  intros Hi E. unfold check_turn in E. apply bind_inv in E as (now & n1 & E1 & E). apply sysop_inv in E1 as (sy & _ & ->).
  apply bind_inv in E as (d & n2 & E2 & E). apply obind_Ret in E2 as (? & _ & [= <- <-]).
  assert (net_ok (set_sys sy n)) as Hi1 by (by eapply inv_skeleton; [|exact Hi]).
  destruct (x >? MICRO_UNITS_PER_SEC).
  - apply bind_inv in E as (? & ? & [= <- <-] & E). apply bind_inv in E as (l & n3 & E3 & E).
    pose proof E3 as Ec. apply (check_all_ok _ _ none) in E3 as (Hi3 & T3 & Hl); [|done].
    apply bind_inv in E as ([] & n4 & E4 & E). apply (remove_all_ok _ _ _ _ Hi3) in E4 as [Hok Ef].
    + apply bind_inv in E as ([] & n5 & [= <-] & [= _ <-]). split; [by eapply inv_skeleton; [|exact Hok]|].
      exists l. split; [|right; do 4 eexists; exact Ec]. injection T3 as T3 _. cbn [connections_ set_tables]. by rewrite Ef, T3.
    + by intros h [[]|?].
    + intros c Hc. left. by apply Hl.
  - injection E as _ <-. split; [exact Hi1|]. exists []. split; [|by left]. symmetry. apply map_filter_id.
    intros i p _. cbn. apply not_elem_of_nil.
Qed.
Lemma Sockets_OnTimer_ok s t n n' : net_ok n -> Sockets_OnTimer s t n = Ret (tt, n') -> net_ok n'.
Proof.
  intros Hi E. unfold Sockets_OnTimer, modify in E. injection E as <-. set (n' := set_ids _ _ _).
  assert (forall s', conns (sockets s' n') = conns (sockets s' n)) as Hc by (by intros []; destruct s).
  assert (forall s' k w, delayed (sockets s' n') !! k = Some w -> delayed (sockets s' n) !! k = Some w) as Hd.
  { intros s' k w Hw. destruct s, s'; cbn in Hw |- *; try exact Hw; by apply map_lookup_filter_Some in Hw as [? _]. }
  assert (deleted n' = map (fun p => con_id p.2) (map_to_list (filter (fun p : Z * WssConnection => p.1 < t) (delayed (sockets s n)))) ++ deleted n)
    as Hdel by done.
  assert (connections_ n' = connections_ n /\ connection_handles_ n' = connection_handles_ n /\ next_id_ n' = next_id_ n /\ g_id n' = g_id n)
    as (B1 & B2 & B3 & B4) by (by destruct s). clearbody n'. destruct Hi as [I1 I2 I3 I4 I5]. split.
  - intros id c. rewrite B1, B2, B3, Hc. apply I1.
  - intros h id. rewrite B1, B2, B4. apply I2.
  - intros s' h w. rewrite Hc, B1, B4. apply I3.
  - intros s' k w Hw%Hd. rewrite B4. destruct (I4 _ _ _ Hw). split; [done|]. intros s''. by rewrite Hc.
  - intros i Hin. rewrite B4. assert (i < g_id n /\ forall s', conns (sockets s' n) !! i = None) as [? Hno].
    { rewrite Hdel in Hin. apply elem_of_app in Hin as [([k w] & -> & Hkw)%list_elem_of_fmap|Hin]; [|by apply I5].
      apply elem_of_map_to_list, map_lookup_filter_Some in Hkw as [Hkw _]. by eapply I4. }
    split; [done|]. intros s'. by rewrite Hc.
Qed.

Lemma OnPong_skeleton h : keeps skeleton (OnPong h).
Proof. unfold OnPong, GetConnectionFromHandle. skeleton_kept. Qed.

Lemma with_id_ok hdl f n n' : net_ok n -> (forall h, f h n = Ret (tt, n') -> net_ok n') ->
  with_id hdl f n = Ret (tt, n') -> net_ok n'.
Proof.
  intros Hi Hf E. unfold with_id in E. apply bind_inv in E as (? & ? & [= <- <-] & E).
  destruct (hdl_to_ids_ (server_ n) !! hdl); [by eapply Hf|by injection E as <-].
Qed.
Lemma with_id_or_none_ok hdl f n n' : (forall h, f h n = Ret (tt, n') -> net_ok n') ->
  with_id_or_none hdl f n = Ret (tt, n') -> net_ok n'.
Proof. intros Hf E. apply bind_inv in E as (? & ? & [= <- <-] & E). by eapply Hf. Qed.
Lemma client_object_ok id f n n' : (f n = Ret (tt, n') -> net_ok n') -> client_object id f n = Ret (tt, n') -> net_ok n'.
Proof. intros Hf E. apply bind_inv in E as (? & ? & [= <- <-] & E). case_bool_decide; [done|]. by apply Hf. Qed.

Lemma net_step_ok e n n' : net_ok n -> net_step OnConnectOpen OnNetworkTimer e n = Ret (tt, n') -> net_ok n'.
Proof.
  intros Hi. destruct e; cbn [net_step];
    try (apply with_id_ok; [exact Hi|intros h]); try (apply with_id_or_none_ok; intros h);
    try apply client_object_ok; intros E.
  - by eapply server_OnOpen_ok.
  - by eapply OnClose_ok.
  - by eapply OnFailed_ok.
  - by eapply OnMessage_ok.
  - eapply keeps_inv; [apply OnPong_skeleton|exact Hi|exact E].
  - by eapply OnClientOpen_ok.
  - by eapply OnClose_ok.
  - by eapply OnFailed_ok.
  - by eapply OnMessage_ok.
  - eapply keeps_inv; [apply OnPong_skeleton|exact Hi|exact E].
  - apply bind_inv in E as (b & n1 & E & [= <-]). by eapply Connect_ok.
  - apply bind_inv in E as (b & n1 & E & [= <-]). by apply check_turn_ok in E as [? _].
  - by eapply Sockets_OnTimer_ok.
Qed.

Lemma net_ok_new s : net_ok (Network_new s).
Proof. split; [done|done|by intros []|by intros []|by intros ? ?%not_elem_of_nil]. Qed.

(** What the network can come to, by any callbacks, calls and checks in any
    order. *)
Inductive net_reachable : Network -> Prop :=
| reach_new s : net_reachable (Network_new s)
| reach_step n e n' : net_reachable n -> net_step OnConnectOpen OnNetworkTimer e n = Ret (tt, n') -> net_reachable n'.
Fixpoint net_run (events : list net_event) : M Network unit :=
  match events with
  | [] => ret tt
  | e :: r => do! net_step OnConnectOpen OnNetworkTimer e in net_run r
  end.
Lemma net_run_reachable events n n' : net_reachable n -> net_run events n = Ret (tt, n') -> net_reachable n'.
Proof.
  revert n. induction events as [|e r IH]; intros n Hn E; [by injection E as <-|].
  apply bind_inv in E as ([] & n1 & E1 & E). by eapply IH, E; eapply reach_step.
Qed.
Lemma net_reachable_ok n : net_reachable n -> net_ok n.
Proof. induction 1; [apply net_ok_new|by eapply net_step_ok]. Qed.

(** ** The null pointer *)
Definition no_null {W A} (m : M W A) : Prop := forall w, m w <> Undef NullDeref.
Lemma no_null_bind {W A B} (m : M W A) (k : A -> M W B) : no_null m -> (forall a, no_null (k a)) -> no_null (bind m k).
Proof. intros Hm Hk n. unfold bind, obind. specialize (Hm n). destruct (m n) as [[a n']| | |]; [apply Hk|done|congruence|done]. Qed.
Lemma no_null_sysop {A} (m : M sys A) : no_null m -> no_null (sysop (W := Network) m).
Proof. intros Hm n. unfold sysop, zoom, obind. specialize (Hm (the_sys n)). destruct (m (the_sys n)); [done|done|congruence|done]. Qed.
Lemma no_null_s64 {W} z : no_null (W := W) (lift (s64 z)).
Proof. intros n. unfold lift, s64. by destruct (in_s64 z). Qed.
Lemma no_null_HighResolution : no_null HighResolution.
Proof.
  unfold HighResolution. apply no_null_bind; [done|]. intros n. destruct (clock_monotonic n) as [sec nsec].
  repeat (apply no_null_bind; [|intros]); try done. case_match; [|done].
  apply no_null_bind; [|done]. apply no_null_bind; [done|]. intros k. by destruct (time_of_day k).
Qed.
#[local] Hint Resolve no_null_sysop no_null_s64 no_null_HighResolution : no_null.
Ltac no_null_by := repeat first
  [ solve [intros ?; discriminate] | solve [eauto 3 with no_null] | apply no_null_sysop; solve [intros ?; discriminate]
  | apply no_null_bind; [|intros] | case_match ].

Lemma send_tries_no_null k c m r : no_null (send_tries k c m r).
Proof. revert r. induction k as [|k IH]; intros r; cbn [send_tries]; unfold Sockets_Send, GetConnectFromHandle; no_null_by. Qed.
Lemma SendRequest_no_null c t d : no_null (SendRequest c t d).
Proof. pose proof send_tries_no_null. unfold SendRequest, SendByteMessage. no_null_by. Qed.
Lemma RemoveConnection_no_null c : no_null (RemoveConnection c).
Proof.
  unfold RemoveConnection, Connection_Close, PauseReading, Sockets_Close, GetConnectFromHandle. no_null_by.
Qed.
Lemma Connection_Close_no_null c reason : no_null (Connection_Close c reason).
Proof. unfold Connection_Close, PauseReading, Sockets_Close, GetConnectFromHandle. no_null_by. Qed.
#[local] Hint Resolve send_tries_no_null SendRequest_no_null RemoveConnection_no_null Connection_Close_no_null : no_null.

Lemma older_no_null c t i : no_null (older c t i).
Proof. unfold older. no_null_by. Qed.
Lemma PingCustom_no_null c : no_null (PingCustom c).
Proof. unfold PingCustom. no_null_by. Qed.
Lemma TouchReceiveTime_no_null c : no_null (TouchReceiveTime c).
Proof. unfold TouchReceiveTime. no_null_by. Qed.
Lemma SendByteMessage_no_null c m : no_null (SendByteMessage c m).
Proof. unfold SendByteMessage. no_null_by. Qed.
#[local] Hint Resolve older_no_null PingCustom_no_null TouchReceiveTime_no_null SendByteMessage_no_null : no_null.
Lemma check_all_no_null ids now : no_null (check_all OnNetworkTimer ids now).
Proof.
  induction ids as [|id ids IH]; cbn [check_all]; [done|]. unfold GetConnection, NeedPing, IsDataExpired. no_null_by.
Qed.
Lemma remove_all_no_null l : no_null (remove_all l).
Proof. induction l as [|c l IH]; cbn [remove_all]; [done|]. no_null_by. Qed.
Lemma GetConnectionFromHandle_no_null h : no_null (GetConnectionFromHandle h).
Proof. unfold GetConnectionFromHandle, GetConnection. no_null_by. Qed.
Lemma add_connection_no_null s h u : no_null (add_connection s h u).
Proof. unfold add_connection, Connection_new. no_null_by. Qed.
Lemma new_WssConnection_no_null h u : no_null (new_WssConnection h u).
Proof. unfold new_WssConnection. no_null_by. Qed.
#[local] Hint Resolve check_all_no_null remove_all_no_null GetConnectionFromHandle_no_null add_connection_no_null
  new_WssConnection_no_null : no_null.
Lemma OnMessage_no_null h m : no_null (OnMessage h m).
Proof.
  unfold OnMessage, OnRequestPing, OnResponsePing, SendResponse, SendMsg, SetDelay, GetConnection. no_null_by.
Qed.

(** What the error lookup of a failed connection relies on. *)
Lemma OnFailed_found h n : net_ok n -> OnFailed h n <> Undef NullDeref.
Proof.
  intros Hi. unfold OnFailed, bind, obind. destruct (GetConnectionFromHandle h n) as [[oc n1]| | |] eqn:E; try done.
  - apply GetConnectionFromHandle_inv in E as [-> Hc]; [|done]. destruct oc as [c|]; [|done].
    destruct Hc as [(c' & Hc & [= _ Eh Eb]) _].
    destruct (inv_id _ _ Hi _ _ Hc) as (_ & _ & _ & [[]|[w Hw]]). rewrite Eh, Eb in Hw.
    unfold GetErrorCode, GetConnectFromHandle, bind, obind, get, ret. cbn. rewrite Hw. apply RemoveConnection_no_null.
  - pose proof (GetConnectionFromHandle_no_null h n). congruence.
Qed.

Lemma net_step_no_null e n : net_ok n -> net_step OnConnectOpen OnNetworkTimer e n <> Undef NullDeref.
Proof.
  intros Hi. destruct e; cbn [net_step]; unfold with_id, with_id_or_none, client_object.
  3: { unfold bind, obind, get. cbn. by apply OnFailed_found. }
  7: { unfold bind, obind, get. cbn. case_bool_decide; [done|]. by apply OnFailed_found. }
  all: match goal with |- ?m ?w <> _ => cut (no_null m); [by intros Hm; apply Hm|] end.
  all: unfold server_OnOpen, OnOpen, OnClose, OnPong, OnClientOpen, SetConnectTime, GetConnection, Connect, GetConnect,
    Sockets_Connect, GetConnectFromHandle, check_turn, Sockets_OnTimer.
  all: pose proof OnMessage_no_null; no_null_by.
Qed.

(** C22. Whatever callbacks, calls and checks come in whatever order, the tables
    of the network and of the adapter stay in step: every connection is found
    under its id and its handle, its adapter object is there until it is closed,
    handles and ids are never reused, and what waits for deletion or has been
    deleted is in no map.  So no step dereferences the null pointer that the
    error lookup of a failed connection would take for one that is not there. *)
Theorem network_consistent n : net_reachable n ->
  net_ok n /\ forall e, net_step OnConnectOpen OnNetworkTimer e n <> Undef NullDeref.
Proof. intros Hi%net_reachable_ok. split; [exact Hi|]. intros e. by apply net_step_no_null. Qed.

(** ** Sending *)

(** The [i]-th answer of websocketpp to sending [m] over [w]. *)
Definition send_code (n : Network) (w : WssConnection) (m : string) (i : nat) : Z :=
  fst (wspp_send (s_tick (n_sys n) + i) (con_hdl w) m).
Definition sent (k : nat) (n : Network) : Network :=
  let s := n_sys n in set_sys (mkSys (k + s_tick s) (s_uprefertime s) (s_db s) (s_sent s)) n.
Lemma send_tries_some k c m r n w : conns (sockets (in_bound_ c) n) !! handle_ c = Some w -> (0 < k)%nat ->
  exists j r', (j <= k)%nat /\ send_tries k c m r n = Ret (r', sent j n) /\
    (code_ r' =? 0) = existsb (fun i => send_code n w m i =? 0) (seq 0 k) /\
    (forall i, (i + 1 < j)%nat -> send_code n w m i <> 0).
Proof.
  revert r n. induction k as [|k IH]; intros r n Hw Hk; [lia|]. cbn [send_tries seq existsb].
  assert (forall r, Sockets_Send (in_bound_ c) (handle_ c) m r n =
    let r' := set_error (wspp_send (s_tick (n_sys n)) (con_hdl w) m) r in Ret ((code_ r' =? 0, r'), sent 1 n)) as Es.
  { intros r0. unfold Sockets_Send, GetConnectFromHandle, bind, obind, get, ret. cbn. by rewrite Hw. }
  unfold bind at 1. rewrite Es. cbn [obind fst snd].
  assert (code_ (set_error (wspp_send (s_tick (n_sys n)) (con_hdl w) m) r) = send_code n w m 0) as Ec.
  { unfold send_code. by rewrite Nat.add_0_r. }
  rewrite Ec. destruct (Z.eqb_spec (send_code n w m 0) 0) as [E0|E0].
  - exists 1%nat. eexists. split; [lia|]. split; [reflexivity|]. split; [by rewrite Ec, E0|]. lia.
  - destruct k as [|k].
    + exists 1%nat. eexists. split; [lia|]. split; [reflexivity|]. rewrite Ec. split; [by apply Z.eqb_neq|]. lia.
    + destruct (IH (set_error (wspp_send (s_tick (n_sys n)) (con_hdl w) m) r) (sent 1 n)) as (j & r' & Hj & -> & Er & Hb); [done|lia|].
      assert (forall i, send_code (sent 1 n) w m i = send_code n w m (S i)) as Esh.
      { intros i. unfold send_code. by rewrite <- Nat.add_succ_comm. }
      exists (S j), r'. split; [lia|]. split; [|split].
      * f_equal. f_equal. unfold sent. cbn. do 3 f_equal. lia.
      * rewrite Er. change (false || ?b) with b. rewrite <- (seq_shift (S k) 0). clear -Esh.
        induction (seq 0 (S k)) as [|i l IHl]; cbn [existsb map]; [done|]. by rewrite Esh, IHl.
      * intros [|i] Hi; [done|]. rewrite <- Esh. apply Hb. lia.
Qed.

(** Sending a message always ends and reports whether one of at most three
    tries was taken, none after the first that was; but for a connection whose
    handle the adapter does not know it reports success although nothing was
    sent. *)
Theorem SendByteMessage_reports c m n :
  match conns (sockets (in_bound_ c) n) !! handle_ c with
  | None => SendByteMessage c m n = Ret (true, n)
  | Some w => exists tries, (tries <= 3)%nat /\
      SendByteMessage c m n = Ret (existsb (fun i => send_code n w m i =? 0) (seq 0 3), sent tries n) /\
      forall i, (i + 1 < tries)%nat -> send_code n w m i <> 0
  end.
Proof.
  destruct (conns (sockets (in_bound_ c) n) !! handle_ c) as [w|] eqn:Ew.
  - destruct (send_tries_some 3 c m Result_new n w Ew) as (j & r & Hj & Es & Er & Hb); [lia|].
    exists j. split; [done|]. split; [|done]. unfold SendByteMessage, bind. rewrite Es. cbn [obind fst snd ret].
    by rewrite Er.
  - unfold SendByteMessage, send_tries, Sockets_Send, GetConnectFromHandle, bind, obind, get, ret. cbn. by rewrite Ew.
Qed.

(** ** What a check removes *)

(** When each connection came up. *)
Definition came_up (c : Connection) : Z * Z := (id_ c, connect_end_time_ c).
Definition ends (n : Network) : gmap Z (Z * Z) := came_up <$> connections_ n.
Lemma sysop_ends {A} (m : M sys A) : keeps ends (sysop m).
Proof. by apply keeps_zoom. Qed.
Lemma update_ends id f : (forall c, came_up (f c) = came_up c) -> keeps ends (update id f).
Proof.
  intros Hf. apply keeps_modify. intros n. unfold ends. cbn. apply map_eq. intros i. rewrite !lookup_fmap.
  destruct (decide (i = id)) as [->|Hne]; [rewrite lookup_alter_eq|by rewrite lookup_alter_ne].
  destruct (connections_ n !! id); cbn; [by rewrite Hf|done].
Qed.
Create HintDb ends.
Ltac ends_kept :=
  repeat first
    [ apply keeps_ret | apply keeps_lift | apply keeps_get | apply sysop_ends
    | apply update_ends; intros; reflexivity | solve [eauto 2 with ends]
    | apply keeps_modify; intros; reflexivity | apply keeps_bind; [|intros] | case_match ].
Lemma send_tries_ends k c m r : keeps ends (send_tries k c m r).
Proof. revert r. induction k as [|k IH]; intros r; cbn [send_tries]; unfold Sockets_Send, GetConnectFromHandle; ends_kept. Qed.
#[local] Hint Resolve send_tries_ends : ends.
Lemma PingCustom_ends c : keeps ends (PingCustom c).
Proof. unfold PingCustom, SendRequest, SendByteMessage. ends_kept. Qed.
Lemma Connection_Close_ends c reason : keeps ends (Connection_Close c reason).
Proof. unfold Connection_Close, PauseReading, Sockets_Close, GetConnectFromHandle. ends_kept. Qed.
Lemma older_ends c t i : keeps ends (older c t i).
Proof. unfold older. ends_kept. Qed.
#[local] Hint Resolve PingCustom_ends Connection_Close_ends older_ends : ends.
Lemma older_up c t i n n' : older c t i n = Ret (true, n') -> 0 < connect_end_time_ c.
Proof. unfold older. destruct (connect_end_time_ c >? 0) eqn:E; [|done]. intros _. lia. Qed.

(** One round of a check, for a connection that is there. *)
Lemma check_one id ids now n c l n' : (forall c now, OnNetworkTimer c now = true) -> connections_ n !! id = Some c ->
  check_all OnNetworkTimer (id :: ids) now n = Ret (l, n') ->
  exists (old : bool) n1 l1, ends n1 = ends n /\ (old = true -> 0 < connect_end_time_ c) /\
    check_all OnNetworkTimer ids now n1 = Ret (l1, n') /\ l = (if old then [c] else []) ++ l1.
Proof.
  intros Happ Ec E. cbn [check_all] in E. apply bind_inv in E as (oc & n0 & [= <- <-] & E). rewrite Ec in E.
  apply bind_inv in E as (ping & n1 & E1 & E). pose proof (older_ends _ _ _ _ _ _ E1) as S1.
  apply bind_inv in E as ([] & n2 & E2 & E). assert (ends n2 = ends n1) as S2.
  { refine ((_ : keeps ends _) n1 tt n2 E2). ends_kept. }
  apply bind_inv in E as (old & n3 & E3 & E). pose proof (older_ends _ _ _ _ _ _ E3) as S3.
  apply bind_inv in E as ([] & n4 & E4 & E). assert (ends n4 = ends n3) as S4.
  { refine ((_ : keeps ends _) n3 tt n4 E4). ends_kept. }
  apply bind_inv in E as (c' & n5 & [= <- <-] & E). rewrite Happ in E.
  apply bind_inv in E as ([] & n6 & [= <-] & E). apply bind_inv in E as (rest & n7 & E7 & [= <- <-]).
  exists old, n4, rest. split; [congruence|]. split; [|done]. intros ->. by eapply older_up.
Qed.

Lemma ends_lookup n id p : ends n !! id = Some p <-> exists c, connections_ n !! id = Some c /\ came_up c = p.
Proof. unfold ends. rewrite lookup_fmap. destruct (connections_ n !! id); cbn; naive_solver. Qed.
(** What a check lists has come up, if the application refuses nothing. *)
Lemma check_all_up ids now n l n' : (forall c now, OnNetworkTimer c now = true) ->
  check_all OnNetworkTimer ids now n = Ret (l, n') -> (forall id p, ends n !! id = Some p -> p.1 = id) ->
  ends n' = ends n /\ forall c, c ∈ l -> exists p, ends n !! id_ c = Some p /\ 0 < p.2.
Proof.
  intros Happ. revert n l. induction ids as [|id ids IH]; intros n l E Hid.
  { injection E as <- <-. split; [done|]. by intros c ?%not_elem_of_nil. }
  destruct (connections_ n !! id) as [c|] eqn:Ec.
  - apply (check_one _ _ _ _ c) in E as (old & n1 & l1 & Ee & Hold & E & ->); [|done|done].
    apply IH in E as [E1 E2]; [|by rewrite Ee]. rewrite Ee in E1, E2. split; [done|].
    intros c1 [Hin|Hin]%elem_of_app; [|by apply E2]. destruct old; [|by apply not_elem_of_nil in Hin].
    apply list_elem_of_singleton in Hin as ->. assert (ends n !! id = Some (came_up c)) as He by (apply ends_lookup; eauto).
    rewrite (Hid _ _ He : id_ c = id). exists (came_up c). auto.
  - cbn [check_all] in E. apply bind_inv in E as (oc & n0 & [= <- <-] & E). rewrite Ec in E. by apply IH.
Qed.

(** A check removes no connection that has not come up: an attempt that is
    never answered stays in the table for good, whatever its age, since the
    expiry of attempts ([IsConnectExpired]) is not looked at.  A connection it
    does remove has left every table. *)
Theorem check_keeps_attempts last n t n' id c : net_reachable n -> (forall c now, OnNetworkTimer c now = true) ->
  check_turn OnNetworkTimer last n = Ret (t, n') -> connections_ n !! id = Some c ->
  (connect_end_time_ c <= 0 -> exists c', connections_ n' !! id = Some c' /\ shape c' = shape c) /\
  (connections_ n' !! id = None -> connection_handles_ n' !! handle_ c = None /\
     conns (sockets (in_bound_ c) n') !! handle_ c = None).
Proof.
  intros Hi%net_reachable_ok Happ E Hc. apply check_turn_ok in E as (Hi' & l & Ef & Hl); [|done].
  assert (forall id' c', connections_ n' !! id' = Some c' -> handle_ c' = handle_ c -> id' = id) as Hsame.
  { intros id' c' Hc' Eh. assert ((shape <$> connections_ n) !! id' = Some (shape c')) as (c0 & Hc0 & E0)%shape_lookup.
    { assert ((shape <$> connections_ n') !! id' = Some (shape c')) as Hs by (apply shape_lookup; eauto).
      rewrite Ef in Hs. by apply map_lookup_filter_Some in Hs as [? _]. }
    injection E0 as _ E0 _. by destruct (same_handle _ _ _ _ _ _ Hi Hc0 Hc ltac:(congruence)). }
  split.
  - intros Hend. apply shape_lookup. rewrite Ef. apply map_lookup_filter_Some. split; [apply shape_lookup; eauto|]. cbn.
    intros (c1 & Eid & Hin)%list_elem_of_fmap. destruct Hl as [->|(sy & ids & now & n1 & Ea)]; [by apply not_elem_of_nil in Hin|].
    apply check_all_up in Ea as [_ Hup]; [|done|].
    + destruct (Hup _ Hin) as (p & Hp & Hpos). rewrite <- Eid in Hp. apply ends_lookup in Hp as (c2 & Hc2 & <-).
      assert (c2 = c) as -> by (cbn in Hc2; congruence). cbn in Hpos. lia.
    + intros i p (c2 & Hc2 & <-)%ends_lookup. by destruct (inv_id _ _ Hi _ _ Hc2).
  - intros Hgone. split.
    + destruct (connection_handles_ n' !! handle_ c) as [id'|] eqn:Eh; [|done].
      destruct (inv_handle _ _ Hi' _ _ Eh) as (_ & c' & Hc' & Ehc). rewrite (Hsame _ _ Hc' Ehc) in Hc'. congruence.
    + destruct (conns (sockets (in_bound_ c) n') !! handle_ c) as [w|] eqn:Ew; [|done].
      destruct (inv_con _ _ Hi' _ _ _ Ew) as (_ & _ & _ & id' & c' & Hc' & Ehc & _).
      rewrite (Hsame _ _ Hc' Ehc) in Hc'. congruence.
Qed.
End Facts.

(** ** A run of the network *)
Section Witnesses.
Import MemDb.
Local Existing Instances sample_clock sample_codec.
#[local] Instance sample_ping : PingCodec :=
  {| parse_Ping := fun _ => Some 1; parse_Pong := fun _ => Some 1; serialize_Ping := dec_string; serialize_Pong := dec_string |}.
(** Connections are handed out for any address; sending fails twice, then goes through. *)
#[local] Instance sample_wspp : Wspp := {|
  wspp_send := fun n _ _ => (if (n <? 20)%nat then 1 else 0, "")%string;
  wspp_close := fun _ _ _ => (0, "")%string;
  wspp_pause := fun _ _ => (0, "")%string;
  wspp_get_connection := fun _ _ => (Some 7, (0, ""))%string;
  wspp_accepted := fun _ _ => true;
  wspp_listen := fun _ _ => (0, "")%string;
  wspp_accept := fun _ => (0, "")%string;
  wspp_port := fun _ => 30000
|}.
Definition open_all (_ : Connection) : bool := true.
Definition keep_all (_ : Connection) (_ : Z) : bool := true.
Definition sample_network : Network := Network_new (mkSys 0 0 (opened ∅ "" 0 None) []).

Lemma network_consistent_witness : exists n,
  net_run open_all keep_all
    [ConnectTo "ws://peer"; Accepted 5; Opened 1; CheckTurn 0; ServerFailed 5; ClientClosed 1]%string sample_network = Ret (tt, n) /\
  net_ok n /\ net_step open_all keep_all (ServerFailed 5) n <> Undef NullDeref.
Proof.
  match goal with |- exists n, ?m ?w = _ /\ _ => destruct (returns_run (fun _ => true) m w) as ([] & n & E & _);
    [vm_compute; reflexivity|] end.
  exists n. split; [exact E|].
  destruct (network_consistent open_all keep_all n) as [Hok Hn].
  - refine (net_run_reachable _ _ _ _ _ _ E). apply reach_new.
  - split; [exact Hok|apply Hn].
Defined.

(** An attempt that is never answered. *)
Definition attempted : M Network Network :=
  do! net_run open_all keep_all [ConnectTo "ws://peer"]%string in
  let! n := get in do! check_turn keep_all 0 in ret n.
Lemma check_keeps_attempts_witness : exists n t n' c, check_turn keep_all 0 n = Ret (t, n') /\
  connections_ n !! 0 = Some c /\ connect_end_time_ c = 0 /\ is_Some (connections_ n' !! 0).
Proof.
  destruct (returns_run (fun n => match connections_ n !! 0 with Some c => connect_end_time_ c =? 0 | None => false end)
    attempted sample_network) as (n & n' & E & Hc); [vm_compute; reflexivity|].
  apply bind_inv in E as ([] & n1 & E1 & E). apply bind_inv in E as (n2 & n3 & [= <- <-] & E).
  apply bind_inv in E as (t & n4 & E4 & [= <- <-]).
  destruct (connections_ n1 !! 0) as [c|] eqn:Ec; [|discriminate Hc]. apply Z.eqb_eq in Hc.
  exists n1, t, n4, c. split; [exact E4|]. split; [exact Ec|]. split; [exact Hc|].
  destruct (check_keeps_attempts open_all keep_all 0 n1 t n4 0 c) as [Hk _].
  - refine (net_run_reachable _ _ _ _ _ _ E1). apply reach_new.
  - reflexivity.
  - exact E4.
  - exact Ec.
  - destruct Hk as (c' & Hc' & _); [rewrite Hc; lia|]. exists c'. exact Hc'.
Defined.
End Witnesses.
