(* ===== verification/ThreadPool.v ===== *)
(** The thread pool [ThreadNewPool] (src/utils/thread_pool.cpp and
    thread_pool.h), as interleavings of its workers, of the callers of [Wait]
    and of [Stop].

    What a thread does between taking [m_mutex] and letting it go is one action,
    as are the notification [AddTask] sends without the lock, the task itself
    and the look at [m_taskSize] a worker takes without the lock.  A condition
    variable may also wake a sleeper for no reason; these actions are kept apart.
    Tasks return: one that throws ends the program.  [m_taskSize] is unbounded. *)

From S2P Require Import Prelude.

Section Pool.
Context {task : Type}.

(** Where a worker is in [runTask]: about to take the lock, waiting for
    [m_taskGet], in a task, past it, past the count, or gone. *)
Inductive worker : Type :=
| Looking | Asleep | Running (t : task) | Finished | Notifying | Exited.
(** Where a caller is in [Wait]. *)
Inductive waiter : Set := Entering | Sleeping | Woken | Returned.
(** Where the one run of [terminate] is. *)
Inductive stop_phase : Set := NotStopped | Joining | Terminated.

(** [notices] are the calls of [notify_one] still to come.  The last four say
    what has happened to the tasks. *)
Record ThreadNewPool := mkPool {
  m_taskQueue : list task;
  m_taskSize : Z;
  m_isStop : bool;
  m_threadVec : list worker;
  notices : nat;
  waiters : list waiter;
  phase : stop_phase;
  submitted : list task;
  started : list task;
  finished : list task;
  dropped : list task
}.
Definition ThreadNewPool_new : ThreadNewPool := mkPool [] 0 false [] 0 [] NotStopped [] [] [] [].

Definition set_worker (i : nat) (s : worker) (p : ThreadNewPool) : ThreadNewPool :=
  mkPool (m_taskQueue p) (m_taskSize p) (m_isStop p) (<[i := s]> (m_threadVec p)) (notices p) (waiters p) (phase p)
    (submitted p) (started p) (finished p) (dropped p).
Definition set_waiter (j : nat) (s : waiter) (p : ThreadNewPool) : ThreadNewPool :=
  mkPool (m_taskQueue p) (m_taskSize p) (m_isStop p) (m_threadVec p) (notices p) (<[j := s]> (waiters p)) (phase p)
    (submitted p) (started p) (finished p) (dropped p).
Definition set_size (z : Z) (p : ThreadNewPool) : ThreadNewPool :=
  mkPool (m_taskQueue p) z (m_isStop p) (m_threadVec p) (notices p) (waiters p) (phase p)
    (submitted p) (started p) (finished p) (dropped p).
Definition set_notices (n : nat) (p : ThreadNewPool) : ThreadNewPool :=
  mkPool (m_taskQueue p) (m_taskSize p) (m_isStop p) (m_threadVec p) n (waiters p) (phase p)
    (submitted p) (started p) (finished p) (dropped p).

(** [notify_all] on [m_taskGet] and on [m_taskEmpty]. *)
Definition wake_worker (s : worker) : worker := match s with Asleep => Looking | _ => s end.
Definition wake_waiter (s : waiter) : waiter := match s with Sleeping => Woken | _ => s end.
Definition notify_waiters (p : ThreadNewPool) : ThreadNewPool :=
  mkPool (m_taskQueue p) (m_taskSize p) (m_isStop p) (m_threadVec p) (notices p) (map wake_waiter (waiters p)) (phase p)
    (submitted p) (started p) (finished p) (dropped p).

(** ** What the threads do *)

(** [hw] is what [hardware_concurrency] says. *)
Definition MAX_SIZE : Z := 100.
Definition thread_num (hw num : Z) : Z := if num <=? 0 then hw else if num >? MAX_SIZE then MAX_SIZE else num.
Definition InitThreadNum (hw num : Z) (p : ThreadNewPool) : option ThreadNewPool :=
  match phase p with
  | NotStopped =>
      Some (mkPool (m_taskQueue p) (m_taskSize p) (m_isStop p)
              (m_threadVec p ++ replicate (Z.to_nat (thread_num hw num)) Looking) (notices p) (waiters p) (phase p)
              (submitted p) (started p) (finished p) (dropped p))
  | _ => None
  end.

Definition AddTask (t : task) (p : ThreadNewPool) : ThreadNewPool :=
  mkPool (m_taskQueue p ++ [t]) (m_taskSize p + 1) (m_isStop p) (m_threadVec p) (S (notices p)) (waiters p) (phase p)
    (submitted p ++ [t]) (started p) (finished p) (dropped p).
(** Its [notify_one] wakes a sleeping worker, if there is one. *)
Definition asleep (s : worker) : bool := match s with Asleep => true | _ => false end.
Definition notify_one (who : option nat) (p : ThreadNewPool) : option ThreadNewPool :=
  match notices p, who with
  | S n, Some i =>
      match m_threadVec p !! i with
      | Some Asleep => Some (set_notices n (set_worker i Looking p))
      | _ => None
      end
  | S n, None => if existsb asleep (m_threadVec p) then None else Some (set_notices n p)
  | O, _ => None
  end.

(** [runTask], first part: under the lock until there is a task or the end. *)
Definition take_task (i : nat) (p : ThreadNewPool) : option ThreadNewPool :=
  match m_threadVec p !! i with
  | Some Looking =>
      Some (if m_isStop p then set_worker i Exited p
            else match m_taskQueue p with
                 | [] => set_worker i Asleep p
                 | t :: q =>
                     mkPool q (m_taskSize p) (m_isStop p) (<[i := Running t]> (m_threadVec p)) (notices p) (waiters p)
                       (phase p) (submitted p) (started p ++ [t]) (finished p) (dropped p)
                 end)
  | _ => None
  end.
(** The task, the count, and the look at the count. *)
Definition run_task (i : nat) (p : ThreadNewPool) : option ThreadNewPool :=
  match m_threadVec p !! i with
  | Some (Running t) =>
      Some (mkPool (m_taskQueue p) (m_taskSize p) (m_isStop p) (<[i := Finished]> (m_threadVec p)) (notices p) (waiters p)
              (phase p) (submitted p) (started p) (finished p ++ [t]) (dropped p))
  | _ => None
  end.
Definition count_task (i : nat) (p : ThreadNewPool) : option ThreadNewPool :=
  match m_threadVec p !! i with
  | Some Finished => Some (set_size (m_taskSize p - 1) (set_worker i Notifying p))
  | _ => None
  end.
Definition notify_empty (i : nat) (p : ThreadNewPool) : option ThreadNewPool :=
  match m_threadVec p !! i with
  | Some Notifying =>
      let p' := set_worker i Looking p in
      Some (if m_taskSize p =? 0 then notify_waiters p' else p')
  | _ => None
  end.

(** [Wait]: the test before and the test after each sleep. *)
Definition Wait_enter (p : ThreadNewPool) : ThreadNewPool :=
  mkPool (m_taskQueue p) (m_taskSize p) (m_isStop p) (m_threadVec p) (notices p) (waiters p ++ [Entering]) (phase p)
    (submitted p) (started p) (finished p) (dropped p).
Definition Wait_test (j : nat) (p : ThreadNewPool) : option ThreadNewPool :=
  match waiters p !! j with
  | Some Entering => Some (set_waiter j (if m_taskSize p >? 0 then Sleeping else Returned) p)
  | Some Woken => Some (set_waiter j (if m_taskSize p =? 0 then Returned else Sleeping) p)
  | _ => None
  end.

(** [Stop] runs [terminate] once: under the lock, then [JoinAll], then the rest. *)
Definition exited (s : worker) : bool := match s with Exited => true | _ => false end.
Definition terminate_begin (p : ThreadNewPool) : option ThreadNewPool :=
  match phase p with
  | NotStopped =>
      Some (mkPool (m_taskQueue p) (m_taskSize p) true (map wake_worker (m_threadVec p)) (notices p)
              (map wake_waiter (waiters p)) Joining (submitted p) (started p) (finished p) (dropped p))
  | _ => None
  end.
Definition terminate_end (p : ThreadNewPool) : option ThreadNewPool :=
  match phase p with
  | Joining =>
      if forallb exited (m_threadVec p) then
        Some (mkPool [] 0 (m_isStop p) [] (notices p) (waiters p) Terminated (submitted p) (started p) (finished p)
                (dropped p ++ m_taskQueue p))
      else None
  | _ => None
  end.

(** ** Runs *)
Inductive action : Type :=
| Init (hw num : Z) | Add (t : task) | CallWait | StopBegin | StopEnd
| Notify (who : option nat) | Take (i : nat) | Run (i : nat) | Count (i : nat) | NotifyEmpty (i : nat) | Test (j : nat)
| SpuriousWorker (i : nat) | SpuriousWaiter (j : nat).
Definition act (a : action) (p : ThreadNewPool) : option ThreadNewPool :=
  match a with
  | Init hw num => InitThreadNum hw num p
  | Add t => Some (AddTask t p)
  | CallWait => Some (Wait_enter p)
  | StopBegin => terminate_begin p
  | StopEnd => terminate_end p
  | Notify who => notify_one who p
  | Take i => take_task i p
  | Run i => run_task i p
  | Count i => count_task i p
  | NotifyEmpty i => notify_empty i p
  | Test j => Wait_test j p
  | SpuriousWorker i => match m_threadVec p !! i with Some Asleep => Some (set_worker i Looking p) | _ => None end
  | SpuriousWaiter j => match waiters p !! j with Some Sleeping => Some (set_waiter j Woken p) | _ => None end
  end.
Fixpoint acts (l : list action) (p : ThreadNewPool) : option ThreadNewPool :=
  match l with
  | [] => Some p
  | a :: r => match act a p with Some p' => acts r p' | None => None end
  end.
Definition reachable_pool (p : ThreadNewPool) : Prop := exists l, acts l ThreadNewPool_new = Some p.

(** What the pool and its callers do by themselves, once they are there. *)
Definition internal (a : action) : bool :=
  match a with Notify _ | Take _ | Run _ | Count _ | NotifyEmpty _ | Test _ => true | _ => false end.
Definition spurious (a : action) : bool :=
  match a with SpuriousWorker _ | SpuriousWaiter _ => true | _ => false end.

(** ** The invariant *)

(** A worker counts until it is past the count; it holds a task until that is run. *)
Definition busy (s : worker) : nat := match s with Running _ | Finished => 1 | _ => 0 end.
Definition task_of (s : worker) : list task := match s with Running t => [t] | _ => [] end.
Definition load (l : list worker) : nat := sum_list_with busy l.
Definition tasks_of (l : list worker) : list task := concat (map task_of l).
#[local] Arguments load l : simpl never.
#[local] Arguments tasks_of l : simpl never.

Record pool_inv (p : ThreadNewPool) : Prop := {
  pi_size : m_taskSize p = Z.of_nat (length (m_taskQueue p) + load (m_threadVec p));
  pi_order : submitted p = started p ++ dropped p ++ m_taskQueue p;
  pi_dropped : phase p <> Terminated -> dropped p = [];
  pi_done : started p ≡ₚ finished p ++ tasks_of (m_threadVec p);
  pi_stop : m_isStop p = true <-> phase p <> NotStopped;
  pi_exit : phase p = NotStopped -> Exited ∉ m_threadVec p;
  pi_awake : phase p = NotStopped -> m_taskQueue p <> [] -> m_threadVec p <> [] ->
    (0 < notices p)%nat \/ exists s, s ∈ m_threadVec p /\ s <> Asleep;
  pi_wait : phase p = NotStopped -> Sleeping ∈ waiters p -> 0 < m_taskSize p \/ Notifying ∈ m_threadVec p;
  pi_term : phase p = Terminated -> m_threadVec p = []
}.

Lemma load_app l l' : load (l ++ l') = (load l + load l')%nat.
Proof. apply sum_list_with_app. Qed.
Lemma tasks_of_app l l' : tasks_of (l ++ l') = tasks_of l ++ tasks_of l'.
Proof. unfold tasks_of. by rewrite map_app, concat_app. Qed.
Lemma wake_load l : load (map wake_worker l) = load l.
Proof. unfold load. induction l as [|[] l IH]; cbn; congruence. Qed.
Lemma wake_tasks l : tasks_of (map wake_worker l) = tasks_of l.
Proof. unfold tasks_of. induction l as [|[] l IH]; cbn; congruence. Qed.
Lemma idle_load s l : busy s = 0%nat -> task_of s = [] -> load (replicate l s) = 0%nat /\ tasks_of (replicate l s) = [].
Proof. unfold load, tasks_of. intros Hb Ht. induction l as [|l [IH1 IH2]]; cbn; [done|]. by rewrite Hb, Ht. Qed.
Lemma exited_idle l : forallb exited l = true -> load l = 0%nat /\ tasks_of l = [].
Proof. unfold load, tasks_of. induction l as [|[] l IH]; cbn; done. Qed.
Lemma woken_not_sleeping l : Sleeping ∉ map wake_waiter l.
Proof. intros (x & E & _)%list_elem_of_fmap. by destruct x. Qed.
Lemma not_asleep l : existsb asleep l = false -> forall s, s ∈ l -> s <> Asleep.
Proof.
  intros H s Hs ->. assert (existsb asleep l = true) as E; [|congruence]. apply existsb_exists. exists Asleep.
  split; [by apply list_elem_of_In|done].
Qed.

Lemma pool_inv_new : pool_inv ThreadNewPool_new.
Proof. split; cbn; try done; try (by intros _ ?%not_elem_of_nil). Qed.

Lemma InitThreadNum_inv hw num p p' : pool_inv p -> InitThreadNum hw num p = Some p' -> pool_inv p'.
Proof.
  intros [I1 I2 I3 I4 I5 I6 I7 I8 I9]. unfold InitThreadNum. destruct (phase p) eqn:Ep; intros [= <-].
  destruct (idle_load Looking (Z.to_nat (thread_num hw num))) as [E1 E2]; [done..|].
  split; cbn; try done; rewrite ?load_app, ?tasks_of_app, ?E1, ?E2, ?Nat.add_0_r, ?app_nil_r; auto.
  - intros _ [Hin|Hin]%elem_of_app; [by apply I6|]. by apply elem_of_replicate in Hin as [[=] _].
  - intros _ Hq Hw. destruct (m_threadVec p) as [|s l] eqn:El.
    + right. exists Looking. split; [|done]. destruct (replicate _ Looking) as [|s l] eqn:Er; [done|].
      assert (s ∈ replicate (Z.to_nat (thread_num hw num)) Looking) as Hs by (rewrite Er; left).
      apply elem_of_replicate in Hs as [-> _]. left.
    + destruct (I7 eq_refl Hq) as [?|(x & ? & ?)]; [done|by left|]. right. exists x. split; [|done]. apply elem_of_app. by left.
  - intros _ Hs. destruct (I8 eq_refl Hs); [by left|]. right. apply elem_of_app. by left.
Qed.
Lemma AddTask_inv t p : pool_inv p -> pool_inv (AddTask t p).
Proof.
  intros [I1 I2 I3 I4 I5 I6 I7 I8 I9]. split; cbn; try done.
  - rewrite I1, length_app. cbn. lia.
  - by rewrite I2, <- !app_assoc.
  - intros _ _ _. left. lia.
  - intros Ep Hs. destruct (I8 Ep Hs); [left; lia|by right].
Qed.
Lemma Wait_enter_inv p : pool_inv p -> pool_inv (Wait_enter p).
Proof.
  intros [I1 I2 I3 I4 I5 I6 I7 I8 I9]. split; cbn; try done.
  intros Ep [Hs|Hs]%elem_of_app; [by apply I8|]. by apply list_elem_of_singleton in Hs.
Qed.
Lemma terminate_begin_inv p p' : pool_inv p -> terminate_begin p = Some p' -> pool_inv p'.
Proof.
  intros [I1 I2 I3 I4 I5 I6 I7 I8 I9]. unfold terminate_begin. destruct (phase p) eqn:Ep; intros [= <-].
  split; cbn; rewrite ?wake_load, ?wake_tasks; try done. intros _. by apply I3.
Qed.
Lemma terminate_end_inv p p' : pool_inv p -> terminate_end p = Some p' -> pool_inv p'.
Proof.
  intros [I1 I2 I3 I4 I5 I6 I7 I8 I9]. unfold terminate_end. destruct (phase p) eqn:Ep; [done| |done].
  destruct (forallb exited (m_threadVec p)) eqn:Ee; intros [= <-]. apply exited_idle in Ee as [_ Et].
  split; cbn; try done; [by rewrite app_nil_r|by rewrite Et in I4|]. rewrite I5. done.
Qed.

(** One worker moves: what the sums and lists make of it. *)
Lemma load_mid l1 s l2 : load (l1 ++ s :: l2) = (load l1 + load l2 + busy s)%nat.
Proof. rewrite load_app. unfold load. cbn. lia. Qed.
Lemma tasks_mid l1 s l2 : tasks_of (l1 ++ s :: l2) ≡ₚ task_of s ++ tasks_of (l1 ++ l2).
Proof. rewrite !tasks_of_app. unfold tasks_of. cbn. apply Permutation_app_swap_app. Qed.
Lemma in_mid {A} (x s : A) l1 l2 : x ∈ l1 ++ s :: l2 <-> x = s \/ x ∈ l1 ++ l2.
Proof. rewrite !elem_of_app, elem_of_cons. tauto. Qed.

(** A worker that moves between places without a task keeps the invariant, if
    the bookkeeping of sleepers allows it. *)
Lemma set_worker_inv i s s' p : pool_inv p -> m_threadVec p !! i = Some s ->
  busy s' = busy s -> task_of s' = task_of s -> (s' = Exited -> phase p <> NotStopped) ->
  (phase p = NotStopped -> s' = Asleep -> m_taskQueue p = []) ->
  (phase p = NotStopped -> s = Notifying -> Sleeping ∈ waiters p -> 0 < m_taskSize p) ->
  pool_inv (set_worker i s' p).
Proof.
  intros [I1 I2 I3 I4 I5 I6 I7 I8 I9] Hs Hb Ht He Ha Hw. destruct (split_at _ _ _ Hs) as (l1 & l2 & El & Eu).
  split; cbn; rewrite ?Eu; try done.
  - rewrite I1, El, !load_mid, Hb. done.
  - rewrite I4, El, !tasks_mid, Ht. done.
  - intros Ep [E|Hin]%in_mid; [by apply He|]. apply (I6 Ep). rewrite El. apply in_mid. by right.
  - intros Ep Hq _. destruct (I7 Ep Hq) as [?|(x & Hx & Hne)]; [by rewrite El; destruct l1|by left|].
    right. exists s'. split; [apply in_mid; by left|]. intros ->. by apply Hq, Ha.
  - intros Ep Hsl. destruct (I8 Ep Hsl) as [?|Hin]; [by left|]. rewrite El in Hin. apply in_mid in Hin as [E|Hin].
    + left. by apply Hw.
    + right. apply in_mid. by right.
  - intros Ep. rewrite (I9 Ep) in El. by destruct l1.
Qed.
Lemma take_task_inv i p p' : pool_inv p -> take_task i p = Some p' -> pool_inv p'.
Proof.
  intros Hi. unfold take_task. destruct (m_threadVec p !! i) as [[]|] eqn:Es; try done. intros [= <-].
  destruct (m_isStop p) eqn:Eo.
  - apply (set_worker_inv i Looking); try done. intros _. by apply (pi_stop p Hi).
  - destruct (m_taskQueue p) as [|t q] eqn:Eq; [by apply (set_worker_inv i Looking)|].
    pose proof Hi as [I1 I2 I3 I4 I5 I6 I7 I8 I9]. destruct (split_at _ _ _ Es) as (l1 & l2 & El & Eu).
    split; cbn; rewrite ?Eu; try done.
    + rewrite I1, El, !load_mid, Eq. cbn. lia.
    + assert (phase p = NotStopped) as Ep by (destruct (phase p) eqn:Ep; [done|..]; exfalso; rewrite (proj2 I5) in Eo; done).
      rewrite I2, I3, Eq by (by rewrite Ep). cbn. by rewrite <- app_assoc.
    + rewrite I4, El, !tasks_mid. cbn. rewrite <- app_assoc. by rewrite (Permutation_app_comm _ [t]).
    + by rewrite <- Eo.
    + intros Ep [E|Hin]%in_mid; [done|]. apply (I6 Ep). rewrite El. apply in_mid. by right.
    + intros Ep _ _. right. exists (Running t). split; [apply in_mid; by left|done].
    + intros Ep Hs. destruct (I8 Ep Hs) as [?|Hin]; [by left|]. right. rewrite El in Hin. apply in_mid in Hin as [?|?]; [done|].
      apply in_mid. by right.
    + intros Ep. rewrite (I9 Ep) in El. by destruct l1.
Qed.
Lemma run_task_inv i p p' : pool_inv p -> run_task i p = Some p' -> pool_inv p'.
Proof.
  intros Hi. unfold run_task. destruct (m_threadVec p !! i) as [[]|] eqn:Es; try done. intros [= <-].
  pose proof Hi as [I1 I2 I3 I4 I5 I6 I7 I8 I9]. destruct (split_at _ _ _ Es) as (l1 & l2 & El & Eu).
  split; cbn; rewrite ?Eu; try done.
  - by rewrite I1, El, !load_mid.
  - rewrite I4, El, !tasks_mid. cbn. by rewrite <- app_assoc.
  - intros Ep [E|Hin]%in_mid; [done|]. apply (I6 Ep). rewrite El. apply in_mid. by right.
  - intros Ep _ _. right. exists Finished. split; [apply in_mid; by left|done].
  - intros Ep Hs. destruct (I8 Ep Hs) as [?|Hin]; [by left|]. right. rewrite El in Hin. apply in_mid in Hin as [?|?]; [done|].
    apply in_mid. by right.
  - intros Ep. rewrite (I9 Ep) in El. by destruct l1.
Qed.
Lemma count_task_inv i p p' : pool_inv p -> count_task i p = Some p' -> pool_inv p'.
Proof.
  intros Hi. unfold count_task. destruct (m_threadVec p !! i) as [[]|] eqn:Es; try done. intros [= <-].
  pose proof Hi as [I1 I2 I3 I4 I5 I6 I7 I8 I9]. destruct (split_at _ _ _ Es) as (l1 & l2 & El & Eu).
  split; cbn; rewrite ?Eu; try done.
  - rewrite I1, El, !load_mid. cbn. lia.
  - by rewrite I4, El, !tasks_mid.
  - intros Ep [E|Hin]%in_mid; [done|]. apply (I6 Ep). rewrite El. apply in_mid. by right.
  - intros Ep _ _. right. exists Notifying. split; [apply in_mid; by left|done].
  - intros Ep Hs. right. apply in_mid. by left.
  - intros Ep. rewrite (I9 Ep) in El. by destruct l1.
Qed.

(** A caller of [Wait] that falls asleep must have seen the count above 0. *)
Lemma waiters_inv (ws : list waiter) p : pool_inv p ->
  (phase p = NotStopped -> Sleeping ∈ ws -> Sleeping ∈ waiters p \/ 0 < m_taskSize p) ->
  pool_inv (mkPool (m_taskQueue p) (m_taskSize p) (m_isStop p) (m_threadVec p) (notices p) ws (phase p)
    (submitted p) (started p) (finished p) (dropped p)).
Proof.
  intros [I1 I2 I3 I4 I5 I6 I7 I8 I9] Hw. split; cbn; try done.
  intros Ep Hs. destruct (Hw Ep Hs); [by apply I8|by left].
Qed.
Lemma notify_empty_inv i p p' : pool_inv p -> notify_empty i p = Some p' -> pool_inv p'.
Proof.
  intros Hi. unfold notify_empty. destruct (m_threadVec p !! i) as [[]|] eqn:Es; try done. intros [= <-].
  destruct (m_taskSize p =? 0) eqn:Ez.
  - set (q := mkPool (m_taskQueue p) (m_taskSize p) (m_isStop p) (m_threadVec p) (notices p) (map wake_waiter (waiters p))
      (phase p) (submitted p) (started p) (finished p) (dropped p)).
    assert (pool_inv q) as Hq by (apply waiters_inv; [done|]; by intros _ ?%woken_not_sleeping).
    apply (set_worker_inv i Notifying Looking q); try done. by intros _ _ ?%woken_not_sleeping.
  - apply (set_worker_inv i Notifying); try done. intros _ _ _. pose proof (pi_size p Hi). lia.
Qed.
Lemma set_waiter_in j s p : Sleeping ∈ <[j := s]> (waiters p) -> Sleeping ∈ waiters p \/ s = Sleeping.
Proof. intros (k & H)%list_elem_of_lookup. apply list_lookup_insert_Some in H as [(-> & -> & _)|[_ H]]; [by right|left]. by eapply list_elem_of_lookup_2. Qed.
Lemma Wait_test_inv j p p' : pool_inv p -> Wait_test j p = Some p' -> pool_inv p'.
Proof.
  intros Hi. pose proof (pi_size p Hi) as Hz. unfold Wait_test. destruct (waiters p !! j) as [[]|]; try done; intros [= <-];
    (apply waiters_inv; [done|]; intros _ [?|E]%set_waiter_in; [by left|right]).
  - destruct (m_taskSize p >? 0) eqn:E0; [lia|done].
  - destruct (m_taskSize p =? 0) eqn:E0; [done|lia].
Qed.
Lemma notify_one_inv who p p' : pool_inv p -> notify_one who p = Some p' -> pool_inv p'.
Proof.
  intros Hi. unfold notify_one. destruct (notices p) as [|n]; [done|]. destruct who as [i|].
  - destruct (m_threadVec p !! i) as [[]|] eqn:Es; try done. intros [= <-].
    assert (pool_inv (set_worker i Looking p)) as [I1 I2 I3 I4 I5 I6 I7 I8 I9] by (by apply (set_worker_inv i Asleep)).
    split; try done. cbn. intros Ep Hq Hw. right. exists Looking. split; [|done].
    destruct (split_at _ _ _ Es) as (l1 & l2 & _ & Eu). rewrite Eu. apply in_mid. by left.
  - destruct (existsb asleep (m_threadVec p)) eqn:Ea; [done|]. intros [= <-].
    destruct Hi as [I1 I2 I3 I4 I5 I6 I7 I8 I9]. split; try done. cbn. intros Ep Hq Hw. right.
    destruct (m_threadVec p) as [|s l]; [done|]. exists s. split; [left|]. apply (not_asleep _ Ea). left.
Qed.
Lemma act_inv a p p' : pool_inv p -> act a p = Some p' -> pool_inv p'.
Proof.
  intros Hi. destruct a; cbn [act].
  - by apply InitThreadNum_inv.
  - intros [= <-]. by apply AddTask_inv.
  - intros [= <-]. by apply Wait_enter_inv.
  - by apply terminate_begin_inv.
  - by apply terminate_end_inv.
  - by apply notify_one_inv.
  - by apply take_task_inv.
  - by apply run_task_inv.
  - by apply count_task_inv.
  - by apply notify_empty_inv.
  - by apply Wait_test_inv.
  - destruct (m_threadVec p !! i) as [[]|] eqn:Es; try done. intros [= <-]. by apply (set_worker_inv i Asleep).
  - destruct (waiters p !! j) as [[]|] eqn:Es; try done. intros [= <-]. apply waiters_inv; [done|].
    intros _ [?|?]%set_waiter_in; [by left|done].
Qed.
Lemma acts_inv l p p' : pool_inv p -> acts l p = Some p' -> pool_inv p'.
Proof.
  revert p. induction l as [|a l IH]; intros p Hi; cbn [acts]; [by intros [= <-]|].
  destruct (act a p) eqn:Ea; [|done]. by eapply IH, act_inv.
Qed.
Lemma reachable_pool_inv p : reachable_pool p -> pool_inv p.
Proof. intros [l E]. eapply acts_inv, E. apply pool_inv_new. Qed.

(** ** The pool does its work *)

(** What is left to do; [W] callers wait. *)
Definition worker_work (W : nat) (s : worker) : nat :=
  match s with Looking => 1 | Running _ => W + 4 | Finished => W + 3 | Notifying => W + 2 | Asleep | Exited => 0 end.
Definition waiter_work (s : waiter) : nat := match s with Entering | Woken => 1 | Sleeping | Returned => 0 end.
Definition work (p : ThreadNewPool) : nat :=
  let W := length (waiters p) in
  (W + 5) * length (m_taskQueue p) + sum_list_with (worker_work W) (m_threadVec p) + 2 * notices p
  + sum_list_with waiter_work (waiters p).
Lemma wake_work l : (sum_list_with waiter_work (map wake_waiter l) <= sum_list_with waiter_work l + length l)%nat.
Proof. induction l as [|[] l IH]; cbn; lia. Qed.

Lemma internal_works a p p' : internal a = true -> act a p = Some p' -> (work p' < work p)%nat.
Proof.
  destruct a; try done; intros _; cbn [act]; unfold notify_one, take_task, run_task, count_task, notify_empty, Wait_test.
  - destruct (notices p) as [|n] eqn:En; [done|]. destruct who as [i|].
    + destruct (m_threadVec p !! i) as [[]|] eqn:Es; try done. intros [= <-]. destruct (split_at _ _ _ Es) as (l1 & l2 & El & Eu).
      unfold work; cbn. rewrite Eu, El, !sum_mid, En. cbn. lia.
    + destruct (existsb _ _); [done|]. intros [= <-]. unfold work; cbn. rewrite En. lia.
  - destruct (m_threadVec p !! i) as [[]|] eqn:Es; try done. intros [= <-]. destruct (split_at _ _ _ Es) as (l1 & l2 & El & Eu).
    destruct (m_isStop p); [|destruct (m_taskQueue p) eqn:Eq]; unfold work; cbn; rewrite Eu, El, !sum_mid; cbn;
      try rewrite Eq; cbn [length]; rewrite ?Nat.mul_succ_r; lia.
  - destruct (m_threadVec p !! i) as [[]|] eqn:Es; try done. intros [= <-]. destruct (split_at _ _ _ Es) as (l1 & l2 & El & Eu).
    unfold work; cbn; rewrite Eu, El, !sum_mid; cbn; lia.
  - destruct (m_threadVec p !! i) as [[]|] eqn:Es; try done. intros [= <-]. destruct (split_at _ _ _ Es) as (l1 & l2 & El & Eu).
    unfold work; cbn; rewrite Eu, El, !sum_mid; cbn; lia.
  - destruct (m_threadVec p !! i) as [[]|] eqn:Es; try done. intros [= <-]. destruct (split_at _ _ _ Es) as (l1 & l2 & El & Eu).
    pose proof (wake_work (waiters p)).
    destruct (m_taskSize p =? 0); unfold work; cbn; rewrite Eu, El, !sum_mid; cbn; rewrite ?length_map; lia.
  - destruct (waiters p !! j) as [[]|] eqn:Es; try done; intros [= <-]; destruct (split_at _ _ _ Es) as (l1 & l2 & El & Eu);
      unfold work; cbn; rewrite Eu, El, !sum_mid, !length_app; cbn; case_match; cbn; lia.
Qed.
Lemma internal_bounded l p p' : forallb internal l = true -> acts l p = Some p' -> (length l + work p' <= work p)%nat.
Proof.
  revert p. induction l as [|a l IH]; intros p; cbn; [intros _ [= <-]; lia|].
  intros [Ha Hl]%andb_true_iff. destruct (act a p) as [q|] eqn:Eq; [|done]. intros E.
  apply internal_works in Eq; [|done]. apply IH in E; [lia|done].
Qed.

(** Nothing the pool or its callers can still do. *)
Definition quiet (p : ThreadNewPool) : Prop := forall a, internal a = true -> act a p = None.
Lemma quiet_asleep p s : pool_inv p -> phase p = NotStopped -> quiet p -> s ∈ m_threadVec p -> s = Asleep.
Proof.
  intros Hi Ep Hq Hs. destruct (list_elem_of_lookup_1 _ _ Hs) as [i Es].
  pose proof (Hq (Take i) eq_refl) as H1. pose proof (Hq (Run i) eq_refl) as H2. pose proof (Hq (Count i) eq_refl) as H3.
  pose proof (Hq (NotifyEmpty i) eq_refl) as H4. cbn in H1, H2, H3, H4.
  unfold take_task, run_task, count_task, notify_empty in *. rewrite Es in *. destruct s; try done. by apply (pi_exit p Hi) in Ep.
Qed.
Lemma quiet_done p : pool_inv p -> phase p = NotStopped -> m_threadVec p <> [] -> quiet p ->
  m_taskQueue p = [] /\ load (m_threadVec p) = 0%nat /\ tasks_of (m_threadVec p) = [] /\ forall w, w ∈ waiters p -> w = Returned.
Proof.
  intros Hi Ep Hw Hq. pose proof (fun s => quiet_asleep p s Hi Ep Hq) as Ha.
  assert (load (m_threadVec p) = 0%nat /\ tasks_of (m_threadVec p) = []) as [El Et].
  { clear -Ha. induction (m_threadVec p) as [|s l IH]; [done|]. rewrite (Ha s) by left. apply IH. intros x ?. apply Ha. by right. }
  assert (m_taskQueue p = []) as Eq.
  { destruct (m_taskQueue p) as [|t q] eqn:Eq; [done|]. destruct (pi_awake p Hi Ep) as [Hn|(s & Hs & Hne)]; [by rewrite Eq|done| |by apply Ha in Hs].
    destruct (m_threadVec p) as [|s l] eqn:Ev; [done|]. pose proof (Hq (Notify (Some 0%nat)) eq_refl) as H0. cbn in H0. unfold notify_one in H0.
    rewrite Ev in H0. cbn in H0. rewrite (Ha s) in H0 by left. by destruct (notices p); [lia|]. }
  split; [done|]. split; [done|]. split; [done|]. intros w Hin.
  destruct (list_elem_of_lookup_1 _ _ Hin) as [j Ej]. pose proof (Hq (Test j) eq_refl) as H0. cbn in H0. unfold Wait_test in H0. rewrite Ej in H0.
  destruct w; try done. destruct (pi_wait p Hi Ep Hin) as [Hz|Hn]; [|by apply Ha in Hn].
  rewrite (pi_size p Hi), Eq, El in Hz. cbn in Hz. lia.
Qed.

(** C27. The workers of a pool that is not stopped do all its tasks, whatever the
    order they move in: no run of theirs goes on for ever, and when none of them
    can move any more, every task that was submitted has been run once and every
    call of [Wait] has returned.  No wake-up is lost on the way. *)
Theorem pool_runs_all p l p' : reachable_pool p -> forallb internal l = true -> acts l p = Some p' ->
  (length l <= work p)%nat /\
  (phase p' = NotStopped -> m_threadVec p' <> [] -> quiet p' ->
     finished p' ≡ₚ submitted p' /\ forall w, w ∈ waiters p' -> w = Returned).
Proof.
  intros Hr Hl E. pose proof (internal_bounded _ _ _ Hl E). split; [lia|]. intros Ep Hw Hq.
  assert (pool_inv p') as Hi by (eapply acts_inv, E; by apply reachable_pool_inv).
  destruct (quiet_done p' Hi Ep Hw Hq) as (Eq & _ & Et & Hret). split; [|done].
  rewrite (pi_order p' Hi), (pi_dropped p' Hi), Eq by (by rewrite Ep). rewrite (pi_done p' Hi), Et. by rewrite !app_nil_r.
Qed.

(** C28. Tasks are started in the order they were submitted, each at most once.
    A call of [Wait] returns only when every submitted task has been run to its
    end, as long as the pool has not been wound down. *)
Theorem Wait_waits p : reachable_pool p ->
  (exists rest, submitted p = started p ++ rest) /\
  forall j p', Wait_test j p = Some p' -> phase p <> Terminated -> waiters p' !! j = Some Returned ->
    started p' = submitted p' /\ finished p' ≡ₚ submitted p'.
Proof.
  intros Hi%reachable_pool_inv. split; [exists (dropped p ++ m_taskQueue p); apply (pi_order p Hi)|].
  intros j p' E Hp Hret. assert (m_taskSize p <= 0 /\ submitted p' = submitted p /\ started p' = started p /\ finished p' = finished p)
    as (Hz & -> & -> & ->).
  { unfold Wait_test in E. destruct (waiters p !! j) as [w|] eqn:Ew; [|done].
    pose proof (lookup_lt_Some _ _ _ Ew) as Hlt. destruct w; try done; injection E as <-; cbn in Hret;
      rewrite list_lookup_insert_eq in Hret by done; (split; [|done]).
    - destruct (m_taskSize p >? 0) eqn:E0; [done|lia].
    - destruct (m_taskSize p =? 0) eqn:E0; [lia|done]. }
  pose proof (pi_size p Hi) as Es. assert (length (m_taskQueue p) = 0%nat /\ load (m_threadVec p) = 0%nat) as [El E0] by lia.
  apply nil_length_inv in El. assert (tasks_of (m_threadVec p) = []) as Et.
  { clear -E0. induction (m_threadVec p) as [|[] l IH]; try done; by apply IH. }
  rewrite (pi_order p Hi), (pi_dropped p Hi Hp), El, !app_nil_r. split; [done|].
  by rewrite (pi_done p Hi), Et, app_nil_r.
Qed.

(** After [Stop], only a spurious wake-up moves a sleeping caller of [Wait]. *)
Lemma act_stranded j a p p' : pool_inv p -> phase p = Terminated -> waiters p !! j = Some Sleeping -> spurious a = false ->
  act a p = Some p' -> phase p' = Terminated /\ waiters p' !! j = Some Sleeping.
Proof.
  intros Hi Ep Hj Hs. pose proof (pi_term p Hi Ep) as Hw.
  destruct a; try done; cbn [act]; unfold InitThreadNum, terminate_begin, terminate_end, notify_one, take_task, run_task,
    count_task, notify_empty, Wait_test; rewrite ?Ep, ?Hw; try done.
  - intros [= <-]. done.
  - intros [= <-]. split; [done|]. cbn. by rewrite lookup_app_l by (by eapply lookup_lt_Some).
  - destruct (notices p); [done|]. destruct who; [done|]. by intros [= <-].
  - destruct (decide (j0 = j)) as [->|Hne]; [by rewrite Hj|].
    destruct (waiters p !! j0) as [[]|]; try done; intros [= <-]; (split; [done|]); cbn; by rewrite list_lookup_insert_ne.
Qed.
Lemma acts_stranded j l p p' : pool_inv p -> phase p = Terminated -> waiters p !! j = Some Sleeping ->
  forallb (fun a => negb (spurious a)) l = true -> acts l p = Some p' -> waiters p' !! j = Some Sleeping.
Proof.
  revert p. induction l as [|a l IH]; intros p Hi Ep Hj; cbn [acts forallb]; [by intros _ [= <-]|].
  intros [Ha Hl]%andb_true_iff. destruct (act a p) as [q|] eqn:Eq; [|done].
  destruct (act_stranded j a p q Hi Ep Hj) as [Ep' Hj']; [by destruct (spurious a)|done|]. apply IH; try done. by eapply act_inv.
Qed.

(** A worker with two tasks and a caller of [Wait], stopped in the first task. *)
Definition stopped_early (t1 t2 : task) : list action :=
  [Init 8 1; Add t1; Add t2; CallWait; Test 0; Take 0; StopBegin; Test 0; Run 0; Count 0; NotifyEmpty 0; Take 0; StopEnd].

(** [Stop] drops the tasks that have not been started and sets the count to
    0 without telling the callers of [Wait]: one that was waiting for them
    sleeps on for ever, unless a condition variable wakes it for no reason. *)
Theorem Stop_strands_Wait t1 t2 : exists p, acts (stopped_early t1 t2) ThreadNewPool_new = Some p /\
  m_taskSize p = 0 /\ finished p = [t1] /\ dropped p = [t2] /\
  forall l p', forallb (fun a => negb (spurious a)) l = true -> acts l p = Some p' -> waiters p' !! 0%nat = Some Sleeping.
Proof.
  destruct (acts (stopped_early t1 t2) ThreadNewPool_new) as [p|] eqn:E; pose proof E as E'; vm_compute in E'; [|discriminate].
  assert (pool_inv p) as Hi by (eapply acts_inv, E; apply pool_inv_new).
  injection E' as <-. eexists. split; [done|]. split; [done|]. split; [done|]. split; [done|].
  intros l p' Hl El. by eapply acts_stranded, El.
Qed.
End Pool.
#[global] Arguments worker : clear implicits.
#[global] Arguments ThreadNewPool : clear implicits.
#[global] Arguments action : clear implicits.

(** ** A run *)
Definition two_tasks : list (action nat) := [Init 8 1; Add 5; Add 6; CallWait; Test 0]%nat.
Definition one_round : list (action nat) := [Take 0; Run 0; Count 0; NotifyEmpty 0]%nat.
Definition all_work : list (action nat) := one_round ++ one_round ++ [Take 0; Notify (Some 0); Take 0; Notify (Some 0); Take 0; Test 0]%nat.
Lemma two_tasks_run : exists p p', acts two_tasks ThreadNewPool_new = Some p /\ acts all_work p = Some p' /\
  phase p' = NotStopped /\ m_threadVec p' = [Asleep] /\ waiters p' = [Returned] /\ notices p' = 0%nat /\ finished p' = [5; 6]%nat.
Proof. vm_compute. do 2 eexists. repeat split. Qed.
Lemma pool_runs_all_witness : exists p p', acts two_tasks ThreadNewPool_new = Some p /\ acts all_work p = Some p' /\
  finished p' ≡ₚ submitted p' /\ (length all_work <= work p)%nat.
Proof.
  destruct two_tasks_run as (p & p' & E & E' & Ep & Ew & Eq & En & _). exists p, p'. split; [exact E|]. split; [exact E'|].
  destruct (pool_runs_all p all_work p') as [Hl Hd]; [exists two_tasks; exact E|reflexivity|exact E'|].
  split; [|exact Hl]. apply Hd; [exact Ep|rewrite Ew; discriminate|].
  intros [] Ha; try discriminate Ha; cbn; unfold notify_one, take_task, run_task, count_task, notify_empty, Wait_test;
    rewrite ?Ew, ?Eq, ?En; try reflexivity; try (destruct i as [|i]; reflexivity); destruct j as [|j]; reflexivity.
Defined.

Definition before_return : list (action nat) := two_tasks ++ one_round ++ one_round.
Lemma Wait_waits_witness : exists p p', acts before_return ThreadNewPool_new = Some p /\ Wait_test 0 p = Some p' /\
  waiters p' !! 0%nat = Some Returned /\ finished p' ≡ₚ submitted p'.
Proof.
  destruct (acts before_return ThreadNewPool_new) as [p|] eqn:E; [|vm_compute in E; discriminate].
  pose proof E as E'. vm_compute in E'. injection E' as Ep.
  destruct (Wait_test 0 p) as [p'|] eqn:Et; [|rewrite <- Ep in Et; discriminate].
  pose proof Et as Et'. rewrite <- Ep in Et'. vm_compute in Et'. injection Et' as Ep'.
  exists p, p'. split; [reflexivity|]. split; [exact Et|]. split; [rewrite <- Ep'; reflexivity|].
  destruct (Wait_waits p) as [_ Hw]; [exists before_return; exact E|].
  refine (proj2 (Hw 0%nat p' Et _ _)); [rewrite <- Ep; discriminate|rewrite <- Ep'; reflexivity].
Defined.
