(* ===== verification/Threads.v ===== *)
(** The reader-writer lock of src/utils/thread.cpp ([ReadWriteLock]), which
    guards the address caches of common/private_key.cpp, as an interleaving of
    its threads.

    [Mutex] is a recursive pthread mutex: its owner and how often it has locked
    it.  A thread moves by one access to the shared state at a time.  Locks are
    taken and released by guards, in pairs, by the thread that holds them. *)

From S2P Require Import Prelude.

(** ** [Mutex] *)
Definition mutex : Type := option (nat * nat).
(** [None]: the thread has to wait. *)
Definition Mutex_Lock (i : nat) (m : mutex) : option mutex :=
  match m with
  | None => Some (Some (i, 1%nat))
  | Some (o, d) => if Nat.eqb o i then Some (Some (i, S d)) else None
  end.
Definition Mutex_Unlock (i : nat) (m : mutex) : mutex :=
  match m with
  | Some (o, S (S d)) => if Nat.eqb o i then Some (o, S d) else m
  | Some (o, _) => if Nat.eqb o i then None else m
  | None => None
  end.
Definition depth (i : nat) (m : mutex) : nat :=
  match m with Some (o, d) => if Nat.eqb o i then d else 0 | None => 0 end.

Lemma Lock_depth i m m' : Mutex_Lock i m = Some m' ->
  depth i m' = S (depth i m) /\ forall j, j <> i -> depth j m' = 0%nat /\ depth j m = 0%nat.
Proof.
  unfold Mutex_Lock. destruct m as [[o d]|]; [destruct (Nat.eqb_spec o i) as [->|]|]; intros [= <-]; cbn;
    rewrite Nat.eqb_refl; (split; [done|]); intros j Hj; destruct (Nat.eqb_spec i j); done.
Qed.
Lemma Unlock_depth i m : depth i (Mutex_Unlock i m) = pred (depth i m) /\
  forall j, j <> i -> depth j (Mutex_Unlock i m) = depth j m.
Proof.
  unfold Mutex_Unlock. destruct m as [[o [|[|d]]]|]; cbn; try done; destruct (Nat.eqb_spec o i) as [->|Hne]; cbn;
    rewrite ?Nat.eqb_refl; try (destruct (Nat.eqb_spec o i); [done|]); (split; [done|]); intros j Hj; try done;
    destruct (Nat.eqb_spec i j); done.
Qed.
Lemma depth_alone i j m : (0 < depth i m)%nat -> j <> i -> depth j m = 0%nat.
Proof. destruct m as [[o d]|]; cbn; [|done]. destruct (Nat.eqb_spec o i) as [->|]; [|lia]. intros _ Hj. by destruct (Nat.eqb_spec i j). Qed.

(** ** [ReadWriteLock] *)

(** Where a thread is: in no call, before [_enterLock] in [ReadLock] or
    [WriteLock], before or after the increment, or in the loop that waits for
    the readers; and what it holds. *)
Inductive place : Set := Out | ReadEnter | ReadIn | ReadLeave | WriteEnter | WriteSpin.
Record holder := mkHolder { at_ : place; reading : nat; writing : nat }.
Record ReadWriteLock := mkLock { _reads : Z; _enterLock : mutex; holders : list holder }.
Definition ReadWriteLock_new (threads : nat) : ReadWriteLock := mkLock 0 None (replicate threads (mkHolder Out 0 0)).

Inductive lock_action : Set :=
| CallReadLock (i : nat) | EnterRead (i : nat) | Increment (i : nat) | LeaveRead (i : nat) | ReadUnlock (i : nat)
| CallWriteLock (i : nat) | EnterWrite (i : nat) | Spun (i : nat) | WriteUnlock (i : nat).
Definition actor (a : lock_action) : nat :=
  match a with
  | CallReadLock i | EnterRead i | Increment i | LeaveRead i | ReadUnlock i
  | CallWriteLock i | EnterWrite i | Spun i | WriteUnlock i => i
  end.
(** What it does to the shared state and to the thread itself. *)
Definition move (a : lock_action) (s : ReadWriteLock) (h : holder) : option (Z * mutex * holder) :=
  let i := actor a in
  match a, at_ h with
  | CallReadLock _, Out => Some (_reads s, _enterLock s, mkHolder ReadEnter (reading h) (writing h))
  | EnterRead _, ReadEnter =>
      match Mutex_Lock i (_enterLock s) with Some m => Some (_reads s, m, mkHolder ReadIn (reading h) (writing h)) | None => None end
  | Increment _, ReadIn => Some (_reads s + 1, _enterLock s, mkHolder ReadLeave (reading h) (writing h))
  | LeaveRead _, ReadLeave => Some (_reads s, Mutex_Unlock i (_enterLock s), mkHolder Out (S (reading h)) (writing h))
  | ReadUnlock _, Out =>
      match reading h with S r => Some (_reads s - 1, _enterLock s, mkHolder Out r (writing h)) | O => None end
  | CallWriteLock _, Out => Some (_reads s, _enterLock s, mkHolder WriteEnter (reading h) (writing h))
  | EnterWrite _, WriteEnter =>
      match Mutex_Lock i (_enterLock s) with Some m => Some (_reads s, m, mkHolder WriteSpin (reading h) (writing h)) | None => None end
  | Spun _, WriteSpin => if _reads s >? 0 then None else Some (_reads s, _enterLock s, mkHolder Out (reading h) (S (writing h)))
  | WriteUnlock _, Out =>
      match writing h with
      | S w => Some (_reads s, Mutex_Unlock i (_enterLock s), mkHolder Out (reading h) w)
      | O => None
      end
  | _, _ => None
  end.
Definition lock_step (a : lock_action) (s : ReadWriteLock) : option ReadWriteLock :=
  match holders s !! actor a with
  | Some h => match move a s h with Some (r, m, h') => Some (mkLock r m (<[actor a := h']> (holders s))) | None => None end
  | None => None
  end.
Fixpoint lock_run (l : list lock_action) (s : ReadWriteLock) : option ReadWriteLock :=
  match l with
  | [] => Some s
  | a :: r => match lock_step a s with Some s' => lock_run r s' | None => None end
  end.

(** What a thread adds to [_reads], and to the depth of the mutex. *)
Definition counted (h : holder) : nat := reading h + match at_ h with ReadLeave => 1 | _ => 0 end.
Definition locked (h : holder) : nat := writing h + match at_ h with ReadIn | ReadLeave | WriteSpin => 1 | _ => 0 end.
Record lock_inv (s : ReadWriteLock) : Prop := {
  li_reads : _reads s = Z.of_nat (sum_list_with counted (holders s));
  li_depth : forall i h, holders s !! i = Some h -> depth i (_enterLock s) = locked h;
  li_alone : forall i j h k, holders s !! i = Some h -> holders s !! j = Some k -> i <> j -> (0 < writing h)%nat -> counted k = 0%nat
}.

Lemma move_facts a s h r m h' : move a s h = Some (r, m, h') -> depth (actor a) (_enterLock s) = locked h ->
  r - _reads s = Z.of_nat (counted h') - Z.of_nat (counted h) /\
  depth (actor a) m = locked h' /\ (forall j, j <> actor a -> depth j m = depth j (_enterLock s)) /\
  ((0 < counted h')%nat -> (0 < counted h)%nat \/ (0 < locked h)%nat) /\
  ((0 < writing h')%nat -> (0 < writing h)%nat \/ _reads s <= 0).
Proof.
  intros E D. unfold counted, locked in *. destruct a, h as [[] rd wr]; cbn in E; try done.
  all: try (destruct (Mutex_Lock i (_enterLock s)) as [m'|] eqn:El; [|done]; apply Lock_depth in El as [El1 El2]).
  all: try (destruct rd; [done|]). all: try (destruct wr; [done|]). all: try (destruct (_reads s >? 0) eqn:Er; [done|]).
  all: injection E as <- <- <-; cbn in *.
  all: try (destruct (Unlock_depth i (_enterLock s)) as [U1 U2]).
  all: repeat split; try lia; intros; try (left; lia); try (right; lia); try (symmetry; by apply U2); try by apply U2.
  all: destruct (El2 j) as [-> ->]; done.
Qed.
Lemma lock_step_inv a s s' : lock_inv s -> lock_step a s = Some s' -> lock_inv s'.
Proof.
  intros [I1 I2 I3] E. unfold lock_step in E. destruct (holders s !! actor a) as [h|] eqn:Eh; [|done].
  destruct (move a s h) as [[[r m] h']|] eqn:Em; [|done]. injection E as <-.
  destruct (move_facts _ _ _ _ _ _ Em (I2 _ _ Eh)) as (Fr & Fd & Fo & Fc & Fw). pose proof (lookup_lt_Some _ _ _ Eh) as Hlt.
  split; cbn.
  - pose proof (sum_insert counted _ _ _ h' Eh). lia.
  - intros j k Hk. destruct (decide (j = actor a)) as [->|Hne].
    + rewrite list_lookup_insert_eq in Hk by done. by injection Hk as <-.
    + rewrite list_lookup_insert_ne in Hk by done. rewrite Fo by done. by apply I2.
  - intros i j x k Hx Hk Hne Hw. destruct (decide (i = actor a)) as [->|Hi]; [|destruct (decide (j = actor a)) as [->|Hj]].
    + rewrite list_lookup_insert_eq in Hx by done. injection Hx as <-. rewrite list_lookup_insert_ne in Hk by done.
      destruct (Fw Hw) as [Hw'|Hz]; [by eapply (I3 (actor a) j)|]. eapply (sum_zero counted (holders s) j); [lia|done].
    + rewrite list_lookup_insert_eq in Hk by done. injection Hk as <-. rewrite list_lookup_insert_ne in Hx by done.
      destruct (decide (counted h' = 0%nat)) as [?|Hc]; [done|]. exfalso.
      destruct Fc as [Hc'|Hl]; [lia| |].
      * rewrite (I3 i (actor a) x h Hx Eh Hi Hw) in Hc'. lia.
      * assert (depth (actor a) (_enterLock s) = 0%nat) as D0.
        { apply (depth_alone i); [|done]. rewrite (I2 _ _ Hx). unfold locked. lia. }
        rewrite (I2 _ _ Eh) in D0. lia.
    + rewrite list_lookup_insert_ne in Hx by done. rewrite list_lookup_insert_ne in Hk by done. by eapply (I3 i j).
Qed.
Lemma lock_run_inv l s s' : lock_inv s -> lock_run l s = Some s' -> lock_inv s'.
Proof.
  revert s. induction l as [|a l IH]; intros s Hi; cbn [lock_run]; [by intros [= <-]|].
  destruct (lock_step a s) eqn:E; [|done]. by eapply IH, lock_step_inv.
Qed.
Definition reachable_lock (s : ReadWriteLock) : Prop := exists n l, lock_run l (ReadWriteLock_new n) = Some s.
Lemma new_holder n i h : holders (ReadWriteLock_new n) !! i = Some h -> h = mkHolder Out 0 0.
Proof. by intros [-> _]%lookup_replicate. Qed.
Lemma reachable_lock_inv s : reachable_lock s -> lock_inv s.
Proof.
  intros (n & l & E). eapply lock_run_inv, E. split.
  - cbn. enough (sum_list_with counted (replicate n (mkHolder Out 0 0)) = 0%nat) as -> by done. clear E. induction n as [|n IH]; [done|exact IH].
  - by intros i h ->%new_holder.
  - intros i j h k ->%new_holder _ _ Hw. cbn in Hw. lia.
Qed.

(** C29. While a thread holds the lock for writing, no other thread holds it, for
    reading or for writing, whatever the order the threads move in. *)
Theorem write_lock_exclusive s i j h k : reachable_lock s -> holders s !! i = Some h -> holders s !! j = Some k -> i <> j ->
  (0 < writing h)%nat -> reading k = 0%nat /\ writing k = 0%nat.
Proof.
  intros Hi%reachable_lock_inv Hh Hk Hne Hw. pose proof (li_alone s Hi _ _ _ _ Hh Hk Hne Hw) as Hc.
  assert (depth j (_enterLock s) = 0%nat) as Hd.
  { apply (depth_alone i); [|done]. rewrite (li_depth s Hi _ _ Hh). unfold locked. lia. }
  rewrite (li_depth s Hi _ _ Hk) in Hd. unfold counted, locked in *. lia.
Qed.

(** Nobody gets past a thread that waits for its own read lock. *)
Lemma upgrade_step a s s' i h : lock_inv s -> holders s !! i = Some h -> at_ h = WriteSpin -> (0 < reading h)%nat ->
  lock_step a s = Some s' -> actor a <> i /\ holders s' !! i = Some h /\
  forall j k, holders s !! j = Some k -> at_ k = ReadEnter \/ at_ k = WriteEnter -> holders s' !! j = Some k.
Proof.
  intros Hi Hh Ha Hr E. unfold lock_step in E. destruct (holders s !! actor a) as [g|] eqn:Eg; [|done].
  destruct (move a s g) as [[[r m] g']|] eqn:Em; [|done]. injection E as <-. cbn.
  assert (0 < depth i (_enterLock s))%nat as Hd by (rewrite (li_depth s Hi _ _ Hh); unfold locked; rewrite Ha; lia).
  assert (0 < _reads s) as Hz.
  { rewrite (li_reads s Hi). destruct (decide (sum_list_with counted (holders s) = 0%nat)) as [E0|]; [|lia].
    pose proof (sum_zero counted _ _ _ E0 Hh) as Hc. unfold counted in Hc. lia. }
  assert (actor a <> i) as Hne.
  { intros Hai. rewrite Hai, Hh in Eg. injection Eg as <-. destruct a, h as [[] ? ?]; cbn in Em, Ha; try done.
    destruct (_reads s >? 0) eqn:Er; [done|lia]. }
  split; [done|]. split; [by rewrite list_lookup_insert_ne|].
  intros j k Hk Hat. destruct (decide (actor a = j)) as [<-|]; [|by rewrite list_lookup_insert_ne].
  rewrite Eg in Hk. injection Hk as <-. exfalso.
  assert (Mutex_Lock (actor a) (_enterLock s) = None) as Hl.
  { destruct (Mutex_Lock (actor a) (_enterLock s)) as [m'|] eqn:El; [|done]. apply Lock_depth in El as [_ El].
    destruct (El i) as [_ El']; [done|]. lia. }
  destruct a; cbn in Em, Hl; destruct Hat as [Hat|Hat]; rewrite Hat in Em; try done; by rewrite Hl in Em.
Qed.

(** A thread that asks for the write lock while it holds the read lock waits
    for itself: whatever the threads do it never gets on, and every thread that
    waits for the lock waits for ever too. *)
Theorem upgrade_deadlocks s i h l s' : reachable_lock s -> holders s !! i = Some h -> at_ h = WriteSpin ->
  (0 < reading h)%nat -> lock_run l s = Some s' ->
  holders s' !! i = Some h /\
  forall j k, holders s !! j = Some k -> at_ k = ReadEnter \/ at_ k = WriteEnter -> holders s' !! j = Some k.
Proof.
  intros Hi%reachable_lock_inv. revert s Hi. induction l as [|a l IH]; intros s Hi Hh Ha Hr; cbn [lock_run].
  - intros [= <-]. split; [done|]. by intros j k ? _.
  - destruct (lock_step a s) as [q|] eqn:Eq; [|done]. intros E.
    destruct (upgrade_step a s q i h Hi Hh Ha Hr Eq) as (_ & Hh' & Hk). apply IH in E as [E1 E2]; try done; [|by eapply lock_step_inv].
    split; [done|]. intros j k Hj Hat. apply E2; [by apply Hk|done].
Qed.

(** ** A run *)
Definition write_then_read : list lock_action := [CallWriteLock 0; EnterWrite 0; Spun 0; CallReadLock 1]%nat.
Lemma write_lock_exclusive_witness : exists s h k, lock_run write_then_read (ReadWriteLock_new 2) = Some s /\
  holders s !! 0%nat = Some h /\ holders s !! 1%nat = Some k /\ writing h = 1%nat /\ reading k = 0%nat.
Proof.
  eexists _, (mkHolder Out 0 1), (mkHolder ReadEnter 0 0). split; [vm_compute; reflexivity|]. split; [reflexivity|].
  split; [reflexivity|]. split; [reflexivity|].
  eapply (write_lock_exclusive _ 0 1 (mkHolder Out 0 1) (mkHolder ReadEnter 0 0));
    [exists 2%nat, write_then_read; vm_compute; reflexivity|reflexivity|reflexivity|discriminate|cbn; lia].
Defined.
Definition upgrade : list lock_action :=
  [CallReadLock 0; EnterRead 0; Increment 0; LeaveRead 0; CallWriteLock 0; EnterWrite 0; CallReadLock 1]%nat.
Lemma upgrade_deadlocks_witness : exists s, lock_run upgrade (ReadWriteLock_new 2) = Some s /\
  holders s !! 0%nat = Some (mkHolder WriteSpin 1 0).
Proof.
  destruct (lock_run upgrade (ReadWriteLock_new 2)) as [s|] eqn:E; [|vm_compute in E; discriminate].
  pose proof E as E'. vm_compute in E'. injection E' as Es. exists s. split; [reflexivity|].
  destruct (upgrade_deadlocks s 0 (mkHolder WriteSpin 1 0) [] s) as [H _];
    [exists 2%nat, upgrade; exact E|rewrite <- Es; reflexivity|reflexivity|cbn; lia|reflexivity|exact H].
Defined.
