(* ===== verification/Workers.v ===== *)
(** The rest of src/utils/thread.cpp and thread.h: [Thread] and the way it ends,
    the older [ThreadPool] with its queue, the spin lock, and the deadlines of
    [Semaphore] and [Event].

    A pool is an interleaving: its workers, a caller that waits and joins, and
    others that add tasks move one access to the shared state at a time. *)

From S2P Require Import Prelude.

(** ** [Thread] *)

Definition INVALID_THREAD : Z := 2 ^ 64 - 1.
Record Thread := mkThread { t_enabled : bool; t_running : bool; t_handle : Z; t_id : Z }.
Definition Thread_new : Thread := mkThread false false INVALID_THREAD 0.
Definition IsObjectValid (t : Thread) : bool := negb (t_handle t =? INVALID_THREAD).
Definition IsRunning (t : Thread) : bool := t_running t.

(** What pthread answers: the stack size, whether it could be read and set, and
    the result and handle of [pthread_create]. *)
Record pthread := mkPthread { getstacksize : Z; stacksize : Z; setstacksize : Z; create : Z; new_handle : Z }.
Definition MIN_STACK : Z := 2 * 1024 * 1024.
Definition Thread_Start (p : pthread) (t : Thread) : bool * Thread :=
  if t_running t then (false, t) else
  let t := mkThread true true (t_handle t) (t_id t) in
  if negb (getstacksize p =? 0) then (false, t) else
  if (stacksize p <=? MIN_STACK) && negb (setstacksize p =? 0) then (false, t) else
  if create p =? 0 then (true, mkThread true true (new_handle p) (new_handle p))
  else (false, mkThread false false INVALID_THREAD (t_handle t)).
Definition Thread_Stop (t : Thread) : bool * Thread :=
  if IsObjectValid t then (true, mkThread false (t_running t) (t_handle t) (t_id t)) else (false, t).
(** [cancel]: the result of [pthread_cancel]. *)
Definition Thread_Terminate (cancel : Z) (t : Thread) : bool * Thread :=
  if IsObjectValid t then (cancel =? 0, mkThread false (t_running t) (t_handle t) (t_id t)) else (false, t).
(** [JoinWithStop] up to its loop: [None] if it returns at once. *)
Definition Join_begin (t : Thread) : option Thread :=
  if IsObjectValid t then Some (mkThread false (t_running t) (t_handle t) (t_id t)) else None.
(** The test of the loop: whether it goes on. *)
Definition Join_test (t : Thread) : bool := t_running t.
(** The writes of [threadProc] after [Run], in their order. *)
Definition threadProc_id (t : Thread) : Thread := mkThread (t_enabled t) (t_running t) (t_handle t) 0.
Definition threadProc_handle (t : Thread) : Thread := mkThread (t_enabled t) (t_running t) INVALID_THREAD (t_id t).
Definition threadProc_running (t : Thread) : Thread := mkThread (t_enabled t) false (t_handle t) (t_id t).

(** A start that fails while the attributes are set up leaves the object marked
    as running: no later start gets through, though nothing runs. *)
Lemma Start_stuck p p' t t' : t_running t = false -> IsObjectValid t = false ->
  Thread_Start p t = (false, t') -> getstacksize p <> 0 \/ stacksize p <= MIN_STACK /\ setstacksize p <> 0 ->
  t_running t' = true /\ IsObjectValid t' = false /\ Thread_Start p' t' = (false, t').
Proof.
  unfold Thread_Start. intros -> V E Hf. destruct (Z.eqb_spec (getstacksize p) 0); cbn [negb] in E.
  - destruct Hf as [?|[H1 H2]]; [done|]. destruct (Z.leb_spec (stacksize p) MIN_STACK); [|lia].
    destruct (Z.eqb_spec (setstacksize p) 0); [done|]. injection E as <-. done.
  - injection E as <-. done.
Qed.

(** ** [ThreadTaskQueue]: tasks as ids, and the count kept beside the list *)

Record ThreadTaskQueue := mkQueue { q_tasks : list nat; tasks_size_ : Z }.
Definition Queue_new : ThreadTaskQueue := mkQueue [] 0.
Definition PutFront (task : option nat) (q : ThreadTaskQueue) : Z * ThreadTaskQueue :=
  let q := match task with Some t => mkQueue (t :: q_tasks q) (wrap 64 (tasks_size_ q + 1)) | None => q end in (swrap 32 (tasks_size_ q), q).
Definition Put (task : option nat) (q : ThreadTaskQueue) : Z * ThreadTaskQueue :=
  let q := match task with Some t => mkQueue (q_tasks q ++ [t]) (wrap 64 (tasks_size_ q + 1)) | None => q end in (swrap 32 (tasks_size_ q), q).
Definition Queue_Size (q : ThreadTaskQueue) : Z := swrap 32 (tasks_size_ q).
(** [front] of an empty list is undefined; the count guards it. *)
Definition Get (q : ThreadTaskQueue) : outcome (option nat * ThreadTaskQueue) :=
  if 0 <? tasks_size_ q
  then match q_tasks q with
       | t :: r => Ret (Some t, mkQueue r (tasks_size_ q - 1))
       | [] => Undef OutOfRange
       end
  else Ret (None, q).
Definition queue_ok (q : ThreadTaskQueue) : Prop := tasks_size_ q = Z.of_nat (length (q_tasks q)) /\ tasks_size_ q < 2 ^ 31 - 1.

Lemma Put_spec t q : queue_ok q -> Z.of_nat (length (q_tasks q)) < 2 ^ 31 - 2 ->
  queue_ok (Put (Some t) q).2 /\ q_tasks (Put (Some t) q).2 = q_tasks q ++ [t] /\ (Put (Some t) q).1 = Z.of_nat (S (length (q_tasks q))).
Proof.
  intros [E L] Hl. unfold Put, queue_ok. cbn [fst snd q_tasks tasks_size_]. rewrite length_app. cbn [length].
  rewrite wrap_small by lia. rewrite swrap_small by lia. repeat split; lia.
Qed.
Lemma Get_spec q : queue_ok q -> exists o q', Get q = Ret (o, q') /\ queue_ok q' /\
  match o with Some t => q_tasks q = t :: q_tasks q' | None => q_tasks q = [] /\ q' = q end.
Proof.
  intros [E L]. unfold Get. destruct (Z.ltb_spec 0 (tasks_size_ q)).
  - destruct (q_tasks q) as [|t r] eqn:Eq; [cbn in E; lia|]. eexists _, _. split; [done|]. split; [|done].
    split; cbn in *; lia.
  - exists None, q. split; [done|]. split; [done|]. split; [|done]. destruct (q_tasks q); [done|cbn in E; lia].
Qed.
Lemma Queue_Size_zero q : queue_ok q -> Queue_Size q <= 0 <-> q_tasks q = [].
Proof.
  intros [E L]. unfold Queue_Size. rewrite swrap_small by lia. rewrite E. destruct (q_tasks q); cbn; [done|]. split; [lia|done].
Qed.

(** ** [ThreadPool] *)

(** Where a worker is in [ThreadPool::Run] and, after it, in [threadProc]. *)
Inductive place : Set := Testing | Fetching | Working (t : nat) | EndId | EndHandle | EndRunning | Gone.
Record worker := mkWorker { w_thread : Thread; w_at : place }.
(** Where the waiting caller is: in no call, in the loop of [WaitTaskComplete]
    or of [WaitAndJoin], before [enabled_ = false], before a [JoinWithStop] or
    in its loop, or past all of them. *)
Inductive client : Set := Free | Waiting | Polling | Disabling | Joining (i : nat) | JoinLoop (i : nat) | Returned.
(** The last four members are not in the code: the tasks added and started, in
    their order, the tasks that have run, and what had been added when the loop
    of [WaitAndJoin] saw an empty queue. *)
Record ThreadPool := mkPool {
  p_enabled : bool; tasks_ : ThreadTaskQueue; threads_ : list worker; caller : client;
  added : list nat; started : list nat; finished : list nat; drained : list nat }.

(** [AddWorker] with the answers of pthread for each thread. *)
Fixpoint AddWorker (ps : list pthread) (l : list worker) : bool * list worker :=
  match ps with
  | [] => (true, l)
  | p :: r =>
      let '(ok, t) := Thread_Start p Thread_new in
      let l := l ++ [mkWorker t (if ok then Testing else Gone)] in
      if ok then AddWorker r l else (false, l)
  end.
Definition ThreadPool_Init (ps : list pthread) : bool * ThreadPool :=
  let '(ok, l) := AddWorker ps [] in (ok, mkPool true Queue_new l Free [] [] [] []).

Definition set_workers (l : list worker) (p : ThreadPool) : ThreadPool :=
  mkPool (p_enabled p) (tasks_ p) l (caller p) (added p) (started p) (finished p) (drained p).
Definition set_caller (c : client) (p : ThreadPool) : ThreadPool :=
  mkPool (p_enabled p) (tasks_ p) (threads_ p) c (added p) (started p) (finished p) (drained p).
Definition AddTask (t : nat) (p : ThreadPool) : ThreadPool :=
  mkPool (p_enabled p) (Put (Some t) (tasks_ p)).2 (threads_ p) (caller p) (added p ++ [t]) (started p) (finished p) (drained p).
Definition move_worker (i : nat) (t : Thread) (a : place) (p : ThreadPool) : ThreadPool := set_workers (<[i := mkWorker t a]> (threads_ p)) p.

Definition worker_step (i : nat) (p : ThreadPool) : outcome (option ThreadPool) :=
  match threads_ p !! i with
  | None => Ret None
  | Some w =>
      let t := w_thread w in
      match w_at w with
      | Testing => Ret (Some (move_worker i t (if p_enabled p then Fetching else EndId) p))
      | Fetching =>
          let? g := Get (tasks_ p) in
          let p' := mkPool (p_enabled p) g.2 (threads_ p) (caller p) (added p) (started p ++ match g.1 with Some k => [k] | None => [] end) (finished p) (drained p) in
          Ret (Some (move_worker i t (match g.1 with Some k => Working k | None => Testing end) p'))
      | Working k =>
          let p' := mkPool (p_enabled p) (tasks_ p) (threads_ p) (caller p) (added p) (started p) (finished p ++ [k]) (drained p) in
          Ret (Some (move_worker i t Testing p'))
      | EndId => Ret (Some (move_worker i (threadProc_id t) EndHandle p))
      | EndHandle => Ret (Some (move_worker i (threadProc_handle t) EndRunning p))
      | EndRunning => Ret (Some (move_worker i (threadProc_running t) Gone p))
      | Gone => Ret None
      end
  end.
Definition WaitTaskComplete_test (p : ThreadPool) : ThreadPool := if 0 <? Queue_Size (tasks_ p) then p else set_caller Free p.
Definition WaitAndJoin_test (p : ThreadPool) : ThreadPool :=
  if 0 <? Queue_Size (tasks_ p) then p
  else mkPool (p_enabled p) (tasks_ p) (threads_ p) Disabling (added p) (started p) (finished p) (added p).
Definition disable (p : ThreadPool) : ThreadPool :=
  mkPool false (tasks_ p) (threads_ p) (Joining 0) (added p) (started p) (finished p) (drained p).
Definition join_step (i : nat) (p : ThreadPool) : ThreadPool :=
  match threads_ p !! i with
  | None => set_caller Returned p
  | Some w => match Join_begin (w_thread w) with
              | None => set_caller (Joining (S i)) p
              | Some t => set_caller (JoinLoop i) (move_worker i t (w_at w) p)
              end
  end.
Definition join_loop (i : nat) (p : ThreadPool) : ThreadPool :=
  match threads_ p !! i with
  | Some w => if Join_test (w_thread w) then p else set_caller (Joining (S i)) p
  | None => p
  end.
Definition caller_step (p : ThreadPool) : option ThreadPool :=
  match caller p with
  | Free | Returned => None
  | Waiting => Some (WaitTaskComplete_test p)
  | Polling => Some (WaitAndJoin_test p)
  | Disabling => Some (disable p)
  | Joining i => Some (join_step i p)
  | JoinLoop i => Some (join_loop i p)
  end.

Inductive pool_action : Set := Add (t : nat) | Worker (i : nat) | CallWaitTaskComplete | CallWaitAndJoin | CallExit | Caller.
Definition pool_step (a : pool_action) (p : ThreadPool) : outcome (option ThreadPool) :=
  match a with
  | Add t => Ret (Some (AddTask t p))
  | Worker i => worker_step i p
  | CallWaitTaskComplete => Ret (match caller p with Free => Some (set_caller Waiting p) | _ => None end)
  | CallWaitAndJoin => Ret (match caller p with Free => Some (set_caller Polling p) | _ => None end)
  | CallExit => Ret (match caller p with Free => Some (set_caller Disabling p) | _ => None end)
  | Caller => Ret (caller_step p)
  end.
Fixpoint pool_run (l : list pool_action) (p : ThreadPool) : outcome (option ThreadPool) :=
  match l with
  | [] => Ret (Some p)
  | a :: r => let? o := pool_step a p in match o with Some p' => pool_run r p' | None => Ret None end
  end.

(** ** What every run keeps *)

Definition in_hand (w : worker) : list nat := match w_at w with Working t => [t] | _ => [] end.
Definition left_run (w : worker) : Prop := match w_at w with EndRunning | Gone => True | _ => False end.
Definition worker_ok (w : worker) : Prop :=
  match w_at w with
  | EndRunning | Gone => IsObjectValid (w_thread w) = false
  | _ => IsObjectValid (w_thread w) = true /\ t_running (w_thread w) = true
  end.
Definition joined (c : client) (n : nat) : nat := match c with Joining i | JoinLoop i => i | Returned => n | _ => 0%nat end.
Record pool_inv (p : ThreadPool) : Prop := {
  pi_queue : queue_ok (tasks_ p);
  pi_fifo : added p = started p ++ q_tasks (tasks_ p);
  pi_run : started p ≡ₚ concat (map in_hand (threads_ p)) ++ finished p;
  pi_threads : Forall worker_ok (threads_ p);
  pi_joined : forall i w, (i < joined (caller p) (length (threads_ p)))%nat -> threads_ p !! i = Some w -> left_run w;
  pi_drained : drained p `prefix_of` started p
}.

Lemma Start_thread p : new_handle p <> INVALID_THREAD ->
  worker_ok (mkWorker (Thread_Start p Thread_new).2 (if (Thread_Start p Thread_new).1 then Testing else Gone)).
Proof.
  intros Hh. unfold Thread_Start, worker_ok. cbn [t_running Thread_new]. destruct (negb (getstacksize p =? 0)); [done|].
  destruct ((stacksize p <=? MIN_STACK) && negb (setstacksize p =? 0)); [done|]. destruct (create p =? 0); [|done]. cbn.
  split; [|done]. unfold IsObjectValid. cbn [t_handle]. by destruct (Z.eqb_spec (new_handle p) INVALID_THREAD).
Qed.
Lemma AddWorker_ok ps l : Forall (fun p => new_handle p <> INVALID_THREAD) ps -> Forall worker_ok l -> concat (map in_hand l) = [] ->
  Forall worker_ok (AddWorker ps l).2 /\ concat (map in_hand (AddWorker ps l).2) = [].
Proof.
  revert l. induction ps as [|p ps IH]; intros l Hps Hl Hi; [done|]. inversion_clear Hps as [|? ? Hp Hps'].
  cbn [AddWorker]. pose proof (Start_thread p Hp) as Hw. destruct (Thread_Start p Thread_new) as [ok t]. cbn [fst snd] in Hw.
  assert (Forall worker_ok (l ++ [mkWorker t (if ok then Testing else Gone)])) by (apply Forall_app; by repeat constructor).
  assert (concat (map in_hand (l ++ [mkWorker t (if ok then Testing else Gone)])) = []) by (rewrite map_app, concat_app, Hi; by destruct ok).
  destruct ok; [by apply IH|done].
Qed.
Lemma Init_inv ps : Forall (fun p => new_handle p <> INVALID_THREAD) ps -> pool_inv (ThreadPool_Init ps).2.
Proof.
  intros Hps. destruct (AddWorker_ok ps [] Hps ltac:(constructor) eq_refl) as [H1 H2]. unfold ThreadPool_Init.
  destruct (AddWorker ps []) as [ok l]. cbn [snd] in *. split; cbn; [done|done|by rewrite H2|done|lia|done].
Qed.

(** A worker that moves: what is left to show is about that worker alone. *)
Lemma move_inv i w t a p p0 : threads_ p !! i = Some w -> threads_ p0 = threads_ p -> caller p0 = caller p -> pool_inv p ->
  queue_ok (tasks_ p0) -> added p0 = started p0 ++ q_tasks (tasks_ p0) ->
  started p0 ++ in_hand w ++ finished p ≡ₚ started p ++ in_hand (mkWorker t a) ++ finished p0 ->
  worker_ok (mkWorker t a) -> (left_run w -> left_run (mkWorker t a)) -> drained p0 `prefix_of` started p0 ->
  pool_inv (move_worker i t a p0).
Proof.
  intros Ei Et Ec I Hq Ha Hr Hw Hl Hd. destruct I as [_ _ I3 I4 I5 _]. destruct (split_at _ _ _ Ei) as (l1 & l2 & E1 & E2).
  split; unfold move_worker; cbn [threads_ set_workers tasks_ started added finished drained caller p_enabled];
    rewrite ?Et, ?E2, ?Ec; [done|done| | | |done].
  - rewrite E1 in I3. rewrite !map_app, !map_cons, !concat_app in *. cbn [concat] in *.
    assert (started p0 ++ in_hand w ++ finished p ≡ₚ (concat (map in_hand l1) ++ in_hand (mkWorker t a) ++ concat (map in_hand l2) ++ finished p0) ++ in_hand w ++ finished p) as X
      by (rewrite Hr, I3; solve_Permutation).
    by apply Permutation_app_inv_r in X; rewrite X; solve_Permutation.
  - rewrite E1 in I4. apply Forall_app in I4 as [? I4]. inversion_clear I4. apply Forall_app. by repeat constructor.
  - intros j w' Hj Hw'. rewrite <- E2 in Hw', Hj. rewrite length_insert in Hj. destruct (decide (j = i)) as [->|Hne].
    + rewrite list_lookup_insert_eq in Hw' by (by eapply lookup_lt_Some). injection Hw' as <-. by eapply Hl, I5.
    + rewrite list_lookup_insert_ne in Hw' by done. by eapply I5.
Qed.

Lemma worker_step_inv i p : pool_inv p -> exists o, worker_step i p = Ret o /\ match o with Some p' => pool_inv p' | None => True end.
Proof.
  intros I. unfold worker_step. destruct (threads_ p !! i) as [[t a]|] eqn:Ei; [|by exists None].
  pose proof (Forall_lookup_1 _ _ _ _ (pi_threads p I) Ei) as Hw. pose proof (pi_queue p I) as Iq. pose proof (pi_fifo p I) as If.
  pose proof (pi_drained p I) as Id.
  assert (forall t' a', worker_ok (mkWorker t' a') -> in_hand (mkWorker t' a') = in_hand (mkWorker t a) ->
    (left_run (mkWorker t a) -> left_run (mkWorker t' a')) -> pool_inv (move_worker i t' a' p)) as Plain.
  { intros t' a' Hw' Eh Hl. eapply move_inv; try done. by rewrite Eh. }
  cbn [w_thread w_at]. destruct a; cbn in Hw.
  - eexists. split; [done|]. apply Plain; by destruct (p_enabled p).
  - destruct (Get_spec _ Iq) as (o & q & -> & Hq & Ho). cbn [obind fst snd]. eexists. split; [done|]. destruct o as [k|].
    + eapply move_inv; try done; cbn [added started tasks_ finished drained in_hand w_at].
      * rewrite If, Ho. by rewrite <- app_assoc.
      * by rewrite <- app_assoc.
      * by apply prefix_app_r.
    + destruct Ho as [_ ->]. eapply move_inv; try done; cbn [added started tasks_ finished drained in_hand w_at]; by rewrite app_nil_r.
  - eexists. split; [done|]. eapply move_inv; try done; cbn [added started tasks_ finished drained in_hand w_at]. solve_Permutation.
  - eexists. split; [done|]. by apply Plain.
  - eexists. split; [done|]. by apply Plain.
  - eexists. split; [done|]. by apply Plain.
  - by exists None.
Qed.
Lemma set_caller_inv c p : pool_inv p ->
  (forall i w, (i < joined c (length (threads_ p)))%nat -> threads_ p !! i = Some w -> left_run w) -> pool_inv (set_caller c p).
Proof. by intros [] Hj; split. Qed.
Lemma left_run_of w : worker_ok w -> (IsObjectValid (w_thread w) = false \/ t_running (w_thread w) = false) -> left_run w.
Proof. destruct w as [t []]; cbn; try done; intros [-> ->] [?|?]; done. Qed.
Lemma joined_next i p w : pool_inv p -> (forall j w', (j < i)%nat -> threads_ p !! j = Some w' -> left_run w') ->
  threads_ p !! i = Some w -> left_run w -> forall j w', (j < S i)%nat -> threads_ p !! j = Some w' -> left_run w'.
Proof. intros I Hj Ei Hl j w' Hlt Ej. destruct (decide (j = i)) as [->|]; [by simplify_eq|]. apply (Hj j); [lia|done]. Qed.
Lemma caller_step_inv p p' : pool_inv p -> caller_step p = Some p' -> pool_inv p'.
Proof.
  intros I. pose proof I as [I1 I2 I3 I4 I5 I6]. unfold caller_step. destruct (caller p) eqn:Ec; intros [= <-]; cbn [joined] in I5.
  - unfold WaitTaskComplete_test. destruct (_ <? _); [done|]. apply set_caller_inv; [done|cbn; lia].
  - unfold WaitAndJoin_test. destruct (Z.ltb_spec 0 (Queue_Size (tasks_ p))) as [|Hq]; [done|].
    split; try done; cbn. apply (Queue_Size_zero _ I1) in Hq. by rewrite I2, Hq, app_nil_r.
  - split; try done; cbn; lia.
  - unfold join_step. destruct (threads_ p !! i) as [w|] eqn:Ei.
    + pose proof (Forall_lookup_1 _ _ _ _ I4 Ei) as Hw. unfold Join_begin. destruct (IsObjectValid (w_thread w)) eqn:V.
      * apply set_caller_inv; [eapply move_inv; try done|].
        cbn. intros j w' Hj Hw'. destruct (decide (j = i)) as [->|Hne]; [lia|].
        rewrite list_lookup_insert_ne in Hw' by done. by eapply I5.
      * apply set_caller_inv; [done|]. cbn. eapply joined_next; eauto using left_run_of.
    + apply set_caller_inv; [done|]. cbn. intros j w' Hj Ej. apply (I5 j); [|done]. apply lookup_ge_None in Ei. lia.
  - unfold join_loop. destruct (threads_ p !! i) as [w|] eqn:Ei; [|done]. unfold Join_test. destruct (t_running (w_thread w)) eqn:V; [done|].
    pose proof (Forall_lookup_1 _ _ _ _ I4 Ei) as Hw. apply set_caller_inv; [done|]. cbn. eapply joined_next; eauto using left_run_of.
Qed.
Lemma pool_step_inv a p : pool_inv p -> Z.of_nat (length (added p)) < 2 ^ 31 - 2 ->
  exists o, pool_step a p = Ret o /\ match o with Some p' => pool_inv p' | None => True end.
Proof.
  intros I L. pose proof I as [I1 I2 I3 I4 I5 I6]. destruct a; cbn [pool_step].
  - eexists. split; [done|]. rewrite I2, length_app in L. destruct (Put_spec t _ I1 ltac:(lia)) as (Hq & Eq & _).
    split; unfold AddTask; cbn [added started tasks_ threads_ caller finished drained]; try done. by rewrite Eq, I2, <- app_assoc.
  - by apply worker_step_inv.
  - eexists. split; [done|]. by destruct (caller p).
  - eexists. split; [done|]. by destruct (caller p).
  - eexists. split; [done|]. by destruct (caller p).
  - eexists. split; [done|]. destruct (caller_step p) eqn:E; [|done]. by eapply caller_step_inv.
Qed.

Lemma Add_grows a p p' : pool_step a p = Ret (Some p') -> (length (added p) <= length (added p'))%nat.
Proof.
  destruct a; cbn [pool_step]; try (intros [= <-]; cbn; rewrite ?length_app; lia).
  - unfold worker_step. destruct (threads_ p !! i) as [[t []]|]; cbn; try (intros [= <-]; cbn; lia); try done.
    destruct (Get (tasks_ p)); cbn; try done. intros [= <-]. cbn. lia.
  - destruct (caller p); intros [= <-]; cbn; lia.
  - destruct (caller p); intros [= <-]; cbn; lia.
  - destruct (caller p); intros [= <-]; cbn; lia.
  - intros [= E]. enough (added p' = added p) as -> by lia. unfold caller_step, WaitTaskComplete_test, WaitAndJoin_test, join_step, join_loop in E.
    by repeat case_match; simplify_eq.
Qed.
Lemma run_grows l p p' : pool_run l p = Ret (Some p') -> (length (added p) <= length (added p'))%nat.
Proof.
  revert p. induction l as [|a l IH]; intros p E; cbn [pool_run] in E; [by injection E as <-|].
  destruct (pool_step a p) as [[p1|]| | |] eqn:Ea; cbn in E; try done. apply Add_grows in Ea. apply IH in E. lia.
Qed.
Lemma pool_run_inv l p p' : pool_inv p -> pool_run l p = Ret (Some p') -> Z.of_nat (length (added p')) < 2 ^ 31 - 2 -> pool_inv p'.
Proof.
  revert p. induction l as [|a l IH]; intros p I E L; cbn [pool_run] in E; [by injection E as <-|].
  destruct (pool_step a p) as [[p1|]| | |] eqn:Ea; cbn in E; try done. pose proof (Add_grows _ _ _ Ea). pose proof (run_grows _ _ _ E).
  destruct (pool_step_inv a p I ltac:(lia)) as (o & Eo & Ho). rewrite Ea in Eo. injection Eo as <-. by eapply IH.
Qed.

(** C35. When [WaitAndJoin] (or [Exit]) has returned, whatever the workers did in
    between, no worker is inside a task or will ever start one, every task that
    was started has been run, once, and tasks start in the order they were
    added; so everything that was in the pool when the loop of [WaitAndJoin] saw
    it empty has been run.  No step of a run of the pool is undefined. *)
Theorem WaitAndJoin_done ps l p : Forall (fun q => new_handle q <> INVALID_THREAD) ps ->
  pool_run l (ThreadPool_Init ps).2 = Ret (Some p) -> Z.of_nat (length (added p)) < 2 ^ 31 - 2 ->
  (caller p = Returned -> Forall left_run (threads_ p) /\ finished p ≡ₚ started p /\ forall t, t ∈ drained p -> t ∈ finished p) /\
  added p = started p ++ q_tasks (tasks_ p) /\
  (forall a, exists o, pool_step a p = Ret o).
Proof.
  intros Hps E L. pose proof (pool_run_inv _ _ _ (Init_inv ps Hps) E L) as I. split; [|split].
  - intros Ec. pose proof I as [_ _ I3 _ I5 I6]. rewrite Ec in I5. cbn in I5.
    assert (Forall left_run (threads_ p)) as Hl by (apply Forall_lookup; intros i w Ei; eapply I5; [by eapply lookup_lt_Some|done]).
    assert (concat (map in_hand (threads_ p)) = []) as Eh.
    { clear -Hl. induction Hl as [|[t []] r Hw Hr IH]; cbn in *; done. }
    rewrite Eh in I3. split; [done|]. split; [done|]. intros t Ht.
    rewrite <- I3. destruct I6 as [k ->]. apply elem_of_app. by left.
  - by apply pi_fifo.
  - intros a. destruct (pool_step_inv a p I L) as (o & -> & _). by exists o.
Qed.
Definition good_thread (h : Z) : pthread := mkPthread 0 (8 * 1024 * 1024) 0 0 h.
Definition WaitAndJoin_run : list pool_action :=
  [Add 7; Worker 0; Worker 0; Add 8; CallWaitAndJoin; Caller; Worker 1; Worker 1; Caller; Caller; Worker 0; Worker 0; Worker 0; Worker 1; Worker 1;
   Caller; Caller; Worker 0; Worker 0; Caller; Worker 1; Worker 1; Worker 1; Caller; Caller].
Lemma WaitAndJoin_done_witness : exists p, pool_run WaitAndJoin_run (ThreadPool_Init [good_thread 1; good_thread 2]).2 = Ret (Some p) /\
  caller p = Returned /\ finished p ≡ₚ started p.
Proof.
  eexists. split; [vm_compute; reflexivity|]. split; [vm_compute; reflexivity|].
  refine (proj1 (proj2 (proj1 (WaitAndJoin_done [good_thread 1; good_thread 2] WaitAndJoin_run _ _ _ _) _)));
    [repeat constructor; done|vm_compute; reflexivity|vm_compute; reflexivity|vm_compute; reflexivity].
Defined.

(** [WaitTaskComplete] looks at the queue alone: it returns while a worker is
    still inside the only task. *)
Lemma WaitTaskComplete_early : exists p, pool_run [Add 7; Worker 0; Worker 0; CallWaitTaskComplete; Caller] (ThreadPool_Init [good_thread 1]).2 = Ret (Some p) /\
  caller p = Free /\ finished p = [] /\ map w_at (threads_ p) = [Working 7].
Proof. eexists. split; [vm_compute; reflexivity|]. by vm_compute. Qed.
(** A thread drops its handle before it clears [running_], and [JoinWithStop]
    takes an invalid handle for a thread that has ended: the join has returned,
    and the thread still has to write into the object its owner now deletes. *)
Lemma Join_early : exists p, pool_run [CallExit; Caller; Worker 0; Worker 0; Worker 0; Caller; Caller] (ThreadPool_Init [good_thread 1]).2 = Ret (Some p) /\
  caller p = Returned /\ map w_at (threads_ p) = [EndRunning] /\ map (fun w => t_running (w_thread w)) (threads_ p) = [true].
Proof. eexists. split; [vm_compute; reflexivity|]. by vm_compute. Qed.

(** ** [ThreadGroup]: its walks, with the answers of pthread in order *)

Definition StartAll (ps : list pthread) (l : list Thread) : list Thread := zip_with (fun p t => (Thread_Start p t).2) ps l.
Definition StopAll (l : list Thread) : list Thread := map (fun t => (Thread_Stop t).2) l.

(** ** [SpinLock]: compare-and-swap on a word, and which thread is inside *)

Definition SPINLOCK_FREE : Z := 0.
Definition SPINLOCK_BUSY : Z := 1.
(** [LOCK_CAS]: the old value, and the new one. *)
Definition LOCK_CAS (mem with_ cmp : Z) : Z * Z := (mem, if mem =? cmp then with_ else mem).
Record SpinLock := mkSpin { m_busy : Z; inside : list bool }.
Definition SpinLock_new (threads : nat) : SpinLock := mkSpin SPINLOCK_FREE (replicate threads false).
(** A round of the loop of [Lock]; [Unlock] is called by who is inside. *)
Definition Spin_try (i : nat) (s : SpinLock) : SpinLock :=
  let '(old, new) := LOCK_CAS (m_busy s) SPINLOCK_BUSY SPINLOCK_FREE in
  if old =? SPINLOCK_BUSY then mkSpin new (inside s) else mkSpin new (<[i := true]> (inside s)).
Definition Spin_Unlock (i : nat) (s : SpinLock) : SpinLock :=
  mkSpin (LOCK_CAS (m_busy s) SPINLOCK_FREE SPINLOCK_BUSY).2 (<[i := false]> (inside s)).
Inductive spin_step : SpinLock -> SpinLock -> Prop :=
| spin_lock i s : inside s !! i = Some false -> spin_step s (Spin_try i s)
| spin_unlock i s : inside s !! i = Some true -> spin_step s (Spin_Unlock i s).
Definition spin_count (s : SpinLock) : nat := sum_list_with (fun b : bool => if b then 1 else 0)%nat (inside s).
Definition spin_inv (s : SpinLock) : Prop := m_busy s = Z.of_nat (spin_count s) /\ (spin_count s <= 1)%nat.
Lemma spin_step_inv s s' : spin_step s s' -> spin_inv s -> spin_inv s'.
Proof.
  intros [i s0 Ei|i s0 Ei] [I1 I2]; unfold Spin_try, Spin_Unlock, LOCK_CAS, spin_inv, spin_count in *; cbn [fst snd].
  - pose proof (sum_insert (fun b : bool => if b then 1 else 0)%nat _ _ _ true Ei) as Hs. cbn in Hs.
    unfold SPINLOCK_BUSY, SPINLOCK_FREE. destruct (Z.eqb_spec (m_busy s0) 1), (Z.eqb_spec (m_busy s0) 0); cbn; lia.
  - pose proof (sum_insert (fun b : bool => if b then 1 else 0)%nat _ _ _ false Ei) as Hs. cbn in Hs.
    unfold SPINLOCK_BUSY, SPINLOCK_FREE. destruct (Z.eqb_spec (m_busy s0) 1); cbn; lia.
Qed.
(** One thread at a time is inside, and the word says whether there is one. *)
Lemma spin_exclusive n s : rtc spin_step (SpinLock_new n) s -> spin_inv s.
Proof.
  intros Hr. assert (spin_inv (SpinLock_new n)) as I0.
  { assert (spin_count (SpinLock_new n) = 0%nat) as E by (unfold spin_count; cbn; clear Hr; induction n as [|n IH]; [done|exact IH]). split; rewrite E; [done|lia]. }
  revert I0. induction Hr as [|s s1 s2 Hs _ IH]; [done|]. intros I. by apply IH, (spin_step_inv s).
Qed.

(** ** Deadlines *)

Definition kInfinite : Z := 2 ^ 32 - 1.
(** [Semaphore::Wait] on an empty semaphore: the absolute time, in nanoseconds
    since 1970, up to which [sem_timedwait] waits. *)
Definition Semaphore_deadline (millisecond : Z) : option Z :=
  if millisecond =? kInfinite then None else Some (millisecond / 1000 * 10 ^ 9 + millisecond mod 1000).
Definition Semaphore_Wait (millisecond now count : Z) : option (bool * Z) :=
  if 0 <? count then Some (true, now)
  else match Semaphore_deadline millisecond with None => None | Some d => Some (false, Z.max now d) end.
(** With any timeout the wait is over at once: the deadline lies in the first
    fifty days of 1970. *)
Lemma Semaphore_never_waits ms now : 0 <= ms < kInfinite -> 4294968 * 10 ^ 9 <= now -> Semaphore_Wait ms now 0 = Some (false, now).
Proof.
  intros Hm Hn. unfold Semaphore_Wait, Semaphore_deadline, kInfinite in *. cbn [Z.ltb Z.compare].
  destruct (Z.eqb_spec ms (2 ^ 32 - 1)); [lia|]. do 2 f_equal. apply Z.max_l.
  pose proof (Z.mod_pos_bound ms 1000). assert (ms / 1000 < 4294968) by (apply Z.div_lt_upper_bound; lia). lia.
Qed.

(** [Event::Wait]: seconds and nanoseconds of its deadline, from the time of day. *)
Definition Event_deadline (tv_sec tv_usec nTimeoutMs : Z) : Z * Z :=
  let sec := tv_sec + nTimeoutMs / 1000 in
  let nsec := tv_usec * 1000 + nTimeoutMs mod 1000 * 1000 * 1000 in
  if 10 ^ 9 <? nsec then (sec + nsec / 10 ^ 9, nsec mod 10 ^ 9) else (sec, nsec).
(** The deadline is the time asked for; it is one the system accepts except at
    one microsecond, where the nanoseconds are left at a full second. *)
Lemma Event_deadline_spec sec usec ms : 0 <= usec < 10 ^ 6 -> 0 <= ms ->
  let d := Event_deadline sec usec ms in
  d.1 * 10 ^ 9 + d.2 = sec * 10 ^ 9 + usec * 1000 + ms * 10 ^ 6 /\
  0 <= d.2 <= 10 ^ 9 /\ (d.2 = 10 ^ 9 <-> usec + ms mod 1000 * 1000 = 10 ^ 6).
Proof.
  intros Hu Hm. unfold Event_deadline. pose proof (Z.div_mod ms 1000). pose proof (Z.mod_pos_bound ms 1000).
  set (n := usec * 1000 + ms mod 1000 * 1000 * 1000). pose proof (Z.div_mod n (10 ^ 9)). pose proof (Z.mod_pos_bound n (10 ^ 9)).
  destruct (Z.ltb_spec (10 ^ 9) n); cbn [fst snd]; lia.
Qed.

(** ** [Event]: its life, with the answers of pthread *)

Definition ETIMEDOUT : Z := 110.
Definition EVENT_ALREADY_EXISTS : Z := 17.
Definition EVENT_NOT_READY : Z := 2.
Record Event := mkEvent { m_bValid : bool; m_nError : Z }.
(** The result, the error number [VALIDATE_ERROR_RETURN] sets, and the object. *)
Definition Event_Create (cond_init : Z) (e : Event) : bool * option Z * Event :=
  if m_bValid e then (false, Some EVENT_ALREADY_EXISTS, e)
  else let err := wrap 32 cond_init in (err =? 0, None, mkEvent (err =? 0) err).
Definition Event_new (cond_init : Z) : Event := (Event_Create cond_init (mkEvent false 0)).2.
Definition Event_Close (e : Event) : bool * option Z * Event :=
  if m_bValid e then (true, None, mkEvent false (m_nError e)) else (false, Some EVENT_NOT_READY, e).
(** [waited]: what the wait for the condition, with its deadline or without,
    answers. *)
Definition Event_Wait (waited : option (Z * Z) -> Z) (now : Z * Z) (nTimeoutMs : Z) (e : Event) : bool * option Z * Event :=
  if negb (m_bValid e) then (false, Some EVENT_NOT_READY, e) else
  let err := wrap 32 (waited (if nTimeoutMs <? 0 then None else Some (Event_deadline now.1 now.2 nTimeoutMs))) in
  (err =? 0, None, mkEvent true err).
(** [Trigger] and [Broadcast]: the result of the signal. *)
Definition Event_Trigger (signalled : Z) (e : Event) : bool * option Z :=
  if m_bValid e then (signalled =? 0, None) else (false, Some EVENT_NOT_READY).
Definition Event_Broadcast (signalled : Z) (e : Event) : bool * option Z :=
  if m_bValid e then (signalled =? 0, None) else (false, Some EVENT_NOT_READY).
Definition Event_Reset (e : Event) : bool * option Z := if m_bValid e then (true, None) else (false, Some EVENT_NOT_READY).
Definition IsTimeout (e : Event) : bool := ETIMEDOUT =? m_nError e.

(** The system refuses a deadline with a full second of nanoseconds (error
    number 22), so at that one microsecond a timed wait does not wait. *)
Definition refuses_bad_deadline (waited : option (Z * Z) -> Z) : Prop :=
  forall s n, 10 ^ 9 <= n -> waited (Some (s, n)) = 22.
Lemma Event_Wait_refused waited sec usec ms : refuses_bad_deadline waited -> 0 <= usec < 10 ^ 6 -> 0 <= ms ->
  usec + ms mod 1000 * 1000 = 10 ^ 6 -> Event_Wait waited (sec, usec) ms (mkEvent true 0) = (false, None, mkEvent true 22).
Proof.
  intros Hw Hu Hm He. unfold Event_Wait. cbn [m_bValid negb fst snd]. destruct (Z.ltb_spec ms 0); [lia|].
  destruct (Event_deadline_spec sec usec ms Hu Hm) as (_ & _ & Hd). apply Hd in He. destruct (Event_deadline sec usec ms) as [s n]. cbn in He.
  by rewrite Hw by lia.
Qed.
