(* ===== verification/Files.v ===== *)
(** Paths and files (src/utils/file.cpp).

    The file system is modelled as it is used: names lead to inodes, an open
    file holds its inode, a rename puts a name in another's place, and a deleted
    file lives on while it is open.  Which calls of the operating system fail is
    the class [Posix]; times are the clock's.  Error codes are not kept; names
    hold no zero bytes and are not linked. *)

From S2P Require Import Prelude Strings Ordered Database General Platform Pending.

(** ** Paths *)
Definition PATH_CHAR : Z := 47.
Definition PATH_SEPARATOR : list Z := [PATH_CHAR].
Definition RegularPath (path : list Z) : outcome (list Z) := Replace path [92] PATH_SEPARATOR.

(** [rfind] of a character. *)
Fixpoint rfind (c : Z) (s : list Z) : option nat :=
  match s with
  | [] => None
  | a :: r => match rfind c r with Some n => Some (S n) | None => if a =? c then Some 0%nat else None end
  end.
Definition GetFileFromPath (path : list Z) : outcome (list Z) :=
  let? regular_path := RegularPath path in
  match rfind PATH_CHAR regular_path with
  | None => Ret regular_path
  | Some nPos => if (length regular_path <=? nPos + 1)%nat then Ret [] else Ret (drop (nPos + 1) regular_path)
  end.
Definition GetUpLevelPath (path : list Z) : outcome (list Z) :=
  let? normal_path := RegularPath path in
  match rfind PATH_CHAR normal_path with
  | None => Ret []
  | Some nPos => Ret (take (if (nPos =? 0)%nat then 1 else nPos) normal_path)
  end.
Definition IsAbsolute (path : list Z) : outcome bool :=
  let? regular_path := RegularPath path in
  Ret (match regular_path with c :: _ => c =? 47 | [] => false end).
(** What comes after a question mark is no part of the name. *)
Definition GetExtension (path : list Z) : outcome (list Z) :=
  let? normal_path := RegularPath path in
  let normal_path := match find_sub [63] normal_path with Some n => take n normal_path | None => normal_path end in
  match rfind 46 normal_path with
  | None => Ret []
  | Some nPos => if (nPos + 1 =? length normal_path)%nat then Ret [] else Ret (drop (nPos + 1) normal_path)
  end.
(** [bin_path] is what [readlink] says of the program. *)
Definition GetBinHome (bin_path : list Z) : outcome (list Z) :=
  let? dir := GetUpLevelPath bin_path in GetUpLevelPath dir.
Definition ConvertToAbsolutePath (bin_path path base_path : list Z) : outcome (list Z) :=
  let? absolute := IsAbsolute path in
  if absolute then RegularPath path
  else
    let? base_path := match base_path with [] => GetBinHome bin_path | _ => Ret base_path end in
    RegularPath (base_path ++ PATH_SEPARATOR ++ path).

(** ** The file system *)
Record inode := mkInode { content_ : list Z; is_directory_ : bool; create_time_ : Z; modify_time_ : Z }.
Class Posix := {
  open_ok : nat -> list Z -> bool;
  rename_ok : nat -> list Z -> list Z -> bool;
  unlink_ok : nat -> list Z -> bool;
  write_ok : nat -> bool
}.
(** An open stream: a file and the position, or standard output or error. *)
Inductive stream : Set := OnFile (i : nat) (pos : nat) | StdOut | StdErr.

Section Files.
Context `{RocksDb} `{Clock} `{Posix}.

Record Files := mkFiles {
  f_sys : sys;
  names : gmap (list Z) nat;
  inodes : gmap nat inode;
  next_inode : nat;
  console : list (bool * list Z)
}.
#[export] Instance Files_sys : HasSys Files := {|
  the_sys := f_sys;
  set_sys := fun s w => mkFiles s (names w) (inodes w) (next_inode w) (console w);
  the_sys_set := fun _ _ => eq_refl; set_sys_set := fun _ _ _ => eq_refl;
  set_sys_id := fun w => match w with mkFiles _ _ _ _ _ => eq_refl end
|}.
Notation FM := (M Files).
Definition set_names (m : gmap (list Z) nat) (w : Files) : Files := mkFiles (f_sys w) m (inodes w) (next_inode w) (console w).
Definition set_inodes (m : gmap nat inode) (w : Files) : Files := mkFiles (f_sys w) (names w) m (next_inode w) (console w).

(** [time(NULL)]. *)
Definition time_now : FM Z := let! n := sysop tick in ret (fst (time_of_day n)).
(** The file under a name, and its text. *)
Definition file_at (path : list Z) (w : Files) : option inode := names w !! path ≫= fun i => inodes w !! i.
Definition text_of (i : nat) (w : Files) : list Z := match inodes w !! i with Some f => content_ f | None => [] end.

Definition create_file (path : list Z) (now : Z) : FM nat :=
  let! w := get in
  let i := next_inode w in
  do! modify (fun w => mkFiles (f_sys w) (<[path := i]> (names w)) (<[i := mkInode [] false now now]> (inodes w)) (S i) (console w)) in
  ret i.
(** [fopen] to read, to append, and to write from the start. *)
Inductive open_mode : Set := ToRead | ToAppend | ToWrite.
Definition fopen (path : list Z) (mode : open_mode) : FM (option stream) :=
  let! n := sysop tick in
  if negb (open_ok n path) then ret None
  else
    let! now := time_now in
    let! w := get in
    match names w !! path, mode with
    | None, ToRead => ret None
    | None, _ => let! i := create_file path now in ret (Some (OnFile i 0))
    | Some i, ToRead => ret (Some (OnFile i 0))
    | Some i, ToAppend => ret (Some (OnFile i (length (text_of i w))))
    | Some i, ToWrite =>
        do! modify (set_inodes (<[i := mkInode [] false now now]> (inodes w))) in
        ret (Some (OnFile i 0))
    end.
(** [fwrite] and [fprintf]: all of it goes out, or nothing. *)
Definition fwrite (s : stream) (data : list Z) : FM (nat * stream) :=
  match s with
  | OnFile i pos =>
      let! n := sysop tick in
      if negb (write_ok n) then ret (0%nat, s)
      else
        let! now := time_now in
        let! w := get in
        let f := inodes w !! i in
        let text := match f with Some f => content_ f | None => [] end in
        do! modify (set_inodes (<[i := mkInode (take pos text ++ data ++ drop (pos + length data) text) false now now]> (inodes w))) in
        ret (length data, OnFile i (pos + length data))
  | StdOut => do! modify (fun w => mkFiles (f_sys w) (names w) (inodes w) (next_inode w) (console w ++ [(false, data)])) in ret (length data, s)
  | StdErr => do! modify (fun w => mkFiles (f_sys w) (names w) (inodes w) (next_inode w) (console w ++ [(true, data)])) in ret (length data, s)
  end.
Definition fread (s : stream) (count : nat) : FM (list Z * stream) :=
  match s with
  | OnFile i pos =>
      let! w := get in
      let data := take count (drop pos (text_of i w)) in
      ret (data, OnFile i (pos + length data))
  | _ => ret ([], s)
  end.

(** ** [File] *)

(** The attributes of a file that is not there are zero. *)
Definition FileAttribute_new : inode := mkInode [] false 0 0.
Definition GetAttribue (strFile0 : list Z) : FM inode :=
  let! file1 := lift (RegularPath strFile0) in
  let! file1 := lift (RegularPath file1) in
  let! w := get in ret (default FileAttribute_new (file_at file1 w)).
Definition IsExist (strFile : list Z) : FM bool :=
  let! strNormalFile := lift (RegularPath strFile) in
  let! w := get in ret (match names w !! strNormalFile with Some _ => true | None => false end).
Definition Delete (strFile : list Z) : FM bool :=
  let! strNormalFile := lift (RegularPath strFile) in
  let! n := sysop tick in
  let! w := get in
  match names w !! strNormalFile with
  | Some _ =>
      if unlink_ok n strNormalFile then do! modify (set_names (delete strNormalFile (names w))) in ret true
      else ret false
  | None => ret false
  end.
(** [rename] replaces what is in the way, so [bOverwrite] changes nothing. *)
Definition Move (strSource strDest : list Z) (bOverwrite : bool) : FM bool :=
  let! strNormalSource := lift (RegularPath strSource) in
  let! strNormalDest := lift (RegularPath strDest) in
  let! there := (if bOverwrite then IsExist strDest else ret false) in
  do! (if there then do! Delete strDest in ret tt else ret tt) in
  let! n := sysop tick in
  let! w := get in
  match names w !! strNormalSource with
  | Some i =>
      if rename_ok n strNormalSource strNormalDest
      then do! modify (set_names (<[strNormalDest := i]> (delete strNormalSource (names w)))) in ret true
      else ret false
  | None => ret false
  end.
Definition nBufferSize : nat := 102400.
Fixpoint copy_loop (fuel : nat) (nSource nDest : stream) : FM bool :=
  match fuel with
  | O => lift Diverge
  | S fuel =>
      let! r := fread nSource nBufferSize in
      match fst r with
      | [] => ret true
      | data =>
          let! p := fwrite nDest data in
          if (fst p =? length data)%nat then copy_loop fuel (snd r) (snd p) else ret false
      end
  end.
(** A round for each buffer of the source, of which there are at most as many as
    bytes. *)
Definition Copy (strSource strDest : list Z) (bOverwrite : bool) : FM bool :=
  let! strNormalSource := lift (RegularPath strSource) in
  let! strNormalDest := lift (RegularPath strDest) in
  if bool_decide (strNormalSource = strNormalDest) then ret false
  else
    let! there := (if bOverwrite then ret false else IsExist strNormalDest) in
    if there then ret false
    else
      let! nSource := fopen strNormalSource ToRead in
      match nSource with
      | None => ret false
      | Some nSource =>
          let! nDest := fopen strNormalDest ToWrite in
          match nDest with
          | None => ret false
          | Some nDest =>
              let! w := get in
              let size := match nSource with OnFile i _ => length (text_of i w) | _ => 0%nat end in
              copy_loop (S size) nSource nDest
          end
      end.

(** The files of a directory: the names one step below it. *)
Definition in_directory (dir path : list Z) : option (list Z) :=
  let start := dir ++ PATH_SEPARATOR in
  if bool_decide (start = take (length start) path) then
    let name := drop (length start) path in
    if existsb (Z.eqb 47) name then None else match name with [] => None | _ => Some name end
  else None.
Definition GetFileList (strDirectory0 : list Z) : FM (gmap (list Z) inode) :=
  let! strNormalPath := lift (RegularPath strDirectory0) in
  let! w := get in
  ret (list_to_map (concat (map (fun p : list Z * nat =>
         match in_directory strNormalPath p.1, inodes w !! p.2 with Some name, Some f => [(name, f)] | _, _ => [] end)
       (map_to_list (names w))))).
Definition GetDirectorySize (strDirectory : list Z) : FM Z :=
  let! nFiles := GetFileList strDirectory in
  ret (wrap 64 (Z.of_nat (sum_list_with (fun p : list Z * inode => length (content_ p.2)) (map_to_list nFiles)))).
End Files.

(** ** What paths are made of *)

Definition slash : Z -> Z := turn 92 PATH_CHAR.
(** Every backslash becomes a slash, and the scan ends. *)
Lemma RegularPath_map path : RegularPath path = Ret (map slash path).
Proof. apply Replace_char. Qed.
Lemma rfind_spec c s : match rfind c s with
  | Some n => exists r, s = take n s ++ c :: r /\ drop (n + 1) s = r /\ c ∉ r
  | None => c ∉ s
  end.
Proof.
  induction s as [|a s IH]; cbn; [apply not_elem_of_nil|]. destruct (rfind c s) as [n|]; cbn.
  - destruct IH as (r & E & Ed & Hin). exists r. split; [by rewrite <- E|done].
  - destruct (Z.eqb_spec a c) as [->|Hne]; cbn.
    + exists s. done.
    + rewrite elem_of_cons. intros [?|?]; congruence.
Qed.

(** A path, its backslashes turned, is its directory, a slash and its file
    name, and the name holds no slash; the root is its own directory, and a path
    without a slash has none. *)
Theorem path_parts path :
  match rfind PATH_CHAR (map slash path) with
  | None => GetFileFromPath path = Ret (map slash path) /\ GetUpLevelPath path = Ret []
  | Some _ => exists dir name, map slash path = dir ++ PATH_SEPARATOR ++ name /\ PATH_CHAR ∉ name /\
      GetFileFromPath path = Ret name /\
      GetUpLevelPath path = Ret (match dir with [] => PATH_SEPARATOR | _ => dir end)
  end.
Proof.
  unfold GetFileFromPath, GetUpLevelPath. rewrite RegularPath_map. cbn [obind].
  pose proof (rfind_spec PATH_CHAR (map slash path)) as Hr. destruct (rfind PATH_CHAR (map slash path)) as [n|]; [|done].
  set (q := map slash path) in *. destruct Hr as (name & E & Ed & Hin). exists (take n q), name. split; [exact E|]. split; [done|].
  assert (n < length q)%nat as Hn.
  { destruct (decide (n < length q)%nat); [done|]. rewrite take_ge in E by lia. apply (f_equal length) in E.
    rewrite length_app in E. cbn in E. lia. }
  split.
  - rewrite Ed. destruct (Nat.leb_spec (length q) (n + 1)); [|done]. rewrite drop_ge in Ed by done. by rewrite <- Ed.
  - destruct (Nat.eqb_spec n 0) as [->|Hne].
    + cbn in E. rewrite E. done.
    + assert (length (take n q) = n) as Hl by (rewrite length_take; lia). destruct (take n q); [cbn in Hl; lia|done].
Qed.

(** ** Copying *)
Section Copying.
Context `{RocksDb} `{Clock} `{Posix}.

(** Names lead to files, no two to the same. *)
Record disk_ok (w : Files) : Prop := {
  names_there : forall p i, names w !! p = Some i -> (i < next_inode w)%nat /\ is_Some (inodes w !! i);
  names_apart : forall p q i, names w !! p = Some i -> names w !! q = Some i -> p = q
}.
(** Nothing fails. *)
Class PosixWell : Prop := {
  opens : forall n p, open_ok n p = true;
  renames : forall n p q, rename_ok n p q = true;
  writes : forall n, write_ok n = true
}.
(** All files but [i] are as they were, and all names. *)
Definition only_file (i : nat) (w w' : Files) : Prop :=
  names w' = names w /\ next_inode w' = next_inode w /\ forall k, k <> i -> inodes w' !! k = inodes w !! k.
Lemma only_file_trans i w w' w'' : only_file i w w' -> only_file i w' w'' -> only_file i w w''.
Proof. intros (E1 & E2 & E3) (F1 & F2 & F3). split; [congruence|]. split; [congruence|]. intros k Hk. by rewrite F3, E3. Qed.

Lemma fwrite_end `{!PosixWell} i t data w : text_of i w = t -> exists w', fwrite (OnFile i (length t)) data w = Ret ((length data, OnFile i (length (t ++ data))), w') /\
  only_file i w w' /\ text_of i w' = t ++ data /\ is_Some (inodes w' !! i).
Proof.
  intros Ht. unfold fwrite, time_now, bind, sysop, zoom, tick, get, modify, ret, obind. cbn. rewrite writes. cbn.
  eexists. split; [by rewrite length_app|]. split; [|split].
  - split; [done|]. split; [done|]. intros k Hk. cbn. by rewrite lookup_insert_ne.
  - unfold text_of in *. cbn. rewrite lookup_insert_eq. cbn. rewrite Ht. rewrite take_ge, drop_ge by lia. by rewrite app_nil_r.
  - cbn. rewrite lookup_insert_eq. by eexists.
Qed.
Lemma text_of_only i k w w' : only_file i w w' -> k <> i -> text_of k w' = text_of k w.
Proof. intros (_ & _ & E) Hk. unfold text_of. by rewrite E. Qed.

Lemma copy_loop_copies `{!PosixWell} fuel i j pos t w : i <> j -> text_of j w = t ->
  (length (text_of i w) - pos < fuel)%nat ->
  exists w', copy_loop fuel (OnFile i pos) (OnFile j (length t)) w = Ret (true, w') /\ only_file j w w' /\
    text_of j w' = t ++ drop pos (text_of i w).
Proof.
  intros Hne. revert pos t w. induction fuel as [|fuel IH]; intros pos t w Ht Hf; [lia|]. cbn [copy_loop].
  unfold bind at 1. unfold fread, bind, get, ret. cbn [obind fst snd].
  assert (take nBufferSize (drop pos (text_of i w)) = [] \/ take nBufferSize (drop pos (text_of i w)) <> []) as [E|E] by (destruct (take _ _); auto).
  - rewrite E. exists w. split; [done|]. split; [done|]. assert (drop pos (text_of i w) = []) as ->; [|by rewrite app_nil_r].
    destruct (drop pos (text_of i w)); [done|]. unfold nBufferSize in E. done.
  - set (data := take nBufferSize (drop pos (text_of i w))) in *.
    destruct (fwrite_end j t data w Ht) as (w1 & E1 & Ho & Ht1 & _).
    assert (text_of i w1 = text_of i w) as Hi by (by eapply text_of_only).
    destruct (IH (pos + length data)%nat (t ++ data) w1 Ht1) as (w' & E2 & Ho2 & Ht2).
    + rewrite Hi. assert (pos < length (text_of i w))%nat.
      { destruct (decide (pos < length (text_of i w))%nat); [done|]. unfold data in E. by rewrite drop_ge, take_nil in E by lia. }
      destruct data as [|a d] eqn:Ed; [done|]. cbn [length]. lia.
    + exists w'. split; [|split].
      * destruct data as [|a d] eqn:Ed; [done|]. rewrite E1. cbn [obind fst snd]. rewrite Nat.eqb_refl. exact E2.
      * by eapply only_file_trans.
      * rewrite Ht2, Hi, <- app_assoc. f_equal. rewrite <- drop_drop.
        transitivity (take nBufferSize (drop pos (text_of i w)) ++ drop nBufferSize (drop pos (text_of i w))); [|apply take_drop].
        unfold data. f_equal. destruct (Nat.le_gt_cases nBufferSize (length (drop pos (text_of i w)))) as [Hl|Hl].
        -- by rewrite length_take, Nat.min_l.
        -- rewrite length_take, Nat.min_r by lia. by rewrite !drop_ge by lia.
Qed.

Lemma fopen_read `{!PosixWell} p i w : names w !! p = Some i -> exists w', fopen p ToRead w = Ret (Some (OnFile i 0), w') /\
  only_file i w w' /\ inodes w' = inodes w.
Proof.
  intros Hp. unfold fopen, time_now, bind, sysop, zoom, tick, get, ret, obind. cbn. rewrite opens. cbn. rewrite Hp.
  by eexists.
Qed.
(** A file opened to be written is empty. *)
Lemma fopen_write `{!PosixWell} p w : disk_ok w -> exists j w', fopen p ToWrite w = Ret (Some (OnFile j 0), w') /\ disk_ok w' /\
  names w' = <[p := j]> (names w) /\ text_of j w' = [] /\ (forall k, k <> j -> inodes w' !! k = inodes w !! k) /\
  forall q, q <> p -> names w !! q <> Some j.
Proof.
  intros [Hd1 Hd2]. unfold fopen, time_now, create_file, bind, sysop, zoom, tick, get, ret, modify, obind. cbn. rewrite opens. cbn.
  destruct (names w !! p) as [j|] eqn:Ep.
  - exists j. eexists. split; [reflexivity|]. cbn. split; [|split; [|split; [|split]]].
    + split; cbn; [|done]. intros q i Hq. destruct (Hd1 _ _ Hq) as [? ?]. split; [done|].
      destruct (decide (i = j)) as [->|]; [by rewrite lookup_insert_eq|by rewrite lookup_insert_ne].
    + by rewrite insert_id.
    + unfold text_of. cbn. by rewrite lookup_insert_eq.
    + intros k Hk. by rewrite lookup_insert_ne.
    + intros q Hq Hj. by apply Hq, (Hd2 q p j).
  - exists (next_inode w). eexists. split; [reflexivity|]. cbn. split; [|split; [done|split; [|split]]].
    + split; cbn.
      * intros q i Hq. apply lookup_insert_Some in Hq as [[<- <-]|[Hne Hq]]; [rewrite lookup_insert_eq; split; [lia|by eexists]|].
        destruct (Hd1 _ _ Hq) as [? ?]. split; [lia|]. rewrite lookup_insert_ne by lia. done.
      * intros q1 q2 i H1' H2'. apply lookup_insert_Some in H1' as [[<- <-]|[Hn1 H1']]; apply lookup_insert_Some in H2' as [[<- E2]|[Hn2 H2']];
          try done; try (by apply (Hd2 _ _ i)).
        -- destruct (Hd1 _ _ H2'). lia.
        -- subst. destruct (Hd1 _ _ H1'). lia.
    + unfold text_of. cbn. by rewrite lookup_insert_eq.
    + intros k Hk. by rewrite lookup_insert_ne.
    + intros q Hq Hj. destruct (Hd1 _ _ Hj). lia.
Qed.

(** Where the system calls succeed, copying ends, reports success, and
    leaves under the new name exactly the text under the old one, whatever its
    length; no other file changes. *)
Theorem Copy_copies `{!PosixWell} source dest w i : disk_ok w -> names w !! map slash source = Some i ->
  map slash source <> map slash dest ->
  exists j w', Copy source dest true w = Ret (true, w') /\ names w' = <[map slash dest := j]> (names w) /\
    text_of j w' = text_of i w /\ i <> j /\ forall k, k <> j -> inodes w' !! k = inodes w !! k.
Proof.
  intros Hd Hs Hne. unfold Copy. rewrite !RegularPath_map.
  rewrite (bind_ret_run _ _ w (map slash source) w) by done. rewrite (bind_ret_run _ _ w (map slash dest) w) by done.
  rewrite bool_decide_false by done. rewrite (bind_ret_run _ _ w false w) by done.
  destruct (fopen_read _ _ _ Hs) as (w1 & E1 & (Hn1 & Hx1 & _) & Hi1).
  assert (disk_ok w1) as Hd1 by (destruct Hd; split; by rewrite Hn1, ?Hx1, ?Hi1).
  destruct (fopen_write (map slash dest) w1 Hd1) as (j & w2 & E2 & _ & Hn2 & Ht2 & Hi2 & Hj).
  assert (i <> j) as Hij by (intros <-; apply (Hj (map slash source)); [done|by rewrite Hn1]).
  assert (text_of i w2 = text_of i w) as Hti by (unfold text_of; by rewrite Hi2, Hi1).
  destruct (copy_loop_copies (S (length (text_of i w2))) i j 0 [] w2 Hij Ht2) as (w' & E3 & (Hn3 & _ & Hi3) & Ht3); [lia|].
  exists j, w'. rewrite (bind_ret_run _ _ _ _ _ E1). cbn iota. rewrite (bind_ret_run _ _ _ _ _ E2). cbn iota.
  rewrite (bind_ret_run _ _ w2 w2 w2) by done. split; [exact E3|]. split; [by rewrite Hn3, Hn2, Hn1|].
  split; [by rewrite Ht3, drop_0, Hti|]. split; [done|]. intros k Hk. by rewrite Hi3, Hi2, Hi1.
Qed.
End Copying.
