(* ===== verification/Logger.v ===== *)
(** The log (src/utils/logger.cpp): its writers, their rotation, which writers a
    line goes to, and the backups' names, on the files of Files.v.

    A message comes formatted.  The calendar of the C library is the class
    [Calendar]; the number of the thread is a text of the environment. *)

From stdpp Require Import sorting.
From S2P Require Import Prelude Strings Ordered Database General Platform Concrete Pending Files.

(** ** The calendar and the names of backups *)

(** The fields as they are printed: the year in full, the month from 1. *)
Record tm := mkTm { tm_year : Z; tm_mon : Z; tm_mday : Z; tm_hour : Z; tm_min : Z; tm_sec : Z }.
Class Calendar := { localtime : Z -> tm; mktime : tm -> Z }.
(** Printing to a width, with spaces or zeros. *)
Definition pad (c : Z) (width : nat) (z : Z) : list Z :=
  let s := ToString z in replicate (width - length s) c ++ s.
Definition two (z : Z) : list Z := pad 48 2 z.

Section Names.
Context `{Calendar}.
(** [Timestamp::ToFormatString(false)] of whole seconds. *)
Definition ToFormatString (seconds : Z) : list Z :=
  let t := localtime seconds in
  pad 32 4 (tm_year t) ++ [45] ++ two (tm_mon t) ++ [45] ++ two (tm_mday t) ++ [32]
  ++ two (tm_hour t) ++ [58] ++ two (tm_min t) ++ [58] ++ two (tm_sec t).
(** The signs of a time turned into dots and its space into a dash. *)
Definition file_time (s : list Z) : outcome (list Z) :=
  let? s := Replace s [45] [46] in
  let? s := Replace s [47] [46] in
  let? s := Replace s [58] [46] in
  Replace s [32] [45].
Definition backup_name (file_name : list Z) (begin_seconds end_seconds : Z) : outcome (list Z) :=
  let? strBeginTime := file_time (ToFormatString begin_seconds) in
  let? strEndTime := file_time (ToFormatString end_seconds) in
  Ret (to_bytes (Format (of_bytes (file_name ++ to_bytes "-(" ++ strBeginTime ++ to_bytes "~" ++ strEndTime ++ to_bytes ")")))).

(** [String::ToTimestamp]. *)
Definition ToTimestamp (strTime : list Z) : outcome Z :=
  let? s := Replace strTime [58] [45] in
  let? s := Replace s [32] [45] in
  let? s := Replace s [47] [45] in
  let? s := Replace s [46] [45] in
  match Strtok_append s 45 [] with
  | (6, [a; b; c; d; e; f]) => Ret (mktime (mkTm (atoi a) (atoi b) (atoi c) (atoi d) (atoi e) (atoi f)))
  | _ => Ret 0
  end.
Definition GetBackupNameTime (strBackupName : list Z) : outcome (option (Z * Z)) :=
  match find_sub [40] strBackupName, find_sub [126] strBackupName, rfind 41 strBackupName with
  | Some nBeginPos, Some nMidPos, Some nEndPos =>
      if ((nBeginPos <? nMidPos) && (nMidPos <? nEndPos))%nat then
        let strLogTimeFrom := take (nMidPos - nBeginPos - 1) (drop (nBeginPos + 1) strBackupName) in
        let strLogTimeTo := take (nEndPos - nMidPos - 1) (drop (nMidPos + 1) strBackupName) in
        let? nTimeFrom := ToTimestamp strLogTimeFrom in
        let? nTimeTo := ToTimestamp strLogTimeTo in
        Ret (Some (nTimeFrom, nTimeTo))
      else Ret None
  | _, _, _ => Ret None
  end.
End Names.

(** ** Levels and destinations *)
Definition LOG_DEST_FILE : Z := 1.
Definition LOG_DEST_OUT : Z := 2.
Definition LOG_DEST_ERR : Z := 4.
Definition LOG_DEST_PERFORMANCE : Z := 8.
Definition LOG_LEVEL_TRACE : Z := 1.
Definition LOG_LEVEL_DEBUG : Z := 2.
Definition LOG_LEVEL_INFO : Z := 4.
Definition LOG_LEVEL_WARN : Z := 8.
Definition LOG_LEVEL_ERROR : Z := 16.
Definition LOG_LEVEL_FATAL : Z := 32.
Definition LOG_LEVEL_PERFORMANCE : Z := 64.
Definition LOG_LEVEL_ALL : Z := 255.
Definition GetLogPrefix (logLevel : Z) : list Z :=
  if logLevel =? LOG_LEVEL_TRACE then to_bytes "TRC" else if logLevel =? LOG_LEVEL_DEBUG then to_bytes "DBG"
            else if logLevel =? LOG_LEVEL_INFO then to_bytes "INF" else if logLevel =? LOG_LEVEL_WARN then to_bytes "WRN"
            else if logLevel =? LOG_LEVEL_ERROR then to_bytes "ERR" else if logLevel =? LOG_LEVEL_FATAL then to_bytes "FTL"
            else if logLevel =? LOG_LEVEL_PERFORMANCE then to_bytes "PER" else to_bytes "".
Definition has (dest bit : Z) : bool := negb (Z.land dest bit =? 0).

(** ** The writers *)
Record LogWriter := mkWriter {
  dest_ : Z;
  file_ptr_ : option stream;
  size_ : Z;
  begin_time_ : Z;
  w_file_name_ : list Z
}.
Definition LogWriter_new : LogWriter := mkWriter 0 None 0 0 [].
Definition set_stream (s : option stream) (w : LogWriter) : LogWriter :=
  mkWriter (dest_ w) s (size_ w) (begin_time_ w) (w_file_name_ w).

(** A line before it is written: its level, where it comes from, and the text. *)
Record line := mkLine { l_level : Z; l_file : list Z; l_func : list Z; l_num : Z; l_text : list Z }.
(** When a file is full or old: [time_capacity_] and [size_capacity_]. *)
Record capacity := mkCapacity { time_capacity_ : Z; size_capacity_ : Z }.

Section Logger.
Context `{RocksDb} `{Clock} `{Posix} `{Calendar} (thread_text : list Z).
Notation FM := (M Files).

Definition ftell (s : stream) : Z := match s with OnFile _ pos => Z.of_nat pos | _ => 0 end.
(** What does not go out is not noticed. *)
Definition fprintf (s : stream) (text : list Z) : FM stream := let! r := fwrite s text in ret (snd r).

Definition LogWriter_Close (w : LogWriter) : LogWriter := set_stream None w.
Definition LogWriter_Init (dest : Z) (file_name : list Z) (append : bool) : FM (bool * LogWriter) :=
  if dest =? LOG_DEST_FILE then
    let! f := fopen file_name (if append then ToAppend else ToWrite) in
    match f with
    | None => ret (false, mkWriter dest None 0 0 file_name)
    | Some s =>
        let! attr := GetAttribue file_name in
        ret (true, mkWriter dest (Some s) (ftell s) (create_time_ attr) file_name)
    end
  else
    ret (true, mkWriter dest (if dest =? LOG_DEST_ERR then Some StdErr
                              else if (dest =? LOG_DEST_OUT) || (dest =? LOG_DEST_PERFORMANCE) then Some StdOut else None)
                 0 0 file_name).

(** The parts of a line, as they are printed. *)
Definition stamp (current_time : list Z) (level : Z) : list Z :=
  to_bytes "[" ++ current_time ++ to_bytes " - " ++ GetLogPrefix level ++ to_bytes "] ".
Definition banner (current_time backup : list Z) : list Z :=
  stamp current_time LOG_LEVEL_INFO ++ to_bytes "Log::New file start, previous backup file is " ++ backup ++ [13; 10].
Definition print_line (s : stream) (current_time : list Z) (l : line) : FM stream :=
  let! s := fprintf s (stamp current_time (l_level l) ++ to_bytes "<" ++ thread_text ++ to_bytes "> ") in
  let! s := fprintf s (l_file l ++ to_bytes "(" ++ l_func l ++ to_bytes ":" ++ ToString (l_num l) ++ to_bytes "):") in
  let! s := fprintf s (l_text l) in
  fprintf s [10].

(** A file that is full or old gets another name, a copy if that fails, and
    starts anew; [None] if it cannot be opened again. *)
Definition rotate (current_time : list Z) (w : LogWriter) : FM LogWriter :=
  let! _ := lift (s64 (begin_time_ w * kMicroSecondsPerSecond)) in
  let! now := sysop Timestamp_Now in
  let! backup := lift (backup_name (w_file_name_ w) (begin_time_ w) (Z.quot now kMicroSecondsPerSecond)) in
  let! moved := Move (w_file_name_ w) backup false in
  do! (if moved then ret true else Copy (w_file_name_ w) backup true) in
  let! f := fopen (w_file_name_ w) ToWrite in
  match f with
  | None =>
      do! fprintf StdErr (to_bytes "Fatal error - reopen log file(" ++ w_file_name_ w ++ to_bytes ") failed") in
      ret (set_stream None w)
  | Some s =>
      let! s := fprintf s (banner current_time backup) in
      let! now := time_now in
      ret (mkWriter (dest_ w) (Some s) (ftell s) now (w_file_name_ w))
  end.
Definition is_full (c : capacity) (w : LogWriter) (s : stream) : FM bool :=
  if ftell s >? size_capacity_ c then ret true
  else
    let! limit := lift (s64 (begin_time_ w + time_capacity_ c)) in
    let! now := time_now in ret (limit <=? now).
Definition LogWriter_Write (c : capacity) (current_time : list Z) (l : line) (w : LogWriter) : FM (bool * LogWriter) :=
  match file_ptr_ w with
  | None => ret (false, w)
  | Some s =>
      let! w := (if dest_ w =? LOG_DEST_FILE then
                   let! full := is_full c w s in
                   if full then rotate current_time w else ret (mkWriter (dest_ w) (Some s) (ftell s) (begin_time_ w) (w_file_name_ w))
                 else ret w) in
      match file_ptr_ w with
      | None => ret (false, w)
      | Some s => let! s := print_line s current_time l in ret (true, set_stream (Some s) w)
      end
  end.

(** ** [Logger] *)
Record Logger := mkLogger {
  file_out_ : LogWriter;
  file_err_ : LogWriter;
  file_per_ : LogWriter;
  out_ : LogWriter;
  err_ : LogWriter;
  per_ : LogWriter;
  log_level_ : Z;
  log_dest_ : Z;
  capacity_ : capacity;
  expire_days_ : Z;
  log_path_ : list Z;
  m_nCheckRunLogTime : Z
}.
Definition Logger_new : Logger :=
  mkLogger LogWriter_new LogWriter_new LogWriter_new LogWriter_new LogWriter_new LogWriter_new
    (Z.land LOG_LEVEL_ALL (Z.lnot LOG_LEVEL_TRACE)) (Z.lor LOG_DEST_OUT LOG_DEST_ERR)
    (mkCapacity 86400 (10 * 1048576)) 10 [] 0.

(** The names of the three files: the part in front of the extension, then
    [-out] and the like. *)
Definition log_name (file_name file_ext suffix : list Z) : list Z :=
  if ((0 <? length file_ext) && (length file_ext + 1 <? length file_name))%nat
  then to_bytes (Format (of_bytes (take (length file_name - length file_ext - 1) file_name ++ suffix ++ to_bytes "." ++ file_ext)))
  else file_name ++ suffix.
(** Making the directory is left out: the writers' files have no directories here. *)
Definition Logger_Initialize (log_dest log_level : Z) (file_name : list Z) (append : bool) (lg : Logger) : FM (bool * Logger) :=
  let! ext := lift (GetExtension file_name) in
  let! files :=
    (if has log_dest LOG_DEST_FILE && match file_name with [] => false | _ => true end then
       let! a := LogWriter_Init LOG_DEST_FILE (log_name file_name ext (to_bytes "-out")) append in
       let! b := LogWriter_Init LOG_DEST_FILE (log_name file_name ext (to_bytes "-err")) append in
       let! c := LogWriter_Init LOG_DEST_FILE (log_name file_name ext (to_bytes "-per")) append in
       ret (snd a, snd b, snd c)
     else ret (file_out_ lg, file_err_ lg, file_per_ lg)) in
  let! o := (if has log_dest LOG_DEST_OUT then LogWriter_Init LOG_DEST_OUT [] false else ret (true, out_ lg)) in
  let! e := (if has log_dest LOG_DEST_ERR then LogWriter_Init LOG_DEST_ERR [] false else ret (true, err_ lg)) in
  let! p := (if has log_dest LOG_DEST_PERFORMANCE then LogWriter_Init LOG_DEST_PERFORMANCE [] false else ret (true, per_ lg)) in
  let! path := (match file_name with [] => ret (log_path_ lg) | _ => lift (GetUpLevelPath file_name) end) in
  let '(a, b, c) := files in
  ret (true, mkLogger a b c (snd o) (snd e) (snd p) log_level log_dest (capacity_ lg) (expire_days_ lg) path (m_nCheckRunLogTime lg)).
Definition Logger_Exit (lg : Logger) : Logger :=
  mkLogger (LogWriter_Close (file_out_ lg)) (LogWriter_Close (file_err_ lg)) (LogWriter_Close (file_per_ lg))
    (LogWriter_Close (out_ lg)) (LogWriter_Close (err_ lg)) (LogWriter_Close (per_ lg)) (log_level_ lg) (log_dest_ lg)
    (capacity_ lg) (expire_days_ lg) (log_path_ lg) (m_nCheckRunLogTime lg).
Definition SetCapacity (time_cap size_cap : Z) (lg : Logger) : Logger :=
  mkLogger (file_out_ lg) (file_err_ lg) (file_per_ lg) (out_ lg) (err_ lg) (per_ lg) (log_level_ lg) (log_dest_ lg)
    (mkCapacity (wrap 32 time_cap) (wrap 64 size_cap)) (expire_days_ lg) (log_path_ lg) (m_nCheckRunLogTime lg).
Definition SetExpireDays (days : Z) (lg : Logger) : Logger :=
  mkLogger (file_out_ lg) (file_err_ lg) (file_per_ lg) (out_ lg) (err_ lg) (per_ lg) (log_level_ lg) (log_dest_ lg)
    (capacity_ lg) days (log_path_ lg) (m_nCheckRunLogTime lg).

(** Which of the four a line goes to. *)
Definition to_file (lg : Logger) : bool := has (log_dest_ lg) LOG_DEST_FILE.
Definition to_out (level : Z) (lg : Logger) : bool := (level <? LOG_LEVEL_WARN) && has (log_dest_ lg) LOG_DEST_OUT.
Definition to_err (level : Z) (lg : Logger) : bool :=
  (LOG_LEVEL_WARN <=? level) && (level <? LOG_LEVEL_PERFORMANCE) && has (log_dest_ lg) LOG_DEST_ERR.
Definition to_per (level : Z) (lg : Logger) : bool :=
  (LOG_LEVEL_PERFORMANCE <=? level) && has (log_dest_ lg) LOG_DEST_PERFORMANCE.
Definition enabled (level : Z) (lg : Logger) : bool :=
  (level =? LOG_LEVEL_ALL) || negb (Z.land (log_level_ lg) level =? 0).
Definition write_if (b : bool) (c : capacity) (time : list Z) (l : line) (w : LogWriter) : FM LogWriter :=
  if b then let! r := LogWriter_Write c time l w in ret (snd r) else ret w.
(** [time_string] prints the time of the line ([Timestamp::Format]). *)
Definition LogStub (time_string : Z -> list Z) (l : line) (lg : Logger) : FM Logger :=
  if negb (enabled (l_level l) lg) then ret lg
  else
    let! now := sysop Timestamp_Now in
    let time := time_string now in
    let! file := lift (GetFileFromPath (l_file l)) in
    let l := mkLine (l_level l) file (l_func l) (l_num l) (l_text l) in
    let c := capacity_ lg in
    let! fo := write_if (to_file lg) c time l (file_out_ lg) in
    let! o := write_if (to_out (l_level l) lg) c time l (out_ lg) in
    let! e := write_if (to_err (l_level l) lg) c time l (err_ lg) in
    let! p := write_if (to_per (l_level l) lg) c time l (per_ lg) in
    ret (mkLogger fo (file_err_ lg) (file_per_ lg) o e p (log_level_ lg) (log_dest_ lg) c (expire_days_ lg) (log_path_ lg)
           (m_nCheckRunLogTime lg)).

(** Files of the log's directory that have not changed for [expire_days_] days
    are deleted, in the order of their names; a backup is as old as its name
    says. *)
Fixpoint lex_leb (a b : list Z) : bool :=
  match a, b with
  | [], _ => true
  | _ :: _, [] => false
  | x :: a, y :: b => if x =? y then lex_leb a b else x <? y
  end.
Definition by_name (m : gmap (list Z) inode) : list (list Z * inode) :=
  merge_sort (fun p q : list Z * inode => Is_true (lex_leb p.1 q.1)) (map_to_list m).
Definition expired_text (name : list Z) (days from to : Z) : list Z :=
  to_bytes "Run log(" ++ name ++ to_bytes ") expired, days(" ++ ToString days ++ to_bytes "), time("
  ++ ToFormatString from ++ to_bytes " => " ++ ToFormatString to ++ to_bytes "), delete it".
Definition here (level num : Z) (text : list Z) : line :=
  mkLine level (to_bytes "logger.cpp") (to_bytes "CheckExpiredLog") num text.
Definition SECOND_UNITS_PER_DAY : Z := 86400.
Definition SECOND_UNITS_PER_HOUR : Z := 3600.
(** [error_text] describes the failure of the last call. *)
Definition delete_log (time_string : Z -> list Z) (error_text name : list Z) (from to : Z) (lg : Logger) : FM Logger :=
  let! lg := LogStub time_string (here LOG_LEVEL_INFO 343 (expired_text name (expire_days_ lg) from to)) lg in
  let strPath := to_bytes (Format (of_bytes (log_path_ lg ++ PATH_SEPARATOR ++ name))) in
  let! ok := Delete strPath in
  if ok then ret lg
  else LogStub time_string (here LOG_LEVEL_ERROR 349 (to_bytes "Delete run log(" ++ strPath ++ to_bytes ") failed" ++ error_text)) lg.
Fixpoint check_files (time_string : Z -> list Z) (error_text : list Z) (files : list (list Z * inode)) (lg : Logger) : FM Logger :=
  match files with
  | [] => ret lg
  | (name, attr) :: files =>
      if is_directory_ attr then check_files time_string error_text files lg
      else
        let! times := lift (GetBackupNameTime name) in
        let '(from, to) := match times with
          | Some t => t
          | None => (0, Z.max (create_time_ attr) (modify_time_ attr))
          end in
        let! now := time_now in
        let! lg := (if to + wrap 32 (expire_days_ lg * SECOND_UNITS_PER_DAY) <? now
                    then delete_log time_string error_text name from to lg else ret lg) in
        check_files time_string error_text files lg
  end.
Definition CheckExpiredLog (time_string : Z -> list Z) (error_text : list Z) (lg : Logger) : FM Logger :=
  let! now := sysop HighResolution in
  if m_nCheckRunLogTime lg + SECOND_UNITS_PER_HOUR * MICRO_UNITS_PER_SEC >? now then ret lg
  else
    let! nFiles := GetFileList (log_path_ lg) in
    let! lg := check_files time_string error_text (by_name nFiles) lg in
    let! now := sysop HighResolution in
    ret (mkLogger (file_out_ lg) (file_err_ lg) (file_per_ lg) (out_ lg) (err_ lg) (per_ lg) (log_level_ lg) (log_dest_ lg)
           (capacity_ lg) (expire_days_ lg) (log_path_ lg) now).
End Logger.

Lemma length_to_bytes_of_bytes l : length (to_bytes (of_bytes l)) = length l.
Proof. unfold to_bytes, of_bytes. by rewrite list_ascii_of_string_of_list_ascii, !length_map. Qed.
Lemma file_time_turns s : file_time s = Ret (map (turn 32 45) (map (turn 58 46) (map (turn 47 46) (map (turn 45 46) s)))).
Proof. unfold file_time. by rewrite Replace_char; cbn [obind]; rewrite Replace_char; cbn [obind]; rewrite Replace_char; cbn [obind]; rewrite Replace_char. Qed.

(** ** Lines are kept *)
Section Facts.
Context `{RocksDb} `{Clock} `{Posix} `{Calendar} (thread_text : list Z) `{!PosixWell}.

Lemma backup_name_total fn b e : exists name, backup_name fn b e = Ret name /\ (fn <> [] -> map slash name <> fn).
Proof.
  unfold backup_name. rewrite !file_time_turns. cbn [obind].
  eexists. split; [reflexivity|]. intros Hfn E. apply (f_equal length) in E. rewrite length_map in E. revert E.
  match goal with |- context [Format (of_bytes ?l)] => set (t := l) end.
  rewrite Format_spec. destruct (_ <? _); [|destruct fn; cbn; congruence || lia].
  rewrite length_to_bytes_of_bytes. unfold t. rewrite !length_app. cbn. lia.
Qed.

Lemma only_file_disk i w w' : disk_ok w -> only_file i w w' -> is_Some (inodes w' !! i) -> disk_ok w'.
Proof.
  intros [D1 D2] (E1 & E2 & E3) Hi. split; rewrite E1, ?E2; [|done]. intros p k Hk. destruct (D1 _ _ Hk) as [? ?]. split; [done|].
  destruct (decide (k = i)) as [->|]; [done|]. by rewrite E3.
Qed.
Definition at_end (i : nat) (w : Files) : stream := OnFile i (length (text_of i w)).
Lemma fprintf_end i data w : exists w', fprintf (at_end i w) data w = Ret (at_end i w', w') /\ only_file i w w' /\
  text_of i w' = text_of i w ++ data /\ is_Some (inodes w' !! i).
Proof.
  destruct (fwrite_end i (text_of i w) data w eq_refl) as (w' & E & Ho & Ht & Hs). exists w'.
  unfold fprintf, at_end. rewrite (bind_ret_run _ _ _ _ _ E), Ht. done.
Qed.
(** What a line adds to a file. *)
Definition line_text (time : list Z) (l : line) : list Z :=
  (stamp time (l_level l) ++ to_bytes "<" ++ thread_text ++ to_bytes "> ")
  ++ (l_file l ++ to_bytes "(" ++ l_func l ++ to_bytes ":" ++ ToString (l_num l) ++ to_bytes "):") ++ l_text l ++ [10].
Lemma print_line_end i time l w : exists w', print_line thread_text (at_end i w) time l w = Ret (at_end i w', w') /\
  only_file i w w' /\ text_of i w' = text_of i w ++ line_text time l /\ is_Some (inodes w' !! i).
Proof.
  unfold print_line, line_text.
  destruct (fprintf_end i (stamp time (l_level l) ++ to_bytes "<" ++ thread_text ++ to_bytes "> ") w) as (w1 & E1 & O1 & T1 & _).
  destruct (fprintf_end i (l_file l ++ to_bytes "(" ++ l_func l ++ to_bytes ":" ++ ToString (l_num l) ++ to_bytes "):") w1) as (w2 & E2 & O2 & T2 & _).
  destruct (fprintf_end i (l_text l) w2) as (w3 & E3 & O3 & T3 & _). destruct (fprintf_end i [10] w3) as (w4 & E4 & O4 & T4 & S4).
  exists w4. rewrite (bind_ret_run _ _ _ _ _ E1), (bind_ret_run _ _ _ _ _ E2), (bind_ret_run _ _ _ _ _ E3). split; [exact E4|].
  split; [by do 3 (eapply only_file_trans; [eassumption|])|]. split; [|done]. by rewrite T4, T3, T2, T1, <- !app_assoc.
Qed.

(** A writer of a file: it stands at the end of the file under its name. *)
Record writing (lw : LogWriter) (i : nat) (w : Files) : Prop := {
  wr_dest : dest_ lw = LOG_DEST_FILE;
  wr_ptr : file_ptr_ lw = Some (at_end i w);
  wr_name : names w !! w_file_name_ lw = Some i;
  wr_plain : map slash (w_file_name_ lw) = w_file_name_ lw /\ w_file_name_ lw <> [];
  wr_time : 0 <= begin_time_ lw < 2 ^ 40;
  wr_disk : disk_ok w
}.
(** Seconds that are far from overflow. *)
Definition times_ok : Prop := forall n, 0 <= fst (time_of_day n) < 2 ^ 40.

(** A step that leaves the files alone. *)
Definition same_files (w w' : Files) : Prop := names w' = names w /\ inodes w' = inodes w /\ next_inode w' = next_inode w.
Lemma time_now_run w : times_ok -> exists z w', time_now w = Ret (z, w') /\ same_files w w' /\ 0 <= z < 2 ^ 40.
Proof.
  intros Ht. unfold time_now, bind, sysop, zoom, tick, obind. cbn. eexists _, _. split; [reflexivity|]. split; [done|]. apply Ht.
Qed.
Lemma Timestamp_Now_run (w : Files) : exists z w', sysop Timestamp_Now w = Ret (z, w') /\ same_files w w'.
Proof.
  unfold Timestamp_Now, bind, sysop, zoom, tick, obind, ret. cbn. destruct (time_of_day _) as [a b]. cbn. by do 2 eexists.
Qed.
Lemma same_text i w w' : same_files w w' -> text_of i w' = text_of i w.
Proof. intros (_ & E & _). unfold text_of. by rewrite E. Qed.
Lemma same_disk w w' : same_files w w' -> disk_ok w -> disk_ok w'.
Proof. intros (E1 & E2 & E3) [D1 D2]. by split; rewrite E1, ?E2, ?E3. Qed.

Lemma Move_moves src dst i w : names w !! map slash src = Some i ->
  exists w', Move src dst false w = Ret (true, w') /\ names w' = <[map slash dst := i]> (delete (map slash src) (names w)) /\
    inodes w' = inodes w /\ next_inode w' = next_inode w.
Proof.
  intros Hs. unfold Move. rewrite !RegularPath_map. unfold bind, lift, sysop, zoom, tick, get, ret, modify, obind. cbn.
  rewrite Hs, renames. cbn. by eexists.
Qed.
Lemma moved_disk src dst i w w' : disk_ok w -> names w !! src = Some i -> names w' = <[dst := i]> (delete src (names w)) ->
  inodes w' = inodes w -> next_inode w' = next_inode w -> disk_ok w'.
Proof.
  intros [D1 D2] Hs E1 E2 E3. split; rewrite E1, ?E2, ?E3.
  - intros p k [[<- <-]|[_ [_ Hk]%lookup_delete_Some]]%lookup_insert_Some; [by eapply D1|by eapply D1].
  - intros p q k [[<- <-]|[Hp [Hps Hk]%lookup_delete_Some]]%lookup_insert_Some [[<- Eq]|[Hq [Hqs Hk']%lookup_delete_Some]]%lookup_insert_Some; try done.
    + exfalso. by apply Hqs, (D2 src q i).
    + subst. exfalso. by apply Hps, (D2 src p k).
    + by apply (D2 _ _ k).
Qed.

Lemma s64_small z : - 2 ^ 63 <= z < 2 ^ 63 -> s64 z = Ret z.
Proof. intros H'. unfold s64, in_s64. destruct (Z.leb_spec (- 2 ^ 63) z); [|lia]. destruct (Z.ltb_spec z (2 ^ 63)); [done|lia]. Qed.
Lemma rotate_keeps time lw i w : times_ok -> writing lw i w ->
  exists lw' j w' backup, rotate time lw w = Ret (lw', w') /\ writing lw' j w' /\ w_file_name_ lw' = w_file_name_ lw /\ j <> i /\
    map slash backup <> w_file_name_ lw /\
    names w' = <[w_file_name_ lw := j]> (<[map slash backup := i]> (names w)) /\
    text_of i w' = text_of i w /\ text_of j w' = banner time backup /\ (forall k, k <> j -> inodes w' !! k = inodes w !! k).
Proof.
  intros Ht [Hd Hp Hn [Hpl Hne] Hb Hdisk]. unfold rotate.
  rewrite (bind_ret_run _ _ w (begin_time_ lw * kMicroSecondsPerSecond) w) by (unfold lift; rewrite s64_small; [done|unfold kMicroSecondsPerSecond; lia]).
  destruct (Timestamp_Now_run w) as (now & w1 & E1 & S1). rewrite (bind_ret_run _ _ _ _ _ E1).
  destruct (backup_name_total (w_file_name_ lw) (begin_time_ lw) (Z.quot now kMicroSecondsPerSecond)) as (b & Eb & Hbn).
  rewrite (bind_ret_run _ _ w1 b w1) by (unfold lift; by rewrite Eb).
  pose proof S1 as (N1 & I1 & X1).
  destruct (Move_moves (w_file_name_ lw) b i w1) as (w2 & E2 & N2 & I2 & X2); [by rewrite Hpl, N1|].
  rewrite (bind_ret_run _ _ _ _ _ E2). cbn iota. rewrite (bind_ret_run _ _ w2 true w2) by done.
  rewrite Hpl in N2. assert (disk_ok w2) as D2 by (eapply (moved_disk (w_file_name_ lw)); [by eapply same_disk|by rewrite N1|done..]).
  destruct (fopen_write (w_file_name_ lw) w2 D2) as (j & w3 & E3 & D3 & N3 & T3 & I3 & Hj).
  rewrite (bind_ret_run _ _ _ _ _ E3). cbn iota.
  assert (j <> i) as Hji.
  { intros ->. apply (Hj (map slash b)); [by apply Hbn|]. rewrite N2. apply lookup_insert_eq. }
  destruct (fprintf_end j (banner time b) w3) as (w4 & E4 & O4 & T4 & S4). unfold at_end in E4 at 1. rewrite T3 in E4. cbn [length] in E4.
  rewrite (bind_ret_run _ _ _ _ _ E4). destruct (time_now_run w4 Ht) as (z & w5 & E5 & S5 & Hz). rewrite (bind_ret_run _ _ _ _ _ E5).
  pose proof O4 as (N4 & X4 & I4). pose proof S5 as (N5 & I5 & X5).
  assert (names w5 = <[w_file_name_ lw := j]> (<[map slash b := i]> (names w))) as N.
  { rewrite N5, N4, N3, N2, N1. rewrite <- delete_insert_ne by (by apply not_eq_sym, Hbn). apply insert_delete_eq. }
  assert (forall k, k <> j -> inodes w5 !! k = inodes w !! k) as I by (intros k Hk; by rewrite I5, I4, I3, I2, I1).
  do 4 eexists. split; [reflexivity|]. split; [|split; [done|]].
  - split; cbn; try done; [|by rewrite N, lookup_insert_eq|].
    + f_equal. unfold at_end. by rewrite (same_text j w4 w5 S5).
    + eapply same_disk; [exact S5|]. eapply only_file_disk; [exact D3|exact O4|exact S4].
  - split; [done|]. split; [by apply Hbn|]. split; [exact N|]. split; [unfold text_of; by rewrite I|].
    split; [by rewrite (same_text j w4 w5 S5), T4, T3|done].
Qed.

Lemma is_full_run c lw i w : times_ok -> 0 <= time_capacity_ c < 2 ^ 40 -> writing lw i w ->
  exists b w', is_full c lw (at_end i w) w = Ret (b, w') /\ same_files w w' /\
    (b = false -> Z.of_nat (length (text_of i w)) <= size_capacity_ c).
Proof.
  intros Ht Hc Hw. unfold is_full. cbn [ftell at_end]. destruct (Z.of_nat (length (text_of i w)) >? size_capacity_ c) eqn:E.
  - exists true, w. by split.
  - rewrite (bind_ret_run _ _ w (begin_time_ lw + time_capacity_ c) w).
    + destruct (time_now_run w Ht) as (z & w' & E1 & S1 & _). rewrite (bind_ret_run _ _ _ _ _ E1). do 2 eexists.
      split; [reflexivity|]. split; [done|]. intros _. lia.
    + unfold lift. rewrite s64_small; [done|]. pose proof (wr_time _ _ _ Hw). lia.
Qed.
Lemma writing_same lw i w w' : writing lw i w -> same_files w w' -> writing lw i w'.
Proof.
  intros [Hd Hp Hn Hpl Hb Hdisk] S. split; try done; [by rewrite Hp; f_equal; unfold at_end; rewrite (same_text _ _ _ S)|by rewrite (proj1 S)|by eapply same_disk].
Qed.

End Facts.

(** ** The names of backups *)

(** The C library's calendar, in a zone without summer time: [mktime] is asked
    for standard time. *)
Class CalendarLaws `{Calendar} : Prop := {
  mktime_localtime : forall t, 0 <= t < 2 ^ 37 -> mktime (localtime t) = t;
  localtime_year : forall t, 0 <= t < 2 ^ 37 -> 1000 <= tm_year (localtime t) < 10000;
  localtime_fields : forall t, 0 <= t < 2 ^ 37 ->
    0 <= tm_mon (localtime t) < 100 /\ 0 <= tm_mday (localtime t) < 100 /\ 0 <= tm_hour (localtime t) < 100 /\
    0 <= tm_min (localtime t) < 100 /\ 0 <= tm_sec (localtime t) < 100
}.
Section BackupNames.
Context `{CalendarLaws}.

Definition reads_back (f : list Z) (z : Z) : bool :=
  forallb IS_DIGIT f && negb (length f =? 0)%nat && (length f <=? 4)%nat && (atoi f =? z).
(** A finite range, one by one. *)
Fixpoint all_from (p : Z -> bool) (n : nat) (z : Z) : bool :=
  match n with O => true | S n => p z && all_from p n (z + 1) end.
Lemma all_from_spec p n base z : all_from p n base = true -> base <= z < base + Z.of_nat n -> p z = true.
Proof.
  revert base. induction n as [|n IH]; intros base Ha Hz; [lia|]. cbn [all_from] in Ha. apply andb_true_iff in Ha as [Hb Ha].
  destruct (decide (z = base)) as [->|]; [done|]. apply (IH (base + 1)); [done|lia].
Qed.
Lemma two_reads_back z : 0 <= z < 100 -> reads_back (two z) z = true.
Proof. apply (all_from_spec (fun z => reads_back (two z) z) (Z.to_nat 100) 0). vm_compute. reflexivity. Qed.
Lemma year_reads_back z : 1000 <= z < 10000 -> reads_back (pad 32 4 z) z = true.
Proof.
  intros Hz. apply (all_from_spec (fun z => reads_back (pad 32 4 z) z) (Z.to_nat 9000) 1000); [vm_compute; reflexivity|].
  rewrite Z2Nat.id; lia.
Qed.
Definition number (f : list Z) : Prop := Forall (fun c => 48 <= c <= 57) f /\ f <> [] /\ (length f <= 4)%nat.
Lemma reads_back_number f z : reads_back f z = true -> number f /\ atoi f = z.
Proof.
  unfold reads_back, number. rewrite !andb_true_iff. intros [[[H1 H2] H3] H4]. apply Z.eqb_eq in H4. apply Nat.leb_le in H3.
  split; [|done]. split; [|split; [by destruct f|done]]. rewrite Forall_forall. intros c Hc. apply list_elem_of_In in Hc.
  rewrite forallb_forall in H1. specialize (H1 c Hc). unfold IS_DIGIT in H1. lia.
Qed.
Lemma turn_number a b f : number f -> ~ (48 <= a <= 57) -> map (turn a b) f = f.
Proof. intros [Hf _] Ha. apply map_turn_id. intros Hin. rewrite Forall_forall in Hf. by apply Ha, Hf. Qed.
Lemma number_not_in c f : number f -> ~ (48 <= c <= 57) -> c ∉ f.
Proof. intros [Hf _] Ha Hin. rewrite Forall_forall in Hf. by apply Ha, Hf. Qed.

(** The fields of a time, with signs between them. *)
Definition fields (y mo d h mi s : list Z) (date gap time : Z) : list Z :=
  y ++ date :: mo ++ date :: d ++ gap :: h ++ time :: mi ++ time :: s.
Lemma turn_fields a b y mo d h mi s date gap time : number y -> number mo -> number d -> number h -> number mi -> number s ->
  ~ (48 <= a <= 57) ->
  map (turn a b) (fields y mo d h mi s date gap time) = fields y mo d h mi s (turn a b date) (turn a b gap) (turn a b time).
Proof. intros. unfold fields. repeat (rewrite map_app; cbn [map]). by rewrite !turn_number. Qed.
Lemma Strtok_piece d p r cur : d ∉ p -> p <> [] \/ cur <> [] -> Strtok_from d (p ++ d :: r) cur = (cur ++ p) :: Strtok_from d r [].
Proof.
  intros Hd Hne. rewrite Strtok_from_free by (apply Forall_forall; intros c Hc ->; done). cbn [Strtok_from].
  rewrite Z.eqb_refl. destruct (cur ++ p) eqn:E; [|done]. apply app_eq_nil in E as [-> ->]. by destruct Hne.
Qed.
Lemma Strtok_last d p cur : d ∉ p -> Strtok_from d p cur = [cur ++ p].
Proof.
  intros Hd. rewrite <- (app_nil_r p) at 1. by rewrite Strtok_from_free by (apply Forall_forall; intros c Hc ->; done).
Qed.
Lemma Strtok_fields y mo d h mi s : number y -> number mo -> number d -> number h -> number mi -> number s ->
  Strtok_append (fields y mo d h mi s 45 45 45) 45 [] = (6, [y; mo; d; h; mi; s]).
Proof.
  intros. unfold Strtok_append, Strtok, fields.
  repeat (rewrite Strtok_piece; [|apply number_not_in; [done|lia]|left; match goal with Hn : number ?x |- ?x <> [] => apply Hn end]).
  rewrite Strtok_last by (apply number_not_in; [done|lia]). reflexivity.
Qed.

(** A time as it stands in a backup's name, and read from there. *)
Definition dotted (t : Z) : list Z :=
  let f := localtime t in
  fields (pad 32 4 (tm_year f)) (two (tm_mon f)) (two (tm_mday f)) (two (tm_hour f)) (two (tm_min f)) (two (tm_sec f)) 46 45 46.
Lemma localtime_numbers t : 0 <= t < 2 ^ 37 ->
  let f := localtime t in
  Forall2 (fun s z => number s /\ atoi s = z)
    [pad 32 4 (tm_year f); two (tm_mon f); two (tm_mday f); two (tm_hour f); two (tm_min f); two (tm_sec f)]
    [tm_year f; tm_mon f; tm_mday f; tm_hour f; tm_min f; tm_sec f].
Proof.
  intros Ht. cbn zeta. pose proof (localtime_year t Ht). destruct (localtime_fields t Ht) as (? & ? & ? & ? & ?).
  do 6 (apply Forall2_cons; split; [apply reads_back_number; first [by apply two_reads_back | by apply year_reads_back]|]).
  constructor.
Qed.
Lemma file_time_dotted t : 0 <= t < 2 ^ 37 -> file_time (ToFormatString t) = Ret (dotted t).
Proof.
  intros Ht. pose proof (localtime_numbers t Ht) as Hn. rewrite file_time_turns. f_equal. cbn zeta in Hn.
  repeat match goal with Hf : Forall2 _ (_ :: _) (_ :: _) |- _ => apply Forall2_cons in Hf as [[? _] Hf] end.
  change (ToFormatString t) with (fields (pad 32 4 (tm_year (localtime t))) (two (tm_mon (localtime t))) (two (tm_mday (localtime t)))
    (two (tm_hour (localtime t))) (two (tm_min (localtime t))) (two (tm_sec (localtime t))) 45 32 58).
  by rewrite !turn_fields by (done || lia).
Qed.
Lemma ToTimestamp_dotted t : 0 <= t < 2 ^ 37 -> ToTimestamp (dotted t) = Ret t.
Proof.
  intros Ht. pose proof (localtime_numbers t Ht) as Hn. unfold ToTimestamp, dotted. cbn zeta in *.
  repeat match goal with Hf : Forall2 _ (_ :: _) (_ :: _) |- _ => apply Forall2_cons in Hf as [[? ?] Hf] end.
  do 4 (rewrite Replace_char; cbn [obind]; rewrite turn_fields by (done || lia)).
  unfold turn. cbn [Z.eqb Pos.eqb]. rewrite Strtok_fields by done. f_equal.
  transitivity (mktime (localtime t)); [|by apply mktime_localtime]. f_equal. destruct (localtime t). cbn in *. congruence.
Qed.

Lemma find_first c l r : c ∉ l -> find_sub [c] (l ++ c :: r) = Some (length l).
Proof.
  induction l as [|a l IH]; cbn; [by rewrite Z.eqb_refl|]. rewrite not_elem_of_cons. intros [Ha Hl].
  destruct (Z.eqb_spec c a); [done|]. by rewrite IH.
Qed.
Lemma rfind_end c l : rfind c (l ++ [c]) = Some (length l).
Proof. induction l as [|a l IH]; cbn; [by rewrite Z.eqb_refl|]. by rewrite IH. Qed.
Lemma dotted_not_in c t : 0 <= t < 2 ^ 37 -> ~ (48 <= c <= 57) -> c <> 46 -> c <> 45 -> c ∉ dotted t.
Proof.
  intros Ht H1 H2 H3. pose proof (localtime_numbers t Ht) as Hn. cbn zeta in Hn.
  repeat match goal with Hf : Forall2 _ (_ :: _) (_ :: _) |- _ => apply Forall2_cons in Hf as [[? _] Hf] end.
  unfold dotted, fields. rewrite !elem_of_app, !elem_of_cons, !elem_of_app, !elem_of_cons, !elem_of_app, !elem_of_cons, !elem_of_app,
    !elem_of_cons, !elem_of_app, !elem_of_cons. intros Hin.
  repeat match goal with Hf : number _ |- _ => pose proof (number_not_in c _ Hf H1); clear Hf end. tauto.
Qed.

Lemma string_length_of_bytes l : String.length (of_bytes l) = length l.
Proof.
  rewrite <- (length_to_bytes_of_bytes l). unfold to_bytes. rewrite length_map.
  induction (of_bytes l) as [|c r IH]; cbn; [done|by rewrite IH].
Qed.
Lemma dotted_bytes t : 0 <= t < 2 ^ 37 -> bytes_ok (dotted t) /\ (length (dotted t) <= 29)%nat.
Proof.
  intros Ht. pose proof (localtime_numbers t Ht) as Hn. cbn zeta in Hn.
  repeat match goal with Hf : Forall2 _ (_ :: _) (_ :: _) |- _ => apply Forall2_cons in Hf as [[? _] Hf] end.
  assert (forall f, number f -> bytes_ok f) as Hb by (intros f [Hf _]; eapply Forall_impl; [exact Hf|]; unfold byte_ok; cbn; lia).
  unfold dotted, fields. split.
  - unfold bytes_ok in *. repeat (first [apply Forall_app_2|apply Forall_cons_2]; [by apply Hb || (unfold byte_ok; lia)|]); by apply Hb.
  - unfold number in *. repeat (rewrite length_app; cbn [length]). lia.
Qed.

(** The name a log file gets when it is set aside tells the time it was
    begun and the time it was set aside, to the second, as the clean-up of old
    logs reads them from it; in any zone without summer time, for a file whose
    own name has no bracket and no tilde. *)
Theorem backup_name_times fn b e : bytes_ok fn -> 40 ∉ fn -> 126 ∉ fn -> Z.of_nat (length fn) < 2 ^ 19 ->
  0 <= b < 2 ^ 37 -> 0 <= e < 2 ^ 37 ->
  exists name, backup_name fn b e = Ret name /\ GetBackupNameTime name = Ret (Some (b, e)).
Proof.
  intros Hbytes H40 H126 Hlen Hb He. destruct (dotted_bytes b Hb) as [Bb Lb]. destruct (dotted_bytes e He) as [Be Le].
  unfold backup_name. rewrite !file_time_dotted by done. cbn [obind].
  set (name := fn ++ to_bytes "-(" ++ dotted b ++ to_bytes "~" ++ dotted e ++ to_bytes ")").
  assert (to_bytes (Format (of_bytes name)) = name) as ->.
  { rewrite Format_short.
    - apply to_bytes_of_bytes. unfold name, bytes_ok in *. repeat (apply Forall_app_2; [done || apply to_bytes_ok|]). apply to_bytes_ok.
    - rewrite string_length_of_bytes. unfold name. rewrite !length_app. cbn. lia. }
  exists name. split; [done|].
  assert (name = (fn ++ [45]) ++ 40 :: dotted b ++ 126 :: dotted e ++ [41]) as E1 by (unfold name; cbn; by rewrite <- app_assoc).
  assert (name = (fn ++ [45; 40] ++ dotted b) ++ 126 :: dotted e ++ [41]) as E2 by (rewrite E1; cbn; by rewrite <- !app_assoc).
  assert (name = (fn ++ [45; 40] ++ dotted b ++ [126] ++ dotted e) ++ [41]) as E3 by (rewrite E1; cbn; by rewrite <- !app_assoc; cbn; rewrite <- !app_assoc).
  assert (find_sub [40] name = Some (length (fn ++ [45]))) as F1.
  { rewrite E1. apply find_first. rewrite elem_of_app, list_elem_of_singleton. intros [?|?]; done. }
  assert (find_sub [126] name = Some (length (fn ++ [45; 40] ++ dotted b))) as F2.
  { rewrite E2. apply find_first. rewrite !elem_of_app, !elem_of_cons. pose proof (dotted_not_in 126 b Hb ltac:(lia) ltac:(lia) ltac:(lia)).
    intros [?|[[?|[?|?%not_elem_of_nil]]|?]]; done. }
  assert (rfind 41 name = Some (length (fn ++ [45; 40] ++ dotted b ++ [126] ++ dotted e))) as F3 by (rewrite E3; apply rfind_end).
  unfold GetBackupNameTime. rewrite F1, F2, F3.
  match goal with |- context [if ?x then _ else _] => assert (x = true) as -> end.
  { apply andb_true_iff. split; apply Nat.ltb_lt; rewrite !length_app; cbn; lia. }
  assert (take (length (fn ++ [45; 40] ++ dotted b) - length (fn ++ [45%Z]) - 1) (drop (length (fn ++ [45%Z]) + 1) name) = dotted b) as ->.
  { rewrite E1. rewrite <- drop_drop, drop_app_length. cbn [drop]. apply take_app_length'. rewrite !length_app. cbn. lia. }
  assert (take (length (fn ++ [45; 40] ++ dotted b ++ [126] ++ dotted e) - length (fn ++ [45; 40] ++ dotted b) - 1)
    (drop (length (fn ++ [45; 40] ++ dotted b) + 1) name) = dotted e) as ->.
  { rewrite E2. rewrite <- drop_drop, drop_app_length. cbn [drop]. apply take_app_length'. rewrite !length_app. cbn. lia. }
  by rewrite !ToTimestamp_dotted.
Qed.
End BackupNames.

(** ** A log that is full *)

(** Months of thirty days. *)
Definition even_localtime (t : Z) : tm :=
  let mi := t / 60 in let h := mi / 60 in let d := h / 24 in let mo := d / 30 in
  mkTm (1970 + mo / 12) (mo mod 12 + 1) (d mod 30 + 1) (h mod 24) (mi mod 60) (t mod 60).
Definition even_mktime (t : tm) : Z :=
  ((((tm_year t - 1970) * 12 + (tm_mon t - 1)) * 30 + (tm_mday t - 1)) * 24 + tm_hour t) * 3600 + tm_min t * 60 + tm_sec t.
Definition even_calendar : Calendar := {| localtime := even_localtime; mktime := even_mktime |}.
Lemma even_calendar_laws : @CalendarLaws even_calendar.
Proof.
  assert (forall t, t = (((((t / 60 / 60 / 24 / 30 / 12) * 12 + (t / 60 / 60 / 24 / 30) mod 12) * 30 + (t / 60 / 60 / 24) mod 30) * 24
    + (t / 60 / 60) mod 24) * 60 + (t / 60) mod 60) * 60 + t mod 60) as Hd.
  { intros t. pose proof (Z.div_mod t 60 ltac:(lia)). pose proof (Z.div_mod (t / 60) 60 ltac:(lia)).
    pose proof (Z.div_mod (t / 60 / 60) 24 ltac:(lia)). pose proof (Z.div_mod (t / 60 / 60 / 24) 30 ltac:(lia)).
    pose proof (Z.div_mod (t / 60 / 60 / 24 / 30) 12 ltac:(lia)). lia. }
  split; intros t Ht; cbn -[Z.mul Z.div Z.modulo Z.add]; unfold even_mktime; cbn -[Z.mul Z.div Z.modulo Z.add].
  - pose proof (Hd t). lia.
  - assert (0 <= t / 60 / 60 / 24 / 30 / 12 < 5000); [|lia]. rewrite !Z.div_div by lia. cbn -[Z.div]. split; [apply Z.div_pos; lia|].
    apply Z.div_lt_upper_bound; lia.
  - pose proof (Z.mod_pos_bound (t / 60 / 60 / 24 / 30) 12). pose proof (Z.mod_pos_bound (t / 60 / 60 / 24) 30).
    pose proof (Z.mod_pos_bound (t / 60 / 60) 24). pose proof (Z.mod_pos_bound (t / 60) 60). pose proof (Z.mod_pos_bound t 60). lia.
Qed.

Section Witnesses.
Import MemDb.
Local Existing Instances sample_clock even_calendar even_calendar_laws.
#[local] Instance willing_posix : Posix :=
  {| open_ok := fun _ _ => true; rename_ok := fun _ _ _ => true; unlink_ok := fun _ _ => true; write_ok := fun _ => true |}.
#[local] Instance willing : PosixWell.
Proof. by split. Qed.
Definition log_path : list Z := to_bytes "logs/agent-out.log".
(** One file with two bytes. *)
Definition sample_files : Files :=
  mkFiles (mkSys 0 0 (opened ∅ "" 0 None) []) {[log_path := 0%nat]} {[0%nat := mkInode [79; 75] false 900 950]} 1 [].
Lemma sample_disk : disk_ok sample_files.
Proof.
  split; cbn.
  - intros p i [_ <-]%lookup_singleton_Some. split; [lia|]. rewrite lookup_singleton_eq. by eexists.
  - by intros p q i [<- _]%lookup_singleton_Some [<- _]%lookup_singleton_Some.
Qed.
Lemma Copy_copies_witness : exists j w', Copy log_path (to_bytes "logs/copy") true sample_files = Ret (true, w') /\ text_of j w' = [79; 75].
Proof.
  destruct (Copy_copies log_path (to_bytes "logs/copy") sample_files 0 sample_disk) as (j & w' & E & _ & Ht & _);
    [reflexivity|discriminate|]. exists j, w'. split; [exact E|exact Ht].
Defined.
Definition sample_writer : LogWriter := mkWriter LOG_DEST_FILE (Some (OnFile 0 2)) 2 900 log_path.
Lemma backup_name_times_witness : exists name,
  backup_name (to_bytes "agent-out.log") 900 1000 = Ret name /\ GetBackupNameTime name = Ret (Some (900, 1000)).
Proof.
  apply (backup_name_times (to_bytes "agent-out.log") 900 1000);
    [apply to_bytes_ok|apply (bool_decide_unpack _); reflexivity|apply (bool_decide_unpack _); reflexivity|cbn; lia|lia|lia].
Defined.
End Witnesses.
