(* ===== verification/Stamp.v ===== *)
(** Times as values and as texts (src/utils/timestamp.cpp): microseconds since
    the epoch, printed as seconds, as a date and as a local time.  The clocks
    themselves are in Platform.v; the calendar is the class of Logger.v. *)

From S2P Require Import Prelude Strings Platform Files Logger.

Definition kMicroSecondsPerSecond : Z := 1000 * 1000.

(** [%0nd]: zeros go between the sign and the digits. *)
Definition zeros (width : nat) (z : Z) : list Z :=
  if z <? 0 then 45 :: pad 48 (width - 1) (- z) else pad 48 width z.

(** ** [Timestamp] *)
Record Timestamp := mkTimestamp { timestamp : Z }.
Definition Timestamp_new : Timestamp := mkTimestamp 0.
Definition Invalid : Timestamp := Timestamp_new.
Definition seconds_of (t : Timestamp) : Z := Z.quot (timestamp t) kMicroSecondsPerSecond.
Definition micro_of (t : Timestamp) : Z := Z.rem (timestamp t) kMicroSecondsPerSecond.
Definition ToUnixTimestamp (t : Timestamp) : Z := seconds_of t.
Definition Valid (t : Timestamp) : bool := 0 <? timestamp t.
Definition ts_lt (a b : Timestamp) : bool := timestamp a <? timestamp b.
Definition ts_le (a b : Timestamp) : bool := timestamp a <=? timestamp b.
Definition ts_eq (a b : Timestamp) : bool := timestamp a =? timestamp b.
#[export] Instance Timestamp_eq_dec : EqDecision Timestamp.
Proof. solve_decision. Defined.

(** [snprintf] into 32 bytes. *)
Definition into_32 (s : list Z) : list Z := take 31 s.
Definition Timestamp_ToString (t : Timestamp) : list Z :=
  into_32 (ToString (seconds_of t) ++ [46] ++ zeros 6 (micro_of t)).

(** [gmtime], for the zone. *)
Class Gmt := { gmtime : Z -> tm }.
Section Format.
Context `{Calendar}.
Definition date_text (t : tm) : list Z := pad 32 4 (tm_year t) ++ [45] ++ zeros 2 (tm_mon t) ++ [45] ++ zeros 2 (tm_mday t).
Definition clock_text (t : tm) : list Z := zeros 2 (tm_hour t) ++ [58] ++ zeros 2 (tm_min t) ++ [58] ++ zeros 2 (tm_sec t).
Definition Timestamp_ToFormatString (t : Timestamp) (with_micro : bool) : list Z :=
  let tm_time := localtime (seconds_of t) in
  into_32 (date_text tm_time ++ [32] ++ clock_text tm_time ++ (if with_micro then [46] ++ zeros 6 (micro_of t) else [])).
Definition ToFormatDateString (t : Timestamp) : list Z := into_32 (date_text (localtime (seconds_of t))).
(** Its year is padded with zeros; the milliseconds are three digits at least. *)
Definition Format_time (t : Timestamp) (milli_second : bool) : list Z :=
  let time_info := localtime (seconds_of t) in
  zeros 4 (tm_year time_info) ++ [45] ++ zeros 2 (tm_mon time_info) ++ [45] ++ zeros 2 (tm_mday time_info) ++ [32]
  ++ clock_text time_info ++ [46]
  ++ (if milli_second then zeros 3 (Z.quot (micro_of t) 1000) else zeros 6 (micro_of t)).
(** Hours between local time and the same fields read in Greenwich. *)
Definition TimeZone `{Gmt} (t1 : Z) : Z :=
  let t2 := mktime (gmtime t1) in
  let t1 := mktime (localtime t1) in
  swrap 32 (swrap 32 (Z.quot (t1 - t2) 3600)).
End Format.

(** ** What the texts say *)
Lemma pad_length c n z : (n <= length (pad c n z))%nat.
Proof. unfold pad. rewrite length_app, length_replicate. lia. Qed.
Lemma pad_value n z : 0 <= z -> Stoi64 (pad 48 n z) = Stoi64 (ToString z).
Proof.
  intros Hz. unfold pad. generalize (n - length (ToString z))%nat as k. intros k.
  destruct k as [|k]; [done|]. assert (ToString z = dec z) as E by (unfold ToString; by destruct (Z.ltb_spec z 0); [lia|]).
  destruct (dec_spec z Hz) as (Hne & Hd & _). rewrite <- E in *.
  assert (forall k, Forall (fun c => IS_DIGIT c = true) (replicate k 48 ++ ToString z)) as Hk.
  { intros j. apply Forall_app. split; [by apply Forall_replicate|done]. }
  assert (forall k, digits_value (replicate k 48 ++ ToString z) 0 = digits_value (ToString z) 0) as Hv.
  { clear. intros k. induction k as [|k IH]; [done|]. cbn. exact IH. }
  assert (forall s, s <> [] -> Forall (fun c => IS_DIGIT c = true) s -> Stoi64 s = Z.min (2 ^ 63 - 1) (digits_value s 0)) as Hs.
  { intros s Hs Hds. unfold Stoi64. destruct s as [|c s]; [done|]. cbn [length]. destruct (Z.eqb_spec 0 (Z.of_nat (S (length s)))); [lia|].
    unfold atol. rewrite c_str_no_nul; [by apply strtol_digits|]. eapply Forall_impl; [exact Hds|]. intros x Hx%IS_DIGIT_range. lia. }
  rewrite !Hs; [by rewrite Hv|done|done|by destruct (ToString z)|apply (Hk (S k))].
Qed.
Lemma zeros_value n z : 0 <= z < 2 ^ 63 -> Stoi64 (zeros n z) = z.
Proof.
  intros Hz. unfold zeros. destruct (Z.ltb_spec z 0); [lia|]. rewrite pad_value by lia.
  change (Stoi64 (ToString z)) with (Stol (ToString z)). apply Stol_ToString. lia.
Qed.
Lemma zeros_length n z : 0 <= z < 10 ^ Z.of_nat n -> (0 < n)%nat -> length (zeros n z) = n.
Proof.
  intros Hz Hn. unfold zeros. destruct (Z.ltb_spec z 0); [lia|]. unfold pad. rewrite length_app, length_replicate.
  destruct n as [|n]; [lia|]. pose proof (ToString_length z n) as Hl. destruct (Z.ltb_spec z 0); [lia|]. specialize (Hl ltac:(lia)). lia.
Qed.
Lemma seconds_micro t : 0 <= timestamp t < 2 ^ 63 ->
  0 <= seconds_of t < 2 ^ 63 /\ 0 <= micro_of t < 10 ^ 6 /\ timestamp t = seconds_of t * 1000000 + micro_of t.
Proof.
  intros Ht. unfold seconds_of, micro_of, kMicroSecondsPerSecond. rewrite Z.quot_div_nonneg, Z.rem_mod_nonneg by lia.
  pose proof (Z.div_mod (timestamp t) (1000 * 1000) ltac:(lia)). pose proof (Z.mod_pos_bound (timestamp t) (1000 * 1000) ltac:(lia)).
  split_and!; try lia; try (apply Z.div_pos; lia).
Qed.
Lemma digits_no_point n z : 0 <= z -> Forall (fun c => c <> 46) (zeros n z).
Proof.
  intros Hz. unfold zeros, pad. destruct (Z.ltb_spec z 0); [lia|]. apply Forall_app. split; [apply Forall_replicate; lia|].
  eapply Forall_impl; [apply ToString_chars|]. intros c [Hc%IS_DIGIT_range| ->]; lia.
Qed.
(** The text of a time gives it back: seconds before the point, microseconds after. *)
Theorem Timestamp_ToString_reads t : 0 <= timestamp t < 2 ^ 63 ->
  exists s m, split (Timestamp_ToString t) [46] = [s; m] /\ Stoi64 s * kMicroSecondsPerSecond + Stoi64 m = timestamp t.
Proof.
  intros Ht. destruct (seconds_micro t Ht) as (Hs & Hm & E). exists (ToString (seconds_of t)), (zeros 6 (micro_of t)).
  assert (seconds_of t < 10 ^ 13) as Hs'.
  { unfold seconds_of, kMicroSecondsPerSecond. rewrite Z.quot_div_nonneg by lia. apply Z.div_lt_upper_bound; lia. }
  assert (Timestamp_ToString t = ToString (seconds_of t) ++ [46] ++ zeros 6 (micro_of t)) as ->.
  { unfold Timestamp_ToString, into_32. apply take_ge. rewrite !length_app, zeros_length by (done || lia). cbn [length].
    pose proof (ToString_length (seconds_of t) 12 ltac:(simpl; lia)). destruct (Z.ltb_spec (seconds_of t) 0); lia. }
  split.
  - cbn [app]. rewrite split_cons; [|eapply Forall_impl; [apply ToString_chars|]; intros c [Hc%IS_DIGIT_range| ->]; lia].
    f_equal. unfold split. rewrite <- (app_nil_r (zeros 6 _)), split_from_piece by (apply digits_no_point; lia). by rewrite app_nil_r.
  - rewrite zeros_value by lia. change (Stoi64 (ToString (seconds_of t))) with (Stol (ToString (seconds_of t))).
    rewrite Stol_ToString by lia. unfold kMicroSecondsPerSecond. lia.
Qed.
(** Before the epoch the sign of the fraction stands after the point. *)
Example before_the_epoch : Timestamp_ToString (mkTimestamp (-5)) = to_bytes "0.-00005".
Proof. by vm_compute. Qed.

Section Texts.
Context `{CalendarLaws}.
Lemma seconds_2_37 t : 0 <= timestamp t < 2 ^ 37 * 1000000 -> 0 <= seconds_of t < 2 ^ 37 /\ 0 <= micro_of t < 10 ^ 6.
Proof.
  intros Ht. destruct (seconds_micro t ltac:(lia)) as (Hs & Hm & E). lia.
Qed.
Lemma pad_four z : 1000 <= z < 10000 -> pad 32 4 z = ToString z /\ zeros 4 z = ToString z /\ length (ToString z) = 4%nat.
Proof.
  intros Hz. assert (length (ToString z) = 4%nat) as El.
  { apply Nat.eqb_eq, (all_from_spec (fun z => Nat.eqb (length (ToString z)) 4) (Z.to_nat 9000) 1000); [by vm_compute|lia]. }
  unfold zeros, pad. rewrite El. split_and!; [done| |done]. by destruct (Z.ltb_spec z 0); [lia|].
Qed.
Lemma split_length {A} n (l : list A) : length l = S n -> exists a r, l = a :: r /\ length r = n.
Proof. destruct l as [|a r]; [done|]. intros [= E]. by exists a, r. Qed.
Ltac spell L := repeat (apply split_length in L as (? & ? & -> & L)); apply nil_length_inv in L as ->.
(** The texts of a time are cuts of one of 26 characters. *)
Theorem time_texts_agree t : 0 <= timestamp t < 2 ^ 37 * 1000000 ->
  length (Format_time t false) = 26%nat /\
  Timestamp_ToFormatString t true = Format_time t false /\
  Timestamp_ToFormatString t false = take 19 (Format_time t false) /\
  ToFormatDateString t = take 10 (Format_time t false).
Proof.
  intros Ht. destruct (seconds_2_37 t Ht) as [Hs Hm]. pose proof (localtime_year _ Hs) as Hy.
  destruct (localtime_fields _ Hs) as (Hmo & Hd & Hh & Hmi & Hse). destruct (pad_four _ Hy) as (E1 & E2 & El).
  unfold Timestamp_ToFormatString, ToFormatDateString, Format_time, date_text, clock_text, into_32. set (c := localtime (seconds_of t)) in *.
  rewrite E1, E2.
  pose proof (zeros_length 2 (tm_mon c) ltac:(simpl; lia) ltac:(lia)) as L1. pose proof (zeros_length 2 (tm_mday c) ltac:(simpl; lia) ltac:(lia)) as L2.
  pose proof (zeros_length 2 (tm_hour c) ltac:(simpl; lia) ltac:(lia)) as L3. pose proof (zeros_length 2 (tm_min c) ltac:(simpl; lia) ltac:(lia)) as L4.
  pose proof (zeros_length 2 (tm_sec c) ltac:(simpl; lia) ltac:(lia)) as L5. pose proof (zeros_length 6 (micro_of t) ltac:(simpl; lia) ltac:(lia)) as L6.
  revert El L1 L2 L3 L4 L5 L6. generalize (ToString (tm_year c)), (zeros 2 (tm_mon c)), (zeros 2 (tm_mday c)), (zeros 2 (tm_hour c)),
    (zeros 2 (tm_min c)), (zeros 2 (tm_sec c)), (zeros 6 (micro_of t)). clear. intros l0 l1 l2 l3 l4 l5 l6 L0 L1 L2 L3 L4 L5 L6.
  spell L0. spell L1. spell L2. spell L3. spell L4. spell L5. spell L6. by split_and!.
Qed.
End Texts.
(** The zone is in whole hours; of a half hour nothing is left. *)
Lemma TimeZone_hours `{Calendar} `{Gmt} t off : mktime (localtime t) = t -> mktime (gmtime t) = t - off -> Z.abs off < 2 ^ 31 ->
  TimeZone t = Z.quot off 3600.
Proof.
  intros E1 E2 Ho. unfold TimeZone. rewrite E1, E2. replace (t - (t - off)) with off by lia.
  assert (- 2 ^ 31 <= Z.quot off 3600 < 2 ^ 31) as Hq.
  { pose proof (Z.quot_rem' off 3600). pose proof (Z.rem_bound_abs off 3600 ltac:(lia)). lia. }
  change (2 ^ 31) with (2 ^ (32 - 1)) in Hq. by rewrite !(swrap_small 32 (Z.quot off 3600)) by (done || lia).
Qed.
Lemma Timestamp_ToString_reads_witness : exists s m, split (Timestamp_ToString (mkTimestamp 1700000000000123)) [46] = [s; m] /\
  Stoi64 s * kMicroSecondsPerSecond + Stoi64 m = 1700000000000123.
Proof. apply (Timestamp_ToString_reads (mkTimestamp 1700000000000123)). cbn. lia. Defined.
Lemma time_texts_agree_witness : @Timestamp_ToFormatString even_calendar (mkTimestamp 1700000000000123) false
  = take 19 (@Format_time even_calendar (mkTimestamp 1700000000000123) false).
Proof.
  destruct (@time_texts_agree even_calendar even_calendar_laws (mkTimestamp 1700000000000123)) as (_ & _ & E & _); [cbn; lia|exact E].
Defined.
