(* ===== verification/Machine.v ===== *)
(** What the agent asks its machine (src/utils/system.cpp and the rest of
    src/utils/utils.cpp): the load of the processors, memory, disks, partitions,
    what shell commands print, hardware addresses.  The machine is the class
    [Os]: the texts of /proc, the output of commands and the answers of system
    calls, each at a reading of its own.  A percentage is the quotient the code
    computes in double precision, kept as the two numbers it divides. *)

From S2P Require Import Prelude Hex Strings Md5 Database General Platform Files.

(** ** The machine *)
Record statfs := mkStatfs { f_blocks : Z; f_bfree : Z; f_bavail : Z; f_bsize : Z; f_frsize : Z }.
(** An interface: whether its flags can be read, and its address, if it has one. *)
Record interface := mkInterface { has_flags : bool; ifr_hwaddr : option (list Z) }.
Class Os := {
  (* a file that is opened to be read, by its name *)
  os_file : nat -> list Z -> option (list Z);
  (* a command: [None] if it cannot be started, or what it prints *)
  os_popen : nat -> list Z -> option (list Z);
  os_statfs : nat -> list Z -> option statfs;
  os_stat_size : nat -> list Z -> option Z;
  (* the mounted file systems, by device and place, if the table can be read *)
  os_mounts : nat -> option (list (list Z * list Z));
  os_time : nat -> Z;
  os_uptime : nat -> Z;
  os_nprocs : nat -> Z;
  os_hostname : nat -> option (list Z);
  os_uname : nat -> option (list Z * list Z * list Z * list Z);
  (* the interfaces, at most sixteen, if a socket can be had and asked *)
  os_interfaces : nat -> option (list interface)
}.

(** ** Reading lines *)

(** [fgets]: up to [size - 1] characters, to the end of the line. *)
Fixpoint fgets_from (n : nat) (s : list Z) : list Z * list Z :=
  match n, s with
  | S n, c :: r => if c =? 10 then ([10], r) else let '(l, rest) := fgets_from n r in (c :: l, rest)
  | _, _ => ([], s)
  end.
Definition fgets (size : nat) (s : list Z) : option (list Z * list Z) :=
  match s with [] => None | _ => Some (fgets_from (size - 1) s) end.
(** [File::ReadLine]: the line as a C string, and what is left of the file. *)
Definition ReadLine (rest : list Z) (nMaxCount : nat) : option (list Z * list Z) :=
  match fgets nMaxCount rest with Some (l, rest) => Some (c_str l, rest) | None => None end.

Inductive percent : Set := Percent0 | Ratio (part whole : Z).

Record SystemProcessor := mkProcessor {
  core_count_ : Z; user_time_ : Z; nice_time_ : Z; system_time_ : Z; idle_time_ : Z;
  io_wait_time_ : Z; irq_time_ : Z; soft_irq_time_ : Z; usage_percent_ : percent
}.
Definition SystemProcessor_new : SystemProcessor := mkProcessor 0 0 0 0 0 0 0 0 Percent0.

(** Sums of [int64_t]. *)
Fixpoint sum64 (acc : Z) (l : list Z) : outcome Z :=
  match l with [] => Ret acc | x :: r => let? a := s64 (acc + x) in sum64 a r end.
Definition GetTotalTime (p : SystemProcessor) : outcome Z :=
  let? s := sum64 (user_time_ p) [nice_time_ p; system_time_ p; idle_time_ p; io_wait_time_ p; irq_time_ p; soft_irq_time_ p] in
  Ret (wrap 64 s).
Definition GetUsageTime (p : SystemProcessor) : outcome Z :=
  let? s := sum64 (user_time_ p) [nice_time_ p; system_time_ p] in Ret (wrap 64 s).

Record System := mkSystem {
  y_tick : nat;
  with_processors_ : bool;
  processor_ : SystemProcessor;
  processor_list_ : option (list SystemProcessor)
}.
Definition System_new (n : nat) (with_processors : bool) : System := mkSystem n with_processors SystemProcessor_new None.
Definition reading : M System nat :=
  fun w => Ret (y_tick w, mkSystem (S (y_tick w)) (with_processors_ w) (processor_ w) (processor_list_ w)).
Definition set_processor (p : SystemProcessor) (w : System) : System := mkSystem (y_tick w) (with_processors_ w) p (processor_list_ w).
Definition set_list (l : option (list SystemProcessor)) (w : System) : System := mkSystem (y_tick w) (with_processors_ w) (processor_ w) l.

Section Machine.
Context `{Os}.
Notation SM := (M System).
Definition space : list Z := [32].

(** ** Processors *)

(** The lines of the cores, to the first that is none. *)
Fixpoint count_cores (fuel : nat) (rest : list Z) (core_count : Z) : outcome Z :=
  match fuel with
  | O => Diverge
  | S f =>
      match ReadLine rest 1024 with
      | None => Ret core_count
      | Some (strline, rest) =>
          let values := split strline space in
          if Z.of_nat (length values) <? 8 then Ret core_count
          else
            let? v0 := vec_get values 0 in
            match find_sub (to_bytes "cpu") v0 with
            | None => Ret core_count
            | Some _ => count_cores f rest (core_count + 1)
            end
      end
  end.

(** The end of [UpdateProcessor]: the share in use against the times before. *)
Definition new_usage (nold_processer p : SystemProcessor) : outcome percent :=
  if 0 <? system_time_ nold_processer then
    let? totalTime1 := GetTotalTime nold_processer in let? usageTime1 := GetUsageTime nold_processer in
    let? totalTime2 := GetTotalTime p in let? usageTime2 := GetUsageTime p in
    let totalTime1 := swrap 64 totalTime1 in let usageTime1 := swrap 64 usageTime1 in
    let totalTime2 := swrap 64 totalTime2 in let usageTime2 := swrap 64 usageTime2 in
    if (totalTime1 <? totalTime2) && (usageTime1 <? usageTime2) then
      let? du := s64 (usageTime2 - usageTime1) in
      let? dt := s64 (totalTime2 - totalTime1) in
      Ret (Ratio du dt)
    else Ret Percent0
  else
    let? u := GetUsageTime p in let? t := GetTotalTime p in Ret (Ratio u t).

(** The same, from the opened file on. *)
Definition read_stat (nold_processer : SystemProcessor) (text : list Z) : SM bool :=
  match ReadLine text 1024 with
  | None => ret false
  | Some (strline, rest) =>
      let values := split strline space in
      if Z.of_nat (length values) <? 8 then ret false
      else
        let! v := lift (
          let? v1 := vec_get values 1 in let? v2 := vec_get values 2 in let? v3 := vec_get values 3 in
          let? v4 := vec_get values 4 in let? v5 := vec_get values 5 in let? v6 := vec_get values 6 in
          let? v7 := vec_get values 7 in
          Ret (fun cores => mkProcessor cores (Stoi64 v1) (Stoi64 v2) (Stoi64 v3) (Stoi64 v4) (Stoi64 v5)
                              (Stoi64 v6) (Stoi64 v7) (usage_percent_ nold_processer))) in
        let! cores := lift (count_cores (S (length rest)) rest 0) in
        let p := v cores in
        do! modify (set_processor p) in
        let! usage := lift (new_usage nold_processer p) in
        do! modify (set_processor (mkProcessor (core_count_ p) (user_time_ p) (nice_time_ p) (system_time_ p)
              (idle_time_ p) (io_wait_time_ p) (irq_time_ p) (soft_irq_time_ p) usage)) in
        ret true
  end.
Definition UpdateProcessor : SM bool :=
  let! w := get in
  let nold_processer := processor_ w in
  do! (if with_processors_ w then modify (set_list (Some [])) else ret tt) in
  let! n := reading in
  match os_file n (to_bytes "/proc/stat") with
  | None => ret false
  | Some text => read_stat nold_processer text
  end.

(** [utils::GetCpuCoreCount] counts the fields of the first line. *)
Definition utils_GetCpuCoreCount (stat_text : option (list Z)) : Z :=
  match stat_text with
  | None => 1
  | Some text =>
      match ReadLine text 1024 with
      | None => 1
      | Some (strLine, _) =>
          let nValues := Strtok strLine 32 in
          if Z.of_nat (length nValues) <? 8 then 1 else Z.of_nat (length nValues)
      end
  end.
Definition GetCpuCoreCount : SM Z := let! n := reading in ret (wrap 64 (os_nprocs n)).

(** ** Memory *)
Record PhysicalMemory := mkMemory {
  total_bytes_ : Z; free_bytes_ : Z; buffers_bytes_ : Z; cached_bytes_ : Z; available_bytes_ : Z; mem_percent_ : percent
}.
Definition PhysicalMemory_new : PhysicalMemory := mkMemory 0 0 0 0 0 Percent0.
(** A number of kilobytes, times 1024 in [int64_t], stored as [uint64_t]. *)
Definition kilobytes (value : list Z) : outcome Z := let? b := s64 (Stoui64 value * 1024) in Ret (wrap 64 b).
Definition memory_line (strline : list Z) (m : PhysicalMemory) : outcome PhysicalMemory :=
  let values := split strline [58] in
  let? v0 := vec_get values 0 in
  let? v1 := vec_get values 1 in
  let strkey := Trim v0 in
  let strvalue := Trim v1 in
  if bool_decide (strkey = to_bytes "MemTotal") then
    let? b := kilobytes strvalue in Ret (mkMemory b (free_bytes_ m) (buffers_bytes_ m) (cached_bytes_ m) (available_bytes_ m) (mem_percent_ m))
  else if bool_decide (strkey = to_bytes "MemFree") then
    let? b := kilobytes strvalue in Ret (mkMemory (total_bytes_ m) b (buffers_bytes_ m) (cached_bytes_ m) (available_bytes_ m) (mem_percent_ m))
  else if bool_decide (strkey = to_bytes "Buffers") then
    let? b := kilobytes strvalue in Ret (mkMemory (total_bytes_ m) (free_bytes_ m) b (cached_bytes_ m) (available_bytes_ m) (mem_percent_ m))
  else if bool_decide (strkey = to_bytes "Cached") then
    let? b := kilobytes strvalue in Ret (mkMemory (total_bytes_ m) (free_bytes_ m) (buffers_bytes_ m) b (available_bytes_ m) (mem_percent_ m))
  else Ret m.
Fixpoint memory_lines (fuel : nat) (rest : list Z) (m : PhysicalMemory) : outcome PhysicalMemory :=
  match fuel with
  | O => Diverge
  | S f =>
      match ReadLine rest 1024 with
      | None => Ret m
      | Some (strline, rest) => let? m := memory_line strline m in memory_lines f rest m
      end
  end.
Definition GetPhysicalMemory (memory : PhysicalMemory) : SM (bool * PhysicalMemory) :=
  let! n := reading in
  match os_file n (to_bytes "/proc/meminfo") with
  | None => ret (false, memory)
  | Some text =>
      let! m := lift (memory_lines (S (length text)) text memory) in
      let available := wrap 64 (wrap 64 (free_bytes_ m + buffers_bytes_ m) + cached_bytes_ m) in
      let usage := if available <? total_bytes_ m then Ratio (total_bytes_ m - available) (total_bytes_ m) else mem_percent_ m in
      ret (true, mkMemory (total_bytes_ m) (free_bytes_ m) (buffers_bytes_ m) (cached_bytes_ m) available usage)
  end.

(** ** Disks and partitions *)
Record PhysicalDisk := mkDisk { d_total : Z; d_free : Z; d_available : Z; d_percent : percent }.
Definition PhysicalDisk_new : PhysicalDisk := mkDisk 0 0 0 Percent0.
Definition GetPhysicalDisk (path : list Z) (disk : PhysicalDisk) : SM (bool * PhysicalDisk) :=
  let! n := reading in
  match os_statfs n path with
  | None => ret (false, disk)
  | Some s =>
      let total := wrap 64 (f_blocks s * f_frsize s) in
      let available := wrap 64 (f_bavail s * f_bsize s) in
      let usage := if available <? total then Ratio (total - available) total else d_percent disk in
      ret (true, mkDisk total available available usage)
  end.

Record PhysicalPartition := mkPartition {
  p_total : Z; p_free : Z; p_available : Z; p_percent : Z; describe_ : list Z
}.
(** The percentage of the blocks in use, rounded, in [unsigned] arithmetic. *)
Definition blocks_percent (s : statfs) : Z :=
  let blocks_used := wrap 64 (f_blocks s - f_bfree s) in
  let whole := wrap 64 (blocks_used + f_bavail s) in
  if whole =? 0 then 0
  else wrap 32 (wrap 64 (wrap 64 (blocks_used * 100) + whole / 2) / whole).
Fixpoint partitions (mounts : list (list Z * list Z)) (total_bytes : Z) (l : list PhysicalPartition) :
    SM (Z * list PhysicalPartition) :=
  match mounts with
  | [] => ret (total_bytes, l)
  | (device, mount_point) :: r =>
      let! n := reading in
      match os_statfs n mount_point with
      | None => partitions r total_bytes l
      | Some s =>
          if 0 <? f_blocks s then
            if bool_decide (device = to_bytes "rootfs") then partitions r total_bytes l
            else
              let p := mkPartition (wrap 64 (f_blocks s * f_bsize s)) (wrap 64 (f_bfree s * f_bsize s))
                         (wrap 64 (f_bavail s * f_bsize s)) (blocks_percent s) mount_point in
              partitions r (wrap 64 (total_bytes + p_total p)) (l ++ [p])
          else partitions r total_bytes l
      end
  end.
Definition GetPhysicalPartition : SM (bool * Z * list PhysicalPartition) :=
  let! n := reading in
  match os_mounts n with
  | None => ret (false, 0, [])
  | Some mounts => let! r := partitions mounts 0 [] in ret (true, r.1, r.2)
  end.

(** ** What commands print *)

(** [buff[strlen(buff) - 1]], if it is a line's end, is cut off; an empty line
    has no last character to look at. *)
Definition cut_line_end (buff : list Z) : outcome (list Z) :=
  match rev (c_str buff) with
  | [] => Undef OutOfRange
  | c :: r => Ret (if c =? 10 then rev r else c_str buff)
  end.
Definition first_line (cmd : list Z) : SM (list Z) :=
  let! n := reading in
  match os_popen n cmd with
  | None => ret (to_bytes "error")
  | Some text =>
      match fgets 1024 text with
      | Some (buff, _) => lift (cut_line_end buff)
      | None => ret (to_bytes "error")
      end
  end.
Definition GetLoadAvg : SM (list Z) := first_line (to_bytes "cat /proc/loadavg|awk '{print $1}'|sed 's/,//g'").
Definition GetCpuUsage : SM (list Z) := first_line (to_bytes "sar -u 1 1|grep Average|awk '{print 100-$8}'").
Definition GetTcpConnectionsCount : SM (list Z) := first_line (to_bytes "netstat -ant |grep ESTABLISHED|wc -l ").
Definition GetOsBits : SM (list Z) :=
  let! n := reading in
  match os_popen n (to_bytes "getconf LONG_BIT") with
  | None => ret (to_bytes "error")
  | Some text =>
      match fgets 1024 text with
      | Some (buff, _) => ret (c_str (take 2 buff))
      | None => ret (to_bytes "error")
      end
  end.

(** [sscanf] with two [%s] into 256 characters each: a longer word is written
    beyond them. *)
Fixpoint word (s : list Z) : list Z * list Z :=
  match s with
  | c :: r => if isspace c then ([], s) else let '(w, rest) := word r in (c :: w, rest)
  | [] => ([], [])
  end.
Definition scan_word (s : list Z) : outcome (list Z * list Z) :=
  let '(w, rest) := word (skip_spaces s) in
  if (256 <=? length w)%nat then Undef OutOfRange else Ret (w, rest).
Definition scan_two (s : list Z) : outcome (list Z * list Z) :=
  let? a := scan_word (c_str s) in let? b := scan_word a.2 in Ret (a.1, b.1).
Definition two_words (cmd : list Z) : SM (option (list Z * list Z)) :=
  let! n := reading in
  match os_popen n cmd with
  | None => ret None
  | Some text =>
      let os_bit := match fgets 1024 text with Some (buff, _) => c_str buff | None => to_bytes "error" end in
      let! ab := lift (scan_two os_bit) in ret (Some ab)
  end.
Record DynamicDisk := mkDynamicDisk { read_bytes_ : list Z; write_bytes_ : list Z }.
Definition DynamicDisk_new : DynamicDisk := mkDynamicDisk [49] [49].
Definition GetDynamicDisk (dDisk : DynamicDisk) : SM (bool * DynamicDisk) :=
  let! r := two_words (to_bytes "sar -b 1 1 |grep Average|awk '{print $5*512,$6*512}'") in
  match r with None => ret (false, dDisk) | Some (a, b) => ret (true, mkDynamicDisk a b) end.
Record DynamicTraffic := mkTraffic { upTraffic_bytes_ : list Z; downTraffic_bytes_ : list Z }.
Definition DynamicTraffic_new : DynamicTraffic := mkTraffic [49] [49].
Definition GetDynamicTraffic (traffic : DynamicTraffic) : SM (bool * DynamicTraffic) :=
  let! r := two_words (to_bytes "sar -n DEV 1 1|grep Average|awk 'NR!=1'|awk 'BEGIN{sum_u=0;sum_d=0}{sum_u+=$5;sum_d+=$6}END{print sum_u,sum_d}'") in
  match r with None => ret (false, traffic) | Some (a, b) => ret (true, mkTraffic b a) end.

(** ** Names and addresses *)
Definition GetStartupTime (time_now : Z) : SM Z :=
  let! t := (if time_now =? 0 then let! n := reading in ret (os_time n) else ret time_now) in
  let! n := reading in ret (t - os_uptime n).
Definition GetHostName : SM (list Z) :=
  let! n := reading in ret (match os_hostname n with Some h => c_str h | None => [] end).
Definition GetOsVersion : SM (list Z) :=
  let! n := reading in
  ret (match os_uname n with
       | None => to_bytes "Unknown"
       | Some (sysname, release, machine, version) =>
           to_bytes (Format (of_bytes (c_str sysname ++ [32] ++ c_str release ++ [32] ++ c_str machine ++ [32] ++ c_str version)))
       end).
Definition GetCpuId : bool * list Z := (false, []).
(** From the last interface to the first; six bytes of each, in hexadecimal. *)
Fixpoint macs_of (l : list interface) (macs : list (list Z)) (bret : bool) : bool * list (list Z) :=
  match l with
  | [] => (bret, macs)
  | i :: r =>
      if has_flags i then
        match ifr_hwaddr i with
        | Some sa_data => macs_of r (macs ++ [BinToHexString (take 6 sa_data)]) true
        | None => macs_of r macs bret
        end
      else macs_of r macs bret
  end.
Definition GetMac : SM (bool * list (list Z)) :=
  let! n := reading in
  ret (match os_interfaces n with None => (false, []) | Some l => macs_of (rev l) [] false end).
(** A [std::set] of the addresses: in order, each once. *)
Fixpoint insert_mac (m : list Z) (l : list (list Z)) : list (list Z) :=
  match l with
  | [] => [m]
  | x :: r => if bool_decide (m = x) then l else if String.ltb (of_bytes m) (of_bytes x) then m :: l else x :: insert_mac m r
  end.
Definition GetHardwareAddress (ctx : MD5_CTX) (hard_address out_msg : list Z) : SM (bool * list Z * list Z) :=
  if negb GetCpuId.1 then ret (false, hard_address, to_bytes "get cpu id failed")
  else
    let! macs := GetMac in
    if negb macs.1 then ret (false, hard_address, to_bytes "get mac address failed")
    else
      let mac := concat (foldl (fun l m => insert_mac m l) [] macs.2) in
      let! h := lift (GenerateMD5ToHex ctx (GetCpuId.2 ++ mac)) in
      ret (true, h, out_msg).
Definition GetCpuAddress (ctx : MD5_CTX) (hard_address out_msg : list Z) : SM (bool * list Z * list Z) :=
  if negb GetCpuId.1 then ret (false, hard_address, to_bytes "get cpu id failed")
  else let! h := lift (GenerateMD5ToHex ctx GetCpuId.2) in ret (true, h, out_msg).

(** ** The size of the logs *)
Definition log_names (path : list Z) : outcome (list Z * list Z) :=
  let? file_ext := GetExtension path in
  if negb (length file_ext =? 0)%nat && (length file_ext + 1 <? length path)%nat then
    let sub_path := take (length path - length file_ext - 1) path in
    Ret (c_str sub_path ++ to_bytes "-out." ++ c_str file_ext, c_str sub_path ++ to_bytes "-err." ++ c_str file_ext)
  else Ret (path ++ to_bytes "-out", path ++ to_bytes "-err").
Definition GetLogSize (path : list Z) : SM Z :=
  let! n := reading in ret (match os_stat_size n path with Some s => wrap 64 s | None => 0 end).
Definition GetLogsSize (path : list Z) : SM Z :=
  let! names := lift (log_names path) in
  let! a := GetLogSize (c_str names.1) in
  let! b := GetLogSize (c_str names.2) in
  ret (wrap 64 (a + b)).

(** ** Text in place, and ports *)
Definition Ltrim (line : list Z) : list Z := skip_spaces (c_str line).
Definition Rtrim (line : list Z) : list Z := rev (skip_spaces (rev (c_str line))).
Definition Trim_line (line : list Z) : list Z := Rtrim (Ltrim line).
(** True if no line of the listening sockets has the port. *)
Definition CheckPortIsUsed (port : Z) : SM bool :=
  let! n := reading in
  match os_popen n (to_bytes "/usr/bin/netstat -an|grep -w " ++ ToString (swrap 32 port) ++ to_bytes " | grep LISTEN |wc -l") with
  | None => lift (Undef NullDeref)
  | Some text =>
      let buffer := match fgets 4096 text with Some (l, _) => l | None => [] end in
      if 0 <? atoi (Trim_line buffer) then ret false else ret true
  end.

(** [GetCinPassword]: [None] is [abort].  What is typed is read into 256
    characters, and the last one read is taken for the line's end. *)
Definition GetCinPassword (hidden restored : bool) (typed : list Z) : outcome (option (list Z)) :=
  if negb hidden then Ret None
  else match fgets 256 typed with
       | None => Ret None
       | Some (password, _) =>
           match rev (c_str password) with
           | [] => Undef OutOfRange
           | _ :: r => Ret (if restored then Some (rev r) else None)
           end
       end.
End Machine.

(** ** [DbValue]: a value with its type

    The constructor leaves the type unset, and every question looks at it.  [R]
    is the type [double]. *)
Inductive ValueType : Set := intValueT | uintValueT | int64ValueT | uint64ValueT | realValueT | stringValueT | booleanValueT.
Inductive DbValue (R : Type) : Type :=
| DbUnset | stringValue (s : list Z) | uintValue (v : Z) | intValue (v : Z) | uint64Value (v : Z)
| int64Value (v : Z) | realValue (v : R) | booleanValue (b : bool).
Arguments DbUnset {R}. Arguments stringValue {R} s. Arguments uintValue {R} v. Arguments intValue {R} v.
Arguments uint64Value {R} v. Arguments int64Value {R} v. Arguments realValue {R} v. Arguments booleanValue {R} b.
Section DbValue.
Context {R : Type} (zero : R).
Definition GetType (v : DbValue R) : outcome ValueType :=
  match v with
  | DbUnset => Undef Uninitialised
  | stringValue _ => Ret stringValueT | uintValue _ => Ret uintValueT | intValue _ => Ret intValueT
  | uint64Value _ => Ret uint64ValueT | int64Value _ => Ret int64ValueT | realValue _ => Ret realValueT
  | booleanValue _ => Ret booleanValueT
  end.
Definition when_set {A} (v : DbValue R) (a : A) : outcome A := let? _ := GetType v in Ret a.
Definition AsString (v : DbValue R) : outcome (list Z) := when_set v (match v with stringValue s => s | _ => [] end).
Definition AsBool (v : DbValue R) : outcome bool := when_set v (match v with booleanValue b => b | _ => false end).
Definition AsUint32 (v : DbValue R) : outcome Z := when_set v (match v with uintValue v => v | _ => 0 end).
Definition AsInt32 (v : DbValue R) : outcome Z := when_set v (match v with intValue v => v | _ => 0 end).
Definition AsUnt64 (v : DbValue R) : outcome Z := when_set v (match v with uint64Value v => v | _ => 0 end).
Definition AsInt64 (v : DbValue R) : outcome Z := when_set v (match v with int64Value v => v | _ => 0 end).
Definition AsDouble (v : DbValue R) : outcome R := when_set v (match v with realValue v => v | _ => zero end).
End DbValue.

(** ** Random bytes (utils/random.cpp)

    [rand_bytes] is OpenSSL's generator, [random_device] what the distribution
    over 0..255 draws from the machine. *)
Class Entropy := {
  rand_bytes : nat -> option (list Z);
  random_device : nat -> nat -> Z
}.
Class EntropyLaws `{Entropy} := {
  rand_bytes_size : forall n b, rand_bytes n = Some b -> length b = 32%nat /\ bytes_ok b;
  random_device_byte : forall n i, byte_ok (random_device n i)
}.
Section Random.
Context `{Entropy}.
Definition GetRandBytes (n : nat) (buf : list Z) : bool * list Z :=
  match rand_bytes n with Some b => (true, b ++ drop 32 buf) | None => (false, buf) end.
Definition GetOSRand (n : nat) (buf : list Z) (num : nat) : bool * list Z :=
  (true, map (random_device n) (seq 0 num) ++ drop num buf).
Definition GetStrongRandBytes (sha256 : list Z -> list Z) (n : nat) (out : list Z) : bool * list Z :=
  let buf := replicate 64 0 in
  let '(ok, front) := GetRandBytes n (take 32 buf) in
  if negb ok then (false, out)
  else
    let '(ok, back) := GetOSRand n (drop 32 buf) 32 in
    if negb ok then (false, out) else (true, sha256 (front ++ back)).
(** It fails exactly if OpenSSL does; otherwise both sources are in the digest. *)
Lemma GetStrongRandBytes_mixes `{!EntropyLaws} sha256 n out :
  match rand_bytes n with
  | None => GetStrongRandBytes sha256 n out = (false, out)
  | Some b => exists d, GetStrongRandBytes sha256 n out = (true, sha256 (b ++ d)) /\ length b = 32%nat /\ length d = 32%nat /\
      bytes_ok b /\ bytes_ok d
  end.
Proof.
  unfold GetStrongRandBytes, GetRandBytes, GetOSRand. destruct (rand_bytes n) as [b|] eqn:E; [|done].
  destruct (rand_bytes_size n b E) as [Hl Hb]. exists (map (random_device n) (seq 0 32)). cbn [negb take drop replicate].
  rewrite !app_nil_r. rewrite length_map, length_seq. split_and!; [done..|].
  apply Forall_forall. intros x (i & -> & _)%list_elem_of_fmap. apply random_device_byte.
Qed.
End Random.

(** ** Facts about lines *)
Definition plain (l : list Z) : Prop := Forall (fun c => c <> 10 /\ c <> 0) l.
Lemma plain_c_str l r : plain l -> Forall (fun c => c <> 0) r -> c_str (l ++ r) = l ++ r.
Proof. intros Hl Hr. apply c_str_no_nul, Forall_app. split; [|done]. eapply Forall_impl; [exact Hl|]. naive_solver. Qed.
Lemma fgets_from_line n l rest : plain l -> (length l < n)%nat -> fgets_from n (l ++ 10 :: rest) = (l ++ [10], rest).
Proof.
  intros Hl. revert n. induction Hl as [|c l [Hc _] Hl IH]; intros [|n] Hn; cbn in *; try lia; [done|].
  destruct (Z.eqb_spec c 10); [done|]. by rewrite IH by lia.
Qed.
(** A line that fits is read whole, with its end. *)
Lemma ReadLine_line n l rest : plain l -> (S (length l) < n)%nat -> ReadLine (l ++ 10 :: rest) n = Some (l ++ [10], rest).
Proof.
  intros Hl Hn. unfold ReadLine. assert (fgets n (l ++ 10 :: rest) = Some (l ++ [10], rest)) as ->.
  { unfold fgets. rewrite fgets_from_line by (done || lia). by destruct l. }
  by rewrite plain_c_str by (done || by constructor).
Qed.
(** What is read and what is left are the file, and something is read. *)
Lemma fgets_from_app n s : (fgets_from n s).1 ++ (fgets_from n s).2 = s.
Proof.
  revert s. induction n as [|n IH]; intros [|c s]; cbn; [done..|]. destruct (Z.eqb_spec c 10) as [->|]; [done|].
  specialize (IH s). destruct (fgets_from n s). cbn in *. by rewrite IH.
Qed.
Lemma ReadLine_shorter n s l rest : (1 < n)%nat -> ReadLine s n = Some (l, rest) -> (length rest < length s)%nat.
Proof.
  unfold ReadLine, fgets. destruct s as [|c s]; [done|]. destruct n as [|[|n]]; [lia..|]. intros _ E.
  cbn [fgets_from Nat.sub] in E. pose proof (fgets_from_app n s) as Ha.
  destruct (c =? 10); [simplify_eq; cbn; lia|]. destruct (fgets_from n s) as [a b]. cbn [fst snd] in Ha.
  injection E as _ <-. subst s. cbn. rewrite length_app. lia.
Qed.
Lemma ReadLine_prefix n p s : plain p -> p <> [] -> (length p < n)%nat ->
  exists l rest, ReadLine (p ++ s) n = Some (p ++ l, rest).
Proof.
  intros Hp Hne Hn. assert (exists l rest, fgets_from (n - 1) (p ++ s) = (p ++ l, rest)) as (l & rest & E).
  { clear Hne. assert (length p <= n - 1)%nat as Hm by lia. clear Hn. revert Hm. generalize (n - 1)%nat as m.
    induction Hp as [|c p [Hc _] Hp IH]; intros m Hm; [by cbn; destruct (fgets_from m s); eauto|].
    destruct m as [|m]; [cbn in Hm; lia|]. destruct (IH m ltac:(cbn in Hm; lia)) as (l & rest & E).
    exists l, rest. cbn. destruct (Z.eqb_spec c 10); [done|]. by rewrite E. }
  exists (c_str l), rest. unfold ReadLine, fgets. destruct (p ++ s) eqn:Ep; [by destruct p|]. rewrite E. f_equal. f_equal.
  clear -Hp. induction Hp as [|c p [_ Hc] Hp IH]; [done|]. cbn. destruct (Z.eqb_spec c 0); [done|]. by rewrite IH.
Qed.

(** [Strtok] drops the empty ones, except at the end. *)
Lemma Strtok_glue d l : l <> [] -> Forall (Forall (fun c => c <> d)) l -> last l <> Some [] ->
  Strtok (join d l) d = filter (fun p => p <> []) l.
Proof.
  unfold Strtok. intros Hn Hl. induction Hl as [|p l Hp Hl IH]; [done|]. intros Hlast. destruct l as [|q l].
  - cbn [join]. rewrite <- (app_nil_r p) at 1. rewrite Strtok_from_free by done. cbn. by rewrite decide_True by naive_solver.
  - rewrite join_cons by done. rewrite Strtok_from_free by done. cbn [Strtok_from app]. rewrite Z.eqb_refl, filter_cons.
    destruct p; [|rewrite decide_True by done; f_equal]; apply IH; done.
Qed.

(** ** What the kernel prints of its processors *)
Definition jiffies (ts : list Z) : list Z := join 32 (map ToString ts).
Fixpoint core_lines (i : nat) (cores : list (list Z)) : list Z :=
  match cores with
  | [] => []
  | ts :: r => (to_bytes "cpu" ++ ToString (Z.of_nat i)) ++ 32 :: jiffies ts ++ 10 :: core_lines (S i) r
  end.
(** /proc/stat: the sums after the name and two spaces, a line for each core,
    and other things, interrupts first. *)
Definition stat_text (total : list Z) (cores : list (list Z)) (rest : list Z) : list Z :=
  to_bytes "cpu" ++ 32 :: 32 :: jiffies total ++ 10 :: core_lines 0 cores ++ to_bytes "intr " ++ rest.
(** Such a line has between eight and sixteen numbers of 63 bits. *)
Definition stat_numbers (ts : list Z) : Prop := (7 < length ts <= 16)%nat /\ Forall (fun t => 0 <= t < 2 ^ 63) ts.

Lemma plain_app a b : plain (a ++ b) <-> plain a /\ plain b.
Proof. apply Forall_app. Qed.
Lemma plain_ToString n : plain (ToString n).
Proof. eapply Forall_impl; [apply ToString_chars|]. intros c [Hc%IS_DIGIT_range| ->]; lia. Qed.
Lemma plain_jiffies ts : plain (jiffies ts).
Proof.
  unfold jiffies. induction ts as [|t ts IH]; [constructor|]. destruct ts as [|t' ts]; [apply plain_ToString|].
  cbn [map]. rewrite join_cons by done. apply plain_app. split; [apply plain_ToString|]. constructor; [lia|exact IH].
Qed.
Lemma jiffies_length ts : Forall (fun t => 0 <= t < 2 ^ 63) ts -> (length (jiffies ts) <= 20 * length ts)%nat.
Proof.
  unfold jiffies. induction 1 as [|t ts Ht Hts IH]; [done|].
  pose proof (ToString_length t 18 ltac:(simpl; lia)) as Hl. destruct (Z.ltb_spec t 0); [lia|].
  destruct ts as [|t' ts]; [cbn in *; lia|]. cbn [map] in *. rewrite join_cons by done.
  rewrite length_app. cbn [length] in *. lia.
Qed.
Lemma join_snoc d l p q : join d (l ++ [p]) ++ q = join d (l ++ [p ++ q]).
Proof.
  induction l as [|a l IH]; [done|]. cbn [app]. rewrite !join_cons by (by destruct l). by rewrite <- app_assoc, <- IH.
Qed.
Lemma ToString_no_space n : Forall (fun c => c <> 32) (ToString n).
Proof. eapply Forall_impl; [apply ToString_chars|]. intros c [Hc%IS_DIGIT_range| ->]; lia. Qed.
(** The fields of such a line: the last one keeps the line's end. *)
Lemma jiffies_fields name ts t : Forall (Forall (fun c => c <> 32)) name ->
  join 32 (name ++ map ToString ts ++ [ToString t]) ++ [10] = join 32 (name ++ map ToString ts ++ [ToString t ++ [10]]) /\
  Forall (Forall (fun c => c <> 32)) (name ++ map ToString ts ++ [ToString t ++ [10]]).
Proof.
  intros Hn. split; [by rewrite !app_assoc, join_snoc|]. rewrite !Forall_app. split_and!; [done|..].
  - apply Forall_forall. intros x (y & -> & _)%list_elem_of_fmap. apply ToString_no_space.
  - constructor; [|done]. apply Forall_app. split; [apply ToString_no_space|by constructor].
Qed.

Lemma stat_numbers_last ts : stat_numbers ts -> exists ts' t, ts = ts' ++ [t] /\ (7 <= length ts')%nat.
Proof.
  intros [Hl _]. destruct ts as [|t ts' _] using rev_ind; [cbn in Hl; lia|]. exists ts', t. split; [done|].
  rewrite length_app in Hl. cbn in Hl. lia.
Qed.
Lemma core_line_read i ts rest : (i < 10 ^ 19) -> 0 <= i -> stat_numbers ts ->
  ReadLine ((to_bytes "cpu" ++ ToString i) ++ 32 :: jiffies ts ++ 10 :: rest) 1024
  = Some (join 32 (((to_bytes "cpu" ++ ToString i)) :: map ToString ts) ++ [10], rest).
Proof.
  intros Hi H0 Hts. rewrite join_cons by (destruct ts; [destruct Hts as [[] _]; cbn in *; lia|done]).
  change (join 32 (map ToString ts)) with (jiffies ts).
  rewrite (app_assoc _ (32 :: jiffies ts) (10 :: rest)). apply ReadLine_line.
  - apply plain_app. split; [apply plain_app; split; [by apply (bool_decide_unpack _)|apply plain_ToString]|].
    constructor; [lia|apply plain_jiffies].
  - destruct Hts as [Hl Hts]. pose proof (jiffies_length ts Hts).
    pose proof (ToString_length i 18 ltac:(simpl; lia)) as Hi'. destruct (Z.ltb_spec i 0); [lia|].
    rewrite !length_app. cbn [length]. change (length (to_bytes "cpu")) with 3%nat. lia.
Qed.
Lemma ReadLine_total s n : ReadLine s n = None \/ exists l rest, ReadLine s n = Some (l, rest).
Proof. destruct (ReadLine s n) as [[l rest]|]; eauto. Qed.
(** Counting ends, whatever the file holds. *)
Lemma count_cores_total f rest c : (length rest < f)%nat -> exists n, count_cores f rest c = Ret n.
Proof.
  revert rest c. induction f as [|f IH]; intros rest c Hf; [lia|]. cbn [count_cores].
  destruct (ReadLine rest 1024) as [[l r]|] eqn:E; [|by eauto]. apply ReadLine_shorter in E; [|lia].
  case_match; [by eauto|]. destruct (split l space) as [|v vs] eqn:Es; [by apply split_from_nonempty in Es|].
  cbn. case_match; [|by eauto]. apply IH. lia.
Qed.
Lemma find_sub_start p r : find_sub p (p ++ r) = Some 0%nat.
Proof.
  assert (is_prefix p (p ++ r) = true) as H by (induction p as [|c p IH]; cbn; [done|by rewrite Z.eqb_refl]).
  destruct p as [|c p]; [by destruct r|]. cbn [app] in H |- *. cbn [find_sub]. by rewrite H.
Qed.
Lemma count_cores_lines cores : forall f i c rest, Forall stat_numbers cores -> Z.of_nat (i + length cores) < 10 ^ 19 ->
  (length cores < f)%nat ->
  count_cores f (core_lines i cores ++ to_bytes "intr " ++ rest) c = Ret (c + Z.of_nat (length cores)).
Proof.
  induction cores as [|ts cores IH]; intros [|f] i c rest Hc Hi Hf; cbn [length] in *; try lia.
  - cbn [core_lines app count_cores]. destruct (ReadLine_prefix 1024 (to_bytes "intr ") rest) as (l & r & E);
      [by apply (bool_decide_unpack _)|done|cbn; lia|]. rewrite E.
    case_match; [f_equal; lia|]. change (to_bytes "intr " ++ l) with (to_bytes "intr" ++ 32 :: l).
    unfold space. rewrite split_cons by by apply (bool_decide_unpack _). cbn [vec_get Z.to_nat lookup list_lookup obind].
    assert (find_sub (to_bytes "cpu") (to_bytes "intr") = None) as -> by by vm_compute. cbn. f_equal. lia.
  - apply Forall_cons in Hc as [Hts Hc]. cbn [core_lines count_cores]. rewrite <- !app_assoc, <- app_comm_cons, <- app_assoc, <- app_comm_cons.
    rewrite (app_assoc (to_bytes "cpu")). rewrite core_line_read by (done || lia).
    destruct (stat_numbers_last ts Hts) as (ts' & t & -> & Hl). rewrite map_app. cbn [map].
    change (?n :: ?l ++ ?r) with ([n] ++ l ++ r). 
    destruct (jiffies_fields [to_bytes "cpu" ++ ToString (Z.of_nat i)] ts' t) as [-> Hf'].
    { constructor; [|done]. apply Forall_app. split; [by apply (bool_decide_unpack _)|apply ToString_no_space]. }
    unfold space. rewrite split_glue by done. rewrite !length_app, length_map. cbn [length].
    destruct (Z.ltb_spec (Z.of_nat (1 + (length ts' + 1))) 8); [lia|]. cbn [app]. unfold vec_get. cbn [lookup list_lookup obind].
    rewrite find_sub_start, IH by (done || lia). f_equal. lia.
Qed.

(** ** What the processor's times become *)

(** Without machine arithmetic: what has passed in all, and what was used. *)
Definition total_of (p : SystemProcessor) : Z :=
  user_time_ p + nice_time_ p + system_time_ p + idle_time_ p + io_wait_time_ p + irq_time_ p + soft_irq_time_ p.
Definition used_of (p : SystemProcessor) : Z := user_time_ p + nice_time_ p + system_time_ p.
Definition times_ok (p : SystemProcessor) : Prop :=
  Forall (fun t => 0 <= t) [user_time_ p; nice_time_ p; system_time_ p; idle_time_ p; io_wait_time_ p; irq_time_ p; soft_irq_time_ p]
  /\ total_of p < 2 ^ 63.
(** The share in use since the last look, or since the start. *)
Definition usage_since (old new : SystemProcessor) : percent :=
  if 0 <? system_time_ old then
    if (total_of old <? total_of new) && (used_of old <? used_of new)
    then Ratio (used_of new - used_of old) (total_of new - total_of old) else Percent0
  else Ratio (used_of new) (total_of new).

Lemma s64_ok z : - 2 ^ 63 <= z < 2 ^ 63 -> s64 z = Ret z.
Proof. intros Hz. unfold s64, in_s64. destruct (Z.leb_spec (- 2 ^ 63) z), (Z.ltb_spec z (2 ^ 63)); cbn; lia || done. Qed.
Lemma sum64_ok l acc : 0 <= acc -> Forall (fun t => 0 <= t) l -> foldr Z.add acc l < 2 ^ 63 ->
  sum64 acc l = Ret (foldr Z.add acc l).
Proof.
  intros Ha Hl. revert acc Ha. induction Hl as [|t l Ht Hl IH]; intros acc Ha Hs; [done|]. cbn [sum64].
  assert (forall a, foldr Z.add (a + t) l = t + foldr Z.add a l) as E.
  { intros a. clear. induction l as [|x l IH]; cbn; lia. }
  assert (forall a, 0 <= a -> a <= foldr Z.add a l) as Hm.
  { intros a Ha'. clear -Hl. induction Hl; cbn; lia. }
  cbn in Hs. pose proof (Hm acc Ha). rewrite s64_ok by lia. cbn [obind]. rewrite IH by (rewrite ?E; lia). f_equal. apply E.
Qed.
Lemma GetTotalTime_ok p : times_ok p -> GetTotalTime p = Ret (total_of p).
Proof.
  intros [Hp Ht]. unfold GetTotalTime, total_of in *. repeat (apply Forall_cons in Hp as [? Hp]).
  rewrite sum64_ok by (repeat (constructor; [done|]) || done || cbn; lia). cbn [obind foldr]. rewrite wrap_small by lia. f_equal. lia.
Qed.
Lemma GetUsageTime_ok p : times_ok p -> GetUsageTime p = Ret (used_of p) /\ 0 <= used_of p < 2 ^ 63.
Proof.
  intros [Hp Ht]. unfold GetUsageTime, total_of, used_of in *. repeat (apply Forall_cons in Hp as [? Hp]).
  rewrite sum64_ok by (repeat (constructor; [done|]) || done || cbn; lia). cbn [obind foldr]. rewrite wrap_small by lia.
  split; [f_equal|]; lia.
Qed.
Lemma total_range p : times_ok p -> 0 <= total_of p < 2 ^ 63.
Proof. intros [Hp Ht]. unfold total_of in *. repeat (apply Forall_cons in Hp as [? Hp]). lia. Qed.
Lemma new_usage_ok old p : times_ok old -> times_ok p -> new_usage old p = Ret (usage_since old p).
Proof.
  intros Ho Hp. destruct (GetUsageTime_ok old Ho) as [Eo ?], (GetUsageTime_ok p Hp) as [Ep ?].
  pose proof (total_range old Ho). pose proof (total_range p Hp).
  unfold new_usage, usage_since. rewrite !GetTotalTime_ok, Eo, Ep by done. cbn [obind].
  rewrite !swrap_small by lia. case_match; [|done]. case_match; [|done]. by rewrite !s64_ok by lia.
Qed.

(** The first line and its fields: the second one is empty. *)
Lemma first_line_read total cores rest : stat_numbers total ->
  ReadLine (stat_text total cores rest) 1024
  = Some (join 32 ([to_bytes "cpu"; []] ++ map ToString total) ++ [10], core_lines 0 cores ++ to_bytes "intr " ++ rest).
Proof.
  intros [Hl Ht]. unfold stat_text. pose proof (jiffies_length total Ht) as Hj.
  cbn [app]. rewrite !join_cons by (by destruct total; [cbn in Hl; lia|]). cbn [app].
  change (join 32 (map ToString total)) with (jiffies total).
  rewrite (app_assoc (to_bytes "cpu") (32 :: 32 :: jiffies total)
             (10 :: core_lines 0 cores ++ to_bytes "intr " ++ rest) : to_bytes "cpu" ++ 32 :: 32 :: jiffies total ++ _ = _).
  apply ReadLine_line.
  - apply plain_app. split; [by apply (bool_decide_unpack _)|]. do 2 (constructor; [lia|]). apply plain_jiffies.
  - rewrite length_app. cbn [length]. change (length (to_bytes "cpu")) with 3%nat. lia.
Qed.
Lemma first_line_fields total ts t : total = ts ++ [t] ->
  split (join 32 ([to_bytes "cpu"; []] ++ map ToString total) ++ [10]) space
  = [to_bytes "cpu"; []] ++ map ToString ts ++ [ToString t ++ [10]].
Proof.
  intros ->. rewrite map_app. cbn [map]. destruct (jiffies_fields [to_bytes "cpu"; []] ts t) as [-> Hf].
  { by apply (bool_decide_unpack _). }
  by apply split_glue.
Qed.
Lemma core_lines_length cores i : (length cores <= length (core_lines i cores))%nat.
Proof.
  revert i. induction cores as [|ts cores IH]; intros i; [done|]. cbn [core_lines length].
  rewrite !length_app. cbn [length]. rewrite length_app. cbn [length]. specialize (IH (S i)). lia.
Qed.
Lemma Stoi64_ToString n : 0 <= n < 2 ^ 63 -> Stoi64 (ToString n) = n.
Proof. intros Hn. change (Stoi64 (ToString n)) with (Stol (ToString n)). apply Stol_ToString. lia. Qed.

(** The line of all cores has two spaces after its name: [split] makes an empty
    field of them, so every time is read one place early. *)
Lemma read_stat_shifts `{Os} old w user nice system idle iowait irq more cores rest :
  let total := user :: nice :: system :: idle :: iowait :: irq :: more in
  stat_numbers total -> Forall stat_numbers cores -> Z.of_nat (length cores) < 10 ^ 19 ->
  times_ok old -> user + nice + system + idle + iowait + irq < 2 ^ 63 ->
  let p := mkProcessor (Z.of_nat (length cores)) 0 user nice system idle iowait irq in
  exists w', read_stat old (stat_text total cores rest) w = Ret (true, w') /\
    processor_ w' = p (usage_since old (p (usage_percent_ old))).
Proof.
  intros total Ht Hc Hn Ho Hs p. destruct (stat_numbers_last _ Ht) as (ts & t & E & Hl).
  pose proof (proj2 Ht) as Hp. unfold total in Hp. repeat (apply Forall_cons in Hp as [? Hp]).
  unfold read_stat. rewrite first_line_read, (first_line_fields _ ts t E) by done.
  rewrite !length_app, length_map. cbn [length].
  destruct (Z.ltb_spec (Z.of_nat (2 + (length ts + 1))) 8); [lia|]. unfold total in E.
  destruct ts as [|t1 [|t2 [|t3 [|t4 [|t5 [|t6 [|t7 ts]]]]]]]; cbn in Hl; try lia. injection E as <- <- <- <- <- <- ->.
  cbn [map app]. unfold bind at 1, lift at 1, vec_get. cbn [lookup list_lookup obind fst snd].
  rewrite !Stoi64_ToString by lia. unfold bind at 1, lift at 1.
  rewrite count_cores_lines by (done || (rewrite ?length_app; pose proof (core_lines_length cores 0); lia)).
  cbn [obind fst snd]. unfold bind at 1, modify at 1. cbn [obind fst snd]. unfold bind at 1, lift at 1.
  rewrite Z.add_0_l, new_usage_ok; [|done|].
  - cbn. eexists. split; [done|]. cbn. done.
  - change (Stoi64 []) with 0. unfold times_ok, total_of.
    cbn [user_time_ nice_time_ system_time_ idle_time_ io_wait_time_ irq_time_ soft_irq_time_].
    split; [repeat (apply Forall_cons_2; [lia|]); by apply Forall_nil_2|lia].
Qed.
Theorem UpdateProcessor_shifts `{Os} w user nice system idle iowait irq more cores rest :
  let total := user :: nice :: system :: idle :: iowait :: irq :: more in
  os_file (y_tick w) (to_bytes "/proc/stat") = Some (stat_text total cores rest) ->
  stat_numbers total -> Forall stat_numbers cores -> Z.of_nat (length cores) < 10 ^ 19 ->
  times_ok (processor_ w) -> user + nice + system + idle + iowait + irq < 2 ^ 63 ->
  let p := mkProcessor (Z.of_nat (length cores)) 0 user nice system idle iowait irq in
  exists w', UpdateProcessor w = Ret (true, w') /\
    processor_ w' = p (usage_since (processor_ w) (p (usage_percent_ (processor_ w)))).
Proof.
  intros total Hf Ht Hc Hn Ho Hs p.
  destruct (read_stat_shifts (processor_ w) (mkSystem (S (y_tick w)) (with_processors_ w) (processor_ w)
    (if with_processors_ w then Some [] else processor_list_ w)) user nice system idle iowait irq more cores rest Ht Hc Hn Ho Hs)
    as (w' & E & Hw'). exists w'. split; [|exact Hw'].
  unfold UpdateProcessor, bind at 1, get. cbn [obind fst snd].
  destruct (with_processors_ w) eqn:Ew; unfold bind, modify, ret, reading; cbn [obind fst snd y_tick set_list]; rewrite Hf; rewrite <- E;
    unfold set_list; cbn; by rewrite ?Ew.
Qed.

(** The other count of cores is the number of fields of the first line. *)
Theorem utils_GetCpuCoreCount_fields total cores rest : stat_numbers total ->
  utils_GetCpuCoreCount (Some (stat_text total cores rest)) = Z.of_nat (S (length total)).
Proof.
  intros Ht. destruct (stat_numbers_last _ Ht) as (ts & t & E & Hl).
  unfold utils_GetCpuCoreCount. rewrite first_line_read by done. subst total.
  destruct (jiffies_fields [to_bytes "cpu"; []] ts t) as [Ej Hf]; [by apply (bool_decide_unpack _)|].
  rewrite map_app. cbn [map]. rewrite Ej, Strtok_glue; [|done|done|].
  - assert (filter (fun p => p <> []) ([to_bytes "cpu"; []] ++ map ToString ts ++ [ToString t ++ [10]])
      = [to_bytes "cpu"] ++ map ToString ts ++ [ToString t ++ [10]]) as ->.
    { rewrite filter_app. change (filter _ [to_bytes "cpu"; []]) with [to_bytes "cpu"]. f_equal.
      apply filter_all. rewrite Forall_app. split; [|constructor; [|done]; by destruct (ToString t)].
      apply Forall_forall. intros x (y & -> & _)%list_elem_of_fmap. apply ToString_nonempty. }
    rewrite !length_app, length_map. cbn [length].
    destruct (Z.ltb_spec (Z.of_nat (1 + (length ts + 1))) 8); lia.
  - rewrite app_assoc, last_snoc. by destruct (ToString t).
Qed.

(** ** What the kernel prints of the memory *)

(** A line of /proc/meminfo: a key, blanks, a number, mostly in kilobytes. *)
Record memory_entry := mkEntry { e_key : list Z; e_pad : nat; e_value : Z; e_kb : bool }.
Definition unit_text (e : memory_entry) : list Z := if e_kb e then to_bytes " kB" else [].
Definition meminfo_line (e : memory_entry) : list Z :=
  e_key e ++ 58 :: replicate (e_pad e) 32 ++ ToString (e_value e) ++ unit_text e.
Definition meminfo (l : list memory_entry) : list Z := concat (map (fun e => meminfo_line e ++ [10]) l).
(** Keys without colons and blanks, lines that fit, numbers whose bytes fit 63 bits. *)
Definition entry_ok (e : memory_entry) : Prop :=
  Forall (fun c => 33 <= c < 128 /\ c <> 58) (e_key e) /\
  (length (e_key e) + e_pad e <= 900)%nat /\ 0 <= e_value e < 2 ^ 53.
(** The bytes under a key: the last line that has it, or what was there. *)
Definition told (key : list Z) (l : list memory_entry) (old : Z) : Z :=
  foldl (fun v e => if bool_decide (e_key e = key) then e_value e * 1024 else v) old l.

Lemma solid_no_space c : 33 <= c < 128 -> IsSpace c = false.
Proof.
  intros Hc. unfold IsSpace, isspace.
  destruct (Z.eqb_spec c 32), (Z.leb_spec c 13); cbn; try lia; by rewrite ?andb_false_r.
Qed.
Lemma drop_spaces_id c s : 33 <= c < 128 -> drop_spaces (c :: s) = c :: s.
Proof. intros H. cbn. by rewrite solid_no_space. Qed.
(** Trimming text whose ends are no spaces, with blanks before and a line's end after. *)
Lemma Trim_between k c s d r : 33 <= c < 128 -> 33 <= d < 128 -> rev (c :: s) = d :: r ->
  Trim (replicate k 32 ++ (c :: s)) = c :: s /\ Trim (replicate k 32 ++ (c :: s) ++ [10]) = c :: s.
Proof.
  intros Hc Hd E. assert (forall t, drop_spaces (replicate k 32 ++ t) = drop_spaces t) as Hk by (intros; by induction k).
  unfold Trim. rewrite !Hk. cbn [app]. rewrite !drop_spaces_id by done. rewrite app_comm_cons, rev_app_distr, E. cbn [rev app].
  change (drop_spaces (10 :: d :: r)) with (drop_spaces (d :: r)).
  rewrite drop_spaces_id, <- E by done. split; apply rev_involutive.
Qed.
Lemma ToString_ends n : 0 <= n -> exists c s d r, ToString n = c :: s /\ rev (c :: s) = d :: r /\
  33 <= c < 128 /\ 33 <= d < 128.
Proof.
  intros Hn. destruct (dec_spec n Hn) as (Hne & Hd & _). unfold ToString. destruct (Z.ltb_spec n 0); [lia|].
  pose proof (Forall_rev Hd) as Hr.
  destruct (dec n) as [|c s]; [done|]. destruct (rev (c :: s)) as [|d r] eqn:E.
  - by apply (f_equal (@length Z)) in E; rewrite length_rev in E.
  - exists c, s, d, r. apply Forall_cons in Hd as [?%IS_DIGIT_range _], Hr as [?%IS_DIGIT_range _]. split_and!; done || lia.
Qed.
Lemma Trim_value e : 0 <= e_value e ->
  Trim (replicate (e_pad e) 32 ++ (ToString (e_value e) ++ unit_text e) ++ [10]) = ToString (e_value e) ++ unit_text e.
Proof.
  intros Hn. destruct (ToString_ends _ Hn) as (c & s & d & r & -> & E & Hc & Hd). unfold unit_text. destruct (e_kb e).
  - apply (Trim_between (e_pad e) c (s ++ to_bytes " kB") 66 (107 :: 32 :: d :: r)); [done|lia|].
    by rewrite app_comm_cons, rev_app_distr, E.
  - rewrite app_nil_r. by apply (Trim_between (e_pad e) c s d r).
Qed.
Lemma Trim_key s : Forall (fun c => 33 <= c < 128 /\ c <> 58) s -> Trim s = s.
Proof.
  intros Hs. pose proof (Forall_rev Hs) as Hr. destruct s as [|c s]; [done|]. destruct (rev (c :: s)) as [|d r] eqn:E.
  - by apply (f_equal (@length Z)) in E; rewrite length_rev in E.
  - apply Forall_cons in Hs as [[Hc _] _], Hr as [[Hd _] _]. by apply (Trim_between 0 c s d r).
Qed.

Lemma Stoui64_value e : 0 <= e_value e < 2 ^ 53 -> Stoui64 (ToString (e_value e) ++ unit_text e) = e_value e.
Proof.
  intros Hn. unfold Stoui64. assert (Stoui_loop 64 (ToString (e_value e) ++ unit_text e) 0 0 = e_value e) as ->; [|by apply swrap_small; lia].
  rewrite <- (Stoui_loop_ToString 64 (e_value e)) at 2 by lia. destruct (ToString_ends (e_value e)) as (c & s & _ & _ & E & _); [lia|].
  assert (Forall (fun c => IS_DIGIT c = true) (ToString (e_value e))) as Hd.
  { unfold ToString. destruct (Z.ltb_spec (e_value e) 0); [lia|]. apply dec_spec. lia. }
  rewrite E in *. clear E. generalize 0%Z as v. apply Forall_cons in Hd as [Hc Hd]. intros v. cbn [app Stoui_loop]. rewrite Hc.
  generalize (wrap 64 (wrap 64 (v * 10) + (c - 48))) as v'. generalize 0%nat as u.
  induction Hd as [|a s Ha Hd IH]; intros u v'; [|cbn [app Stoui_loop]; rewrite Ha; apply IH].
  unfold unit_text. by destruct (e_kb e).
Qed.
Definition tell (m : PhysicalMemory) (e : memory_entry) : PhysicalMemory :=
  mkMemory (told (to_bytes "MemTotal") [e] (total_bytes_ m)) (told (to_bytes "MemFree") [e] (free_bytes_ m))
    (told (to_bytes "Buffers") [e] (buffers_bytes_ m)) (told (to_bytes "Cached") [e] (cached_bytes_ m))
    (available_bytes_ m) (mem_percent_ m).
Lemma meminfo_fields e : entry_ok e ->
  split (meminfo_line e ++ [10]) [58] = [e_key e; replicate (e_pad e) 32 ++ (ToString (e_value e) ++ unit_text e) ++ [10]].
Proof.
  intros (Hk & _ & Hn). unfold meminfo_line. rewrite <- app_assoc, <- app_comm_cons, split_cons.
  - f_equal. rewrite <- app_assoc. unfold split. 
    rewrite <- (app_nil_r (replicate _ _ ++ _)). rewrite split_from_piece; [by rewrite app_nil_r|].
    rewrite !Forall_app. split_and!.
    + apply Forall_replicate. lia.
    + eapply Forall_impl; [apply ToString_chars|]. intros c [Hc%IS_DIGIT_range| ->]; lia.
    + unfold unit_text. destruct (e_kb e); by apply (bool_decide_unpack _).
    + by constructor.
  - eapply Forall_impl; [exact Hk|]. naive_solver.
Qed.
Lemma memory_line_tells e m : entry_ok e -> memory_line (meminfo_line e ++ [10]) m = Ret (tell m e).
Proof.
  intros He. pose proof He as (Hk & _ & Hn). unfold memory_line. rewrite meminfo_fields by done.
  unfold vec_get. cbn [lookup list_lookup obind]. rewrite Trim_key, Trim_value by (done || lia).
  assert (kilobytes (ToString (e_value e) ++ unit_text e) = Ret (e_value e * 1024)) as ->.
  { unfold kilobytes. rewrite Stoui64_value, s64_ok by lia. cbn. by rewrite wrap_small by lia. }
  unfold tell, told. cbn [foldl obind]. 
  destruct (decide (e_key e = to_bytes "MemTotal")) as [->|]; [done|]. rewrite (bool_decide_false (_ = to_bytes "MemTotal")) by done.
  destruct (decide (e_key e = to_bytes "MemFree")) as [->|]; [done|]. rewrite (bool_decide_false (_ = to_bytes "MemFree")) by done.
  destruct (decide (e_key e = to_bytes "Buffers")) as [->|]; [done|]. rewrite (bool_decide_false (_ = to_bytes "Buffers")) by done.
  destruct (decide (e_key e = to_bytes "Cached")) as [->|]; [done|]. rewrite (bool_decide_false (_ = to_bytes "Cached")) by done.
  by destruct m.
Qed.
Lemma meminfo_line_plain e : entry_ok e -> plain (meminfo_line e) /\ (S (length (meminfo_line e)) < 1024)%nat.
Proof.
  intros (Hk & Hl & Hn). unfold meminfo_line. split.
  - apply Forall_app. split; [eapply Forall_impl; [exact Hk|]; naive_solver lia|]. constructor; [lia|].
    rewrite !Forall_app. split_and!; [apply Forall_replicate; lia|apply plain_ToString|].
    unfold unit_text. destruct (e_kb e); by apply (bool_decide_unpack _).
  - pose proof (ToString_length (e_value e) 18 ltac:(simpl; lia)) as Ht. destruct (Z.ltb_spec (e_value e) 0); [lia|].
    assert (length (unit_text e) <= 3)%nat by (unfold unit_text; destruct (e_kb e); cbn; lia).
    rewrite length_app. cbn [length]. rewrite !length_app, length_replicate. lia.
Qed.
Lemma memory_lines_tell l : forall f m, Forall entry_ok l -> (length (meminfo l) < f)%nat ->
  memory_lines f (meminfo l) m = Ret (foldl tell m l).
Proof.
  induction l as [|e l IH]; intros [|f] m Hl Hf; try lia; [done|]. apply Forall_cons in Hl as [He Hl].
  destruct (meminfo_line_plain e He) as [Hp Hn]. unfold meminfo in *. cbn [map concat memory_lines] in *.
  rewrite <- app_assoc in *. cbn [app] in *. rewrite ReadLine_line by done. rewrite memory_line_tells by done. cbn [obind foldl].
  apply IH; [done|]. rewrite length_app in Hf. cbn in Hf. lia.
Qed.

Lemma told_range key l : forall v, Forall entry_ok l -> 0 <= v -> 0 <= told key l v.
Proof.
  induction l as [|e l IH]; intros v Hl Hv; [done|]. apply Forall_cons in Hl as [(_ & _ & He) Hl].
  unfold told in *. cbn [foldl]. apply IH; [done|]. case_bool_decide; lia.
Qed.
Lemma foldl_tell l m : foldl tell m l = mkMemory (told (to_bytes "MemTotal") l (total_bytes_ m))
  (told (to_bytes "MemFree") l (free_bytes_ m)) (told (to_bytes "Buffers") l (buffers_bytes_ m))
  (told (to_bytes "Cached") l (cached_bytes_ m)) (available_bytes_ m) (mem_percent_ m).
Proof. revert m. induction l as [|e l IH]; intros m; [by destruct m|]. cbn [foldl]. rewrite IH. done. Qed.

(** What the kernel printed is read back, whatever else stands between. *)
Theorem GetPhysicalMemory_reads `{Os} w l :
  os_file (y_tick w) (to_bytes "/proc/meminfo") = Some (meminfo l) -> Forall entry_ok l ->
  let total := told (to_bytes "MemTotal") l 0 in
  let free := told (to_bytes "MemFree") l 0 in
  let buffers := told (to_bytes "Buffers") l 0 in
  let cached := told (to_bytes "Cached") l 0 in
  let available := free + buffers + cached in
  available < 2 ^ 64 ->
  GetPhysicalMemory PhysicalMemory_new w
  = Ret ((true, mkMemory total free buffers cached available (if available <? total then Ratio (total - available) total else Percent0)),
         mkSystem (S (y_tick w)) (with_processors_ w) (processor_ w) (processor_list_ w)).
Proof.
  intros Hf Hl total free buffers cached available Ha.
  assert (0 <= free /\ 0 <= buffers /\ 0 <= cached) as (H1 & H2 & H3) by (split_and!; by apply told_range).
  unfold GetPhysicalMemory, reading. unfold bind at 1. cbn [obind fst snd y_tick]. rewrite Hf.
  unfold bind, lift. rewrite memory_lines_tell by (done || lia). rewrite foldl_tell. cbn [obind fst snd].
  cbn [total_bytes_ free_bytes_ buffers_bytes_ cached_bytes_ mem_percent_ PhysicalMemory_new].
  change (told (to_bytes "MemTotal") l 0) with total. change (told (to_bytes "MemFree") l 0) with free.
  change (told (to_bytes "Buffers") l 0) with buffers. change (told (to_bytes "Cached") l 0) with cached.
  rewrite (wrap_small 64 (free + buffers)) by lia. by rewrite (wrap_small 64 (free + buffers + cached)) by lia.
Qed.
(** A line without a colon has no second piece: the code takes it all the same. *)
Lemma memory_line_no_colon line m : Forall (fun c => c <> 58) line -> memory_line line m = Undef OutOfRange.
Proof.
  intros Hl. unfold memory_line, split. rewrite <- (app_nil_r line), split_from_piece by done. cbn [split_from app].
  unfold vec_get. done.
Qed.

(** ** Disks *)

(** The percentage is the nearest whole number, and at most a hundred. *)
Theorem blocks_percent_nearest s :
  0 <= f_bavail s <= f_bfree s -> f_bfree s <= f_blocks s < 2 ^ 64 ->
  let used := f_blocks s - f_bfree s in
  let whole := used + f_bavail s in
  0 < whole -> used * 100 + whole / 2 < 2 ^ 64 ->
  0 <= blocks_percent s <= 100 /\ Z.abs (2 * (blocks_percent s * whole - used * 100)) <= whole.
Proof.
  intros Hv Hb used whole Hw Ho. unfold blocks_percent. change (f_blocks s - f_bfree s) with used.
  pose proof (Z.div_mod whole 2 ltac:(lia)). pose proof (Z.mod_pos_bound whole 2 ltac:(lia)).
  rewrite (wrap_small 64 used) by lia. rewrite (wrap_small 64 (used + f_bavail s)) by lia. fold whole.
  rewrite (wrap_small 64 (used * 100)) by lia. rewrite (wrap_small 64 (used * 100 + whole / 2)) by lia.
  destruct (Z.eqb_spec whole 0); [lia|].
  pose proof (Z.div_mod (used * 100 + whole / 2) whole ltac:(lia)). pose proof (Z.mod_pos_bound (used * 100 + whole / 2) whole ltac:(lia)).
  set (q := (used * 100 + whole / 2) / whole) in *. assert (0 <= q <= 100) as Hq by nia.
  rewrite wrap_small by lia. split; [done|]. nia.
Qed.
(** The total is the sum over what is listed, modulo 2^64; what is listed is
    mounted, and is not the root's stand-in. *)
Definition listed (mounts : list (list Z * list Z)) (total : Z) (l : list PhysicalPartition) : Prop :=
  total = wrap 64 (foldr Z.add 0 (map p_total l)) /\
  Forall (fun p => exists device, (device, describe_ p) ∈ mounts /\ device <> to_bytes "rootfs") l.
Lemma sum_snoc l x : foldr Z.add 0 (l ++ [x]) = foldr Z.add 0 l + x.
Proof. induction l as [|a l IH]; cbn; [lia|]. rewrite IH. lia. Qed.
Lemma partitions_listed `{Os} mounts ms : forall total l w r w', ms ⊆ mounts -> listed mounts total l ->
  partitions ms total l w = Ret (r, w') -> listed mounts r.1 r.2.
Proof.
  induction ms as [|[device place] ms IH]; intros total l w r w' Hi Hl E; [by injection E as <- _|].
  assert (ms ⊆ mounts) as Hi' by set_solver. cbn [partitions] in E. apply bind_inv in E as (n & w1 & _ & E).
  destruct (os_statfs n place) as [s|]; [|by eapply IH]. destruct (0 <? f_blocks s); [|by eapply IH].
  case_bool_decide as Hd; [by eapply IH|]. eapply IH; [done| |exact E]. destruct Hl as [-> Hf]. split.
  - rewrite map_app. cbn [map]. rewrite sum_snoc. unfold wrap. by rewrite Zplus_mod_idemp_l.
  - apply Forall_app. split; [done|]. constructor; [|done]. exists device. split; [cbn; set_solver|done].
Qed.
Theorem GetPhysicalPartition_lists `{Os} w total l w' :
  GetPhysicalPartition w = Ret ((true, total, l), w') ->
  exists mounts, os_mounts (y_tick w) = Some mounts /\ listed mounts total l.
Proof.
  unfold GetPhysicalPartition, reading. unfold bind at 1. cbn [obind fst snd y_tick].
  destruct (os_mounts (y_tick w)) as [mounts|] eqn:Em; [|done].
  intros (r & w1 & E & [= <- <- <-])%bind_inv. exists mounts. split; [done|].
  eapply partitions_listed; [| |exact E]; [done|]. by split.
Qed.
(** The room of a disk is counted in two units; if they are one, what is free
    fits in the whole. *)
Lemma GetPhysicalDisk_one_unit `{Os} path d w s :
  os_statfs (y_tick w) path = Some s -> f_frsize s = f_bsize s -> 0 <= f_bsize s ->
  0 <= f_bavail s <= f_blocks s -> f_blocks s * f_bsize s < 2 ^ 64 ->
  exists d' w', GetPhysicalDisk path d w = Ret ((true, d'), w') /\ 0 <= d_available d' <= d_total d' /\
    d_free d' = d_available d' /\
    (d_available d' < d_total d' -> d_percent d' = Ratio (d_total d' - d_available d') (d_total d')).
Proof.
  intros Hs Hu Hz Ha Ho. unfold GetPhysicalDisk, reading, bind. cbn [obind fst snd y_tick]. rewrite Hs, Hu.
  rewrite !wrap_small by nia. do 2 eexists. split; [done|]. cbn. split; [nia|]. split; [done|].
  intros Hlt. by destruct (Z.ltb_spec (f_bavail s * f_bsize s) (f_blocks s * f_bsize s)); [|lia].
Qed.

(** ** Hardware *)

(** No processor has an id, so no machine has an address. *)
Lemma GetHardwareAddress_fails `{Os} ctx h o w : GetHardwareAddress ctx h o w = Ret ((false, h, to_bytes "get cpu id failed"), w) /\
  GetCpuAddress ctx h o w = Ret ((false, h, to_bytes "get cpu id failed"), w).
Proof. done. Qed.
(** An address for each interface that is asked and answers, the last first. *)
Lemma macs_of_answers l : forall macs b, macs_of l macs b =
  (b || existsb (fun i => has_flags i && bool_decide (is_Some (ifr_hwaddr i))) l,
   macs ++ map (fun a => BinToHexString (take 6 a)) (omap (fun i => if has_flags i then ifr_hwaddr i else None) l)).
Proof.
  induction l as [|i l IH]; intros macs b; cbn; [by rewrite orb_false_r, app_nil_r|].
  destruct (has_flags i); [|by rewrite IH]. destruct (ifr_hwaddr i); cbn; rewrite IH; [|done].
  rewrite <- app_assoc. by rewrite orb_true_r.
Qed.
(** The set of addresses has each of them once. *)
Lemma insert_mac_in m l x : x ∈ insert_mac m l <-> x = m \/ x ∈ l.
Proof.
  induction l as [|y l IH]; cbn; [set_solver|]. case_bool_decide; [set_solver|]. case_match; [set_solver|].
  rewrite !elem_of_cons, IH. tauto.
Qed.
Lemma word_app s : (word s).1 ++ (word s).2 = s /\ Forall (fun c => isspace c = false) (word s).1.
Proof.
  induction s as [|c s [IH1 IH2]]; cbn; [done|]. destruct (isspace c) eqn:E; [done|].
  destruct (word s). cbn in *. split; [by rewrite IH1|by constructor].
Qed.
(** A word of 256 characters or more does not fit; the format has no width. *)
Lemma scan_word_overflows s : Forall (fun c => isspace c = false) s -> (256 <= length s)%nat -> scan_word s = Undef OutOfRange.
Proof.
  intros Hs Hl. assert (skip_spaces s = s) as E by (destruct s; [done|]; cbn; by apply Forall_cons in Hs as [-> _]).
  unfold scan_word. rewrite E. assert (word s = (s, [])) as ->.
  { clear E Hl. induction Hs as [|c s Hc Hs IH]; [done|]. cbn. by rewrite Hc, IH. }
  by destruct (Nat.leb_spec 256 (length s)); [|lia].
Qed.

(** ** Logs, ports, texts *)

(** A name with an extension gets the mark before it. *)
Lemma log_names_marked path ext : GetExtension path = Ret ext -> ext <> [] -> (length ext + 1 < length path)%nat ->
  exists base, base = take (length path - length ext - 1) path /\
    log_names path = Ret (c_str base ++ to_bytes "-out." ++ c_str ext, c_str base ++ to_bytes "-err." ++ c_str ext).
Proof.
  intros E Hne Hl. eexists. split; [done|]. unfold log_names. rewrite E. cbn [obind].
  destruct ext; [done|]. cbn [length Nat.eqb negb andb]. by destruct (Nat.ltb_spec (S (length ext) + 1) (length path)); [|cbn in Hl; lia].
Qed.
(** A dot in a directory's name counts as one. *)
Example log_names_directory :
  log_names (to_bytes "/var/agent.d/log") = Ret (to_bytes "/var/agent-out.d/log", to_bytes "/var/agent-err.d/log").
Proof. by vm_compute. Qed.
Lemma cut_line_end_line l : plain l -> cut_line_end (l ++ [10]) = Ret l /\ (l <> [] -> cut_line_end l = Ret l).
Proof.
  intros Hl. unfold cut_line_end. rewrite plain_c_str by (done || by constructor). rewrite rev_app_distr. cbn.
  split; [by rewrite rev_involutive|]. intros Hne. pose proof (plain_c_str l [] Hl ltac:(constructor)) as Ec.
  rewrite app_nil_r in Ec. rewrite Ec. destruct l as [|c l _] using rev_ind; [done|]. rewrite rev_app_distr. cbn.
  apply plain_app in Hl as [_ Hc]. apply Forall_cons in Hc as [[Hc _] _]. by destruct (Z.eqb_spec c 10).
Qed.
(** Each text command gives the first line of what it prints. *)
Lemma first_line_prints `{Os} cmd w l rest : plain l -> (S (length l) < 1024)%nat ->
  os_popen (y_tick w) cmd = Some (l ++ 10 :: rest) -> exists w', first_line cmd w = Ret (l, w').
Proof.
  intros Hl Hn E. unfold first_line, reading, bind. cbn [obind fst snd y_tick]. rewrite E.
  unfold fgets. rewrite fgets_from_line by (done || lia).
  assert (exists c r, l ++ 10 :: rest = c :: r) as (c & r & ->) by (destruct l; eauto).
  unfold lift. rewrite (proj1 (cut_line_end_line l Hl)). eexists. done.
Qed.
(** A line that starts with the character NUL is looked at before its start. *)
Lemma first_line_nul `{Os} cmd w rest : os_popen (y_tick w) cmd = Some (0 :: rest) -> first_line cmd w = Undef OutOfRange.
Proof.
  intros E. unfold first_line, reading, bind. cbn [obind fst snd y_tick]. rewrite E. unfold fgets.
  assert (forall n, exists l r, fgets_from (S n) (0 :: rest) = (0 :: l, r)) as Hz.
  { intros n. cbn. destruct (fgets_from n rest). eauto. }
  destruct (Hz 1022%nat) as (l & r & Er). change (1024 - 1)%nat with (S 1022). rewrite Er. done.
Qed.
(** The answer about a port is true exactly if the count that is printed is
    zero: that is, if nothing listens. *)
Lemma CheckPortIsUsed_free `{Os} port w n rest :
  os_popen (y_tick w) (to_bytes "/usr/bin/netstat -an|grep -w " ++ ToString (swrap 32 port) ++ to_bytes " | grep LISTEN |wc -l")
    = Some (ToString n ++ 10 :: rest) -> 0 <= n < 2 ^ 31 ->
  exists w', CheckPortIsUsed port w = Ret (bool_decide (n = 0), w').
Proof.
  intros E Hn. unfold CheckPortIsUsed, reading, bind. cbn [obind fst snd y_tick]. rewrite E. unfold fgets.
  pose proof (ToString_length n 9 ltac:(simpl; lia)) as Hl.
  rewrite fgets_from_line by (apply plain_ToString || (destruct (n <? 0); lia)).
  destruct (ToString_ends n) as (c & s & d & r & Es & Er & Hc & Hd); [lia|].
  assert (Trim_line (ToString n ++ [10]) = ToString n) as Et.
  { assert (forall x y, 33 <= x < 128 -> skip_spaces (x :: y) = x :: y) as Hsk.
    { intros x y Hx. cbn. unfold isspace. destruct (Z.eqb_spec x 32), (Z.leb_spec x 13); try lia; by rewrite ?andb_false_r. }
    unfold Trim_line, Rtrim, Ltrim. rewrite plain_c_str by (apply plain_ToString || by constructor).
    rewrite Es. cbn [app]. rewrite Hsk by done. rewrite app_comm_cons, <- Es.
    rewrite plain_c_str by (apply plain_ToString || by constructor). rewrite rev_app_distr, Es, Er. cbn [rev app].
    change (skip_spaces (10 :: d :: r)) with (skip_spaces (d :: r)). rewrite Hsk, <- Er by done. apply rev_involutive. }
  rewrite Es. cbn [app]. rewrite app_comm_cons, <- Es. rewrite Et.
  assert (atoi (ToString n) = n) as ->.
  { rewrite <- Stoi_eq. apply Stoi_ToString. lia. }
  destruct (Z.ltb_spec 0 n); case_bool_decide; try lia; by eexists.
Qed.
(** A password of up to 254 characters is read as it was typed; of a longer one,
    the first 254. *)
Lemma fgets_from_cut n l rest : plain l -> (n <= length l)%nat -> (fgets_from n (l ++ rest)).1 = take n l.
Proof.
  intros Hl. revert n. induction Hl as [|c l [Hc _] Hl IH]; intros [|n] Hn; cbn in *; try lia; [done..|].
  destruct (Z.eqb_spec c 10); [done|]. specialize (IH n ltac:(lia)). destruct (fgets_from n (l ++ rest)). cbn in *. by rewrite IH.
Qed.
Lemma GetCinPassword_reads p rest : plain p -> GetCinPassword true true (p ++ 10 :: rest) = Ret (Some (take 254 p)).
Proof.
  intros Hp. assert (exists b, fgets 256 (p ++ 10 :: rest) = Some b /\ exists c, b.1 = take 254 p ++ [c] /\ c <> 0) as (b & E & c & Eb & Hc).
  { unfold fgets. assert (exists x y, p ++ 10 :: rest = x :: y) as (x & y & Exy) by (destruct p; eauto).
    rewrite Exy. eexists. split; [done|]. rewrite <- Exy. change (256 - 1)%nat with 255%nat.
    destruct (decide (255 <= length p)%nat) as [Hl|Hl].
    - rewrite fgets_from_cut by done. destruct (lookup_lt_is_Some_2 p 254) as [c Hc]; [lia|]. exists c.
      rewrite (take_S_r _ _ c) by done. split; [done|]. by apply (proj1 (Forall_lookup _ _) Hp _ _ Hc).
    - rewrite fgets_from_line by (done || lia). exists 10. by rewrite take_ge by lia. }
  unfold GetCinPassword. rewrite E. destruct b as [b r]. cbn [negb fst] in *. subst b.
  rewrite plain_c_str by (apply Forall_take, Hp || by constructor). rewrite rev_app_distr. cbn [rev app]. by rewrite rev_involutive.
Qed.

(** ** A machine *)

Definition a_memory : list memory_entry :=
  [mkEntry (to_bytes "MemTotal") 7 16000000 true; mkEntry (to_bytes "MemFree") 8 4000000 true;
   mkEntry (to_bytes "Buffers") 8 1000000 true; mkEntry (to_bytes "Cached") 9 3000000 true;
   mkEntry (to_bytes "HugePages_Total") 7 0 false].
Definition a_total (n : nat) : list Z := map (fun t => t * (1 + Z.of_nat n)) [4705; 150; 1120; 16250; 520; 30; 45; 0; 0; 0].
Definition a_core : list Z := [2350; 75; 560; 8125; 260; 15; 22; 0; 0; 0].
#[export] Instance AMachine : Os := {|
  os_file n name :=
    if bool_decide (name = to_bytes "/proc/stat") then Some (stat_text (a_total n) [a_core; a_core] (to_bytes "0 0" ++ [10]))
    else if bool_decide (name = to_bytes "/proc/meminfo") then Some (meminfo a_memory) else None;
  os_popen n cmd := Some (to_bytes "0.25" ++ [10]);
  os_statfs n path := Some (mkStatfs 1000 400 300 4096 4096);
  os_stat_size n path := Some 100;
  os_mounts n := Some [(to_bytes "rootfs", to_bytes "/"); (to_bytes "/dev/sda1", to_bytes "/home")];
  os_time n := 1700000000; os_uptime n := 3600; os_nprocs n := 2;
  os_hostname n := Some (to_bytes "agent");
  os_uname n := Some (to_bytes "Linux", to_bytes "6.1", to_bytes "x86_64", to_bytes "1");
  os_interfaces n := Some [mkInterface true (Some [2; 66; 172; 17; 0; 2])]
|}.
(** The times one place early: 1120 hundredths of a second in the kernel count as
    idle, and 4705 of user programs as niced ones. *)
Example a_processor : exists w, UpdateProcessor (System_new 0 false) = Ret (true, w) /\
  processor_ w = mkProcessor 2 0 4705 150 1120 16250 520 30 (Ratio 4855 22775).
Proof. eexists. by vm_compute. Qed.
Example two_cores_are_eleven : utils_GetCpuCoreCount (Some (stat_text (a_total 0) [a_core; a_core] [])) = 11
  /\ exists w, GetCpuCoreCount (System_new 0 false) = Ret (2, w).
Proof. split; [by vm_compute|]. eexists. by vm_compute. Qed.
Lemma UpdateProcessor_shifts_witness : exists w, UpdateProcessor (System_new 0 false) = Ret (true, w) /\ nice_time_ (processor_ w) = 4705.
Proof.
  destruct (UpdateProcessor_shifts (System_new 0 false) 4705 150 1120 16250 520 30 [45; 0; 0; 0] [a_core; a_core] (to_bytes "0 0" ++ [10]))
    as (w & E & Hw).
  - vm_compute. reflexivity.
  - split; [cbn; lia|]. by apply (bool_decide_unpack _).
  - repeat (apply Forall_cons_2; [split; [cbn; lia|by apply (bool_decide_unpack _)]|]). by apply Forall_nil_2.
  - cbn. lia.
  - split; [by apply (bool_decide_unpack _)|by vm_compute].
  - lia.
  - exists w. split; [exact E|]. by rewrite Hw.
Defined.
Lemma GetPhysicalMemory_reads_witness : exists w, GetPhysicalMemory PhysicalMemory_new (System_new 0 false)
  = Ret ((true, mkMemory 16384000000 4096000000 1024000000 3072000000 8192000000 (Ratio 8192000000 16384000000)), w).
Proof.
  eexists. apply (GetPhysicalMemory_reads (System_new 0 false) a_memory).
  - vm_compute. reflexivity.
  - repeat (apply Forall_cons_2; [split_and!; [by apply (bool_decide_unpack _)|cbn; lia|cbn; lia|cbn; lia]|]). by apply Forall_nil_2.
  - by vm_compute.
Defined.
Lemma GetPhysicalPartition_lists_witness : exists w, GetPhysicalPartition (System_new 0 false)
    = Ret ((true, 4096000, [mkPartition 4096000 1638400 1228800 67 (to_bytes "/home")]), w) /\
  exists mounts, os_mounts 0 = Some mounts /\ listed mounts 4096000 [mkPartition 4096000 1638400 1228800 67 (to_bytes "/home")].
Proof. eexists. split; [by vm_compute|]. eapply (GetPhysicalPartition_lists (System_new 0 false)). by vm_compute. Defined.
