(* ===== verification/Handles.v ===== *)
(** [utils::File] as an object (src/utils/file.cpp): opening with a mode and a
    lock, reading, writing, closing, by several processes on one disk.

    The C library is written out as far as the code uses it: the modes of
    [fopen], the position of a stream, [lockf] with a range from the descriptor's
    offset on, and that closing any descriptor of a file drops the process's
    locks on it.  Where buffering has left the descriptor is a reading of the
    class [Stdio], as is whether the system refuses.  [errno] is left out. *)

From S2P Require Import Prelude Strings Files Machine.

Definition FILE_M_READ : Z := 1.
Definition FILE_M_WRITE : Z := 2.
Definition FILE_M_APPEND : Z := 4.
Definition FILE_M_TEXT : Z := 8.
Definition FILE_M_BINARY : Z := 16.
Definition FILE_M_LOCK : Z := 32.
Definition LOW32_BITS_MASK : Z := 4294967295.
Definition has (nMode flag : Z) : bool := negb (Z.land nMode flag =? 0).

Class Stdio := {
  fopen_ok : nat -> list Z -> bool;
  fflush_ok : nat -> bool;
  (* of so many bytes, how many go out *)
  fwrite_takes : nat -> nat -> nat;
  fd_offset : nat -> Z
}.

(** What is behind a [FILE *]. *)
Record OpenFile := mkOpen { o_inode : nat; o_pos : nat; o_read : bool; o_write : bool; o_append : bool }.
Record File := mkFile { handle_ : option OpenFile; open_mode_ : Z; file_name_ : list Z }.
Definition File_new : File := mkFile None 0 [].
(** A lock of a process on a range of a file. *)
Record range_lock := mkLock { l_pid : Z; l_inode : nat; l_from : Z; l_to : Z }.
(** An object is named by its process and a number. *)
Record Disk := mkDisk_ {
  k_tick : nat;
  k_names : gmap (list Z) nat;
  k_texts : gmap nat (list Z);
  k_next : nat;
  k_locks : list range_lock;
  k_files : gmap (Z * Z) File
}.
Notation DM := (M Disk).
Definition set_texts (n : gmap (list Z) nat) (t : gmap nat (list Z)) (next : nat) (w : Disk) : Disk :=
  mkDisk_ (k_tick w) n t next (k_locks w) (k_files w).
Definition set_locks (l : list range_lock) (w : Disk) : Disk :=
  mkDisk_ (k_tick w) (k_names w) (k_texts w) (k_next w) l (k_files w).
Definition set_file (o : Z * Z) (f : File) (w : Disk) : Disk :=
  mkDisk_ (k_tick w) (k_names w) (k_texts w) (k_next w) (k_locks w) (<[o := f]> (k_files w)).
Definition tick_ : DM nat :=
  fun w => Ret (k_tick w, mkDisk_ (S (k_tick w)) (k_names w) (k_texts w) (k_next w) (k_locks w) (k_files w)).
Definition the_file (o : Z * Z) (w : Disk) : File := default File_new (k_files w !! o).
Definition text_at (i : nat) (w : Disk) : list Z := default [] (k_texts w !! i).

(** ** The C library *)

(** The text of the mode. *)
Definition mode_text (nMode : Z) : list Z :=
  (if has nMode FILE_M_READ then to_bytes (if has nMode FILE_M_WRITE then "r+" else "r")
   else if has nMode FILE_M_WRITE then to_bytes "w"
   else if has nMode FILE_M_APPEND then to_bytes "a"
   else to_bytes "r+")
  ++ (if has nMode FILE_M_BINARY then to_bytes "b" else if has nMode FILE_M_TEXT then to_bytes "t" else to_bytes "b").

(** The end of what a lock can reach. *)
Definition OFF_MAX : Z := 2 ^ 63.
Definition section (offset size : Z) : Z * Z :=
  if size =? 0 then (offset, OFF_MAX) else if size <? 0 then (offset + size, offset) else (offset, offset + size).
Definition overlaps (a b : range_lock) : bool := (l_from a <? l_to b) && (l_from b <? l_to a).
Definition same_file (a b : range_lock) : bool := Nat.eqb (l_inode a) (l_inode b).
(** A lock of another process is in the way. *)
Definition conflict (a b : range_lock) : bool := negb (l_pid a =? l_pid b) && same_file a b && overlaps a b.
(** What is left of [b] when [a] is unlocked. *)
Definition subtract (a b : range_lock) : list range_lock :=
  if (l_pid a =? l_pid b) && same_file a b && overlaps a b then
    (if l_from b <? l_from a then [mkLock (l_pid b) (l_inode b) (l_from b) (l_from a)] else [])
    ++ (if l_to a <? l_to b then [mkLock (l_pid b) (l_inode b) (l_to a) (l_to b)] else [])
  else [b].

Section Handles.
Context `{Stdio}.

Definition fopen_ (path mode : list Z) : DM (option OpenFile) :=
  let! n := tick_ in
  if negb (fopen_ok n path) then ret None
  else
    let! w := get in
    let plus := bool_decide (43 ∈ mode) in
    match mode with
    | [] => ret None
    | c :: _ =>
        let append := c =? 97 in
        match k_names w !! path with
        | None =>
            if c =? 114 then ret None                                         (* r *)
            else
              let i := k_next w in
              do! modify (set_texts (<[path := i]> (k_names w)) (<[i := []]> (k_texts w)) (S i)) in
              ret (Some (mkOpen i 0 plus true append))
        | Some i =>
            if c =? 114 then ret (Some (mkOpen i 0 true plus false))
            else if append then ret (Some (mkOpen i (length (text_at i w)) plus true true))
            else
              do! modify (set_texts (k_names w) (<[i := []]> (k_texts w)) (k_next w)) in
              ret (Some (mkOpen i 0 plus true false))
        end
    end.
(** [lockf] with F_TLOCK or F_LOCK, at an offset: the descriptor must be open for
    writing; F_LOCK waits for a lock in its way. *)
Definition lockf_lock (pid : Z) (h : OpenFile) (try_lock : bool) (offset size : Z) : DM bool :=
  if negb (o_write h) then ret false
  else
    let! w := get in
    let r := section offset size in
    let a := mkLock pid (o_inode h) r.1 r.2 in
    if existsb (conflict a) (k_locks w) then (if try_lock then ret false else lift Diverge)
    else do! modify (set_locks (a :: k_locks w)) in ret true.
Definition lockf_unlock (pid : Z) (h : OpenFile) (offset size : Z) : DM bool :=
  let r := section offset size in
  do! modify (fun w => set_locks (mjoin (map (subtract (mkLock pid (o_inode h) r.1 r.2)) (k_locks w))) w) in
  ret true.
(** [fclose]: the locks of the process on the file go with the descriptor. *)
Definition fclose (pid : Z) (h : OpenFile) : DM unit :=
  modify (fun w => set_locks (filter (fun l => ~ (l_pid l = pid /\ l_inode l = o_inode h)) (k_locks w)) w).
(** [fread]: so many bytes at the stream's position. *)
Definition fread_ (h : OpenFile) (count : nat) : DM (list Z * OpenFile) :=
  if negb (o_read h) then ret ([], h)
  else
    let! w := get in
    let data := take count (drop (o_pos h) (text_at (o_inode h) w)) in
    ret (data, mkOpen (o_inode h) (o_pos h + length data) (o_read h) (o_write h) (o_append h)).
Definition fwrite_ (h : OpenFile) (data : list Z) : DM (nat * OpenFile) :=
  if negb (o_write h) then ret (0%nat, h)
  else
    let! n := tick_ in
    let! w := get in
    let text := text_at (o_inode h) w in
    let pos := if o_append h then length text else o_pos h in
    let out := take (fwrite_takes n (length data)) data in
    let text' := take pos text ++ replicate (pos - length text) 0 ++ out ++ drop (pos + length out) text in
    do! modify (set_texts (k_names w) (<[o_inode h := text']> (k_texts w)) (k_next w)) in
    ret (length out, mkOpen (o_inode h) (pos + length out) (o_read h) (o_write h) (o_append h)).

(** ** [File] *)
Section Object.
Context (o : Z * Z).
Definition with_handle (h : option OpenFile) (f : File) : File := mkFile h (open_mode_ f) (file_name_ f).
Definition put_handle (h : OpenFile) : DM unit := modify (fun w => set_file o (with_handle (Some h) (the_file o w)) w).
(** [CHECK_ERROR_RET(!IsOpened(), ...)]. *)
Definition opened {A} (no : A) (k : OpenFile -> DM A) : DM A :=
  let! w := get in match handle_ (the_file o w) with None => ret no | Some h => k h end.

Definition GetPosition : Z := 0.
Definition Seek : bool := true.
(** The position is always 0 and a seek always succeeds and does nothing: the
    range starts where the descriptor stands. *)
Definition LockRange_at (at_ : Z) (offset size : Z) (try_lock : bool) : DM bool :=
  opened false (fun h =>
    if negb (GetPosition =? offset) && negb Seek then ret false
    else
      let nUnlockSize := if LOW32_BITS_MASK =? size then 0 else swrap 64 size in
      let! result := lockf_lock o.1 h try_lock at_ nUnlockSize in
      if negb (GetPosition =? offset) && negb Seek then lockf_unlock o.1 h at_ nUnlockSize
      else ret result).
Definition LockRange (offset size : Z) (try_lock : bool) : DM bool :=
  let! n := tick_ in LockRange_at (fd_offset n) offset size try_lock.
(** Its answer is never set: it is always [false]. *)
Definition UnlockRange (offset size : Z) : DM bool :=
  let! n := tick_ in
  opened false (fun h =>
    if negb (GetPosition =? offset) && negb Seek then ret false
    else
      let nUnlockSize := if LOW32_BITS_MASK =? size then 0 else swrap 64 size in
      do! lockf_unlock o.1 h (fd_offset n) nUnlockSize in
      ret false).

(** A stream just opened stands at the start, or at the end to append. *)
Definition Open (strFile0 : list Z) (nMode : Z) : DM bool :=
  let! w := get in
  match handle_ (the_file o w) with
  | Some _ => ret false
  | None =>
      let! name := lift (RegularPath strFile0) in
      do! modify (fun w => set_file o (mkFile None (open_mode_ (the_file o w)) name) w) in
      let! h := fopen_ (c_str name) (mode_text nMode) in
      match h with
      | None => ret false
      | Some h =>
          do! modify (set_file o (mkFile (Some h) nMode name)) in
          let! locked := (if has nMode FILE_M_LOCK
                          then LockRange_at (Z.of_nat (o_pos h)) 0 LOW32_BITS_MASK true else ret true) in
          if locked then ret true
          else
            do! fclose o.1 h in
            do! modify (set_file o (mkFile None nMode name)) in
            ret false
      end
  end.
Definition Close : DM bool :=
  opened false (fun h =>
    let! w := get in
    do! (if has (open_mode_ (the_file o w)) FILE_M_LOCK then UnlockRange 0 LOW32_BITS_MASK else ret false) in
    do! fclose o.1 h in
    do! modify (fun w => set_file o (with_handle None (the_file o w)) w) in
    ret true).
(** [~File]. *)
Definition File_delete : DM unit := do! Close in ret tt.
Definition Flush : DM bool := opened false (fun h => let! n := tick_ in ret (fflush_ok n)).

Definition buffer_size : nat := Z.to_nat (1024 * 1024).
Fixpoint ReadData_loop (fuel : nat) (h : OpenFile) (data : list Z) (left : nat) : DM (list Z * OpenFile) :=
  match fuel with
  | O => lift Diverge
  | S fuel =>
      if (left =? 0)%nat then ret (data, h)
      else
        let! r := fread_ h (Nat.min left buffer_size) in
        match r.1 with
        | [] => ret (data, r.2)
        | bytes => ReadData_loop fuel r.2 (data ++ bytes) (left - length bytes)
        end
  end.
Definition ReadData (data : list Z) (max_count : nat) : DM (nat * list Z) :=
  opened (0%nat, data) (fun h =>
    let! r := ReadData_loop (S max_count) h data max_count in
    do! put_handle r.2 in
    ret ((length r.1 - length data)%nat, r.1)).
(** [fread] counts whole items. *)
Definition Read (nChunkSize nCount : nat) : DM (nat * list Z) :=
  opened (0%nat, []) (fun h =>
    let! r := fread_ h (nChunkSize * nCount) in
    do! put_handle r.2 in
    ret ((length r.1 / nChunkSize)%nat, r.1)).
Definition File_ReadLine (nMaxCount : nat) : DM (option (list Z)) :=
  opened None (fun h =>
    let! w := get in
    let rest := if o_read h then drop (o_pos h) (text_at (o_inode h) w) else [] in
    match fgets nMaxCount rest with
    | None => ret None
    | Some (line, _) =>
        do! put_handle (mkOpen (o_inode h) (o_pos h + length line) (o_read h) (o_write h) (o_append h)) in
        ret (Some (c_str line))
    end).
Definition Write (data : list Z) (nChunkSize : nat) : DM nat :=
  opened 0%nat (fun h =>
    let! r := fwrite_ h data in
    do! put_handle r.2 in
    ret (r.1 / nChunkSize)%nat).
End Object.
End Handles.

(** ** Locks *)
Definition apart (l : list range_lock) : Prop := forall a b, a ∈ l -> b ∈ l -> conflict a b = false.
(** Every lock of [l'] is part of one of [l]. *)
Definition part_of (a b : range_lock) : Prop :=
  l_pid a = l_pid b /\ l_inode a = l_inode b /\ l_from b <= l_from a /\ l_to a <= l_to b.
Definition within (l' l : list range_lock) : Prop := forall a, a ∈ l' -> exists b, b ∈ l /\ part_of a b.

Lemma conflict_spec a b : conflict a b = true <->
  l_pid a <> l_pid b /\ l_inode a = l_inode b /\ l_from a < l_to b /\ l_from b < l_to a.
Proof.
  unfold conflict, same_file, overlaps. rewrite !andb_true_iff, negb_true_iff, Z.eqb_neq, Nat.eqb_eq, !Z.ltb_lt. tauto.
Qed.
Lemma conflict_false a b : conflict a b = false <->
  ~ (l_pid a <> l_pid b /\ l_inode a = l_inode b /\ l_from a < l_to b /\ l_from b < l_to a).
Proof. rewrite <- conflict_spec. by destruct (conflict a b). Qed.
Lemma conflict_sym a b : conflict a b = conflict b a.
Proof.
  unfold conflict, same_file, overlaps. rewrite (Z.eqb_sym (l_pid a)), (Nat.eqb_sym (l_inode a)).
  by rewrite (andb_comm (l_from a <? l_to b)).
Qed.
Lemma apart_within l' l : within l' l -> apart l -> apart l'.
Proof.
  intros Hw Ha a b (a' & Ha' & Pa)%Hw (b' & Hb' & Pb)%Hw. pose proof (Ha a' b' Ha' Hb') as Hc.
  rewrite conflict_false in *. unfold part_of in *. intros ?. apply Hc. intuition (lia || congruence).
Qed.
Lemma within_refl l : within l l.
Proof. intros a Ha. exists a. split; [done|]. unfold part_of. split_and!; done || lia. Qed.
Lemma within_subtract a l : within (mjoin (map (subtract a) l)) l.
Proof.
  intros x (ys & Hx & (b & -> & Hb)%list_elem_of_fmap)%list_elem_of_join. exists b. split; [done|].
  unfold subtract, part_of in *. destruct (_ && _ && overlaps a b) eqn:E; [|apply list_elem_of_singleton in Hx as ->; split_and!; done || lia].
  apply andb_true_iff in E as [_ E]. unfold overlaps in E. apply andb_true_iff in E as [E1%Z.ltb_lt E2%Z.ltb_lt].
  apply elem_of_app in Hx as [Hx|Hx]; case_match; try (by apply elem_of_nil in Hx); apply list_elem_of_singleton in Hx as ->; cbn;
    split_and!; try done; lia.
Qed.

Section Facts.
Context `{Stdio}.

(** *** What the calls do to the locks

    Only three calls of the library touch the locks; what those of a process keep
    ([LockSafe]), every call of its objects keeps. *)
Record keeps_locks (I : list range_lock -> Prop) {A} (m : DM A) : Prop :=
  { kept_after : forall w, I (k_locks w) -> wp m (fun _ w' => I (k_locks w')) w }.
Class LockSafe (I : list range_lock -> Prop) (q : Z) : Prop := {
  lock_safe : forall h t off size, keeps_locks I (lockf_lock q h t off size);
  unlock_safe : forall h off size, keeps_locks I (lockf_unlock q h off size);
  fclose_safe : forall h, keeps_locks I (fclose q h)
}.

Section Keeps.
Context (I : list range_lock -> Prop).
Lemma kept_ret {A} (a : A) : keeps_locks I (ret a).
Proof. split. intros w Hw. by apply wp_ret. Qed.
Lemma kept_bind {A B} (m : DM A) (k : A -> DM B) : keeps_locks I m -> (forall a, keeps_locks I (k a)) -> keeps_locks I (bind m k).
Proof. intros [Hm] Hk. split. intros w Hw. apply wp_bind. eapply wp_mono; [|by apply Hm]. intros a w' Hw'. by apply Hk. Qed.
Lemma kept_lift {A} (c : outcome A) : keeps_locks I (lift c).
Proof. split. intros w Hw. by apply wp_lift. Qed.
Lemma kept_modify f : (forall w, I (k_locks w) -> I (k_locks (f w))) -> keeps_locks I (modify f).
Proof. intros Hf. split. intros w Hw. by apply wp_modify, Hf. Qed.
Lemma kept_get : keeps_locks I get.
Proof. split. intros w Hw. by apply wp_get. Qed.
Lemma kept_tick : keeps_locks I tick_.
Proof. split. by intros w Hw a w' [= <- <-]. Qed.
Lemma kept_opened {A} o (no : A) k : (forall h, keeps_locks I (k h)) -> keeps_locks I (opened o no k).
Proof. intros Hk. apply kept_bind; [apply kept_get|]. intros w. destruct (handle_ _); [apply Hk|apply kept_ret]. Qed.
End Keeps.
Ltac solve_locks := repeat (cbv zeta; match goal with
  | |- forall _, _ => intro
  | |- keeps_locks _ (ret _) => apply kept_ret
  | |- keeps_locks _ (lift _) => apply kept_lift
  | |- keeps_locks _ get => apply kept_get
  | |- keeps_locks _ tick_ => apply kept_tick
  | |- keeps_locks _ (opened _ _ _) => apply kept_opened
  | |- keeps_locks _ (bind _ _) => apply kept_bind
  | |- keeps_locks _ (modify _) => apply kept_modify; intros; assumption
  | |- keeps_locks _ (lockf_lock _ _ _ _ _) => apply lock_safe
  | |- keeps_locks _ (lockf_unlock _ _ _ _) => apply unlock_safe
  | |- keeps_locks _ (fclose _ _) => apply fclose_safe
  | |- keeps_locks _ (if _ then _ else _) => case_match
  | |- keeps_locks _ (match _ with _ => _ end) => case_match
  end).

(** ** Any calls of any processes *)
Inductive call : Set :=
| COpen (path : list Z) (mode : Z) | CClose | CFlush | CLock (offset size : Z) (try_lock : bool) | CUnlock (offset size : Z)
| CReadData (max_count : nat) | CRead (chunk count : nat) | CReadLine (max_count : nat) | CWrite (data : list Z) (chunk : nat).
Definition run_call (o : Z * Z) (c : call) : DM unit :=
  match c with
  | COpen path mode => do! Open o path mode in ret tt
  | CClose => do! Close o in ret tt
  | CFlush => do! Flush o in ret tt
  | CLock offset size try_lock => do! LockRange o offset size try_lock in ret tt
  | CUnlock offset size => do! UnlockRange o offset size in ret tt
  | CReadData n => do! ReadData o [] n in ret tt
  | CRead chunk count => do! Read o chunk count in ret tt
  | CReadLine n => do! File_ReadLine o n in ret tt
  | CWrite data chunk => do! Write o data chunk in ret tt
  end.
(** Reading, writing and flushing touch no locks. *)
Definition quiet (c : call) : bool :=
  match c with CFlush | CReadData _ | CRead _ _ | CReadLine _ | CWrite _ _ => true | _ => false end.
Lemma kept_ReadData_loop I fuel : forall h d n, keeps_locks I (ReadData_loop fuel h d n).
Proof. induction fuel as [|fuel IH]; intros; cbn [ReadData_loop]; unfold fread_; solve_locks; apply IH. Qed.
Lemma kept_quiet I o c : quiet c = true -> keeps_locks I (run_call o c).
Proof.
  destruct c; try done; intros _; cbn [run_call]; unfold Flush, ReadData, Read, File_ReadLine, Write, put_handle, fread_, fwrite_;
    solve_locks; apply kept_ReadData_loop.
Qed.
Lemma kept_call I o c `{!LockSafe I o.1} : keeps_locks I (run_call o c).
Proof.
  destruct (quiet c) eqn:E; [by apply kept_quiet|].
  destruct c; try done; cbn [run_call]; unfold Open, Close, LockRange, LockRange_at, UnlockRange, fopen_; solve_locks.
Qed.

(** Locks of different processes never overlap. *)
#[export] Instance apart_safe q : LockSafe apart q.
Proof.
  split.
  - intros h t off size. unfold lockf_lock. destruct (negb (o_write h)); [apply kept_ret|]. split. intros w Hw. apply wp_bind, wp_get.
    destruct (existsb _ _) eqn:E; [destruct t; [by apply wp_ret|by apply wp_lift]|].
    apply wp_bind, wp_modify, wp_ret. cbn. rewrite <- not_true_iff_false, existsb_exists in E.
    assert (forall l, l ∈ k_locks w -> conflict (mkLock q (o_inode h) (section off size).1 (section off size).2) l = false) as Hf.
    { intros l Hl. apply not_true_iff_false. intros Hc. apply E. exists l. split; [by apply list_elem_of_In|done]. }
    intros a b [->|Ha]%elem_of_cons [->|Hb]%elem_of_cons.
    + apply conflict_false. intros [Hn _]. by apply Hn.
    + by apply Hf.
    + rewrite conflict_sym. by apply Hf.
    + by apply Hw.
  - intros h off size. apply kept_bind; [|intros; apply kept_ret]. apply kept_modify. intros w. apply apart_within, within_subtract.
  - intros h. apply kept_modify. intros w. apply apart_within. intros a [_ Ha]%list_elem_of_filter. by apply within_refl.
Qed.
(** What a process holds only its own calls can take away. *)
Definition holds (p : Z) (i : nat) (l : list range_lock) : Prop := exists s, s < OFF_MAX /\ mkLock p i s OFF_MAX ∈ l.
Lemma holds_safe p i q : q <> p -> LockSafe (holds p i) q.
Proof.
  intros Hq. split.
  - intros h t off size. unfold lockf_lock. destruct (negb (o_write h)); [apply kept_ret|]. split. intros w Hw. apply wp_bind, wp_get.
    destruct (existsb _ _); [destruct t; [by apply wp_ret|by apply wp_lift]|].
    apply wp_bind, wp_modify, wp_ret. destruct Hw as (s & Hs & Hw). exists s. split; [done|]. cbn. apply elem_of_cons. by right.
  - intros h off size. apply kept_bind; [|intros; apply kept_ret]. apply kept_modify. intros w (s & Hs & Hw). exists s. split; [done|].
    apply list_elem_of_join. exists [mkLock p i s OFF_MAX]. split; [by apply list_elem_of_singleton|].
    apply list_elem_of_fmap. exists (mkLock p i s OFF_MAX). split; [|exact Hw]. unfold subtract. cbn.
    by destruct (Z.eqb_spec q p).
  - intros h. apply kept_modify. intros w (s & Hs & Hw). exists s. split; [done|]. apply list_elem_of_filter. split; [cbn; intros [E _]; by apply Hq|exact Hw].
Qed.

(** Files are shorter than a lock can reach. *)
Definition fits (w : Disk) : Prop := forall i, Z.of_nat (length (text_at i w)) < OFF_MAX.
Lemma mode_text_head mode : exists c r, mode_text mode = c :: r.
Proof. unfold mode_text. repeat case_match; eauto. Qed.
(** An opened stream stands within its file, and the name it was opened by stands
    for it. *)
Lemma fopen_spec path mode w r w' : fopen_ path mode w = Ret (r, w') ->
  k_locks w' = k_locks w /\ k_files w' = k_files w /\
  forall h, r = Some h -> (Z.of_nat (o_pos h) = 0 \/ o_pos h = length (text_at (o_inode h) w)) /\
    (forall i, k_names w !! path = Some i -> o_inode h = i).
Proof.
  unfold fopen_, tick_, bind, get, ret, modify. cbn [obind fst snd]. intros E.
  destruct (negb _); [injection E as <- <-; by split_and!|]. cbn [obind fst snd] in E. destruct mode as [|c mode]; [injection E as <- <-; by split_and!|].
  cbn [k_names] in E. destruct (k_names w !! path) as [i|] eqn:En.
  - destruct (c =? 114); [injection E as <- <-|destruct (c =? 97); [injection E as <- <-|injection E as <- <-]];
      (split_and!; [done..|]; intros h [= <-]; cbn; split; [auto|by intros ? [= ->]]).
  - destruct (c =? 114); injection E as <- <-; split_and!; try done. intros h [= <-]. cbn. split; [by left|done].
Qed.
Lemma fopen_total path mode w : exists r w', fopen_ path mode w = Ret (r, w').
Proof.
  unfold fopen_, tick_, bind, get, ret, modify. cbn [obind fst snd]. destruct (negb _); [by eauto|].
  cbn [obind fst snd]. repeat case_match; eauto.
Qed.
(** A lock to the end of a file that another process holds to its end is refused. *)
Lemma LockRange_at_refused o at_ w h p : handle_ (the_file o w) = Some h -> p <> o.1 -> at_ < OFF_MAX ->
  holds p (o_inode h) (k_locks w) -> LockRange_at o at_ 0 LOW32_BITS_MASK true w = Ret (false, w).
Proof.
  intros Hh Hp Ha (s & Hs & Hl). unfold LockRange_at, opened, bind, get. cbn [obind fst snd]. rewrite Hh.
  change (GetPosition =? 0) with true. cbn [negb andb]. change (LOW32_BITS_MASK =? LOW32_BITS_MASK) with true. cbn iota.
  unfold lockf_lock. destruct (negb (o_write h)); [done|]. unfold bind, get. cbn [obind fst snd].
  assert (existsb (conflict (mkLock o.1 (o_inode h) (section at_ 0).1 (section at_ 0).2)) (k_locks w) = true) as ->; [|done].
  apply existsb_exists. exists (mkLock p (o_inode h) s OFF_MAX). split; [by apply list_elem_of_In|].
  apply conflict_spec. cbn. split_and!; [congruence|done|lia..].
Qed.
Lemma the_file_set o f w : the_file o (set_file o f w) = f.
Proof. unfold the_file, set_file. cbn. by rewrite lookup_insert_eq. Qed.
(** Opening with a lock a file of which another process holds the end. *)
Lemma Open_refused o path mode name w p i : RegularPath path = Ret name -> k_names w !! c_str name = Some i -> fits w ->
  p <> o.1 -> holds p i (k_locks w) -> has mode FILE_M_LOCK = true -> exists w', Open o path mode w = Ret (false, w').
Proof.
  intros Er En Hf Hp Hh Hm. unfold Open, bind at 1, get. cbn [obind fst snd].
  destruct (handle_ (the_file o w)) eqn:Eh; [by eauto|]. rewrite Er. unfold bind at 1, lift. cbn [obind fst snd].
  unfold bind at 1, modify. cbn [obind fst snd]. unfold bind at 1.
  destruct (fopen_total (c_str name) (mode_text mode) (set_file o (mkFile None (open_mode_ (the_file o w)) name) w)) as (r & w1 & E).
  rewrite E. cbn [obind fst snd]. apply fopen_spec in E as (El & _ & Es). destruct r as [h|]; [|by eauto].
  destruct (Es h eq_refl) as [Hpos Hi]. specialize (Hi i En). subst i.
  unfold bind at 1, modify. cbn [obind fst snd]. rewrite Hm. unfold bind at 1.
  rewrite (LockRange_at_refused o _ _ h p); [cbn; eauto|by rewrite the_file_set|done| |].
  - destruct Hpos as [->| ->]; [done|]. apply (Hf (o_inode h)).
  - cbn in El |- *. by rewrite El.
Qed.
(** Opening with a lock holds the file from the stream's place to the end. *)
Lemma Open_holds o path mode w w' : Open o path mode w = Ret (true, w') -> has mode FILE_M_LOCK = true -> fits w ->
  exists h, handle_ (the_file o w') = Some h /\ holds o.1 (o_inode h) (k_locks w').
Proof.
  unfold Open. intros E Hm Hf. apply bind_inv in E as (w0 & w1 & [= <- <-] & E).
  destruct (handle_ (the_file o w)); [done|]. apply bind_inv in E as (name & w1 & E1 & E). unfold lift in E1.
  destruct (RegularPath path); try done. injection E1 as <- <-. apply bind_inv in E as ([] & w1 & [= <-] & E).
  apply bind_inv in E as (r & w2 & E2 & E). destruct r as [h|]; [|done].
  apply fopen_spec in E2 as (_ & _ & Es). destruct (Es h eq_refl) as [Hpos _].
  apply bind_inv in E as ([] & w3 & [= <-] & E). rewrite Hm in E. apply bind_inv in E as (locked & w4 & E4 & E).
  destruct locked; [|by apply bind_inv in E as ([] & ? & ? & (? & ? & ? & ?)%bind_inv)]. injection E as <-.
  unfold LockRange_at, opened, bind at 1, get in E4. cbn [obind fst snd] in E4. rewrite the_file_set in E4. cbn [handle_] in E4.
  change (GetPosition =? 0) with true in E4. cbn [negb andb] in E4. apply bind_inv in E4 as (r & w5 & E5 & [= -> <-]).
  unfold lockf_lock in E5. destruct (negb (o_write h)); [done|]. unfold bind, get in E5. cbn [obind fst snd] in E5.
  destruct (existsb _ _); [done|]. injection E5 as <-. exists h. split; [unfold the_file; cbn; by rewrite lookup_insert_eq|].
  exists (Z.of_nat (o_pos h)). split; [|cbn; apply elem_of_cons; by left].
  destruct Hpos as [->| ->]; [done|]. apply Hf.
Qed.

(** A move of the disk in which [p] only reads, writes and flushes, and the others
    do what they like. *)
Inductive moves (p : Z) (w w' : Disk) : Prop :=
| by_other q k c : q <> p -> run_call (q, k) c w = Ret (tt, w') -> moves p w w'
| by_holder k c : quiet c = true -> run_call (p, k) c w = Ret (tt, w') -> moves p w w'.
Lemma moves_holds p i w w' : rtc (moves p) w w' -> holds p i (k_locks w) -> holds p i (k_locks w').
Proof.
  induction 1 as [w|w w1 w' [q k c Hq E|k c Hc E] _ IH]; intros Hw; [done|apply IH..].
  - pose proof (holds_safe p i q Hq). exact (kept_after _ _ (kept_call (holds p i) (q, k) c) w Hw _ _ E).
  - exact (kept_after _ _ (kept_quiet (holds p i) (p, k) c Hc) w Hw _ _ E).
Qed.
Theorem lock_excludes p k path mode w w1 w2 q j path' mode' name :
  fits w -> fits w2 ->
  Open (p, k) path mode w = Ret (true, w1) -> has mode FILE_M_LOCK = true ->
  rtc (moves p) w1 w2 ->
  q <> p -> has mode' FILE_M_LOCK = true -> RegularPath path' = Ret name ->
  k_names w2 !! c_str name = option_map o_inode (handle_ (the_file (p, k) w1)) ->
  exists w3, Open (q, j) path' mode' w2 = Ret (false, w3).
Proof.
  intros Hf Hf2 E Hm Hr Hq Hm' Er En. destruct (Open_holds _ _ _ _ _ E Hm Hf) as (h & Eh & Hh). rewrite Eh in En.
  eapply (Open_refused (q, j)); [exact Er|exact En|exact Hf2| |by eapply moves_holds|exact Hm']. cbn. congruence.
Qed.
(** Locks of different processes stay apart, whatever is called. *)
Theorem locks_stay_apart (calls : list (Z * Z * call)) : forall w w',
  apart (k_locks w) -> foldr (fun c m => do! run_call c.1 c.2 in m) (ret tt) calls w = Ret (tt, w') -> apart (k_locks w').
Proof.
  induction calls as [|[o c] calls IH]; intros w w' Hw E; [by injection E as <-|].
  apply bind_inv in E as ([] & w1 & E1 & E). eapply IH; [|exact E].
  exact (kept_after _ _ (kept_call apart o c) w Hw _ _ E1).
Qed.
(** To write, the file is emptied before its lock is asked for: a process that is
    refused has already destroyed what it may not touch. *)
Lemma Open_empties_locked o path mode name w p i : RegularPath path = Ret name -> k_names w !! c_str name = Some i -> fits w ->
  p <> o.1 -> holds p i (k_locks w) -> has mode FILE_M_LOCK = true ->
  has mode FILE_M_WRITE = true -> has mode FILE_M_READ = false ->
  handle_ (the_file o w) = None -> fopen_ok (k_tick w) (c_str name) = true ->
  exists w', Open o path mode w = Ret (false, w') /\ text_at i w' = [].
Proof.
  intros Er En Hf Hp Hh Hm Hw Hrd Ho Hok. unfold Open, bind at 1, get. cbn [obind fst snd].
  rewrite Ho, Er. unfold bind at 1, lift. cbn [obind fst snd]. unfold bind at 1, modify. cbn [obind fst snd].
  unfold bind at 1, fopen_, tick_, bind, get, ret. cbn [obind fst snd k_tick set_file]. rewrite Hok. cbn [negb obind fst snd k_names].
  assert (exists r, mode_text mode = 119 :: r) as (r & ->).
  { unfold mode_text. rewrite Hrd, Hw. eexists. done. }
  cbn [k_names set_file]. rewrite En. change (119 =? 114) with false. change (119 =? 97) with false. cbn iota. unfold modify. cbn [obind fst snd].
  rewrite Hm. rewrite (LockRange_at_refused o _ _ (mkOpen i 0 (bool_decide (43 ∈ 119 :: r)) true false) p); [|by rewrite the_file_set|done|done|done].
  cbn [obind fst snd fclose modify]. eexists. split; [done|]. unfold text_at. cbn. by rewrite lookup_insert_eq.
Qed.
(** A lock needs a descriptor that can write: opening to read with a lock fails. *)
Lemma Open_read_locked o path mode w r w' : has mode FILE_M_LOCK = true -> has mode FILE_M_READ = true ->
  has mode FILE_M_WRITE = false -> Open o path mode w = Ret (r, w') -> r = false.
Proof.
  intros Hm Hr Hw E. destruct r; [|done]. exfalso. unfold Open in E. apply bind_inv in E as (w0 & w1 & [= <- <-] & E).
  destruct (handle_ (the_file o w)); [done|]. apply bind_inv in E as (name & w1 & _ & E). apply bind_inv in E as ([] & w2 & _ & E).
  apply bind_inv in E as (h & w3 & E3 & E). destruct h as [h|]; [|done].
  apply bind_inv in E as ([] & w4 & [= <-] & E). rewrite Hm in E. apply bind_inv in E as (locked & w5 & E5 & E).
  destruct locked; [|by apply bind_inv in E as ([] & ? & ? & (? & ? & ? & ?)%bind_inv)].
  assert (o_write h = false) as Hh.
  { clear -E3 Hr Hw. unfold fopen_, tick_, bind, get, ret in E3. cbn [obind fst snd] in E3. destruct (negb _); [done|]. cbn [obind fst snd] in E3.
    unfold mode_text in E3. rewrite Hr, Hw in E3.
    destruct (has mode FILE_M_BINARY), (has mode FILE_M_TEXT); cbn in E3; destruct (k_names _ !! _); by try injection E3 as <- <-. }
  unfold LockRange_at, opened, bind at 1, get in E5. cbn [obind fst snd] in E5. rewrite the_file_set in E5. cbn [handle_] in E5.
  change (GetPosition =? 0) with true in E5. cbn [negb andb] in E5. apply bind_inv in E5 as (r & w6 & E6 & E5).
  unfold lockf_lock in E6. rewrite Hh in E6. cbn in E6. injection E6 as <- <-. by cbn in E5.
Qed.
Lemma UnlockRange_false o offset size w r w' : UnlockRange o offset size w = Ret (r, w') -> r = false.
Proof.
  unfold UnlockRange, opened. intros (n & w1 & _ & (w2 & w3 & _ & E)%bind_inv)%bind_inv.
  destruct (handle_ _); [|by injection E as <-]. destruct (_ && _); [by injection E as <-|].
  by apply bind_inv in E as (b & w4 & _ & [= <- _]).
Qed.

(** ** Reading what was written *)
Lemma buffer_size_pos : (0 < buffer_size)%nat.
Proof. unfold buffer_size. lia. Qed.
(** The chunks of [ReadData] are one read. *)
Lemma ReadData_loop_takes fuel : forall h data left w, (left < fuel)%nat -> o_read h = true ->
  ReadData_loop fuel h data left w
  = let bytes := take left (drop (o_pos h) (text_at (o_inode h) w)) in
    Ret ((data ++ bytes, mkOpen (o_inode h) (o_pos h + length bytes) true (o_write h) (o_append h)), w).
Proof.
  induction fuel as [|fuel IH]; intros h data left w Hf Hr; [lia|]. cbn [ReadData_loop]. cbv zeta.
  destruct (Nat.eqb_spec left 0) as [->|Hl].
  { cbn. rewrite app_nil_r, Nat.add_0_r. destruct h; cbn in *; by subst. }
  unfold bind at 1, fread_. rewrite Hr. cbn [negb]. unfold bind, get, ret. cbn [obind fst snd].
  pose proof buffer_size_pos as Hb. set (x := drop (o_pos h) (text_at (o_inode h) w)).
  destruct (take (Nat.min left buffer_size) x) as [|b bytes] eqn:E.
  - assert (x = []) as ->; [|by rewrite take_nil, app_nil_r].
    destruct x; [done|]. destruct (Nat.min left buffer_size) eqn:Em; [lia|done].
  - assert (length (b :: bytes) <= left)%nat as Hle by (rewrite <- E, length_take; lia).
    assert (b :: bytes = take (length (b :: bytes)) x) as Ex.
    { rewrite <- E, length_take. destruct (Nat.le_ge_cases (Nat.min left buffer_size) (length x)) as [Hx|Hx].
      - by rewrite (Nat.min_l _ (length x)) by done.
      - rewrite (Nat.min_r _ (length x)) by done. by rewrite !take_ge by lia. }
    rewrite IH by (done || (cbn [length] in *; lia)). cbv zeta. cbn [o_inode o_pos o_write o_append].
    rewrite <- drop_drop. fold x.
    assert (take left x = (b :: bytes) ++ take (left - length (b :: bytes)) (drop (length (b :: bytes)) x)) as ->.
    { rewrite Ex at 1. rewrite take_take_drop. f_equal. lia. }
    rewrite app_assoc, (length_app (b :: bytes)), Nat.add_assoc. done.
Qed.
Theorem ReadData_takes o data n w h : handle_ (the_file o w) = Some h -> o_read h = true ->
  exists w', let bytes := take n (drop (o_pos h) (text_at (o_inode h) w)) in
    ReadData o data n w = Ret ((length bytes, data ++ bytes), w') /\
    handle_ (the_file o w') = Some (mkOpen (o_inode h) (o_pos h + length bytes) true (o_write h) (o_append h)) /\
    open_mode_ (the_file o w') = open_mode_ (the_file o w).
Proof.
  intros Hh Hr. unfold ReadData, opened. unfold bind at 1, get. cbn [obind fst snd]. rewrite Hh.
  unfold bind at 1. rewrite ReadData_loop_takes by (done || lia). cbv zeta. cbn [obind fst snd].
  eexists. split; [unfold put_handle, bind, modify, ret; cbn [obind fst snd]; rewrite length_app; repeat f_equal; lia|].
  by rewrite the_file_set.
Qed.
End Facts.

(** A system that refuses nothing. *)
Class StdioWell `{Stdio} : Prop := {
  fopen_well : forall n p, fopen_ok n p = true;
  fwrite_well : forall n k, fwrite_takes n k = k
}.
Section RoundTrip.
Context `{StdioWell}.
Definition save (o : Z * Z) (path data : list Z) : DM (bool * nat) :=
  let! a := Open o path FILE_M_WRITE in
  let! n := Write o data 1 in
  do! Close o in
  ret (a, n).
Definition load (o : Z * Z) (path : list Z) (n : nat) : DM (bool * list Z) :=
  let! a := Open o path FILE_M_READ in
  let! r := ReadData o [] n in
  do! Close o in
  ret (a, r.2).
Definition quiet_close (h : option OpenFile) : bool := match h with None => true | _ => false end.

Lemma fopen_to_write path w : exists i w', fopen_ path (mode_text FILE_M_WRITE) w = Ret (Some (mkOpen i 0 false true false), w') /\
  k_names w' !! path = Some i /\ text_at i w' = [] /\ k_files w' = k_files w.
Proof.
  unfold fopen_, tick_, bind, get, ret, modify. cbn [obind fst snd]. rewrite fopen_well. cbn [negb obind fst snd k_names].
  change (mode_text FILE_M_WRITE) with [119; 98]. change (119 =? 114) with false. change (119 =? 97) with false. cbn iota.
  change (bool_decide (43 ∈ [119; 98])) with false.
  destruct (k_names w !! path) as [i|] eqn:E; cbn; do 2 eexists; (split; [done|]); cbn.
  - split; [done|]. unfold text_at. cbn. by rewrite lookup_insert_eq.
  - rewrite lookup_insert_eq. split; [done|]. unfold text_at. cbn. by rewrite lookup_insert_eq.
Qed.
Lemma fopen_to_read path w i : k_names w !! path = Some i -> exists w', fopen_ path (mode_text FILE_M_READ) w = Ret (Some (mkOpen i 0 true false false), w') /\
  k_names w' = k_names w /\ k_texts w' = k_texts w /\ k_files w' = k_files w.
Proof.
  intros E. unfold fopen_, tick_, bind, get, ret. cbn [obind fst snd]. rewrite fopen_well. cbn [negb obind fst snd k_names]. rewrite E.
  by eexists.
Qed.
(** An open without a lock, step by step. *)
Lemma Open_unlocked o path mode name w h w1 : handle_ (the_file o w) = None -> RegularPath path = Ret name ->
  has mode FILE_M_LOCK = false ->
  fopen_ (c_str name) (mode_text mode) (set_file o (mkFile None (open_mode_ (the_file o w)) name) w) = Ret (Some h, w1) ->
  Open o path mode w = Ret (true, set_file o (mkFile (Some h) mode name) w1).
Proof.
  intros Hn Er Hm E. unfold Open, bind at 1, get. cbn [obind fst snd]. rewrite Hn, Er. unfold bind at 1, lift. cbn [obind fst snd].
  unfold bind at 1, modify. cbn [obind fst snd]. unfold bind at 1. rewrite E. cbn [obind fst snd].
  unfold bind, modify, ret. rewrite Hm. done.
Qed.
Lemma Close_unlocked o w h : handle_ (the_file o w) = Some h -> has (open_mode_ (the_file o w)) FILE_M_LOCK = false ->
  exists w', Close o w = Ret (true, w') /\ k_names w' = k_names w /\ k_texts w' = k_texts w /\ handle_ (the_file o w') = None.
Proof.
  intros Hh Hm. unfold Close, opened, bind, get. cbn [obind fst snd]. rewrite Hh, Hm. cbn. eexists. split; [done|].
  cbn. split_and!; try done. by rewrite the_file_set.
Qed.
Lemma save_saves o path name data w : handle_ (the_file o w) = None -> RegularPath path = Ret name ->
  exists i w', save o path data w = Ret ((true, length data), w') /\ k_names w' !! c_str name = Some i /\
    text_at i w' = data /\ handle_ (the_file o w') = None.
Proof.
  intros Hn Er. unfold save.
  destruct (fopen_to_write (c_str name) (set_file o (mkFile None (open_mode_ (the_file o w)) name) w)) as (i & w1 & E & Hi & Ht & _).
  unfold bind at 1. rewrite (Open_unlocked o path FILE_M_WRITE name w _ w1 Hn Er eq_refl E). cbn [obind fst snd].
  set (w2 := set_file o _ w1). unfold bind at 1, Write, opened, bind at 1, get. cbn [obind fst snd].
  unfold w2 at 1. rewrite the_file_set. cbn [handle_]. unfold bind at 1, fwrite_, tick_. cbn [o_write negb].
  unfold put_handle, bind, get, modify, ret. cbn [obind fst snd o_append o_pos o_inode o_read]. rewrite fwrite_well, firstn_all.
  assert (forall n, text_at i (mkDisk_ n (k_names w2) (k_texts w2) (k_next w2) (k_locks w2) (k_files w2)) = []) as Ht2 by (intros; exact Ht).
  rewrite Ht2. cbn [take length replicate app drop Nat.sub]. rewrite drop_nil, app_nil_r. cbn [obind fst snd].
  match goal with |- context [Close o ?x] => set (w3 := x) end.
  destruct (Close_unlocked o w3 (mkOpen i (length data) false true false)) as (w4 & E4 & Hn4 & Ht4 & Hh4).
  { unfold w3. by rewrite the_file_set. }
  { unfold w3. rewrite the_file_set. unfold with_handle, the_file. cbn. by rewrite lookup_insert_eq. }
  rewrite E4. cbn [obind fst snd]. exists i, w4. split_and!.
  - rewrite Nat.div_1_r. done.
  - rewrite Hn4. exact Hi.
  - unfold text_at. rewrite Ht4. unfold w3. cbn. by rewrite lookup_insert_eq.
  - done.
Qed.
Theorem save_load o path data w : handle_ (the_file o w) = None ->
  exists w' w'', save o path data w = Ret ((true, length data), w') /\ load o path (length data) w' = Ret ((true, data), w'').
Proof.
  intros Hn. pose proof (RegularPath_map path) as Er. destruct (save_saves o path _ data w Hn Er) as (i & w' & E & Hi & Ht & Hh).
  exists w'. assert (exists w'', load o path (length data) w' = Ret ((true, data), w'')) as (w'' & E'); [|by exists w''].
  unfold load. destruct (fopen_to_read (c_str (map slash path)) (set_file o (mkFile None (open_mode_ (the_file o w')) (map slash path)) w') i Hi)
    as (w1 & E1 & _ & Ht1 & _).
  unfold bind at 1. rewrite (Open_unlocked o path FILE_M_READ _ w' _ w1 Hh Er eq_refl E1). cbn [obind fst snd]. set (w2 := set_file o _ w1).
  destruct (ReadData_takes o [] (length data) w2 (mkOpen i 0 true false false)) as (w3 & E3 & Hh3 & Hm3);
    [unfold w2; by rewrite the_file_set|done|]. cbv zeta in E3, Hh3. cbn [o_pos o_inode drop] in E3, Hh3.
  assert (text_at i w2 = data) as Ht2 by (unfold text_at, w2; cbn; rewrite Ht1; exact Ht).
  rewrite Ht2, firstn_all in E3. unfold bind at 1. rewrite E3. cbn [obind fst snd app].
  destruct (Close_unlocked o w3 _ Hh3) as (w4 & E4 & _).
  { rewrite Hm3. unfold w2. by rewrite the_file_set. }
  unfold bind. rewrite E4. by eexists.
Qed.
End RoundTrip.

(** ** Two processes and a file *)
#[export] Instance EasyStdio : Stdio := {|
  fopen_ok n p := true; fflush_ok n := true; fwrite_takes n k := k; fd_offset n := 0 |}.
#[export] Instance EasyStdioWell : StdioWell.
Proof. done. Qed.
Definition a_path : list Z := to_bytes "data\x".
Definition a_disk : Disk := mkDisk_ 0 {[map slash a_path := 0%nat]} {[0%nat := to_bytes "kept"]} 1 [] ∅.
Definition READ_WRITE_LOCK : Z := FILE_M_READ + FILE_M_WRITE + FILE_M_LOCK.
Definition WRITE_LOCK : Z := FILE_M_WRITE + FILE_M_LOCK.
Definition result {A} (m : outcome (A * Disk)) : option A := match m with Ret (a, _) => Some a | _ => None end.
Definition disk_after {A} (m : outcome (A * Disk)) : Disk := match m with Ret (_, w) => w | _ => a_disk end.
Definition locked_disk : Disk := disk_after (Open (1, 1) a_path READ_WRITE_LOCK a_disk).
Lemma fits_by w : forallb (fun t => Z.of_nat (length t) <? OFF_MAX) (map snd (map_to_list (k_texts w))) = true -> fits w.
Proof.
  intros Hb i. unfold text_at. destruct (k_texts w !! i) as [t|] eqn:E; [|done]. cbn.
  rewrite forallb_forall in Hb. apply Z.ltb_lt, Hb. apply list_elem_of_In, list_elem_of_fmap.
  exists (i, t). split; [done|]. by apply elem_of_map_to_list.
Qed.
Lemma lock_excludes_witness :
  result (Open (1, 1) a_path READ_WRITE_LOCK a_disk) = Some true /\
  exists w, Open (2, 1) a_path WRITE_LOCK locked_disk = Ret (false, w) /\ text_at 0 w = [].
Proof.
  split; [by vm_compute|].
  destruct (lock_excludes 1 1 a_path READ_WRITE_LOCK a_disk locked_disk locked_disk 2 1 a_path WRITE_LOCK (map slash a_path)) as (w & E).
  - by apply fits_by.
  - by apply fits_by.
  - unfold locked_disk. by vm_compute.
  - done.
  - apply rtc_refl.
  - done.
  - done.
  - apply RegularPath_map.
  - by vm_compute.
  - exists w. split; [exact E|]. assert (w = disk_after (Open (2, 1) a_path WRITE_LOCK locked_disk)) as -> by by rewrite E.
    by vm_compute.
Defined.
(** A process that closes any object of a file, or is refused one, has lost its lock. *)
Example closing_another_unlocks :
  let w := disk_after (Open (1, 2) a_path FILE_M_READ locked_disk) in
  k_locks w <> [] /\ k_locks (disk_after (Close (1, 2) w)) = [] /\
  result (Open (2, 1) a_path READ_WRITE_LOCK (disk_after (Close (1, 2) w))) = Some true.
Proof. split; [by vm_compute|]. split; by vm_compute. Qed.
Definition both_open : list (Z * Z * call) := [((1, 1), COpen a_path READ_WRITE_LOCK); ((2, 1), COpen a_path READ_WRITE_LOCK)].
Lemma locks_stay_apart_witness : exists w,
  foldr (fun c m => do! run_call c.1 c.2 in m) (ret tt) both_open a_disk = Ret (tt, w) /\ apart (k_locks w).
Proof.
  destruct (returns_run (fun _ => true) (foldr (fun c m => do! run_call c.1 c.2 in m) (ret tt) both_open) a_disk) as ([] & w & E & _);
    [by vm_compute|].
  exists w. split; [exact E|]. apply (locks_stay_apart both_open a_disk w); [|exact E]. intros a b Ha. by apply elem_of_nil in Ha.
Defined.
Lemma save_load_witness : exists w' w'', save (1, 1) a_path (to_bytes "text") a_disk = Ret ((true, 4%nat), w') /\
  load (1, 1) a_path 4 w' = Ret ((true, to_bytes "text"), w'').
Proof. apply (save_load (1, 1) a_path (to_bytes "text") a_disk). by vm_compute. Defined.
