(* ===== verification/Folders.v ===== *)
(** Directories (src/utils/file.cpp): [DeleteFolder] with the recursion that
    empties a directory by going into it, and [CreateDir].

    A directory is an inode with its parent and its entries; a link stands for
    another inode, or for none.  The class [Dirs] says what the system refuses and
    in which order it lists a directory.  An inode has one name. *)

From S2P Require Import Prelude Strings Files.

Notation name := (list Z).
Inductive node : Type :=
| FileNode
| LinkNode (target : option nat)
| DirNode (up : nat) (entries : list (name * nat)).
Class Dirs := {
  opendir_ok : nat -> nat -> bool;
  chdir_ok : nat -> nat -> bool;
  remove_ok : nat -> nat -> bool;
  readdir : nat -> list name -> list name;
  (* the length of the path of a directory *)
  path_length : nat -> nat
}.
Record Tree := mkTree { d_tick : nat; nodes : gmap nat node; cwd : nat; fresh_node : nat }.
Notation TM := (M Tree).
Definition set_nodes (m : gmap nat node) (w : Tree) : Tree := mkTree (d_tick w) m (cwd w) (fresh_node w).
Definition set_cwd (i : nat) (w : Tree) : Tree := mkTree (d_tick w) (nodes w) i (fresh_node w).
Definition step_ : TM nat := fun w => Ret (d_tick w, mkTree (S (d_tick w)) (nodes w) (cwd w) (fresh_node w)).

Definition dot : name := [46].
Definition dotdot : name := [46; 46].
Definition root : nat := 0.

(** ** Names *)
Definition entry (es : list (name * nat)) (x : name) : option nat :=
  snd <$> List.find (fun p => bool_decide (p.1 = x)) es.
Definition follow (m : gmap nat node) (i : nat) : option nat :=
  match m !! i with Some (LinkNode t) => t | _ => Some i end.
(** A name in a directory, not followed and followed. *)
Definition lookup_in (m : gmap nat node) (i : nat) (x : name) : option nat :=
  match m !! i with
  | Some (DirNode up es) => if bool_decide (x = dot) then Some i else if bool_decide (x = dotdot) then Some up else entry es x
  | _ => None
  end.
Definition resolve (m : gmap nat node) (i : nat) (x : name) : option nat := lookup_in m i x ≫= follow m.
Definition is_dir (m : gmap nat node) (i : nat) : bool := match m !! i with Some (DirNode _ _) => true | _ => false end.
Definition walk (m : gmap nat node) (i : nat) (l : list name) : option nat :=
  foldl (fun at_ x => at_ ≫= fun i => resolve m i x) (Some i) l.
Definition components (path : list Z) : list name := filter (fun x => x <> []) (split path [47]).
Definition start (path : list Z) (w : Tree) : nat :=
  match path with c :: _ => if c =? 47 then root else cwd w | [] => cwd w end.

Section Folders.
Context `{Dirs}.

(** ** The calls *)
Definition stat (x : name) : TM (option bool) :=
  let! w := get in ret (match resolve (nodes w) (cwd w) x with
                        | Some i => match nodes w !! i with Some _ => Some (is_dir (nodes w) i) | None => None end
                        | None => None
                        end).
Definition go_to (at_ : option nat) : TM bool :=
  let! n := step_ in
  let! w := get in
  match at_ with
  | Some i => if is_dir (nodes w) i && chdir_ok n i then do! modify (set_cwd i) in ret true else ret false
  | None => ret false
  end.
Definition chdir (path : list Z) : TM bool :=
  let! w := get in go_to (walk (nodes w) (start path w) (components path)).
(** Without the entry, and without the inode, which has no other name. *)
Definition drop_entry (m : gmap nat node) (d : nat) (x : name) (i : nat) : gmap nat node :=
  match m !! d with
  | Some (DirNode up es) => <[d := DirNode up (filter (fun p => p.1 <> x) es)]> (delete i m)
  | _ => m
  end.
(** [remove] and [rmdir] of a name in a directory: a directory goes only if it is
    empty, and only [remove] takes others. *)
Definition remove_in (d : nat) (x : name) (only_dirs : bool) : TM bool :=
  let! n := step_ in
  let! w := get in
  if bool_decide (x = dot) || bool_decide (x = dotdot) then ret false
  else
    match lookup_in (nodes w) d x with
    | None => ret false
    | Some i =>
        if negb (remove_ok n i) then ret false
        else
          match nodes w !! i with
          | Some (DirNode _ (_ :: _)) => ret false
          | Some (DirNode _ []) => do! modify (set_nodes (drop_entry (nodes w) d x i)) in ret true
          | Some _ => if only_dirs then ret false else do! modify (set_nodes (drop_entry (nodes w) d x i)) in ret true
          | None => ret false
          end
    end.
Definition remove (x : name) : TM bool := let! w := get in remove_in (cwd w) x false.

(** ** [RecurveRemoveDir]

    [st] is what the last [stat] that succeeded has said; a failing one leaves it,
    and before the first it is not initialised. *)
Fixpoint each_entry (go_in : TM unit) (l : list name) (st : option bool) : TM unit :=
  match l with
  | [] => ret tt
  | d_name :: l =>
      let! s := stat d_name in
      let st := match s with Some d => Some d | None => st end in
      if bool_decide (d_name = dot) || bool_decide (d_name = dotdot) then each_entry go_in l st
      else
        match st with
        | None => lift (Undef Uninitialised)
        | Some is_directory =>
            do! (if is_directory
                 then do! (let! w := get in go_to (resolve (nodes w) (cwd w) d_name)) in
                      do! go_in in
                      do! (let! w := get in go_to (resolve (nodes w) (cwd w) dotdot)) in ret tt
                 else ret tt) in
            do! remove d_name in
            each_entry go_in l st
        end
  end.
Fixpoint RecurveRemoveDir (fuel : nat) : TM unit :=
  match fuel with
  | O => lift Diverge
  | S fuel =>
      let! n := step_ in
      let! w := get in
      match nodes w !! cwd w with
      | Some (DirNode _ es) =>
          if opendir_ok n (cwd w)
          then each_entry (RecurveRemoveDir fuel) (readdir n (dot :: dotdot :: map fst es)) None
          else ret tt
      | _ => ret tt
      end
  end.
(** The path of the working directory must fit 100 bytes: else [old_path] is not
    written.  Unlinking a directory does nothing. *)
Definition DeleteFolder (fuel : nat) (path : list Z) : TM bool :=
  let! strNormalFile := lift (RegularPath path) in
  let! w := get in
  let old := cwd w in
  let! in_ := chdir (c_str path) in
  if negb in_ then ret false
  else
    do! RecurveRemoveDir fuel in
    if (100 <=? path_length old)%nat then lift (Undef Uninitialised)
    else
      do! go_to (Some old) in
      let! w := get in
      match rev (components (c_str strNormalFile)) with
      | [] => ret false
      | x :: r =>
          match walk (nodes w) (start strNormalFile w) (rev r) with
          | Some d => remove_in d x true
          | None => ret false
          end
      end.
Definition CreateDir (path : list Z) : TM bool :=
  let! strNormalFile := lift (RegularPath path) in
  let! w := get in
  match rev (components (c_str strNormalFile)) with
  | [] => ret false
  | x :: r =>
      match walk (nodes w) (start strNormalFile w) (rev r) with
      | Some d =>
          let! n := step_ in
          match nodes w !! d with
          | Some (DirNode up es) =>
              if bool_decide (is_Some (lookup_in (nodes w) d x)) || negb (remove_ok n d) then ret false
              else
                do! modify (fun w => mkTree (d_tick w)
                       (<[fresh_node w := DirNode d []]> (<[d := DirNode up (es ++ [(x, fresh_node w)])]> (nodes w)))
                       (cwd w) (S (fresh_node w))) in
                ret true
          | _ => ret false
          end
      | None => ret false
      end
  end.
End Folders.

(** Without separators at its end. *)
Fixpoint drop_separators (s : list Z) : list Z :=
  match s with c :: r => if c =? PATH_CHAR then drop_separators r else s | [] => [] end.
Definition GetTempDirectory : list Z := rev (drop_separators (rev (to_bytes "/tmp"))).
(** [link] is what /proc/self/exe stands for, if it can be read. *)
Definition GetBinPath (link : option (list Z)) : list Z :=
  match link with Some path => c_str (take 1023 path) | None => [] end.

(** ** Directories without links

    [tidy m up i S]: below [i], whose parent is [up], are files and directories
    only, each inode under one name; all of them are [S], [i] with them. *)
Definition proper (x : name) : Prop := x <> dot /\ x <> dotdot.
Inductive tidy (m : gmap nat node) : nat -> nat -> gset nat -> Prop :=
| tidy_file up i : m !! i = Some FileNode -> tidy m up i {[i]}
| tidy_dir up i es S : m !! i = Some (DirNode up es) -> NoDup (map fst es) -> Forall (fun p => proper p.1) es ->
    tidy_all m i es S -> i ∉ S -> tidy m up i ({[i]} ∪ S)
with tidy_all (m : gmap nat node) : nat -> list (name * nat) -> gset nat -> Prop :=
| tidy_nil i : tidy_all m i [] ∅
| tidy_cons i x j es S1 S2 : tidy m i j S1 -> tidy_all m i es S2 -> S1 ## S2 -> tidy_all m i ((x, j) :: es) (S1 ∪ S2).
Scheme tidy_mut := Induction for tidy Sort Prop
with tidy_all_mut := Induction for tidy_all Sort Prop.
Combined Scheme tidy_both from tidy_mut, tidy_all_mut.

(** Only the inodes of the set matter. *)
Lemma tidy_ext m :
  (forall up i S, tidy m up i S -> forall m', (forall k, k ∈ S -> m' !! k = m !! k) -> tidy m' up i S) /\
  (forall i es S, tidy_all m i es S -> forall m', (forall k, k ∈ S -> m' !! k = m !! k) -> tidy_all m' i es S).
Proof.
  apply (tidy_both m (fun up i S _ => forall m', (forall k, k ∈ S -> m' !! k = m !! k) -> tidy m' up i S)
                     (fun i es S _ => forall m', (forall k, k ∈ S -> m' !! k = m !! k) -> tidy_all m' i es S)).
  - intros up i Hi m' He. apply tidy_file. rewrite He by set_solver. done.
  - intros up i es S Hi Hn Hp Ht IH Hni m' He. eapply tidy_dir; [rewrite He by set_solver; done|done|done|apply IH; set_solver|done].
  - intros i m' He. apply tidy_nil.
  - intros i x j es S1 S2 Ht IH1 Hta IH2 Hd m' He. apply tidy_cons; [apply IH1; set_solver|apply IH2; set_solver|done].
Qed.
Lemma tidy_self m up i S : tidy m up i S -> i ∈ S.
Proof. destruct 1; set_solver. Qed.
(** One entry taken out. *)
Lemma tidy_all_take m i es S x : tidy_all m i es S -> NoDup (map fst es) -> x ∈ map fst es ->
  exists j S1 S2, entry es x = Some j /\ tidy m i j S1 /\ tidy_all m i (filter (fun p => p.1 <> x) es) S2 /\ S1 ## S2 /\ S = S1 ∪ S2.
Proof.
  induction 1 as [i|i y j es S1 S2 Ht Hta IH Hd]; intros Hn Hx; [by apply elem_of_nil in Hx|].
  cbn [map fst] in Hn, Hx. apply NoDup_cons in Hn as [Hy Hn]. apply elem_of_cons in Hx as [->|Hx].
  - exists j, S1, S2. assert (filter (fun p : name * nat => p.1 <> y) ((y, j) :: es) = es) as ->.
    { rewrite filter_cons, decide_False by (cbn; tauto). apply filter_all, Forall_forall. intros [z k] Hz. cbn. intros ->.
      apply Hy, list_elem_of_fmap. by exists (y, k). }
    split_and!; try done. unfold entry. cbn. by rewrite bool_decide_true.
  - destruct (IH Hn Hx) as (k & T1 & T2 & E & Ht' & Hta' & Hd' & ->). assert (x <> y) as Hxy by (intros ->; done).
    exists k, T1, (S1 ∪ T2). split_and!.
    + unfold entry in *. cbn. rewrite bool_decide_false by congruence. exact E.
    + done.
    + rewrite filter_cons, decide_True by (cbn; congruence). apply tidy_cons; [done|done|set_solver].
    + set_solver.
    + set_solver.
Qed.

(** ** A system that refuses nothing *)
Class DirsWell `{Dirs} : Prop := {
  opendir_well : forall n i, opendir_ok n i = true;
  chdir_well : forall n i, chdir_ok n i = true;
  remove_well : forall n i, remove_ok n i = true;
  readdir_perm : forall n l, readdir n l ≡ₚ l
}.
(** [i] is empty, what was below it is gone, and the rest is as it was. *)
Definition emptied (m m' : gmap nat node) (i up : nat) (S : gset nat) : Prop :=
  m' !! i = Some (DirNode up []) /\ (forall k, k ∈ S -> m' !! k = None) /\ (forall k, k <> i -> k ∉ S -> m' !! k = m !! k).

Section Empties.
Context `{DirsWell}.
Definition below (w : Tree) (up i : nat) (es : list (name * nat)) (S : gset nat) : Prop :=
  cwd w = i /\ nodes w !! i = Some (DirNode up es) /\ NoDup (map fst es) /\ Forall (fun p => proper p.1) es /\
  tidy_all (nodes w) i es S /\ i ∉ S.
Definition empties (m : TM unit) (n : nat) : Prop := forall w up i es S, below w up i es S -> (size S < n)%nat ->
  exists w', m w = Ret (tt, w') /\ cwd w' = i /\ emptied (nodes w) (nodes w') i up S.

Lemma lookup_in_entry m i up es x j : m !! i = Some (DirNode up es) -> proper x -> entry es x = Some j -> lookup_in m i x = Some j.
Proof. intros Hi [H1 H2] E. unfold lookup_in. rewrite Hi, !bool_decide_false by done. exact E. Qed.
Lemma go_to_dir i w : is_dir (nodes w) i = true -> exists w', go_to (Some i) w = Ret (true, w') /\ cwd w' = i /\ nodes w' = nodes w.
Proof.
  intros Hd. unfold go_to, step_, bind, get, modify, ret. cbn [obind fst snd nodes]. rewrite Hd, chdir_well. by eexists.
Qed.
Lemma resolve_real m i x j : lookup_in m i x = Some j -> (forall t, m !! j <> Some (LinkNode t)) -> resolve m i x = Some j.
Proof. intros E Hl. unfold resolve. rewrite E. cbn. unfold follow. destruct (m !! j) as [[]|] eqn:Ej; try done. by destruct (Hl target). Qed.
Lemma remove_entry w i up es x j nd : cwd w = i -> nodes w !! i = Some (DirNode up es) -> proper x -> entry es x = Some j ->
  nodes w !! j = Some nd -> match nd with DirNode _ (_ :: _) => False | _ => True end -> i <> j ->
  exists w', remove x w = Ret (true, w') /\ cwd w' = i /\
    nodes w' = <[i := DirNode up (filter (fun p => p.1 <> x) es)]> (delete j (nodes w)).
Proof.
  intros Hc Hi Hp He Hj Hnd Hij. unfold remove, remove_in, step_, bind, get, modify, ret. cbn [obind fst snd nodes cwd]. rewrite Hc.
  pose proof Hp as [H1 H2]. rewrite !bool_decide_false by done. cbn [orb].
  rewrite (lookup_in_entry _ _ _ _ _ _ Hi Hp He), remove_well. cbn [negb]. rewrite Hj.
  assert (drop_entry (nodes w) i x j = <[i := DirNode up (filter (fun p => p.1 <> x) es)]> (delete j (nodes w))) as <-.
  { unfold drop_entry. by rewrite Hi. }
  destruct nd as [|t|u [|? ?]]; [by eexists..|done].
Qed.

(** Going into a name and back, and removing it. *)
Lemma one_entry go_in n w up i es S1 x j l st : empties go_in n -> (size S1 <= n)%nat ->
  cwd w = i -> nodes w !! i = Some (DirNode up es) -> proper x -> entry es x = Some j -> tidy (nodes w) i j S1 -> i ∉ S1 ->
  exists w' st', each_entry go_in (x :: l) st w = each_entry go_in l st' w' /\ cwd w' = i /\
    nodes w' !! i = Some (DirNode up (filter (fun p => p.1 <> x) es)) /\
    (forall k, k ∈ S1 -> nodes w' !! k = None) /\ (forall k, k <> i -> k ∉ S1 -> nodes w' !! k = nodes w !! k).
Proof.
  intros Hgo Hn Hc Hi Hp He Ht HiS. pose proof (lookup_in_entry _ _ _ _ _ _ Hi Hp He) as Hl. pose proof (tidy_self _ _ _ _ Ht) as HjS.
  assert (i <> j) as Hij by (intros ->; done). pose proof Hp as [H1 H2]. cbn [each_entry]. unfold stat.
  unfold bind at 1. unfold bind at 1, get. cbn [obind fst snd]. rewrite Hc, !bool_decide_false by done. cbn [orb].
  inversion Ht as [? ? Hj|? ? esj Sj Hj Hnd Hpr Hta Hni]; subst.
  - rewrite (resolve_real _ _ _ _ Hl) by (intros t; by rewrite Hj). rewrite Hj. unfold is_dir. rewrite Hj. unfold ret at 1. cbn [obind fst snd].
    unfold bind at 1, ret at 1. cbn [obind fst snd].
    destruct (remove_entry w (cwd w) up es x j FileNode) as (w' & E & Hc' & Hm'); try done.
    exists w', (Some false). unfold bind. rewrite E. cbn [obind fst snd]. split_and!; [done|done|by rewrite Hm', lookup_insert_eq|..]; intros k Hk.
    + rewrite Hm'. assert (k = j) as -> by set_solver. by rewrite lookup_insert_ne, lookup_delete_eq by done.
    + intros Hk'. rewrite Hm', lookup_insert_ne by done. by rewrite lookup_delete_ne by set_solver.
  - rewrite (resolve_real _ _ _ _ Hl) by (intros t; by rewrite Hj). rewrite Hj. unfold is_dir at 1. rewrite Hj. unfold ret at 1. cbn [obind fst snd].
    destruct (go_to_dir j w) as (w1 & E1 & Hc1 & Hm1); [unfold is_dir; by rewrite Hj|].
    destruct (Hgo w1 (cwd w) j esj Sj) as (w2 & E2 & Hc2 & (He2 & Hg2 & Hs2)).
    { split_and!; try done; by rewrite Hm1. }
    { rewrite size_union in Hn by set_solver. rewrite size_singleton in Hn. lia. }
    rewrite Hm1 in Hs2. assert (nodes w2 !! cwd w = Some (DirNode up es)) as Hi2.
    { rewrite Hs2; [done|done|set_solver]. }
    destruct (go_to_dir (cwd w) w2) as (w3 & E3 & Hc3 & Hm3); [unfold is_dir; by rewrite Hi2|].
    assert (resolve (nodes w2) j dotdot = Some (cwd w)) as Hr.
    { unfold resolve, lookup_in. rewrite He2. rewrite bool_decide_false, bool_decide_true by done. cbn. unfold follow. by rewrite Hi2. }
    destruct (remove_entry w3 (cwd w) up es x j (DirNode (cwd w) [])) as (w4 & E4 & Hc4 & Hm4); try done; [by rewrite Hm3..|].
    exists w4, (Some true). split_and!; [|done|by rewrite Hm4, lookup_insert_eq|..].
    + unfold bind, get. cbn [obind fst snd]. rewrite (resolve_real _ _ _ _ Hl) by (intros t; by rewrite Hj).
      rewrite E1. cbn [obind fst snd]. rewrite E2. cbn [obind fst snd]. rewrite Hc2, Hr, E3. cbn [obind fst snd]. unfold ret. cbn [obind fst snd].
      by rewrite E4.
    + intros k Hk. rewrite Hm4, Hm3. rewrite lookup_insert_ne by (intros <-; done).
      destruct (decide (k = j)) as [->|Hkj]; [by rewrite lookup_delete_eq|]. rewrite lookup_delete_ne by done. apply Hg2. set_solver.
    + intros k Hki Hk. rewrite Hm4, Hm3, lookup_insert_ne, lookup_delete_ne by set_solver. apply Hs2; set_solver.
Qed.
Lemma each_entry_dots go_in x l st w : ~ proper x -> is_dir (nodes w) (cwd w) = true ->
  exists st', each_entry go_in (x :: l) st w = each_entry go_in l st' w.
Proof.
  intros Hp Hd. cbn [each_entry]. unfold stat, bind at 1, bind at 1, get, ret. cbn [obind fst snd].
  assert (bool_decide (x = dot) || bool_decide (x = dotdot) = true) as ->; [|by eexists].
  unfold proper in Hp. destruct (decide (x = dot)); [by rewrite bool_decide_true|]. destruct (decide (x = dotdot)); [|tauto].
  by rewrite (bool_decide_true (x = dotdot)), orb_true_r.
Qed.
(** A visit of each name removes what it stands for. *)
Lemma each_entry_empties go_in n up i l : empties go_in n -> forall w es S st,
  below w up i es S -> NoDup l -> (forall x, x ∈ map fst es <-> x ∈ l /\ proper x) -> (size S <= n)%nat ->
  exists w', each_entry go_in l st w = Ret (tt, w') /\ cwd w' = i /\ emptied (nodes w) (nodes w') i up S.
Proof.
  intros Hgo. induction l as [|x l IH]; intros w es S st (Hc & Hi & Hn & Hp & Ht & HiS) Hl He Hs.
  { exists w. split_and!; try done. destruct es as [|[y j] es].
    - inversion Ht; subst. split_and!; [done|set_solver|done].
    - destruct (He y) as [[Hy _] _]; [cbn; set_solver|]. by apply elem_of_nil in Hy. }
  apply NoDup_cons in Hl as [Hx Hl]. destruct (decide (x ∈ map fst es)) as [Hin|Hin].
  - destruct (tidy_all_take _ _ _ _ _ Ht Hn Hin) as (j & S1 & S2 & Ej & Ht1 & Ht2 & Hd & ->).
    rewrite size_union in Hs by done.
    destruct (one_entry go_in n w up i es S1 x j l st) as (w1 & st' & E & Hc1 & Hi1 & Hg1 & Hs1); try done; [lia|by apply (He x)|set_solver|].
    assert (NoDup (map fst (filter (fun p : name * nat => p.1 <> x) es))) as Hn'.
    { clear -Hn. induction es as [|[y k] es IH]; [done|]. cbn in Hn. apply NoDup_cons in Hn as [Hy Hn]. rewrite filter_cons. case_decide; [|by apply IH].
      cbn. apply NoDup_cons. split; [|by apply IH]. intros (p & -> & [_ Hq]%list_elem_of_filter)%list_elem_of_fmap. apply Hy, list_elem_of_fmap. by exists p. }
    destruct (IH w1 (filter (fun p => p.1 <> x) es) S2 st') as (w' & E' & Hc' & (Ha & Hb & Hf)).
    + split_and!; try done; [|eapply (proj2 (tidy_ext (nodes w))); [exact Ht2|]; intros k Hk; apply Hs1; set_solver|set_solver].
      apply Forall_forall. intros p [_ Hq]%list_elem_of_filter. rewrite Forall_forall in Hp. by apply Hp.
    + done.
    + intros y. rewrite list_elem_of_fmap. split.
      * intros (p & -> & [Hq Hpe]%list_elem_of_filter). assert (p.1 ∈ map fst es) as Hm by (apply list_elem_of_fmap; by exists p).
        apply He in Hm as [Hm Hpr]. split; [|done]. apply elem_of_cons in Hm as [Hm|Hm]; [by destruct Hq|done].
      * intros [Hy Hpr]. assert (y ∈ map fst es) as Hm by (apply He; split; [set_solver|done]).
        apply list_elem_of_fmap in Hm as (p & -> & Hpe). exists p. split; [done|]. apply list_elem_of_filter. split; [|done]. cbn. intros E1. by rewrite E1 in Hy.
    + lia.
    + exists w'. rewrite E. split_and!; [done|done|]. split_and!; [done|..].
      * intros k [Hk|Hk]%elem_of_union; [|by apply Hb]. destruct (decide (k ∈ S2)); [by apply Hb|].
        rewrite Hf by set_solver. by apply Hg1.
      * intros k Hki Hk. rewrite Hf by set_solver. apply Hs1; set_solver.
  - assert (~ proper x) as Hnp by (intros Hpx; apply Hin, He; split; [set_solver|done]).
    destruct (each_entry_dots go_in x l st w Hnp) as (st' & E); [unfold is_dir; by rewrite Hc, Hi|].
    rewrite E. apply (IH w es); [done|done| |done].
    intros y. rewrite He. split; [|set_solver]. intros [Hy Hpy]. split; [|done]. apply elem_of_cons in Hy as [->|Hy]; done.
Qed.
Lemma RecurveRemoveDir_spec fuel : empties (RecurveRemoveDir fuel) fuel.
Proof.
  induction fuel as [|fuel IH]; intros w up i es S Hb Hs; [lia|]. pose proof Hb as (Hc & Hi & Hn & Hp & Ht & HiS).
  cbn [RecurveRemoveDir]. unfold bind at 1, step_. cbn [obind fst snd]. unfold bind at 1, get. cbn [obind fst snd nodes cwd]. rewrite Hc, Hi, opendir_well.
  set (w0 := mkTree _ _ _ _). apply (each_entry_empties (RecurveRemoveDir fuel) fuel up i _ IH w0 es S None).
  - split_and!; try done.
  - rewrite readdir_perm. apply NoDup_cons. split.
    + rewrite elem_of_cons. intros [|(p & E & Hq)%list_elem_of_fmap]; [done|]. rewrite Forall_forall in Hp. destruct (Hp p Hq). by rewrite E in *.
    + apply NoDup_cons. split; [|done]. intros (p & E & Hq)%list_elem_of_fmap. rewrite Forall_forall in Hp. destruct (Hp p Hq). by rewrite E in *.
  - intros x. rewrite readdir_perm, !elem_of_cons. split.
    + intros Hx. split; [auto|]. apply list_elem_of_fmap in Hx as (p & -> & Hq). rewrite Forall_forall in Hp. by apply Hp.
    + intros [[->|[->|Hx]] [H1 H2]]; done.
  - lia.
Qed.
(** Below a directory without links everything is removed, however deep it is and
    in whatever order it is listed, and nothing else. *)
Theorem RecurveRemoveDir_empties w up i es S : below w up i es S ->
  exists w', RecurveRemoveDir (Datatypes.S (size S)) w = Ret (tt, w') /\ cwd w' = i /\ emptied (nodes w) (nodes w') i up S.
Proof. intros Hb. apply (RecurveRemoveDir_spec _ w up i es S Hb). lia. Qed.

(** A folder of the working directory. *)
Lemma components_one x : x <> [] -> Forall (fun c => c <> 47) x -> components x = [x].
Proof.
  intros Hx Hs. unfold components, split. rewrite <- (app_nil_r x) at 1.
  rewrite split_from_piece by done. cbn. by rewrite decide_True.
Qed.
Theorem DeleteFolder_deletes w up d es x i esi S :
  cwd w = d -> nodes w !! d = Some (DirNode up es) -> NoDup (map fst es) -> entry es x = Some i ->
  proper x -> x <> [] -> Forall (fun c => c <> 47 /\ c <> 92 /\ c <> 0) x ->
  nodes w !! i = Some (DirNode d esi) -> NoDup (map fst esi) -> Forall (fun p => proper p.1) esi -> tidy_all (nodes w) i esi S ->
  i ∉ S -> d ∉ S -> i <> d -> (path_length d < 100)%nat ->
  exists w', DeleteFolder (Datatypes.S (size S)) x w = Ret (true, w') /\ cwd w' = d /\
    nodes w' !! d = Some (DirNode up (filter (fun p => p.1 <> x) es)) /\
    (forall k, k ∈ {[i]} ∪ S -> nodes w' !! k = None) /\
    (forall k, k <> d -> k ∉ {[i]} ∪ S -> nodes w' !! k = nodes w !! k).
Proof.
  intros Hc Hd Hnd He Hp Hne Hx Hi Hni Hpi Ht HiS HdS Hid Hlen.
  assert (RegularPath x = Ret x) as Er.
  { rewrite RegularPath_map. f_equal. unfold slash. apply map_turn_id. rewrite Forall_forall in Hx. intros Hin. by destruct (Hx _ Hin) as (_ & ? & _). }
  assert (c_str x = x) as Ec by (apply c_str_no_nul; eapply Forall_impl; [exact Hx|naive_solver]).
  assert (components x = [x]) as Em by (apply components_one; [done|]; eapply Forall_impl; [exact Hx|naive_solver]).
  assert (forall v, start x v = cwd v) as Es.
  { intros v. destruct x as [|c x]; [done|]. cbn. apply Forall_cons in Hx as [(Hc47 & _) _]. by destruct (Z.eqb_spec c 47). }
  unfold DeleteFolder. unfold bind at 1, lift. rewrite Er. cbn [obind fst snd]. unfold bind at 1, get. cbn [obind fst snd].
  unfold bind at 1, chdir, bind at 1, get. cbn [obind fst snd]. rewrite Ec, Es, Em, Hc. cbn [walk foldl option_bind mbind].
  rewrite (resolve_real _ _ _ i) by ((by eapply lookup_in_entry) || (intros t; by rewrite Hi)).
  destruct (go_to_dir i w) as (w1 & E1 & Hc1 & Hm1); [unfold is_dir; by rewrite Hi|]. rewrite E1. cbn [obind fst snd negb].
  destruct (RecurveRemoveDir_empties w1 d i esi S) as (w2 & E2 & Hc2 & (Ha & Hb & Hf)).
  { split_and!; try done; by rewrite Hm1. }
  unfold bind at 1. rewrite E2. cbn [obind fst snd]. destruct (Nat.leb_spec 100 (path_length d)); [lia|].
  rewrite Hm1 in Hf. assert (nodes w2 !! d = Some (DirNode up es)) as Hd2 by (rewrite Hf by done; done).
  destruct (go_to_dir d w2) as (w3 & E3 & Hc3 & Hm3); [unfold is_dir; by rewrite Hd2|].
  unfold bind at 1. rewrite E3. cbn [obind fst snd]. unfold bind at 1, get. cbn [obind fst snd]. rewrite Es, Hc3. cbn [rev app walk foldl].
  unfold remove_in, step_, bind, get, modify, ret. cbn [obind fst snd nodes]. pose proof Hp as [Hp1 Hp2]. rewrite !bool_decide_false by done. cbn [orb].
  rewrite Hm3, (lookup_in_entry _ _ _ _ _ _ Hd2 Hp He), remove_well. cbn [negb]. rewrite Ha. cbn [obind fst snd].
  eexists. split; [done|]. cbn [cwd nodes set_nodes]. unfold drop_entry. rewrite Hd2. split_and!; [done|by rewrite lookup_insert_eq|..].
  - intros k Hk. rewrite lookup_insert_ne by set_solver. destruct (decide (k = i)) as [->|]; [by rewrite lookup_delete_eq|].
    rewrite lookup_delete_ne by done. apply Hb. set_solver.
  - intros k Hkd Hk. rewrite lookup_insert_ne, lookup_delete_ne by set_solver. apply Hf; set_solver.
Qed.
End Empties.

(** ** What links do *)
#[export] Instance EasyDirs : Dirs := {|
  opendir_ok n i := true; chdir_ok n i := true; remove_ok n i := true; readdir n l := l; path_length i := 10%nat |}.
#[export] Instance EasyDirsWell : DirsWell.
Proof. done. Qed.
(** /work, where we stand, holds the folder x; x holds a directory and a file. *)
Definition plain_tree : Tree := mkTree 0
  {[0%nat := DirNode 0 [(to_bytes "work", 1%nat); (to_bytes "home", 2%nat); (to_bytes "b", 3%nat)];
    1%nat := DirNode 0 [(to_bytes "x", 4%nat)];
    2%nat := DirNode 0 [(to_bytes "precious", 5%nat)];
    3%nat := FileNode; 5%nat := FileNode;
    4%nat := DirNode 1 [(to_bytes "sub", 6%nat); (to_bytes "b", 7%nat)];
    6%nat := DirNode 4 [(to_bytes "deep", 8%nat)]; 7%nat := FileNode; 8%nat := FileNode]} 1 9.
(** The same with a link to /home in place of the directory. *)
Definition linked_tree : Tree := set_nodes (<[6%nat := LinkNode (Some 2%nat)]> (nodes plain_tree)) plain_tree.
Definition dangling_tree : Tree := set_nodes (<[6%nat := LinkNode None]> (nodes plain_tree)) plain_tree.
Definition tree_after (m : outcome (bool * Tree)) : Tree := match m with Ret (_, w) => w | _ => plain_tree end.
Definition below_x : gset nat := ({[6%nat]} ∪ ({[8%nat]} ∪ ∅)) ∪ ({[7%nat]} ∪ ∅).
Lemma DeleteFolder_deletes_witness : exists w', DeleteFolder 4 (to_bytes "x") plain_tree = Ret (true, w') /\ nodes w' !! 8%nat = None /\
  nodes w' !! 5%nat = Some FileNode.
Proof.
  destruct (DeleteFolder_deletes plain_tree 0 1 [(to_bytes "x", 4%nat)] (to_bytes "x") 4
              [(to_bytes "sub", 6%nat); (to_bytes "b", 7%nat)] below_x) as (w' & E & _ & _ & Hg & Hk).
  - done.
  - by vm_compute.
  - by apply (bool_decide_unpack _); vm_compute.
  - by vm_compute.
  - by apply (bool_decide_unpack _); vm_compute.
  - done.
  - by apply (bool_decide_unpack _); vm_compute.
  - by vm_compute.
  - by apply (bool_decide_unpack _); vm_compute.
  - by apply (bool_decide_unpack _); vm_compute.
  - apply tidy_cons; [|apply tidy_cons; [by apply tidy_file; vm_compute|apply tidy_nil|set_solver]|set_solver].
    apply (tidy_dir _ _ _ [(to_bytes "deep", 8%nat)]); [by vm_compute|by apply (bool_decide_unpack _); vm_compute..| |set_solver].
    apply tidy_cons; [by apply tidy_file; vm_compute|apply tidy_nil|set_solver].
  - unfold below_x. set_solver.
  - unfold below_x. set_solver.
  - done.
  - by apply (bool_decide_unpack _); vm_compute.
  - assert (size below_x = 3%nat) as Es by by vm_compute. rewrite Es in E. exists w'. split; [exact E|]. split.
    + apply Hg. unfold below_x. set_solver.
    + transitivity (nodes plain_tree !! 5%nat); [|by vm_compute]. apply Hk; [done|]. by apply (bool_decide_unpack _); vm_compute.
Defined.
(** A link to a directory is gone into: what it holds is removed, ".." leads to its
    parent and not back, and the rest of the folder's names are removed there. *)
Example link_loses :
  let w := tree_after (DeleteFolder 9 (to_bytes "x") linked_tree) in
  DeleteFolder 9 (to_bytes "x") linked_tree = Ret (false, w) /\
  nodes w !! 5%nat = None /\ nodes w !! 3%nat = None /\ nodes w !! 7%nat = Some FileNode.
Proof. split; [|by vm_compute]. vm_compute. reflexivity. Qed.
(** A dangling link is taken for what the name before it was; after "..", for a
    directory, and then the folder is gone into again without end. *)
Example dangling_link_loops : DeleteFolder 100 (to_bytes "x") dangling_tree = Diverge.
Proof. by vm_compute. Qed.
