(* ===== verification/Net.v ===== *)
(** Sockets (utils/net.cpp, utils/net.h): internet addresses and their text,
    and [Socket], the wrapper of a BSD socket.

    The kernel is the class [Bsd]: it answers a system call with a result, an
    error number and what the call writes back.  The state [Os] is the kernel,
    [errno], and the calls made so far with their answers, so that a theorem can
    say what a method asked for.  [BsdLaws] is what the manual pages promise. *)

From S2P Require Import Prelude Strings.

(** ** Addresses *)

Definition htons (x : Z) : Z := x mod 256 * 256 + x / 256.
Definition htonl (x : Z) : Z :=
  x mod 256 * 2 ^ 24 + x / 2 ^ 8 mod 256 * 2 ^ 16 + x / 2 ^ 16 mod 256 * 2 ^ 8 + x / 2 ^ 24.
Definition AF_INET : Z := 2.
Definition INADDR_ANY : Z := 0.
Definition INADDR_LOOPBACK : Z := 2130706433.
Definition INADDR_NONE : Z := 4294967295.

(** [struct sockaddr_in]; port and address as they are stored, in the order of
    the network. *)
Record sockaddr_in := mkSockaddr { sin_family : Z; sin_port : Z; s_addr : Z }.
#[export] Instance sockaddr_eq : EqDecision sockaddr_in.
Proof. solve_decision. Defined.
Definition InetAddress_new : sockaddr_in := mkSockaddr 0 0 0.
Definition InetAddress_port (port : Z) : sockaddr_in := mkSockaddr AF_INET (htons port) (htonl INADDR_ANY).
Definition InetAddress_ip (ip_big_endian port : Z) : sockaddr_in := mkSockaddr AF_INET (htons port) ip_big_endian.
Definition InetAddress_in_addr (in_addr : Z) : sockaddr_in := mkSockaddr AF_INET 0 in_addr.

(** The C library's [inet_ntoa] and [inet_addr]: one to four numbers, decimal,
    octal or hexadecimal, the last of which fills what is left. *)
Definition inet_ntoa (a : Z) : list Z :=
  ToString (a mod 256) ++ 46 :: ToString (a / 2 ^ 8 mod 256) ++ 46 :: ToString (a / 2 ^ 16 mod 256) ++ 46 :: ToString (a / 2 ^ 24).
Definition addr_digit (c : Z) : Z :=
  if IS_DIGIT c then c - 48 else if (97 <=? c) && (c <=? 102) then c - 87 else if (65 <=? c) && (c <=? 70) then c - 55 else 16.
Fixpoint addr_number (base : Z) (s : list Z) (acc : Z) : Z * list Z :=
  match s with
  | c :: r => if addr_digit c <? base then addr_number base r (acc * base + addr_digit c) else (acc, s)
  | [] => (acc, [])
  end.
Definition strtoul (s : list Z) : Z * list Z :=
  match s with
  | 48 :: x :: c :: r => if ((x =? 120) || (x =? 88)) && (addr_digit c <? 16) then addr_number 16 (c :: r) 0 else addr_number 8 s 0
  | 48 :: _ => addr_number 8 s 0
  | _ => addr_number 10 s 0
  end.
Fixpoint inet_parts (dots : nat) (word place : Z) (s : list Z) : option Z :=
  match s with
  | c :: _ =>
      if negb (IS_DIGIT c) then None else
      let '(v, r) := strtoul s in
      let last := if v <? 2 ^ (8 * (Z.of_nat dots + 1)) then Some (Z.lor word (htonl v)) else None in
      if INADDR_NONE <? v then None else
      match r with
      | [] => last
      | d :: r' =>
          if d =? 46 then
            match dots with
            | O => None
            | S k => if 255 <? v then None else inet_parts k (word + v * 2 ^ place) (place + 8) r'
            end
          else if isspace d then last else None
      end
  | [] => None
  end.
Definition inet_addr (s : list Z) : Z := match inet_parts 3 0 0 (c_str s) with Some a => a | None => INADDR_NONE end.

(** [gethostbyname]; an address is the long the code reads at its start. *)
Record hostent := mkHost { h_addrtype : Z; h_addr_list : option (list Z) }.
Class Resolver := { gethostbyname : list Z -> option hostent }.
Definition ERROR_NOT_SUPPORTED : Z := 61.

Section Addresses.
Context `{Resolver}.

(** The result, the address, and the error number it sets; the constructors
    below keep only the address. *)
Definition Resolve (address : list Z) (this : sockaddr_in) : outcome (bool * sockaddr_in * option Z) :=
  let address_int := inet_addr address in
  if negb (address_int =? htonl INADDR_NONE) then Ret (true, mkSockaddr AF_INET (sin_port this) address_int, None)
  else match gethostbyname (c_str address) with
       | None | Some (mkHost _ None) => Ret (false, this, None)
       | Some (mkHost t (Some l)) =>
           if t =? AF_INET then
             match l with
             | a :: _ => Ret (true, mkSockaddr AF_INET (sin_port this) (wrap 32 a), None)
             | [] => Undef NullDeref
             end
           else Ret (false, this, Some ERROR_NOT_SUPPORTED)
       end.
Definition InetAddress_at (ip : list Z) (port : Z) : outcome sockaddr_in :=
  let? r := Resolve ip InetAddress_new in Ret (mkSockaddr (sin_family r.1.2) (htons port) (s_addr r.1.2)).
Definition InetAddress_of (ip : list Z) : outcome sockaddr_in :=
  let ip_array := Strtok ip 58 in
  let this := mkSockaddr AF_INET 0 0 in
  let? this := match ip_array with [] => Ret this | h :: _ => let? r := Resolve h this in Ret r.1.2 end in
  match ip_array with
  | _ :: p :: _ => Ret (mkSockaddr (sin_family this) (htons (wrap 16 (Stoui p))) (s_addr this))
  | _ => Ret this
  end.

(** An endpoint of asio: the text of its address, and its port.  The second
    constructor builds a temporary and leaves the members unset. *)
Record endpoint := mkEndpoint { ep_address : list Z; ep_port : Z }.
Definition InetAddress_tcp (e : endpoint) : sockaddr_in :=
  mkSockaddr AF_INET (htons (ep_port e)) (inet_addr (ep_address e)).
Definition InetAddress_udp (unset : sockaddr_in) (e : endpoint) : outcome sockaddr_in :=
  let? temporary := InetAddress_at (ep_address e) (ep_port e) in Ret unset.
End Addresses.

Definition ToIp (a : sockaddr_in) : list Z := inet_ntoa (s_addr a).
Definition ToIpPort (a : sockaddr_in) : list Z := firstn 31 (ToIp a ++ 58 :: ToString (htons (sin_port a))).
Definition tcp_endpoint (a : sockaddr_in) : endpoint := mkEndpoint (ToIp a) (htons (sin_port a)).
Definition udp_endpoint (a : sockaddr_in) : endpoint := mkEndpoint (ToIp a) (htons (sin_port a)).
Definition InetAddress_eq (a b : sockaddr_in) : bool := bool_decide (ToIpPort a = ToIpPort b).
Definition IpBigEndian (a : sockaddr_in) : Z := s_addr a.
Definition PortBigEndian (a : sockaddr_in) : Z := sin_port a.
Definition GetFamily (a : sockaddr_in) : Z := AF_INET.
Definition SetPort (port : Z) (a : sockaddr_in) : sockaddr_in := mkSockaddr (sin_family a) (htons port) (s_addr a).
Definition GetPort (a : sockaddr_in) : Z := htons (sin_port a).
Definition IsAny (a : sockaddr_in) : bool := s_addr a =? htonl INADDR_ANY.
Definition IsLoopback (a : sockaddr_in) : bool := s_addr a =? htonl INADDR_LOOPBACK.
Definition IsNone (a : sockaddr_in) : bool := s_addr a =? htonl INADDR_NONE.
Definition Any : sockaddr_in := InetAddress_ip (htonl INADDR_ANY) 0.
Definition Loopback : sockaddr_in := InetAddress_ip (htonl INADDR_LOOPBACK) 0.
Definition None_ : sockaddr_in := InetAddress_ip (htonl INADDR_NONE) 0.

(** The addresses of the interfaces: family and address of each that has one. *)
Definition GetNetworkAddress (interfaces : option (list (option (Z * Z)))) (addresses : list sockaddr_in) : bool * list sockaddr_in :=
  match interfaces with
  | None => (false, addresses)
  | Some l => (true, fold_left (fun out ifa =>
      match ifa with
      | Some (family, a) => if family =? AF_INET then out ++ [InetAddress_in_addr a] else out
      | None => out
      end) l addresses)
  end.

(** ** System calls *)

Definition EPERM : Z := 1.
Definition ENOENT : Z := 2.
Definition EINTR : Z := 4.
Definition EAGAIN : Z := 11.
Definition EEXIST : Z := 17.
Definition EINPROGRESS : Z := 115.
Definition ERROR_NOT_READY : Z := ENOENT.
Definition ERROR_ALREADY_EXISTS : Z := EEXIST.
Definition SOL_SOCKET : Z := 1.
Definition SO_REUSEADDR : Z := 2.
Definition SO_SNDBUF : Z := 7.
Definition SO_RCVBUF : Z := 8.
Definition SO_KEEPALIVE : Z := 9.
Definition IPPROTO_TCP : Z := 6.
Definition IPPROTO_UDP : Z := 17.
Definition TCP_NODELAY : Z := 1.

Inductive syscall : Set :=
| c_socket (family type protocol : Z)
| c_close (fd : Z)
| c_bind (fd : Z) (addr : sockaddr_in)
| c_getsockname (fd : Z)
| c_getpeername (fd : Z)
| c_listen (fd backlog : Z)
| c_connect (fd : Z) (addr : sockaddr_in)
| c_accept (fd : Z)
| c_ioctl_nbio (fd : Z) (enabled : bool)
| c_setsockopt (fd level name : Z) (value : list Z)
| c_getsockopt_error (fd : Z)
| c_send (fd : Z) (data : list Z)
| c_recv (fd size : Z)
| c_sendto (fd : Z) (data : list Z) (addr : sockaddr_in)
| c_recvfrom (fd size : Z)
| c_usleep (microseconds : Z)
| c_epoll_create (size : Z)
| c_epoll_ctl (epoll op fd events : Z) (ptr : nat)
| c_epoll_wait (epoll : Z) (maximum : nat) (timeout : Z).

(** What a call returns, the error number if it fails, and what it writes: an
    address, bytes, a number, events. *)
Record reply := mkReply { r_ret : Z; r_errno : Z; r_addr : sockaddr_in; r_data : list Z; r_value : Z; r_events : list (Z * nat) }.
Class Bsd := { os_state : Type; perform : syscall -> os_state -> reply * os_state }.
Record Os `{Bsd} := mkOs { errno : Z; calls : list (syscall * reply); kernel : os_state }.
Arguments mkOs {_}. Arguments errno {_}. Arguments calls {_}. Arguments kernel {_}.

(** [utils::error_code], [utils::set_error_code] and [utils::Sleep]. *)
Definition error_code `{Bsd} : M Os Z := fun o => Ret (errno o, o).
Definition set_error_code `{Bsd} (code : Z) : M Os unit := modify (fun o => mkOs code (calls o) (kernel o)).
Definition call `{Bsd} (c : syscall) : M Os reply := fun o =>
  let '(r, k) := perform c (kernel o) in
  Ret (r, mkOs (if r_ret r =? -1 then r_errno r else errno o) (calls o ++ [(c, r)]) k).
Definition Sleep `{Bsd} (time_milli : Z) : M Os reply := call (c_usleep (wrap 32 (time_milli * 1000))).

(** ** [Socket] *)

Inductive SocketType : Set := SOCKET_TYPE_TCP | SOCKET_TYPE_UDP.
Definition type_number (t : SocketType) : Z := match t with SOCKET_TYPE_TCP => 0 | SOCKET_TYPE_UDP => 1 end.
Definition INVALID_HANDLE : Z := -1.
Definition ERR_VALUE : Z := -1.
(** [m_pCustomControl] is the id of a control object; nothing ever sets it. *)
Record Socket := mkSocket {
  m_nType : Z; handle_ : Z; local_address_ : sockaddr_in; peer_address_ : sockaddr_in;
  m_bBlocking : bool; m_bWriteBlocked : bool; m_nSerailNumber : Z; m_bConnectBlocked : bool; m_pCustomControl : option nat }.
Definition Socket_new : Socket := mkSocket 0 INVALID_HANDLE InetAddress_new InetAddress_new true false 0 false None.
Definition IsValid (s : Socket) : bool := negb (handle_ s =? INVALID_HANDLE).
Definition IsConnectable (s : Socket) : bool := 0 =? m_nType s.
Definition IsWriteBlocked (s : Socket) : bool := m_bWriteBlocked s.
Definition IsNomralError (code : Z) : bool := (EAGAIN =? code) || (EINPROGRESS =? code) || (EINTR =? code).

Definition set_handle (h : Z) (s : Socket) : Socket :=
  mkSocket (m_nType s) h (local_address_ s) (peer_address_ s) (m_bBlocking s) (m_bWriteBlocked s) (m_nSerailNumber s) (m_bConnectBlocked s) (m_pCustomControl s).
Definition set_local (a : sockaddr_in) (s : Socket) : Socket :=
  mkSocket (m_nType s) (handle_ s) a (peer_address_ s) (m_bBlocking s) (m_bWriteBlocked s) (m_nSerailNumber s) (m_bConnectBlocked s) (m_pCustomControl s).
Definition set_peer (a : sockaddr_in) (s : Socket) : Socket :=
  mkSocket (m_nType s) (handle_ s) (local_address_ s) a (m_bBlocking s) (m_bWriteBlocked s) (m_nSerailNumber s) (m_bConnectBlocked s) (m_pCustomControl s).
Definition set_blocking (b : bool) (s : Socket) : Socket :=
  mkSocket (m_nType s) (handle_ s) (local_address_ s) (peer_address_ s) b (m_bWriteBlocked s) (m_nSerailNumber s) (m_bConnectBlocked s) (m_pCustomControl s).
Definition SetWriteBlocked (b : bool) (s : Socket) : Socket :=
  mkSocket (m_nType s) (handle_ s) (local_address_ s) (peer_address_ s) (m_bBlocking s) b (m_nSerailNumber s) (m_bConnectBlocked s) (m_pCustomControl s).
Definition set_connect_blocked (b : bool) (s : Socket) : Socket :=
  mkSocket (m_nType s) (handle_ s) (local_address_ s) (peer_address_ s) (m_bBlocking s) (m_bWriteBlocked s) (m_nSerailNumber s) b (m_pCustomControl s).

(** An [int] of four bytes, and one of a single [char]. *)
Definition int_bytes (v : Z) : list Z := [v mod 256; v / 2 ^ 8 mod 256; v / 2 ^ 16 mod 256; v / 2 ^ 24 mod 256].
Definition char_bytes (v : Z) : list Z := [v mod 256].
Definition flag (on : bool) : Z := if on then 1 else 0.

Section Sockets.
Context `{Bsd}.
Definition SM := M (Socket * Os).
Definition sys {A} (c : M Os A) : SM A := zoom snd (fun o w => (w.1, o)) c.
Definition upd (f : Socket -> Socket) : SM unit := modify (fun w => (f w.1, w.2)).
Definition this : SM Socket := fun w => Ret (w.1, w).
(** [VALIDATE_ERROR_RETURN(expr, ecode, false)] in front of [k]. *)
Definition validate (bad : Socket -> bool) (code : Z) (k : SM bool) : SM bool :=
  let! s := this in
  if bad s then do! sys (set_error_code code) in ret false else k.
Definition not_valid (s : Socket) : bool := negb (IsValid s).

Definition SetOption (sol name : Z) (value : list Z) : SM bool :=
  validate not_valid ERROR_NOT_READY (
  let! s := this in
  let! r := sys (call (c_setsockopt (handle_ s) sol name value)) in
  ret (negb (r_ret r =? ERR_VALUE))).
Definition SetReuse (on : bool) : SM bool := SetOption SOL_SOCKET SO_REUSEADDR (int_bytes (flag on)).
Definition SetTcpNoDelay (on : bool) : SM unit :=
  let! s := this in
  do! sys (call (c_setsockopt (handle_ s) SOL_SOCKET TCP_NODELAY (char_bytes (flag on)))) in ret tt.
Definition SetKeepAlive (on : bool) : SM unit :=
  let! s := this in
  do! sys (call (c_setsockopt (handle_ s) SOL_SOCKET SO_KEEPALIVE (char_bytes (flag on)))) in ret tt.
Definition SetBuffer (buf_len : Z) : SM unit :=
  let! s := this in
  do! sys (call (c_setsockopt (handle_ s) SOL_SOCKET SO_SNDBUF (int_bytes buf_len))) in
  do! sys (call (c_setsockopt (handle_ s) SOL_SOCKET SO_RCVBUF (int_bytes buf_len))) in ret tt.
Definition SetBlocking (block : bool) : SM bool :=
  let! s := this in
  let! r := sys (call (c_ioctl_nbio (handle_ s) (negb block))) in
  if r_ret r =? 0 then do! upd (set_blocking block) in ret true else ret false.
Definition Close : SM bool :=
  let! s := this in
  do! sys (call (c_close (handle_ s))) in
  do! upd (set_handle INVALID_HANDLE) in ret true.
Definition Close_handle (nHandle : Z) : M Os bool :=
  let! r := call (c_close nHandle) in ret (negb (r_ret r =? ERR_VALUE)).
Definition Detach : SM bool :=
  validate not_valid ERROR_NOT_READY (do! upd (set_handle INVALID_HANDLE) in ret true).

Definition Attach (nHandle nType : Z) (bBlocking : bool) : SM bool :=
  validate IsValid ERROR_ALREADY_EXISTS (
  do! upd (fun s => mkSocket nType nHandle (local_address_ s) (peer_address_ s) bBlocking false (m_nSerailNumber s) (m_bConnectBlocked s) (m_pCustomControl s)) in
  let! r := sys (call (c_getsockname nHandle)) in
  if r_ret r =? ERR_VALUE then ret false else
  do! upd (set_local (r_addr r)) in
  let! r := sys (call (c_getpeername nHandle)) in
  if r_ret r =? ERR_VALUE then ret false else
  do! upd (set_peer (r_addr r)) in
  SetBlocking bBlocking).

(** The [do ... while(false)] of [Create]: whether it returns from inside. *)
Definition bind_and_name (address : sockaddr_in) (resuse_addr : bool) : SM bool :=
  let! reused := SetReuse resuse_addr in
  if negb reused then ret false else
  let! s := this in
  let! r := sys (call (c_bind (handle_ s) address)) in
  if r_ret r =? ERR_VALUE then ret false else
  let! r := sys (call (c_getsockname (handle_ s))) in
  if r_ret r =? ERR_VALUE then ret false else
  do! upd (set_local (r_addr r)) in ret true.
Definition SocketCreate (type : SocketType) (address : sockaddr_in) (resuse_addr : bool) : SM bool :=
  let! s := this in
  if IsValid s then lift Throw else
  if m_nSerailNumber s =? 2 ^ 31 - 1 then lift (Undef Overflow) else
  do! upd (fun s => mkSocket (m_nType s) (handle_ s) (local_address_ s) (peer_address_ s) (m_bBlocking s) (m_bWriteBlocked s) (m_nSerailNumber s + 1) false None) in
  let! r := sys (call (match type with
                       | SOCKET_TYPE_TCP => c_socket (GetFamily address) 1 IPPROTO_TCP
                       | SOCKET_TYPE_UDP => c_socket (GetFamily address) 2 IPPROTO_UDP
                       end)) in
  do! upd (set_handle (r_ret r)) in
  let! s := this in
  if negb (IsValid s) then ret false else
  let! done := bind_and_name address resuse_addr in
  if done then ret true else do! Close in ret false.

Definition Socket_destroy : SM unit :=
  let! s := this in
  do! (if IsValid s then Close else ret true) in
  upd (fun s => mkSocket (m_nType s) (handle_ s) (local_address_ s) (peer_address_ s) (m_bBlocking s) (m_bWriteBlocked s) (m_nSerailNumber s) (m_bConnectBlocked s) None).

Definition Bind (address : sockaddr_in) : SM bool :=
  do! SetReuse true in
  let! s := this in
  let! r := sys (call (c_bind (handle_ s) address)) in
  if r_ret r <? 0 then ret false else do! upd (set_local address) in ret true.
Definition Listen (nBackLog : Z) : SM bool :=
  validate not_valid ERROR_NOT_READY (
  let! s := this in
  let! r := sys (call (c_listen (handle_ s) nBackLog)) in ret (r_ret r =? 0)).
Definition Connect (server : sockaddr_in) : SM bool :=
  let! s := this in
  let! r := sys (call (c_connect (handle_ s) server)) in
  if r_ret r =? 0 then do! upd (set_peer server) in ret true else
  let! code := sys error_code in
  if negb (code =? EINPROGRESS) then ret false else
  do! upd (fun s => set_peer server (SetWriteBlocked true (set_connect_blocked true s))) in ret false.
(** The result of [connect] is not looked at. *)
Definition Connect_timeout (server : sockaddr_in) (timeout_milli : Z) : SM bool :=
  let! s := this in
  let! ok := SetBlocking false in
  if ok then do! sys (call (c_connect (handle_ s) server)) in ret true
  else do! SetBlocking (m_bBlocking s) in ret false.

(** What it returns, and its two out parameters. *)
Definition Accept_handle (nPeerAddress : sockaddr_in) : SM (bool * option Z * sockaddr_in) :=
  let! s := this in
  if not_valid s then do! sys (set_error_code ERROR_NOT_READY) in ret (false, None, nPeerAddress) else
  let! r := sys (call (c_accept (handle_ s))) in
  let ok := negb (r_ret r =? INVALID_HANDLE) in
  ret (ok, Some (r_ret r), if ok then r_addr r else nPeerAddress).
(** The other overload, into an existing [Socket]. *)
Definition Accept (new_socket : Socket) : SM (bool * Socket) :=
  let! s := this in
  let! r := sys (call (c_accept (handle_ s))) in
  let new_handle := r_ret r in
  if new_handle =? INVALID_HANDLE then ret (false, new_socket) else
  let! r := sys (call (c_getsockname new_handle)) in
  let new_socket := if r_ret r =? ERR_VALUE then new_socket else set_local (r_addr r) new_socket in
  let! r := sys (call (c_getpeername new_handle)) in
  let new_socket := if r_ret r =? ERR_VALUE then new_socket else set_peer (r_addr r) new_socket in
  ret (true, new_socket).

Definition Send (buffer : list Z) : SM Z :=
  let! s := this in
  let! r := sys (call (c_send (handle_ s) buffer)) in ret (r_ret r).
Definition Receive (size : Z) : SM (Z * list Z) :=
  let! s := this in
  let! r := sys (call (c_recv (handle_ s) size)) in ret (r_ret r, r_data r).
Definition SendTo (buffer : list Z) (address : sockaddr_in) : SM Z :=
  let! s := this in
  let! r := sys (call (c_sendto (handle_ s) buffer address)) in ret (r_ret r).
(** The sender's address is written through the cast away [const]. *)
Definition ReceiveFrom (size : Z) (address : sockaddr_in) : SM (Z * list Z * sockaddr_in) :=
  let! s := this in
  let! r := sys (call (c_recvfrom (handle_ s) size)) in
  ret (r_ret r, r_data r, if r_ret r =? ERR_VALUE then address else r_addr r).

(** [fuel] bounds the rounds; [rest] is what is left of the buffer. *)
Fixpoint SendComplete (fuel : nat) (rest : list Z) : SM bool :=
  match rest, fuel with
  | [], _ => ret true
  | _, O => lift Diverge
  | _, S f =>
      let! sent_size := Send rest in
      if 0 <? sent_size then SendComplete f (skipn (Z.to_nat sent_size) rest) else
      let! code := sys error_code in
      if IsNomralError code then do! sys (Sleep 10) in SendComplete f rest else ret false
  end.

Definition GetSocketError : SM Z :=
  let! s := this in
  let! r := sys (call (c_getsockopt_error (handle_ s))) in
  ret (wrap 32 (if r_ret r =? ERR_VALUE then 0 else r_value r)).
End Sockets.
Definition GetPeerName `{Bsd} (s : Z) : M Os (list Z) :=
  let! r := call (c_getpeername s) in
  ret (ToIpPort (if r_ret r =? ERR_VALUE then InetAddress_new else r_addr r)).

(** ** What the system promises, and what a run did *)

Definition takes (c : syscall) (r : reply) : Prop :=
  match c with c_send _ data => -1 <= r_ret r <= Z.of_nat (length data) | _ => True end.
Class BsdLaws `{Bsd} : Prop := perform_takes c k : takes c (perform c k).1.

(** The bytes the sends of a run got through. *)
Definition sent_by (e : syscall * reply) : list Z :=
  match e with (c_send _ data, r) => firstn (Z.to_nat (r_ret r)) data | _ => [] end.
Definition sent (l : list (syscall * reply)) : list Z := concat (map sent_by l).
(** The descriptors a run has opened and not closed. *)
Definition open_step (fds : list Z) (e : syscall * reply) : list Z :=
  match e with
  | (c_socket _ _ _, r) | (c_accept _, r) | (c_epoll_create _, r) => if r_ret r =? -1 then fds else r_ret r :: fds
  | (c_close fd, _) => filter (fun x => x <> fd) fds
  | _ => fds
  end.
Definition opened (l : list (syscall * reply)) : list Z := fold_left open_step l [].
(** The calls that open and close none. *)
Definition quiet (e : syscall * reply) : Prop :=
  match e.1 with c_socket _ _ _ | c_accept _ | c_epoll_create _ | c_close _ => False | _ => True end.
Lemma quiet_steps l fds : Forall quiet l -> fold_left open_step l fds = fds.
Proof. intros Hl. induction Hl as [|[[] r] l He Hl IH]; cbn in *; done. Qed.

(** ** Addresses and their text *)

Definition addr_ok (a : sockaddr_in) : Prop := sin_family a = AF_INET /\ 0 <= sin_port a < 2 ^ 16 /\ 0 <= s_addr a < 2 ^ 32.

Lemma htons_htons x : 0 <= x < 2 ^ 16 -> htons (htons x) = x /\ 0 <= htons x < 2 ^ 16.
Proof.
  intros Hx. unfold htons. pose proof (Z.div_mod x 256 ltac:(lia)). pose proof (Z.mod_pos_bound x 256 ltac:(lia)).
  assert (0 <= x / 256 < 256) by (split; [apply Z.div_pos; lia|apply Z.div_lt_upper_bound; lia]).
  replace (x mod 256 * 256 + x / 256) with (x / 256 + x mod 256 * 256) by lia.
  rewrite Z_mod_plus_full, Z.div_add, (Z.div_small (x / 256)), (Z.mod_small (x / 256)) by lia. lia.
Qed.
Lemma four_bytes a : 0 <= a < 2 ^ 32 ->
  a = a mod 256 + a / 2 ^ 8 mod 256 * 2 ^ 8 + a / 2 ^ 16 mod 256 * 2 ^ 16 + a / 2 ^ 24 * 2 ^ 24 /\ 0 <= a / 2 ^ 24 < 256.
Proof.
  intros Ha. pose proof (Z.div_mod a 256 ltac:(lia)). pose proof (Z.div_mod (a / 2 ^ 8) 256 ltac:(lia)).
  pose proof (Z.div_mod (a / 2 ^ 16) 256 ltac:(lia)).
  rewrite !Z.div_div in * by lia. change (2 ^ 8 * 256) with (2 ^ 16) in *. change (2 ^ 16 * 256) with (2 ^ 24) in *.
  change (2 ^ 8) with 256 in *. split; [lia|]. split; [apply Z.div_pos; lia|apply Z.div_lt_upper_bound; lia].
Qed.

Definition no_digit (s : list Z) : Prop := match s with c :: _ => IS_DIGIT c = false | [] => True end.
Lemma addr_number_digits d r acc : Forall (fun c => IS_DIGIT c = true) d -> no_digit r ->
  (match r with c :: _ => 10 <= addr_digit c | [] => True end) -> addr_number 10 (d ++ r) acc = (digits_value d acc, r).
Proof.
  intros Hd Hr Hr'. revert acc. induction d as [|c d IH]; intros acc; cbn [app].
  - destruct r as [|c r]; [done|]. cbn [addr_number]. destruct (Z.ltb_spec (addr_digit c) 10); [lia|done].
  - inversion_clear Hd as [|? ? Hc Hd']. cbn [addr_number digits_value]. unfold addr_digit at 1 2. rewrite Hc.
    pose proof (IS_DIGIT_range _ Hc). destruct (Z.ltb_spec (c - 48) 10); [|lia]. by apply IH.
Qed.
Lemma byte_text b : byte_ok b ->
  Forall (fun c => IS_DIGIT c = true) (ToString b) /\ digits_value (ToString b) 0 = b /\ (length (ToString b) <= 3)%nat /\
  exists c t, ToString b = c :: t /\ (c = 48 -> b = 0 /\ t = []).
Proof.
  intros Hb. assert (E : ToString b = dec b) by (unfold ToString; destruct (Z.ltb_spec b 0); [destruct Hb; lia|done]).
  destruct (dec_spec b ltac:(destruct Hb; lia)) as (Hne & Hd & Hv). rewrite E. repeat split; [done..| |].
  - rewrite <- E. pose proof (ToString_length b 2). destruct (Z.ltb_spec b 0), Hb; cbn in *; lia.
  - pose proof (forall_bytes (fun b => match dec b with 48 :: [] => b =? 0 | 48 :: _ => false | _ => true end) eq_refl b Hb) as F.
    cbn beta in F. destruct (dec b) as [|c t]; [done|]. exists c, t. split; [done|]. intros ->. destruct t; [|done]. split; [lia|done].
Qed.
Lemma strtoul_decimal c t : c <> 48 -> strtoul (c :: t) = addr_number 10 (c :: t) 0.
Proof. intros Hc. unfold strtoul. destruct c as [|p|p]; try done. do 6 (try destruct p as [p|p|]; try done). Qed.
Lemma strtoul_byte b r : byte_ok b -> r = [] \/ (exists r', r = 46 :: r') -> strtoul (ToString b ++ r) = (b, r).
Proof.
  intros Hb Hr. destruct (byte_text b Hb) as (Hd & Hv & _ & c & t & Et & H0).
  assert (addr_number 10 (ToString b ++ r) 0 = (b, r)) as En.
  { rewrite addr_number_digits; [by rewrite Hv|done| |]; destruct Hr as [->|[r' ->]]; cbn; [done..|lia]. }
  destruct (decide (c = 48)) as [->|Hc].
  - destruct (H0 eq_refl) as [-> ->]. rewrite Et. by destruct Hr as [->|[[|? [|? ?]] ->]].
  - rewrite Et in *. cbn [app] in *. rewrite <- En. by apply strtoul_decimal.
Qed.
Lemma inet_part k word place b r : byte_ok b ->
  inet_parts (S k) word place (ToString b ++ 46 :: r) = inet_parts k (word + b * 2 ^ place) (place + 8) r.
Proof.
  intros Hb. pose proof (strtoul_byte b (46 :: r) Hb ltac:(by right; exists r)) as Es.
  destruct (byte_text b Hb) as (Hd & _ & _ & c & t & Et & _). rewrite Et in *. inversion_clear Hd as [|? ? Hc _].
  cbn [app] in *. cbn [inet_parts]. rewrite Hc, Es. cbn [negb]. unfold INADDR_NONE.
  destruct Hb, (Z.ltb_spec 4294967295 b); [lia|]. rewrite Z.eqb_refl. by destruct (Z.ltb_spec 255 b); [lia|].
Qed.
Lemma inet_last word place b : byte_ok b -> 0 <= word < 2 ^ 24 ->
  inet_parts 0 word place (ToString b) = Some (word + b * 2 ^ 24).
Proof.
  intros Hb Hw. pose proof (strtoul_byte b [] Hb ltac:(by left)) as Es. rewrite app_nil_r in Es.
  destruct (byte_text b Hb) as (Hd & _ & _ & c & t & Et & _). rewrite Et in *. inversion_clear Hd as [|? ? Hc _].
  cbn [inet_parts]. rewrite Hc, Es. cbn [negb]. unfold INADDR_NONE. destruct Hb, (Z.ltb_spec 4294967295 b); [lia|].
  change (2 ^ (8 * (Z.of_nat 0 + 1))) with 256. destruct (Z.ltb_spec b 256); [|lia]. f_equal.
  replace (htonl b) with (Z.shiftl b 24).
  - rewrite Z.lor_comm, lor_shiftl_add by lia. lia.
  - rewrite Z.shiftl_mul_pow2 by lia. unfold htonl. rewrite (Z.mod_small b) by lia.
    rewrite (Z.div_small b (2 ^ 8)), (Z.div_small b (2 ^ 16)), (Z.div_small b (2 ^ 24)) by lia. change (0 mod 256) with 0. lia.
Qed.
Lemma inet_addr_ntoa a : 0 <= a < 2 ^ 32 -> inet_parts 3 0 0 (inet_ntoa a) = Some a.
Proof.
  intros Ha. destruct (four_bytes a Ha) as [Ea Hh].
  pose proof (Z.mod_pos_bound a 256 ltac:(lia)). pose proof (Z.mod_pos_bound (a / 2 ^ 8) 256 ltac:(lia)).
  pose proof (Z.mod_pos_bound (a / 2 ^ 16) 256 ltac:(lia)).
  unfold inet_ntoa. rewrite !inet_part by done. rewrite inet_last; [|done|].
  - f_equal. rewrite Ea at 5. lia.
  - cbn [Z.add]. change (0 + 8) with 8. change (0 + 8 + 8) with 16. change (8 + 8) with 16. change (2 ^ 0) with 1. lia.
Qed.

Lemma ntoa_text a : 0 <= a < 2 ^ 32 ->
  Forall (fun c => IS_DIGIT c = true \/ c = 46) (inet_ntoa a) /\ (length (inet_ntoa a) <= 15)%nat /\ inet_ntoa a <> [].
Proof.
  intros Ha. destruct (four_bytes a Ha) as [_ Hh]. unfold inet_ntoa.
  destruct (byte_text (a mod 256)) as (D1 & _ & L1 & c & t & E1 & _); [apply Z.mod_pos_bound; lia|].
  destruct (byte_text (a / 2 ^ 8 mod 256)) as (D2 & _ & L2 & _); [apply Z.mod_pos_bound; lia|].
  destruct (byte_text (a / 2 ^ 16 mod 256)) as (D3 & _ & L3 & _); [apply Z.mod_pos_bound; lia|].
  destruct (byte_text (a / 2 ^ 24) Hh) as (D4 & _ & L4 & _).
  assert (forall l, Forall (fun c => IS_DIGIT c = true) l -> Forall (fun c => IS_DIGIT c = true \/ c = 46) l) as W
    by (intros l Hl; eapply Forall_impl; [exact Hl|by left]).
  repeat split.
  - repeat (first [apply Forall_app; split|apply Forall_cons; split]); eauto.
  - rewrite !length_app. cbn [length]. rewrite !length_app. cbn [length]. rewrite !length_app. cbn [length]. lia.
  - by rewrite E1.
Qed.
(** An address built from an udp endpoint holds whatever was there before. *)
Lemma InetAddress_udp_unset `{Resolver} unset e a : InetAddress_udp unset e = Ret a -> a = unset.
Proof. unfold InetAddress_udp. destruct (InetAddress_at _ _); cbn; congruence. Qed.
Lemma ip_port_text a : addr_ok a -> ToIpPort a = inet_ntoa (s_addr a) ++ 58 :: ToString (htons (sin_port a)).
Proof.
  intros (_ & Hp & Ha). unfold ToIpPort, ToIp. destruct (ntoa_text _ Ha) as (_ & L & _). destruct (htons_htons _ Hp) as [_ Hh].
  pose proof (ToString_length (htons (sin_port a)) 4) as Lp. destruct (Z.ltb_spec (htons (sin_port a)) 0); [lia|].
  apply firstn_all2. rewrite length_app. cbn [length]. cbn in Lp. lia.
Qed.
Lemma Strtok_chars sep p s cur : Forall (fun c => c <> sep) p -> Strtok_from sep (p ++ s) cur = Strtok_from sep s (cur ++ p).
Proof.
  revert cur. induction p as [|c p IH]; intros cur Hp; [by rewrite app_nil_r|]. inversion_clear Hp as [|? ? Hc Hp'].
  cbn [app Strtok_from]. destruct (Z.eqb_spec c sep); [done|]. rewrite IH by done. by rewrite <- app_assoc.
Qed.
Lemma Strtok_ip_port a : addr_ok a -> Strtok (ToIpPort a) 58 = [inet_ntoa (s_addr a); ToString (htons (sin_port a))].
Proof.
  intros Hok. rewrite ip_port_text by done. destruct Hok as (_ & Hp & Ha). destruct (ntoa_text _ Ha) as (T & _ & Hne).
  unfold Strtok. rewrite Strtok_chars.
  - cbn [app Strtok_from]. rewrite Z.eqb_refl. destruct (inet_ntoa (s_addr a)); [done|]. f_equal.
    rewrite <- (app_nil_r (ToString _)). rewrite Strtok_chars; [by rewrite app_nil_r|].
    eapply Forall_impl; [apply ToString_chars|]. cbn. intros c [E|E] ->; done.
  - eapply Forall_impl; [exact T|]. cbn. intros c [E|E] ->; done.
Qed.
Lemma inet_addr_ToIp a : addr_ok a -> inet_addr (ToIp a) = s_addr a.
Proof.
  intros (_ & _ & Ha). unfold inet_addr, ToIp. rewrite c_str_no_nul; [by rewrite inet_addr_ntoa|].
  eapply Forall_impl; [exact (proj1 (ntoa_text _ Ha))|]. cbn. intros c [E|E] ->; done.
Qed.

(** C32. The text of an address gives the address back: "ip:port" by the
    constructor from a string, the ip alone by the constructor with a port, and
    an asio endpoint by its own; no name is looked up.  So two addresses compare
    equal, which the code decides by their texts, exactly if they are.  The only
    address without the round trip is 255.255.255.255, which [inet_addr] cannot
    tell from a failure. *)
Theorem InetAddress_roundtrip `{Resolver} a : addr_ok a ->
  (s_addr a <> INADDR_NONE -> InetAddress_of (ToIpPort a) = Ret a /\ InetAddress_at (ToIp a) (GetPort a) = Ret a) /\
  InetAddress_tcp (tcp_endpoint a) = a /\
  (forall b, addr_ok b -> InetAddress_eq a b = true <-> a = b).
Proof.
  intros Hok. pose proof (inet_addr_ToIp a Hok) as Ei. pose proof Hok as (Hf & Hp & Ha). destruct (htons_htons _ Hp) as [Eh Hh].
  assert (forall w, s_addr a <> INADDR_NONE -> Resolve (ToIp a) w = Ret (true, mkSockaddr AF_INET (sin_port w) (s_addr a), None)) as R.
  { intros w Hn. unfold Resolve. rewrite Ei. change (htonl INADDR_NONE) with INADDR_NONE. by destruct (Z.eqb_spec (s_addr a) INADDR_NONE). }
  split; [intros Hn; split|split].
  - unfold InetAddress_of. rewrite Strtok_ip_port by done. fold (ToIp a). rewrite R by done. cbn.
    unfold Stoui. rewrite Stoui_loop_ToString, wrap_small, Eh by lia. by destruct a; cbn in *; subst.
  - unfold InetAddress_at. rewrite R by done. unfold GetPort. cbn. rewrite Eh. by destruct a; cbn in *; subst.
  - unfold InetAddress_tcp, tcp_endpoint. cbn. rewrite Ei, Eh. by destruct a; cbn in *; subst.
  - intros b Hb. unfold InetAddress_eq. rewrite bool_decide_eq_true. split; [|by intros ->]. intros E.
    pose proof (Strtok_ip_port a Hok) as Ea. rewrite E, Strtok_ip_port in Ea by done. injection Ea as E1 E2.
    pose proof (inet_addr_ToIp b Hb) as Eb. unfold ToIp in *. rewrite E1 in Eb. destruct Hb as (Hfb & Hpb & Hab).
    destruct (htons_htons _ Hpb) as [Ehb Hhb]. assert (htons (sin_port b) = htons (sin_port a)) as Es.
    { rewrite <- (Stoui_loop_ToString 32 (htons (sin_port b))), E2 by lia. apply Stoui_loop_ToString; lia. }
    destruct a, b; cbn in *. congruence.
Qed.

(** ** Sending a whole buffer *)

Lemma sent_app l l' : sent (l ++ l') = sent l ++ sent l'.
Proof. unfold sent. by rewrite map_app, concat_app. Qed.

Section SendFacts.
Context `{HB : Bsd}.
(** One round of the loop; [after] is the state a call leaves. *)
Definition after (c : syscall) (o : Os) : Os :=
  let '(r, k) := perform c (kernel o) in mkOs (if r_ret r =? -1 then r_errno r else errno o) (calls o ++ [(c, r)]) k.
Definition answer (c : syscall) (o : Os) : reply := (perform c (kernel o)).1.
Lemma call_run c o : call c o = Ret (answer c o, after c o).
Proof. unfold call, answer, after. by destruct (perform c (kernel o)). Qed.
Lemma sys_call c (s : Socket) o : sys (call c) (s, o) = Ret (answer c o, (s, after c o)).
Proof. unfold sys, zoom. cbn [snd fst]. by rewrite call_run. Qed.
Lemma calls_after c o : calls (after c o) = calls o ++ [(c, answer c o)].
Proof. unfold after, answer. by destruct (perform c (kernel o)). Qed.
Lemma SendComplete_round f data s o : data <> [] ->
  let c := c_send (handle_ s) data in let n := r_ret (answer c o) in
  SendComplete (S f) data (s, o) =
    if 0 <? n then SendComplete f (skipn (Z.to_nat n) data) (s, after c o)
    else if IsNomralError (errno (after c o)) then SendComplete f data (s, after (c_usleep 10000) (after c o))
    else Ret (false, (s, after c o)).
Proof.
  intros Hne c n. destruct data as [|x data]; [done|]. cbn [SendComplete]. unfold Send, bind, this, ret. cbn [obind fst snd].
  rewrite sys_call. cbn [obind fst snd]. fold c. fold n. destruct (0 <? n); [done|]. cbn [obind fst snd sys zoom error_code].
  destruct (IsNomralError (errno (after c o))); [|done]. unfold Sleep. change (wrap 32 (10 * 1000)) with 10000.
  by rewrite sys_call.
Qed.
Definition sends_only (s : Socket) (l : list (syscall * reply)) : Prop :=
  Forall (fun e : syscall * reply => match e.1 with c_send fd _ => fd = handle_ s | c_usleep u => u = 10000 | _ => False end) l.

Lemma SendComplete_sound `{!BsdLaws} fuel rest s o b w' : SendComplete fuel rest (s, o) = Ret (b, w') ->
  exists new left, w'.1 = s /\ calls w'.2 = calls o ++ new /\ sends_only s new /\
    rest = sent new ++ left /\ (b = true <-> left = []) /\ (b = false -> IsNomralError (errno w'.2) = false).
Proof.
  revert rest o. induction fuel as [|f IH]; intros rest o E; (destruct (decide (rest = [])) as [->|Hne];
    [injection E as <- <-; exists [], []; rewrite app_nil_r; by repeat constructor|]); [by destruct rest|].
  rewrite SendComplete_round in E by done. cbv zeta in E. set (c := c_send (handle_ s) rest) in *. set (n := r_ret (answer c o)) in *.
  assert (-1 <= n <= Z.of_nat (length rest)) as T by apply (perform_takes c (kernel o)).
  assert (sent [(c, answer c o)] = firstn (Z.to_nat n) rest) as Es by apply app_nil_r. destruct (Z.ltb_spec 0 n).
  - apply IH in E as (new & left & -> & Ec & Hs & Er & Hb & He). exists ((c, answer c o) :: new), left. rewrite calls_after in Ec.
    split; [done|]. split; [by rewrite Ec, <- app_assoc|]. split; [by constructor|]. split; [|done].
    change (sent ((c, answer c o) :: new)) with (sent ([(c, answer c o)] ++ new)). by rewrite sent_app, Es, <- app_assoc, <- Er, firstn_skipn.
  - replace (Z.to_nat n) with 0%nat in Es by lia. destruct (IsNomralError (errno (after c o))) eqn:En.
    + apply IH in E as (new & left & -> & Ec & Hs & Er & Hb & He). rewrite !calls_after in Ec.
      eexists ((c, answer c o) :: (c_usleep 10000, _) :: new), left. split; [done|].
      split; [by rewrite Ec, <- !app_assoc|]. split; [by repeat constructor|]. split; [|done].
      change (sent (_ :: (c_usleep 10000, ?r) :: new)) with (sent ([(c, answer c o)] ++ new)). by rewrite sent_app, Es.
    + injection E as <- <-. exists [(c, answer c o)], rest. cbn [fst snd]. rewrite Es, calls_after. repeat split; try done. by repeat constructor.
Qed.

(** A peer that takes something of every buffer, but may refuse [patience]
    times on the way. *)
Record Progress (patience : os_state -> nat) : Prop := {
  pr_takes : forall fd data k r k', data <> [] -> perform (c_send fd data) k = (r, k') ->
    0 < r_ret r /\ (patience k' <= patience k)%nat \/ r_ret r = -1 /\ IsNomralError (r_errno r) = true /\ (patience k' < patience k)%nat;
  pr_sleep : forall u k r k', perform (c_usleep u) k = (r, k') -> (patience k' <= patience k)%nat
}.
Lemma SendComplete_ends patience fuel rest s o : Progress patience ->
  (length rest + patience (kernel o) <= fuel)%nat -> exists w', SendComplete fuel rest (s, o) = Ret (true, w').
Proof.
  intros [P1 P2]. revert rest o. induction fuel as [|f IH]; intros rest o Hf; (destruct (decide (rest = [])) as [->|Hne]; [by eexists|]).
  { destruct rest; [done|cbn in Hf; lia]. }
  rewrite SendComplete_round by done. cbv zeta. set (c := c_send (handle_ s) rest).
  assert (0 < length rest)%nat by (destruct rest; [done|cbn; lia]).
  specialize (P1 (handle_ s) rest (kernel o)). fold c in P1. unfold answer, after at 1 2.
  destruct (perform c (kernel o)) as [r k] eqn:E. cbn [fst errno].
  destruct (P1 _ _ Hne eq_refl) as [[Hp Hk]|(Hr & Hn & Hk)].
  - destruct (Z.ltb_spec 0 (r_ret r)); [|lia]. apply IH. cbn. rewrite length_skipn. lia.
  - rewrite Hr. cbn [Z.ltb Z.compare]. change (-1 =? -1) with true. cbn iota. rewrite Hn. apply IH.
    specialize (P2 10000 k). unfold after. rewrite ?E. cbn [kernel]. destruct (perform _ k) as [r' k']. specialize (P2 _ _ eq_refl). cbn. lia.
Qed.

(** C31. [SendComplete] sends the buffer and nothing else: all its calls are
    sends on its own descriptor and pauses of 10 ms, what the sends took is a
    prefix of the buffer, the whole of it exactly if the result is true, and a
    false result comes with an error that is not a passing one.  Against a peer
    that takes something of each buffer and refuses a bounded number of times it
    returns, with true, within a round for each byte and each refusal. *)
Theorem SendComplete_sends `{!BsdLaws} fuel buffer s o :
  (forall b w', SendComplete fuel buffer (s, o) = Ret (b, w') ->
     exists new left, w'.1 = s /\ calls w'.2 = calls o ++ new /\ sends_only s new /\
       buffer = sent new ++ left /\ (b = true <-> left = []) /\ (b = false -> IsNomralError (errno w'.2) = false)) /\
  (forall patience, Progress patience -> (length buffer + patience (kernel o) <= fuel)%nat ->
     exists w', SendComplete fuel buffer (s, o) = Ret (true, w')).
Proof. split; [intros b w'; apply SendComplete_sound|intros patience; apply SendComplete_ends]. Qed.
End SendFacts.

(** ** The descriptors a socket owns *)
Section Descriptors.
Context `{HB : Bsd}.

Lemma bind_sys {A} c (k : reply -> SM A) (s : Socket) o : bind (sys (call c)) k (s, o) = k (answer c o) (s, after c o).
Proof. apply bind_ret_run, sys_call. Qed.
Lemma bind_this {A} (k : Socket -> SM A) (s : Socket) (o : Os) : bind this k (s, o) = k s (s, o).
Proof. done. Qed.
Lemma bind_upd {A} f (k : unit -> SM A) (s : Socket) (o : Os) : bind (upd f) k (s, o) = k tt (f s, o).
Proof. done. Qed.
Lemma bind_ret_l {A B} (a : A) (k : A -> SM B) w : bind (ret a) k w = k a w.
Proof. done. Qed.
Lemma bind_bind {A B C} (m : SM A) (f : A -> SM B) (k : B -> SM C) w : bind (bind m f) k w = bind m (fun a => bind (f a) k) w.
Proof. unfold bind. by destruct (m w). Qed.

(** Runs the calls of a socket method one by one. *)
Ltac run_socket := repeat (rewrite ?bind_bind, ?bind_this, ?bind_sys, ?bind_upd; cbv beta; cbn [handle_ set_handle set_local]).

(** Ends one: what it returned, and the calls it made. *)
Ltac run_done := run_socket; do 4 eexists; split; [reflexivity|]; split; [reflexivity|]; split; [reflexivity|];
  split; [rewrite !calls_after, <- ?app_assoc; reflexivity|cbn [app]; repeat (apply Forall_cons; split; [exact I|]); by apply Forall_nil].

Lemma bind_and_name_run address reuse s o : IsValid s = true ->
  exists b s' o' new, bind_and_name address reuse (s, o) = Ret (b, (s', o')) /\ handle_ s' = handle_ s /\ m_nSerailNumber s' = m_nSerailNumber s /\
    calls o' = calls o ++ new /\ Forall quiet new.
Proof.
  intros V. unfold bind_and_name, SetReuse, SetOption, validate. run_socket. unfold not_valid. rewrite V. cbn [negb]. run_socket.
  unfold bind at 1. cbn [ret obind fst snd]. destruct (negb _); cbn [negb].
  { run_done. }
  run_socket. destruct (_ =? ERR_VALUE); [run_done|]. run_socket. destruct (_ =? ERR_VALUE); run_done.
Qed.
Lemma SocketCreate_run type address reuse s o : IsValid s = false -> m_nSerailNumber s < 2 ^ 31 - 1 ->
  exists b s' o' new, SocketCreate type address reuse (s, o) = Ret (b, (s', o')) /\ calls o' = calls o ++ new /\
    IsValid s' = b /\ opened new = (if b then [handle_ s'] else []) /\ m_nSerailNumber s' = m_nSerailNumber s + 1.
Proof.
  intros V N. unfold SocketCreate. run_socket. rewrite V. destruct (Z.eqb_spec (m_nSerailNumber s) (2 ^ 31 - 1)) as [E|_]; [lia|].
  set (c := match type with SOCKET_TYPE_TCP => _ | SOCKET_TYPE_UDP => _ end). run_socket.
  set (r := r_ret (answer c o)). unfold set_handle. cbn [m_nType handle_ local_address_ peer_address_ m_bBlocking m_bWriteBlocked m_nSerailNumber m_bConnectBlocked m_pCustomControl].
  assert (forall new, opened ((c, answer c o) :: new) = fold_left open_step new (if r =? -1 then [] else [r])) as Eo
    by (intros new; unfold opened; cbn [fold_left]; by subst c; destruct type).
  match goal with |- context [IsValid ?t] => set (s1 := t) end. destruct (IsValid s1) eqn:V1; cbn [negb].
  - assert (r =? -1 = false) as Er by (unfold IsValid in V1; cbn in V1; by apply negb_true_iff in V1). rewrite Er in Eo.
    destruct (bind_and_name_run address reuse s1 (after c o) V1) as (b & s' & o' & new & E & Eh & En & Ec & Hq).
    rewrite (bind_ret_run _ _ _ _ _ E). rewrite calls_after in Ec. destruct b.
    + exists true, s', o', ((c, answer c o) :: new). split; [done|]. split; [by rewrite Ec, <- app_assoc|].
      split; [unfold IsValid; by rewrite Eh|]. split; [|by rewrite En]. by rewrite Eo, quiet_steps, Eh.
    + unfold Close. run_socket. eexists false, _, _, ((c, answer c o) :: new ++ [_]). split; [done|].
      split; [rewrite calls_after, Ec, <- !app_assoc; reflexivity|]. split; [done|]. split; [|by cbn; rewrite En].
      rewrite Eo, fold_left_app, (quiet_steps new), Eh by done. cbn. rewrite decide_False by (intros X; by apply X). done.
  - assert (r =? -1 = true) as Er by (unfold IsValid in V1; cbn in V1; by apply negb_false_iff in V1). rewrite Er in Eo.
    eexists false, s1, _, [_]. split; [done|]. split; [apply calls_after|]. split; [done|]. split; [|done]. by rewrite Eo.
Qed.

(** [Create] on an invalid socket always returns.  With true the socket
    holds the one descriptor the run has opened and not closed; with false,
    whichever of the calls failed, it holds none and the run leaves none open.
    Each attempt counts the serial number up. *)
Theorem Create_owns type address reuse s o : IsValid s = false -> m_nSerailNumber s < 2 ^ 31 - 1 ->
  exists b s' o' new, SocketCreate type address reuse (s, o) = Ret (b, (s', o')) /\ calls o' = calls o ++ new /\
    IsValid s' = b /\ opened new = (if b then [handle_ s'] else []) /\ m_nSerailNumber s' = m_nSerailNumber s + 1.
Proof. apply SocketCreate_run. Qed.

(** What [Accept] does with the descriptor of the new connection: nothing. *)
Lemma Accept_loses new_socket s o n o' : Accept new_socket (s, o) = Ret ((true, n), (s, o')) ->
  exists new fd, calls o' = calls o ++ new /\ opened new = [fd] /\ handle_ n = handle_ new_socket.
Proof.
  unfold Accept. run_socket. destruct (Z.eqb_spec (r_ret (answer (c_accept (handle_ s)) o)) INVALID_HANDLE) as [_|Hv]; [done|]. run_socket.
  intros E. eexists [_; _; _], (r_ret (answer (c_accept (handle_ s)) o)).
  injection E as E1 E2. rewrite <- E2, !calls_after, <- !app_assoc. split; [done|]. split.
  - cbn. destruct (Z.eqb_spec (r_ret (answer (c_accept (handle_ s)) o)) (-1)); done.
  - rewrite <- E1. by repeat case_match.
Qed.
(** [Connect] with a timeout answers true as soon as the socket could be made
    non-blocking, whatever [connect] said. *)
Lemma Connect_timeout_blind server ms s o : Connect_timeout server ms (s, o) =
  let c := c_ioctl_nbio (handle_ s) true in let o1 := after c o in
  if r_ret (answer c o) =? 0 then Ret (true, (set_blocking false s, after (c_connect (handle_ s) server) o1))
  else bind (SetBlocking (m_bBlocking s)) (fun _ => ret false) (s, o1).
Proof.
  unfold Connect_timeout. run_socket. unfold SetBlocking at 1. run_socket. cbn [negb]. cbv zeta. destruct (_ =? 0); run_socket; rewrite bind_ret_l; by run_socket.
Qed.
(** The one byte and the level these two pass are not what the option takes. *)
Lemma SetTcpNoDelay_call on s o : SetTcpNoDelay on (s, o) =
  Ret (tt, (s, after (c_setsockopt (handle_ s) SOL_SOCKET TCP_NODELAY [flag on mod 256]) o)).
Proof. unfold SetTcpNoDelay. by run_socket. Qed.
End Descriptors.

(** ** A kernel for the examples

    Each send meets the next of the script: refused with [EAGAIN], or taken up
    to three bytes; every other call succeeds, with descriptor 3. *)
Definition zero_reply (r : Z) : reply := mkReply r 0 InetAddress_new [] 0 [].
#[export] Instance ScriptBsd : Bsd := {
  os_state := list bool;
  perform c k := match c with
    | c_send _ data => match k with
        | true :: k' => (mkReply (-1) EAGAIN InetAddress_new [] 0 [], k')
        | _ => (zero_reply (Z.of_nat (Nat.min 3 (length data))), tail k)
        end
    | c_socket _ _ _ | c_accept _ | c_epoll_create _ => (zero_reply 3, k)
    | _ => (zero_reply 0, k)
    end }.
#[export] Instance ScriptBsdLaws : BsdLaws.
Proof. intros c k. destruct c as [| | | | | | | | | | |fd d| | | | | | |]; try exact I. destruct k as [|[] k]; cbn [takes perform ScriptBsd fst r_ret zero_reply]; lia. Defined.
Definition script_os (l : list bool) : Os := mkOs 0 [] (l : @os_state ScriptBsd).
Definition no_resolver : Resolver := {| gethostbyname _ := None |}.
Lemma script_progress : Progress (length : os_state -> nat).
Proof.
  split; [intros fd d k r k' Hd E|by intros u k r k' [= _ <-]]. assert (0 < length d)%nat by (destruct d; [done|cbn; lia]).
  destruct k as [|[] k]; cbn [perform ScriptBsd] in E; injection E as <- <-; cbn [r_ret zero_reply tail length]; [left|right|left];
    (destruct d; [done|]; split; [cbn; lia|try (split; [done|]); cbn; lia]).
Defined.

(** 127.0.0.1:8080 is read back; the address of an udp endpoint is not. *)
Lemma InetAddress_roundtrip_witness : let a := mkSockaddr AF_INET 36895 16777343 in
  InetAddress_tcp (tcp_endpoint a) = a /\ ToIpPort a = to_bytes "127.0.0.1:8080" /\
  @InetAddress_udp no_resolver InetAddress_new (udp_endpoint a) = Ret InetAddress_new.
Proof.
  intros a. assert (addr_ok a) as Hok by (split; [done|cbn; lia]).
  split; [exact (proj1 (proj2 (@InetAddress_roundtrip no_resolver a Hok)))|by split].
Defined.
Lemma SendComplete_sends_witness : exists w', SendComplete 9 [1; 2; 3; 4; 5] (set_handle 7 Socket_new, script_os [true; false; true]) = Ret (true, w').
Proof.
  apply (proj2 (SendComplete_sends 9 [1; 2; 3; 4; 5] (set_handle 7 Socket_new) (script_os [true; false; true])) _ script_progress). cbn. lia.
Defined.
Lemma Create_owns_witness : exists b s' o' new,
  SocketCreate SOCKET_TYPE_TCP Any true (Socket_new, script_os []) = Ret (b, (s', o')) /\ calls o' = [] ++ new /\
    IsValid s' = b /\ opened new = (if b then [handle_ s'] else []) /\ m_nSerailNumber s' = 1.
Proof. apply (Create_owns SOCKET_TYPE_TCP Any true Socket_new (script_os [])); vm_compute; reflexivity. Defined.
