(* ===== verification/Async.v ===== *)
(** The asio sockets of src/utils/net.cpp and net.h: the io threads ([AsyncIo])
    and the four asynchronous sockets (tcp, acceptor, udp, ssl).

    asio is the class [Asio]: it answers a call with an error code, a count, an
    endpoint and bytes.  An asynchronous call leaves a completion behind, which
    the io thread runs later with whatever result asio hands it; the lambdas hold
    [this] and nothing keeps the object alive.  The virtual callbacks are
    recorded. *)

From S2P Require Import Prelude Strings Net Workers.

Definition ETH_MAX_PACKET_SIZE : Z := 1600.
Definition MIN (a b : Z) : Z := if a <? b then a else b.

(** ** [AsyncIo] *)

(** A thread and whether its [io_service] has been told to stop. *)
Record AsyncIoThread := mkIoThread { io_thread : Thread; io_stopped : bool }.
Record AsyncIo := mkAsyncIo { next_id_ : Z; io_threads : list AsyncIoThread; work_ : nat; io_service_ptr_ : option nat }.
Definition AsyncIo_new : AsyncIo := mkAsyncIo 0 [] 0 None.
Definition AsyncIoThread_Stop (t : AsyncIoThread) : AsyncIoThread := mkIoThread (io_thread t) true.
(** [JoinWithStop] of a thread whose [run] has been stopped: the state once
    [threadProc] has come to its end. *)
Definition JoinStopped (t : AsyncIoThread) : AsyncIoThread :=
  match Join_begin (io_thread t) with
  | None => t
  | Some u => mkIoThread (threadProc_running (threadProc_handle (threadProc_id u))) (io_stopped t)
  end.
(** The result, the error number it sets, the object, and the threads as they are left. *)
Definition AsyncIo_Close (current : Z) (io : AsyncIo) : bool * option Z * AsyncIo * list AsyncIoThread :=
  if existsb (fun t => t_id (io_thread t) =? current) (io_threads io) then (false, Some EPERM, io, [])
  else (true, None, mkAsyncIo (next_id_ io) [] (work_ io) (io_service_ptr_ io),
        map (fun t => if IsRunning (io_thread t) then JoinStopped (AsyncIoThread_Stop t) else t) (io_threads io)).
Fixpoint start_threads (ps : list pthread) (n : nat) (io : AsyncIo) (success_count : nat) : nat * AsyncIo :=
  match n, ps with
  | S k, p :: r =>
      let '(ok, t) := Thread_Start p Thread_new in
      let io := mkAsyncIo (next_id_ io) (io_threads io ++ [mkIoThread t false]) (S (work_ io)) (io_service_ptr_ io) in
      if ok then start_threads r k io (S success_count) else (success_count, io)
  | _, _ => (success_count, io)
  end.
(** [ps]: what pthread answers to each start. *)
Definition AsyncIo_Create (ps : list pthread) (current : Z) (thread_count : nat) (io : AsyncIo) : bool * AsyncIo :=
  match io_threads io with
  | _ :: _ => (false, io)
  | [] =>
      let thread_count := if Nat.eqb thread_count 0 then 2%nat else thread_count in
      let '(success_count, io) := start_threads ps thread_count io 0 in
      if negb (Nat.eqb success_count thread_count) then (false, (AsyncIo_Close current io).1.2) else (true, io)
  end.
Definition AttachServiceIo (io_service : nat) (io : AsyncIo) : AsyncIo := mkAsyncIo (next_id_ io) (io_threads io) (work_ io) (Some io_service).
(** Which service: the attached one, or that of a thread. *)
Definition GetIoService (io : AsyncIo) : outcome ((nat + nat) * AsyncIo) :=
  match io_service_ptr_ io with
  | Some s => Ret (inl s, io)
  | None =>
      let n := Z.of_nat (length (io_threads io)) in
      if n =? 0 then Undef DivideByZero
      else Ret (inr (Z.to_nat (next_id_ io mod n)), mkAsyncIo (wrap 64 (next_id_ io + 1)) (io_threads io) (work_ io) None)
  end.

(** ** asio *)

Inductive acall : Set :=
| a_open (s : nat) | a_bind (s : nat) (e : endpoint) | a_listen (s : nat) (backlog : Z) | a_close (s : nat) | a_shutdown (s : nat)
| a_connect (s : nat) (e : endpoint) | a_accept (s new : nat) | a_handshake (s : nat)
| a_no_delay (s : nat) (on : bool) | a_keep_alive (s : nat) (on : bool) | a_reuse (s : nat) (on : bool)
| a_local (s : nat) | a_remote (s : nat) | a_is_open (s : nat)
| a_write (s : nat) (data : list Z) | a_read (s : nat) (size : Z) | a_send_to (s : nat) (data : list Z) (e : endpoint) | a_receive_from (s : nat) (size : Z)
| a_resolve (name : list Z).
Record areply := mkAreply { ec : Z; count : Z; at_ : endpoint; read_ : list Z; found : list (bool * endpoint) }.
Class Asio := { asio_state : Type; asio_call : acall -> asio_state -> areply * asio_state }.

(** ** Objects, what is pending, and what was called back *)

(** [asio_]: its socket in asio; an acceptor remembers the socket the next
    connection goes to, one for each kind. *)
Record sock := mkSock {
  asio_ : nat; s_local : sockaddr_in; s_peer : sockaddr_in; notify_lptr_ : bool; tcpsocket_lptr_ : option nat; sslsocket_lptr_ : option nat }.
Inductive completion : Set :=
| SendDone (this : nat) | ReceiveDone (this : nat) (size : Z) | TcpConnectDone (this : nat) | SslConnectDone (this : nat)
| AcceptTcpDone (this : nat) | AcceptSslDone (this : nat) | SendToDone (this : nat) | ReceiveFromDone (this : nat) (size : Z) | HandShakeDone (this : nat).
Inductive event : Set :=
| OnConnect (this : nat) | OnSend (this : nat) (bytes_transferred : Z) | OnReceive (this : nat) (buffer : list Z) (bytes_transferred : Z)
| OnReceiveFrom (this : nat) (buffer : list Z) (bytes_transferred : Z) (address : sockaddr_in)
| OnError (this : nat) | OnAccept (this : nat) | OnHandShake (this : nat).

Section AsyncSockets.
Context `{HA : Asio} `{HR : Resolver}.
Record World := mkWorld { objects : gmap nat sock; pending : list completion; events : list event; err : Z; asio_log : list acall; asio : asio_state }.
Definition AM := M World.

Definition set_objects (m : gmap nat sock) : AM unit := modify (fun w => mkWorld m (pending w) (events w) (err w) (asio_log w) (asio w)).
Definition notify (e : event) : AM unit := modify (fun w => mkWorld (objects w) (pending w) (events w ++ [e]) (err w) (asio_log w) (asio w)).
(** Starts an asynchronous call and leaves its completion behind. *)
Definition expect (a : acall) (c : completion) : AM unit :=
  modify (fun w => mkWorld (objects w) (pending w ++ [c]) (events w) (err w) (asio_log w ++ [a]) (asio w)).
Definition set_err (code : Z) : AM unit := modify (fun w => mkWorld (objects w) (pending w) (events w) (wrap 32 code) (asio_log w) (asio w)).
Definition ask (c : acall) : AM areply := fun w =>
  let '(r, a) := asio_call c (asio w) in Ret (r, mkWorld (objects w) (pending w) (events w) (err w) (asio_log w ++ [c]) a).
(** The overloads of asio without an error code throw. *)
Definition ask_throw (c : acall) : AM areply := let! r := ask c in if ec r =? 0 then ret r else lift Throw.
Definition obj (this : nat) : AM sock := fun w => match objects w !! this with Some s => Ret (s, w) | None => Undef DanglingIterator end.
Definition put (this : nat) (s : sock) : AM unit := let! w := get in set_objects (<[this := s]> (objects w)).
Definition with_local (a : sockaddr_in) (s : sock) : sock := mkSock (asio_ s) a (s_peer s) (notify_lptr_ s) (tcpsocket_lptr_ s) (sslsocket_lptr_ s).
Definition with_peer (a : sockaddr_in) (s : sock) : sock := mkSock (asio_ s) (s_local s) a (notify_lptr_ s) (tcpsocket_lptr_ s) (sslsocket_lptr_ s).
Definition change (this : nat) (f : sock -> sock) : AM unit := let! s := obj this in put this (f s).
Definition sock_new (a : nat) (notify_ptr : bool) : sock := mkSock a InetAddress_new InetAddress_new notify_ptr None None.

(** ** [AsyncSocketTcp] *)

Definition Tcp_SendSome (this : nat) (buffer : list Z) : AM Z :=
  let! s := obj this in let! r := ask (a_write (asio_ s) buffer) in ret (count r).
Definition Tcp_AsyncSendSome (this : nat) (buffer : list Z) : AM Z :=
  let! s := obj this in do! expect (a_write (asio_ s) buffer) (SendDone this) in ret 0.
Definition Tcp_Bind (this : nat) (address : sockaddr_in) : AM bool :=
  let! s := obj this in
  let! r := ask (a_open (asio_ s)) in
  if negb (ec r =? 0) then ret false else
  let! r := ask (a_bind (asio_ s) (tcp_endpoint address)) in
  if negb (ec r =? 0) then ret false else
  let! l := ask_throw (a_local (asio_ s)) in
  do! change this (with_local (InetAddress_tcp (at_ l))) in
  do! set_err (ec r) in ret true.
Definition Tcp_Close (this : nat) : AM bool :=
  let! s := obj this in
  do! ask (a_shutdown (asio_ s)) in
  let! r := ask (a_close (asio_ s)) in
  do! set_err (ec r) in ret true.
Definition Tcp_IsValid (this : nat) : AM bool := let! s := obj this in let! r := ask (a_is_open (asio_ s)) in ret (negb (count r =? 0)).
Definition Tcp_SetTcpNoDelay (this : nat) (on : bool) : AM bool :=
  let! s := obj this in let! r := ask (a_no_delay (asio_ s) on) in ret (ec r =? 0).
(** The argument is not used. *)
Definition Tcp_SetKeepAlive (this : nat) (on : bool) : AM bool :=
  let! s := obj this in let! r := ask (a_keep_alive (asio_ s) true) in ret (ec r =? 0).
Definition Tcp_SetReuse (this : nat) (on : bool) : AM bool := ret true.
Definition Tcp_Connect (this : nat) (server : sockaddr_in) : AM bool :=
  let! s := obj this in let! r := ask (a_connect (asio_ s) (tcp_endpoint server)) in ret (ec r =? 0).
Definition Tcp_AsyncConnect (this : nat) (server : sockaddr_in) : AM bool :=
  do! change this (with_peer server) in
  let! s := obj this in
  do! expect (a_connect (asio_ s) (tcp_endpoint server)) (TcpConnectDone this) in ret true.
Definition Tcp_ReceiveSome (this : nat) (size : Z) : AM (Z * list Z) :=
  let! s := obj this in let! r := ask_throw (a_read (asio_ s) size) in ret (count r, read_ r).
Definition Tcp_AsyncReceiveSome (this : nat) (max_size : Z) : AM Z :=
  let! s := obj this in
  let size := MIN max_size ETH_MAX_PACKET_SIZE in
  do! expect (a_read (asio_ s) size) (ReceiveDone this size) in ret 0.

(** ** [AsyncSocketAcceptor] *)

Definition Acceptor_SetReuse (this : nat) (on : bool) : AM bool :=
  let! s := obj this in let! r := ask (a_reuse (asio_ s) on) in ret (ec r =? 0).
Definition Acceptor_Bind (this : nat) (address : sockaddr_in) : AM bool :=
  let! s := obj this in
  let! r := ask (a_open (asio_ s)) in
  if negb (ec r =? 0) then ret false else
  do! Acceptor_SetReuse this true in
  let! r := ask (a_bind (asio_ s) (tcp_endpoint address)) in
  if negb (ec r =? 0) then ret false else
  let! l := ask_throw (a_local (asio_ s)) in
  do! change this (with_local (InetAddress_tcp (at_ l))) in
  do! set_err (ec r) in ret true.
Definition Acceptor_Close (this : nat) : AM bool :=
  let! s := obj this in
  let! r := ask (a_close (asio_ s)) in
  do! set_err (ec r) in ret (ec r =? 0).
Definition Acceptor_IsValid (this : nat) : AM bool := let! s := obj this in let! r := ask (a_is_open (asio_ s)) in ret (negb (count r =? 0)).
Definition Listen_async (this : nat) (back_log : Z) : AM bool :=
  let! s := obj this in let! r := ask (a_listen (asio_ s) back_log) in ret (ec r =? 0).
Definition Acceptor_Accept (this new_socket : nat) : AM bool :=
  let! s := obj this in
  let! n := obj new_socket in
  let! r := ask (a_accept (asio_ s) (asio_ n)) in
  if negb (ec r =? 0) then ret false else
  let! p := ask_throw (a_remote (asio_ n)) in
  do! change new_socket (with_peer (InetAddress_tcp (at_ p))) in
  let! l := ask_throw (a_local (asio_ n)) in
  do! change new_socket (with_local (InetAddress_tcp (at_ l))) in
  ret true.
Definition AsyncAccept_Tcp (this new_socket : nat) : AM bool :=
  let! s := obj this in
  do! put this (mkSock (asio_ s) (s_local s) (s_peer s) (notify_lptr_ s) (Some new_socket) (sslsocket_lptr_ s)) in
  do! change new_socket (with_local (s_local s)) in
  let! n := obj new_socket in
  do! expect (a_accept (asio_ s) (asio_ n)) (AcceptTcpDone this) in ret true.
Definition AsyncAccept_Ssl (this new_socket : nat) : AM bool :=
  let! s := obj this in
  do! put this (mkSock (asio_ s) (s_local s) (s_peer s) (notify_lptr_ s) (tcpsocket_lptr_ s) (Some new_socket)) in
  do! change new_socket (with_local (s_local s)) in
  let! n := obj new_socket in
  do! expect (a_accept (asio_ s) (asio_ n)) (AcceptSslDone this) in ret true.
Definition Acceptor_OnAccept (this : nat) : AM unit := let! s := obj this in if notify_lptr_ s then notify (OnAccept this) else ret tt.
Definition Acceptor_OnError (this : nat) : AM unit := let! s := obj this in if notify_lptr_ s then notify (OnError this) else ret tt.
Definition Acceptor_delete (this : nat) : AM unit :=
  let! open := Acceptor_IsValid this in
  do! (if open then Acceptor_Close this else ret true) in
  let! w := get in set_objects (delete this (objects w)).

(** ** [AsyncSocketUdp] *)

Definition Udp_Bind (this : nat) (address : sockaddr_in) : AM bool :=
  let! s := obj this in
  let! r := ask (a_open (asio_ s)) in
  if negb (ec r =? 0) then ret false else
  let! r := ask (a_bind (asio_ s) (udp_endpoint address)) in
  if negb (ec r =? 0) then ret false else
  let! l := ask_throw (a_local (asio_ s)) in
  let! a := lift (InetAddress_udp InetAddress_new (at_ l)) in
  do! change this (with_local a) in
  do! set_err (ec r) in ret true.
Definition Udp_Close (this : nat) : AM bool := let! s := obj this in let! r := ask (a_close (asio_ s)) in ret (ec r =? 0).
Definition Udp_IsValid (this : nat) : AM bool := let! s := obj this in let! r := ask (a_is_open (asio_ s)) in ret (negb (count r =? 0)).
Definition Udp_SetKeepAlive (this : nat) (on : bool) : AM bool := ret true.
Definition Udp_SetReuse (this : nat) (on : bool) : AM bool := ret true.
Definition Udp_SendTo (this : nat) (buffer : list Z) (address : sockaddr_in) : AM Z :=
  let! s := obj this in let! r := ask (a_send_to (asio_ s) buffer (udp_endpoint address)) in ret (count r).
Definition Udp_AsyncSendTo (this : nat) (buffer : list Z) (address : sockaddr_in) : AM Z :=
  let! s := obj this in do! expect (a_send_to (asio_ s) buffer (udp_endpoint address)) (SendToDone this) in ret 0.
(** [address] is assigned an address built from the sender's endpoint; [unset]
    is what the memory of that temporary held. *)
Definition Udp_ReceiveFrom (this : nat) (size : Z) (unset : sockaddr_in) : AM (Z * list Z * sockaddr_in) :=
  let! s := obj this in
  let! r := ask (a_receive_from (asio_ s) size) in
  let! address := lift (InetAddress_udp unset (at_ r)) in ret (count r, read_ r, address).
Definition Udp_AsyncReceiveFrom (this : nat) (max_size : Z) : AM Z :=
  let! s := obj this in
  let size := MIN max_size ETH_MAX_PACKET_SIZE in
  do! expect (a_receive_from (asio_ s) size) (ReceiveFromDone this size) in ret 0.
Definition Udp_delete (this : nat) : AM unit :=
  let! open := Udp_IsValid this in
  do! (if open then Udp_Close this else ret true) in
  let! w := get in set_objects (delete this (objects w)).

(** ** [AsyncSocketSsl] *)

(** [write_some] and [handshake] of the stream, the rest of its lowest layer. *)
Definition Ssl_SendSome (this : nat) (buffer : list Z) : AM Z :=
  let! s := obj this in let! r := ask_throw (a_write (asio_ s) buffer) in ret (count r).
Definition Ssl_AsyncSendSome (this : nat) (buffer : list Z) : AM Z :=
  let! s := obj this in do! expect (a_write (asio_ s) buffer) (SendDone this) in ret 0.
Definition Ssl_Bind (this : nat) (address : sockaddr_in) : AM bool :=
  let! s := obj this in
  let! r := ask (a_open (asio_ s)) in
  if negb (ec r =? 0) then ret false else
  let! r := ask (a_bind (asio_ s) (tcp_endpoint address)) in
  if negb (ec r =? 0) then ret false else
  let! l := ask_throw (a_local (asio_ s)) in
  do! change this (with_local (InetAddress_tcp (at_ l))) in
  do! set_err (ec r) in ret true.
Definition Ssl_Close (this : nat) : AM bool := let! s := obj this in let! r := ask (a_close (asio_ s)) in ret (ec r =? 0).
Definition Ssl_IsValid (this : nat) : AM bool := let! s := obj this in let! r := ask (a_is_open (asio_ s)) in ret (negb (count r =? 0)).
Definition Ssl_SetTcpNoDelay (this : nat) (on : bool) : AM bool :=
  let! s := obj this in let! r := ask (a_no_delay (asio_ s) on) in ret (ec r =? 0).
Definition Ssl_SetKeepAlive (this : nat) (on : bool) : AM bool :=
  let! s := obj this in let! r := ask (a_keep_alive (asio_ s) true) in ret (ec r =? 0).
Definition Ssl_SetReuse (this : nat) (on : bool) : AM bool := ret true.
Definition Ssl_Connect (this : nat) (server : sockaddr_in) : AM bool :=
  let! s := obj this in let! r := ask (a_connect (asio_ s) (tcp_endpoint server)) in ret (ec r =? 0).
Definition HandShake (this : nat) : AM bool := let! s := obj this in let! r := ask (a_handshake (asio_ s)) in ret (ec r =? 0).
Definition Ssl_AsyncConnect (this : nat) (server : sockaddr_in) : AM bool :=
  do! change this (with_peer server) in
  let! s := obj this in
  do! expect (a_connect (asio_ s) (tcp_endpoint server)) (SslConnectDone this) in ret true.
Definition Ssl_ReceiveSome (this : nat) (size : Z) : AM (Z * list Z) :=
  let! s := obj this in let! r := ask (a_read (asio_ s) size) in ret (count r, read_ r).
Definition Ssl_AsyncReceiveSome (this : nat) (max_size : Z) : AM Z :=
  let! s := obj this in
  let size := MIN max_size ETH_MAX_PACKET_SIZE in
  do! expect (a_read (asio_ s) size) (ReceiveDone this size) in ret 0.
Definition AsyncHandShake (this : nat) : AM bool :=
  let! s := obj this in do! expect (a_handshake (asio_ s)) (HandShakeDone this) in ret true.
Definition Ssl_OnConnect (this : nat) : AM unit :=
  do! notify (OnConnect this) in let! s := obj this in expect (a_handshake (asio_ s)) (HandShakeDone this).
Definition Ssl_delete (this : nat) : AM unit :=
  let! open := Ssl_IsValid this in
  do! (if open then Ssl_Close this else ret true) in
  let! w := get in set_objects (delete this (objects w)).
(** A tcp socket is not closed first. *)
Definition Tcp_delete (this : nat) : AM unit := do! obj this in let! w := get in set_objects (delete this (objects w)).

(** ** Completions *)

(** The lambdas: what runs when asio completes a call with [r]. *)
Definition on_error (this : nat) (r : areply) : AM unit := do! obj this in do! set_err (ec r) in notify (OnError this).
Definition run_completion (c : completion) (r : areply) : AM unit :=
  match c with
  | SendDone this => if ec r =? 0 then do! obj this in notify (OnSend this (count r)) else on_error this r
  | ReceiveDone this _ => if ec r =? 0 then do! obj this in notify (OnReceive this (read_ r) (count r)) else on_error this r
  | TcpConnectDone this =>
      if ec r =? 0 then
        let! s := obj this in
        let! p := ask_throw (a_remote (asio_ s)) in
        do! change this (with_peer (InetAddress_tcp (at_ p))) in notify (OnConnect this)
      else on_error this r
  | SslConnectDone this =>
      if ec r =? 0 then
        let! s := obj this in
        let! p := ask_throw (a_remote (asio_ s)) in
        do! change this (with_peer (InetAddress_tcp (at_ p))) in Ssl_OnConnect this
      else on_error this r
  | AcceptTcpDone this =>
      if ec r =? 0 then
        let! s := obj this in
        match tcpsocket_lptr_ s with
        | None => lift (Undef NullDeref)
        | Some new_socket =>
            let! n := obj new_socket in
            let! p := ask_throw (a_remote (asio_ n)) in
            do! change new_socket (with_peer (InetAddress_tcp (at_ p))) in Acceptor_OnAccept this
        end
      else Acceptor_OnError this
  | AcceptSslDone this =>
      if ec r =? 0 then
        let! s := obj this in
        match sslsocket_lptr_ s with
        | None => lift (Undef Uninitialised)
        | Some new_socket =>
            let! n := obj new_socket in
            let! p := ask_throw (a_remote (asio_ n)) in
            do! change new_socket (with_peer (InetAddress_tcp (at_ p))) in Acceptor_OnAccept this
        end
      else Acceptor_OnError this
  | SendToDone this => if ec r =? 0 then do! obj this in notify (OnSend this (count r)) else ret tt
  | ReceiveFromDone this _ =>
      if ec r =? 0 then
        do! obj this in
        let! address := lift (InetAddress_udp InetAddress_new (at_ r)) in notify (OnReceiveFrom this (read_ r) (count r) address)
      else do! obj this in notify (OnError this)
  | HandShakeDone this => if ec r =? 0 then do! obj this in notify (OnHandShake this) else on_error this r
  end.
(** The io thread takes the [k]-th of what is pending, in whatever order asio completes. *)
Definition complete (k : nat) (r : areply) : AM unit := fun w =>
  match pending w !! k with
  | None => Ret (tt, w)
  | Some c => run_completion c r (mkWorld (objects w) (take k (pending w) ++ drop (S k) (pending w)) (events w) (err w) (asio_log w) (asio w))
  end.

(** ** [NameResolver]: the first address of version 4 of the answers *)

Fixpoint first_v4 (l : list (bool * endpoint)) : option endpoint :=
  match l with
  | [] => None
  | (v4, e) :: r => if v4 then Some e else first_v4 r
  end.
Definition Query (name : list Z) (l : list sockaddr_in) : AM (bool * list sockaddr_in) :=
  let! r := ask (a_resolve name) in
  match first_v4 (found r) with
  | None => ret (true, l)
  | Some e => let! a := lift (InetAddress_at (ep_address e) 0) in ret (true, l ++ [a])
  end.

(** ** Runs: what an owner of sockets does, and what the io thread does *)

Definition void {A} (m : AM A) : AM unit := do! m in ret tt.
Definition methods (this other : nat) (buffer : list Z) (size : Z) (address : sockaddr_in) (on : bool) (l : list sockaddr_in) : list (AM unit) :=
  [void (Tcp_SendSome this buffer); void (Tcp_AsyncSendSome this buffer); void (Tcp_Bind this address); void (Tcp_Close this); void (Tcp_IsValid this);
   void (Tcp_SetTcpNoDelay this on); void (Tcp_SetKeepAlive this on); void (Tcp_SetReuse this on); void (Tcp_Connect this address);
   void (Tcp_AsyncConnect this address); void (Tcp_ReceiveSome this size); void (Tcp_AsyncReceiveSome this size);
   void (Acceptor_SetReuse this on); void (Acceptor_Bind this address); void (Acceptor_Close this); void (Acceptor_IsValid this); void (Listen_async this size);
   void (Acceptor_Accept this other); void (AsyncAccept_Tcp this other); void (AsyncAccept_Ssl this other);
   void (Udp_Bind this address); void (Udp_Close this); void (Udp_IsValid this); void (Udp_SetKeepAlive this on); void (Udp_SetReuse this on); void (Udp_SendTo this buffer address);
   void (Udp_AsyncSendTo this buffer address); void (Udp_ReceiveFrom this size address); void (Udp_AsyncReceiveFrom this size);
   void (Ssl_SendSome this buffer); void (Ssl_AsyncSendSome this buffer); void (Ssl_Bind this address); void (Ssl_Close this); void (Ssl_IsValid this);
   void (Ssl_SetTcpNoDelay this on); void (Ssl_SetKeepAlive this on); void (Ssl_SetReuse this on); void (Ssl_Connect this address); void (HandShake this);
   void (Ssl_AsyncConnect this address); void (Ssl_ReceiveSome this size); void (Ssl_AsyncReceiveSome this size); void (AsyncHandShake this);
   void (Query buffer l)].
Inductive action : Set :=
| Call (i this other : nat) (buffer : list Z) (size : Z) (address : sockaddr_in) (on : bool) (l : list sockaddr_in)
| New (this : nat) (a : nat) (notify_ptr : bool)
| DeleteTcp (this : nat) | DeleteAcceptor (this : nat) | DeleteUdp (this : nat) | DeleteSsl (this : nat)
| Complete (k : nat) (r : areply).
Definition act (a : action) : AM unit :=
  match a with
  | Call i this other buffer size address on l => match methods this other buffer size address on l !! i with Some m => m | None => ret tt end
  | New this a n => put this (sock_new a n)
  | DeleteTcp this => Tcp_delete this
  | DeleteAcceptor this => Acceptor_delete this
  | DeleteUdp this => Udp_delete this
  | DeleteSsl this => Ssl_delete this
  | Complete k r => complete k r
  end.

(** The objects a completion will touch: the one whose call it was, and the
    socket an acceptor has in its member at that time. *)
Definition this_of (c : completion) : nat :=
  match c with
  | SendDone i | ReceiveDone i _ | TcpConnectDone i | SslConnectDone i | AcceptTcpDone i | AcceptSslDone i
  | SendToDone i | ReceiveFromDone i _ | HandShakeDone i => i
  end.
Definition target (w : World) (c : completion) : option nat :=
  match c with
  | AcceptTcpDone i => objects w !! i ≫= tcpsocket_lptr_
  | AcceptSslDone i => objects w !! i ≫= sslsocket_lptr_
  | _ => None
  end.
Definition alive (w : World) (i : nat) : Prop := is_Some (objects w !! i).
Definition touches (w : World) (c : completion) (i : nat) : Prop := this_of c = i \/ target w c = Some i.
(** What the owner has to keep to: methods of objects that exist, new objects at
    new places, and no deletion of an object a pending completion will touch. *)
Definition allowed (a : action) (w : World) : Prop :=
  match a with
  | Call _ this other _ _ _ _ _ => alive w this /\ alive w other
  | New this _ _ => objects w !! this = None
  | DeleteTcp this | DeleteAcceptor this | DeleteUdp this | DeleteSsl this => alive w this /\ forall c, c ∈ pending w -> ~ touches w c this
  | Complete _ _ => True
  end.
Definition ref_ok (w : World) (c : completion) : Prop :=
  alive w (this_of c) /\
  match c with AcceptTcpDone _ | AcceptSslDone _ => exists n, target w c = Some n /\ alive w n | _ => True end.
Definition live (w : World) : Prop := forall c, c ∈ pending w -> ref_ok w c.
Definition started_at (w : World) : Prop := objects w = ∅ /\ pending w = [].
Inductive run : World -> list action -> outcome World -> Prop :=
| run_nil w : run w [] (Ret w)
| run_step w a l w' o : allowed a w -> act a w = Ret (tt, w') -> run w' l o -> run w (a :: l) o
| run_stop w a l (u : outcome (unit * World)) : allowed a w -> act a w = u -> (forall p, u <> Ret p) ->
    run w (a :: l) (match u with Ret p => Ret p.2 | Throw => Throw | Undef e => Undef e | Diverge => Diverge end).

(** [safe I m]: from a state with [I], [m] ends in one or throws. *)
Definition safe {A} (I : World -> Prop) (m : AM A) : Prop :=
  forall w, I w -> match m w with Ret (_, w') => I w' | Throw => True | Undef _ | Diverge => False end.
Definition Held (T : list nat) (w : World) : Prop := live w /\ Forall (alive w) T.

Lemma safe_bind {A B} I (m : AM A) (k : A -> AM B) : safe I m -> (forall a, safe I (k a)) -> safe I (bind m k).
Proof. intros Hm Hk w Hw. specialize (Hm w Hw). unfold bind. destruct (m w) as [[a w']| | |]; cbn; try done. by apply Hk. Qed.
Lemma safe_ret {A} I (a : A) : safe I (ret a : AM A).
Proof. by intros w. Qed.
Lemma safe_frame I (f : World -> World) : (forall w, I w -> I (f w)) -> safe I (modify f).
Proof. intros Hf w Hw. by apply Hf. Qed.
Lemma safe_if {A} I (b : bool) (m n : AM A) : safe I m -> safe I n -> safe I (if b then m else n).
Proof. by destruct b. Qed.
(** What says nothing but about the objects and what is pending. *)
Definition stable (I : World -> Prop) : Prop := forall w w', objects w' = objects w -> pending w' = pending w -> I w -> I w'.
Lemma safe_notify I e : stable I -> safe I (notify e).
Proof. intros Hs. apply safe_frame. intros w. by apply Hs. Qed.
Lemma safe_set_err I c : stable I -> safe I (set_err c).
Proof. intros Hs. apply safe_frame. intros w. by apply Hs. Qed.
Lemma safe_ask I c : stable I -> safe I (ask c).
Proof. intros Hs w Hw. unfold ask. destruct (asio_call c (asio w)) as [r a]. by apply (Hs w). Qed.
Lemma safe_ask_throw I c : stable I -> safe I (ask_throw c).
Proof. intros Hs. apply safe_bind; [by apply safe_ask|]. intros r. destruct (ec r =? 0); [apply safe_ret|]. by intros w. Qed.
Lemma safe_obj I i : (forall w, I w -> alive w i) -> safe I (obj i).
Proof. intros Hi w Hw. destruct (Hi w Hw) as [s Es]. unfold obj. by rewrite Es. Qed.

Lemma ref_ok_same w w' c : objects w' = objects w -> ref_ok w c -> ref_ok w' c.
Proof. intros E. unfold ref_ok, target, alive. by rewrite E. Qed.
Lemma held_same T w w' : objects w' = objects w -> pending w' ⊆ pending w -> Held T w -> Held T w'.
Proof.
  intros E Ep [Hl Ha]. split; [intros c Hc; by apply (ref_ok_same w), Hl, Ep|].
  eapply Forall_impl; [exact Ha|]. intros i. unfold alive. by rewrite E.
Qed.
(** Objects may be changed, and lose nothing, as long as the acceptors' members stay. *)
Lemma ref_ok_put w w' i s t c : objects w !! i = Some s -> tcpsocket_lptr_ t = tcpsocket_lptr_ s -> sslsocket_lptr_ t = sslsocket_lptr_ s ->
  objects w' = <[i := t]> (objects w) -> ref_ok w c -> ref_ok w' c.
Proof.
  intros Es E1 E2 E. assert (forall j, alive w j -> alive w' j) as Hal.
  { intros j. unfold alive. rewrite E. destruct (decide (i = j)) as [->|]; [by rewrite lookup_insert_eq|by rewrite lookup_insert_ne]. }
  assert (target w' c = target w c) as Et.
  { destruct c; cbn; try done; rewrite E; (destruct (decide (i = this)) as [->|];
      [rewrite lookup_insert_eq, Es; cbn; congruence|by rewrite lookup_insert_ne]). }
  unfold ref_ok. rewrite Et. intros [Ht Hr]. split; [by apply Hal|]. destruct c; try done; destruct Hr as (n & Hn & Hn'); exists n; auto.
Qed.
Section Held.
Context (T : list nat).
Lemma held_alive w i : Held T w -> i ∈ T -> alive w i.
Proof. intros [_ Ha] Hi. rewrite Forall_forall in Ha. by apply Ha. Qed.
Lemma held_stable : stable (Held T).
Proof. intros w w' E Ep. apply held_same; [done|by rewrite Ep]. Qed.
Lemma held_put w i s t : objects w !! i = Some s -> tcpsocket_lptr_ t = tcpsocket_lptr_ s -> sslsocket_lptr_ t = sslsocket_lptr_ s ->
  Held T w -> Held T (mkWorld (<[i := t]> (objects w)) (pending w) (events w) (err w) (asio_log w) (asio w)).
Proof.
  intros Es E1 E2 [Hl Ha]. split; [intros c Hc; by apply (ref_ok_put w _ i s t), Hl|].
  eapply Forall_impl; [exact Ha|]. intros j. unfold alive. cbn. destruct (decide (i = j)) as [->|]; [by rewrite lookup_insert_eq|by rewrite lookup_insert_ne].
Qed.
Lemma safe_change i f : i ∈ T -> (forall s, tcpsocket_lptr_ (f s) = tcpsocket_lptr_ s /\ sslsocket_lptr_ (f s) = sslsocket_lptr_ s) ->
  safe (Held T) (change i f).
Proof.
  intros Hi Hf w Hw. destruct (held_alive w i Hw Hi) as [s Es]. unfold change, bind, obj. rewrite Es. cbn.
  by apply (held_put w i s); try apply Hf.
Qed.
Lemma safe_expect a c : this_of c ∈ T -> match c with AcceptTcpDone _ | AcceptSslDone _ => False | _ => True end -> safe (Held T) (expect a c).
Proof.
  intros Hi Hc. apply safe_frame. intros w [Hl Ha]. split; [|exact Ha]. intros d. cbn. rewrite elem_of_app, list_elem_of_singleton.
  intros [Hd|Hd]; [by apply (ref_ok_same w), Hl|subst d]. split; [by apply (held_alive w _ (conj Hl Ha))|by destruct c].
Qed.
Lemma safe_void {A} (m : AM A) : safe (Held T) m -> safe (Held T) (void m).
Proof. intros Hm. by apply safe_bind; [|intros _; apply safe_ret]. Qed.
Lemma safe_AsyncAccept i n a c (upd : sock -> sock) : i ∈ T -> n ∈ T -> this_of c = i ->
  (forall s, (tcpsocket_lptr_ (upd s) = tcpsocket_lptr_ s \/ tcpsocket_lptr_ (upd s) = Some n) /\
    (sslsocket_lptr_ (upd s) = sslsocket_lptr_ s \/ sslsocket_lptr_ (upd s) = Some n) /\
    match c with AcceptTcpDone _ => tcpsocket_lptr_ (upd s) = Some n | AcceptSslDone _ => sslsocket_lptr_ (upd s) = Some n | _ => False end) ->
  safe (Held T) (let! s := obj i in do! put i (upd s) in do! change n (with_local (s_local s)) in let! m := obj n in do! expect (a s m) c in ret true).
Proof.
  intros Hi Hn Ec Hu w [Hl Ha]. rewrite Forall_forall in Ha. unfold bind at 1, obj at 1. destruct (Ha _ Hi) as [s Es]. rewrite Es. cbn [obind fst snd].
  unfold bind at 1, put, get, set_objects, bind at 1, modify. cbn [obind fst snd]. set (w1 := mkWorld _ _ _ _ _ _).
  destruct (Hu s) as (U1 & U2 & U3). assert (forall j, alive w j -> alive w1 j) as Hal.
  { intros j. unfold alive, w1. cbn. destruct (decide (i = j)) as [->|]; [by rewrite lookup_insert_eq|by rewrite lookup_insert_ne]. }
  assert (Held T w1) as Hw1.
  { split; [|apply Forall_forall; intros j Hj; by apply Hal, Ha]. intros d Hd. destruct (Hl d Hd) as [H1 H2]. split; [by apply Hal|].
    destruct d; try done; cbn in H1, H2 |- *; destruct (decide (i = this)) as [->|Hne];
      [rewrite lookup_insert_eq|rewrite lookup_insert_ne by done; destruct H2 as (k & ? & ?); exists k; auto
      |rewrite lookup_insert_eq|rewrite lookup_insert_ne by done; destruct H2 as (k & ? & ?); exists k; auto].
    - cbn. destruct U1 as [->| ->]; [rewrite Es in H2; destruct H2 as (k & ? & ?); exists k; auto|exists n; split; [done|by apply Hal, Ha]].
    - cbn. destruct U2 as [->| ->]; [rewrite Es in H2; destruct H2 as (k & ? & ?); exists k; auto|exists n; split; [done|by apply Hal, Ha]]. }
  assert (exists w2, change n (with_local (s_local s)) w1 = Ret (tt, w2) /\ Held T w2 /\ target w2 c = Some n) as (w2 & E2 & Hw2 & Ht2).
  { pose proof (Hal n (Ha n Hn)) as [t Et]. unfold change, bind, obj. rewrite Et. cbn. eexists. split; [done|].
    split; [by apply (held_put w1 n t)|]. cbn in Et. destruct c; try done; cbn in Ec; subst this; cbn; destruct (decide (n = i)) as [->|Hne].
    - rewrite lookup_insert_eq in Et |- *. injection Et as <-. done.
    - rewrite !lookup_insert_ne, lookup_insert_eq by done. done.
    - rewrite lookup_insert_eq in Et |- *. injection Et as <-. done.
    - rewrite !lookup_insert_ne, lookup_insert_eq by done. done. }
  unfold bind at 1. rewrite E2. cbn [obind fst snd]. destruct Hw2 as [Hl2 Ha2]. pose proof Ha2 as Ha2'. rewrite Forall_forall in Ha2. unfold bind at 1, obj at 1.
  destruct (Ha2 _ Hn) as [m Em]. rewrite Em. cbn. split; [|done]. intros d. cbn. rewrite elem_of_app, list_elem_of_singleton.
  intros [Hd|Hd]; [by apply (ref_ok_same w2), Hl2|subst d]. split; [rewrite Ec; by apply Ha2|].
  destruct c; try done; exists n; by split; [|apply Ha2].
Qed.
End Held.

(** The manual page: an answer has at least one address. *)
Definition resolver_ok : Prop := forall s t, gethostbyname s <> Some (mkHost t (Some [])).
Lemma InetAddress_at_ret ip port : resolver_ok -> exists a, InetAddress_at ip port = Ret a.
Proof.
  intros Hr. unfold InetAddress_at, Resolve. destruct (negb _); [by eexists|]. destruct (gethostbyname (c_str ip)) as [[t [[|a l]|]]|] eqn:E; [by apply Hr in E| |by eexists..].
  destruct (t =? AF_INET); by eexists.
Qed.
Lemma safe_lift_at I ip port : resolver_ok -> safe I (lift (InetAddress_at ip port)).
Proof. intros Hr w Hw. destruct (InetAddress_at_ret ip port Hr) as [a E]. unfold lift. by rewrite E. Qed.
Lemma safe_udp I u e : resolver_ok -> safe I (lift (InetAddress_udp u e)).
Proof. intros Hr w Hw. unfold InetAddress_udp. destruct (InetAddress_at_ret (ep_address e) (ep_port e) Hr) as [a E]. unfold lift. by rewrite E. Qed.
Ltac held := first [assumption|repeat (apply elem_of_cons; first [left; reflexivity|right])].
Ltac safe := repeat first
  [ apply safe_ret | apply safe_ask, held_stable | apply safe_ask_throw, held_stable | apply safe_notify, held_stable | apply safe_set_err, held_stable
  | apply safe_obj; intros; eapply held_alive; [eassumption|held] | apply safe_change; [held|by split] | apply safe_expect; [held|exact I]
  | apply safe_udp; assumption | apply safe_lift_at; assumption | apply safe_if | apply safe_bind; [|intros ?] ].
Lemma safe_accept_tcp T this other : this ∈ T -> other ∈ T -> safe (Held T) (AsyncAccept_Tcp this other).
Proof.
  intros Ht Ho. refine (safe_AsyncAccept T this other (fun s n => a_accept (asio_ s) (asio_ n)) (AcceptTcpDone this)
    (fun s => mkSock (asio_ s) (s_local s) (s_peer s) (notify_lptr_ s) (Some other) (sslsocket_lptr_ s)) Ht Ho eq_refl _).
  intros s. cbn. auto.
Qed.
Lemma safe_accept_ssl T this other : this ∈ T -> other ∈ T -> safe (Held T) (AsyncAccept_Ssl this other).
Proof.
  intros Ht Ho. refine (safe_AsyncAccept T this other (fun s n => a_accept (asio_ s) (asio_ n)) (AcceptSslDone this)
    (fun s => mkSock (asio_ s) (s_local s) (s_peer s) (notify_lptr_ s) (tcpsocket_lptr_ s) (Some other)) Ht Ho eq_refl _).
  intros s. cbn. auto.
Qed.
Lemma methods_safe this other buffer size address on l i m T : resolver_ok -> this ∈ T -> other ∈ T ->
  methods this other buffer size address on l !! i = Some m -> safe (Held T) m.
Proof.
  intros Hr Ht Ho Em. assert (Forall (safe (Held T)) (methods this other buffer size address on l)) as F; [|by apply (Forall_lookup_1 _ _ _ _ F Em)].
  unfold methods. repeat (apply Forall_cons; split; [apply safe_void|]); [..|by apply Forall_nil].
  all: unfold Tcp_SendSome, Tcp_AsyncSendSome, Tcp_Bind, Tcp_Close, Tcp_IsValid, Tcp_SetTcpNoDelay, Tcp_SetKeepAlive, Tcp_SetReuse, Tcp_Connect,
    Tcp_AsyncConnect, Tcp_ReceiveSome, Tcp_AsyncReceiveSome, Acceptor_Bind, Acceptor_SetReuse, Acceptor_Close, Acceptor_IsValid, Listen_async, Acceptor_Accept,
    Udp_Bind, Udp_Close, Udp_IsValid, Udp_SetKeepAlive, Udp_SetReuse, Udp_SendTo, Udp_AsyncSendTo, Udp_ReceiveFrom, Udp_AsyncReceiveFrom,
    Ssl_SendSome, Ssl_AsyncSendSome, Ssl_Bind, Ssl_Close, Ssl_IsValid, Ssl_SetTcpNoDelay, Ssl_SetKeepAlive, Ssl_SetReuse, Ssl_Connect, HandShake,
    Ssl_AsyncConnect, Ssl_ReceiveSome, Ssl_AsyncReceiveSome, AsyncHandShake, Query.
  all: try solve [safe]. all: try solve [apply safe_bind; [apply safe_ask, held_stable|intros r; destruct (first_v4 (found r)); safe]].
  all: try solve [apply safe_accept_tcp; assumption]. all: try solve [apply safe_accept_ssl; assumption].
Qed.

(** A completion whose objects are there runs to its end or throws. *)
Lemma completion_safe w c r : resolver_ok -> live w -> ref_ok w c ->
  match run_completion c r w with Ret (_, w') => live w' | Throw => True | Undef _ | Diverge => False end.
Proof.
  intros Hr Hl [Hi Hc]. assert (Held [this_of c] w) as Hw by (split; [done|by repeat constructor]).
  assert (forall m : AM unit, safe (Held [this_of c]) m -> match m w with Ret (_, w') => live w' | Throw => True | Undef _ | Diverge => False end) as Go.
  { intros m Hm. specialize (Hm w Hw). destruct (m w) as [[a w']| | |]; try done. apply Hm. }
  assert (forall (m : AM unit) n s, objects w !! this_of c = Some s -> alive w n -> (forall T, this_of c ∈ T -> n ∈ T -> safe (Held T) m) ->
    match m w with Ret (_, w') => live w' | Throw => True | Undef _ | Diverge => False end) as Go2.
  { intros m n s Es Hn Hm. assert (Held [this_of c; n] w) as Hw2 by (split; [done|apply Forall_cons; split; [done|by apply Forall_singleton]]).
    specialize (Hm [this_of c; n] ltac:(held) ltac:(held) w Hw2). destruct (m w) as [[a w']| | |]; try done. apply Hm. }
  assert (forall T i, i ∈ T -> safe (Held T) (Acceptor_OnAccept i)) as Sa by (intros T i Hi'; unfold Acceptor_OnAccept; safe).
  assert (forall T i, i ∈ T -> safe (Held T) (Acceptor_OnError i)) as Se by (intros T i Hi'; unfold Acceptor_OnError; safe).
  assert (forall T i, i ∈ T -> safe (Held T) (on_error i r)) as So by (intros T i Hi'; unfold on_error; safe).
  assert (forall T i, i ∈ T -> safe (Held T) (Ssl_OnConnect i)) as Sc by (intros T i Hi'; unfold Ssl_OnConnect; safe).
  assert (forall T i n, i ∈ T -> n ∈ T -> safe (Held T) (let! m := obj n in let! p := ask_throw (a_remote (asio_ m)) in
     do! change n (with_peer (InetAddress_tcp (at_ p))) in Acceptor_OnAccept i)) as Sn by (intros T i n Hi' Hn'; safe; by apply Sa).
  destruct c; cbn [run_completion this_of] in *; destruct (ec r =? 0); try (apply Go; safe; first [by apply So; held|by apply Sc; held|by apply Se; held]).
  - destruct Hc as (n & Ht & Hn). cbn in Ht. destruct Hi as [s Es]. rewrite Es in Ht. cbn in Ht. unfold bind at 1, obj at 1. rewrite Es. cbn [obind fst snd].
    rewrite Ht. eapply Go2; [exact Es|exact Hn|]. intros T H1 H2. by apply Sn.
  - destruct Hc as (n & Ht & Hn). cbn in Ht. destruct Hi as [s Es]. rewrite Es in Ht. cbn in Ht. unfold bind at 1, obj at 1. rewrite Es. cbn [obind fst snd].
    rewrite Ht. eapply Go2; [exact Es|exact Hn|]. intros T H1 H2. by apply Sn.
Qed.

(** An object nothing pending will touch can go. *)
Definition Doomed (i : nat) (w : World) : Prop := live w /\ alive w i /\ forall c, c ∈ pending w -> ~ touches w c i.
Lemma doomed_stable i : stable (Doomed i).
Proof.
  intros w w' E Ep (Hl & Ha & Hc). unfold Doomed, live, alive, touches, target. rewrite Ep, E.
  split; [intros c H; by apply (ref_ok_same w), Hl|]. by split.
Qed.
Lemma doom_end {A} (m : AM A) i w : safe (Doomed i) m -> Doomed i w ->
  match bind m (fun _ => let! w := get in set_objects (delete i (objects w))) w with Ret (_, w') => live w' | Throw => True | Undef _ | Diverge => False end.
Proof.
  intros Hm Hw. specialize (Hm w Hw). unfold bind. destruct (m w) as [[a w1]| | |]; cbn; try done.
  destruct Hm as (Hl & _ & Hc). intros c Hin. cbn in Hin. pose proof (Hc c Hin) as Ht. destruct (Hl c Hin) as [H1 H2]. unfold touches in Ht.
  assert (this_of c <> i) as Hne by (intros Heq; apply Ht; by left).
  split; [unfold alive; cbn; by rewrite lookup_delete_ne|].
  destruct c; try done; destruct H2 as (n & Hn & Hal); cbn in *; exists n; rewrite lookup_delete_ne by done;
    (split; [done|]); unfold alive; cbn; rewrite lookup_delete_ne; [done|intros ->; apply Ht; by right|done|intros ->; apply Ht; by right].
Qed.
Lemma delete_safe i w : Doomed i w -> Forall (fun m : AM unit => match m w with Ret (_, w') => live w' | Throw => True | Undef _ | Diverge => False end)
  [Tcp_delete i; Acceptor_delete i; Udp_delete i; Ssl_delete i].
Proof.
  intros Hw. assert (forall w, Doomed i w -> alive w i) as Ha by (by intros ? (_ & ? & _)).
  assert (forall c, safe (Doomed i) (let! s := obj i in let! r := ask (c s) in ret (negb (count r =? 0)))) as Hv.
  { intros c. apply safe_bind; [by apply safe_obj|intros s]. apply safe_bind; [apply safe_ask, doomed_stable|intros r; apply safe_ret]. }
  assert (forall c, safe (Doomed i) (let! s := obj i in let! r := ask (c s) in ret (ec r =? 0))) as Hc.
  { intros c. apply safe_bind; [by apply safe_obj|intros s]. apply safe_bind; [apply safe_ask, doomed_stable|intros r; apply safe_ret]. }
  assert (safe (Doomed i) (Acceptor_Close i)) as Hac.
  { apply safe_bind; [by apply safe_obj|intros s]. apply safe_bind; [apply safe_ask, doomed_stable|intros r].
    apply safe_bind; [apply safe_set_err, doomed_stable|intros _; apply safe_ret]. }
  assert (forall (v c : AM bool), safe (Doomed i) v -> safe (Doomed i) c ->
    match (let! open := v in do! (if open then c else ret true) in let! w := get in set_objects (delete i (objects w))) w with
    Ret (_, w') => live w' | Throw => True | Undef _ | Diverge => False end) as Go.
  { intros v c Hv' Hc'. pose proof (doom_end (let! open := v in if open then c else ret true) i w) as D.
    match goal with |- match ?x with _ => _ end => match type of D with _ -> _ -> match ?y with _ => _ end => assert (x = y) as -> end end.
    - unfold bind. by destruct (v w) as [[a w']| | |].
    - apply D; [|done]. apply safe_bind; [done|intros b; destruct b; [done|apply safe_ret]]. }
  repeat (apply Forall_cons; split); [..|by apply Forall_nil].
  - by apply (doom_end (obj i)); [apply safe_obj|].
  - by apply Go; [apply (Hv (fun s => a_is_open (asio_ s)))|].
  - by apply Go; [apply (Hv (fun s => a_is_open (asio_ s)))|apply (Hc (fun s => a_close (asio_ s)))].
  - by apply Go; [apply (Hv (fun s => a_is_open (asio_ s)))|apply (Hc (fun s => a_close (asio_ s)))].
Qed.

Lemma act_safe a w : resolver_ok -> live w -> allowed a w ->
  match act a w with Ret (_, w') => live w' | Throw => True | Undef _ | Diverge => False end.
Proof.
  intros Hr Hl Ha. destruct a; cbn [act allowed] in *.
  1: { destruct (methods this other buffer size address on l !! i) as [m|] eqn:Em; [|done]. destruct Ha as [H1 H2].
    pose proof (methods_safe this other buffer size address on l i m [this; other] Hr ltac:(held) ltac:(held) Em w) as Hm.
    assert (Held [this; other] w) as Hw by (split; [done|by repeat (apply Forall_cons; split)]).
    specialize (Hm Hw). destruct (m w) as [[x w']| | |]; try done. apply Hm. }
  1: { unfold put, bind, get, set_objects, modify. cbn. intros c Hc. cbn in Hc. destruct (Hl c Hc) as [H1 H2].
    assert (forall j, alive w j -> alive (mkWorld (<[this:=sock_new a notify_ptr]> (objects w)) (pending w) (events w) (err w) (asio_log w) (asio w)) j /\ j <> this) as Hal.
    { intros j Hj. destruct (decide (this = j)) as [->|]; [unfold alive in Hj; rewrite Ha in Hj; by destruct Hj|].
      unfold alive. cbn. by rewrite lookup_insert_ne. }
    destruct (Hal _ H1) as [H1' Hne]. split; [done|]. destruct c; try done; destruct H2 as (n & Hn & Hn'); cbn in *; exists n;
      rewrite lookup_insert_ne by done; (split; [done|by apply Hal]). }
  1-4: destruct Ha as [H1 H2]; pose proof (delete_safe this w (conj Hl (conj H1 H2))) as D; rewrite Forall_forall in D; apply D; held.
  unfold complete. destruct (pending w !! k) as [c|] eqn:Ek; [|done]. set (w0 := mkWorld _ _ _ _ _ _).
  assert (forall d, d ∈ pending w0 -> d ∈ pending w) as Hsub.
  { intros d. cbn. rewrite elem_of_app. intros [Hd|Hd]; eapply sublist_subseteq; [apply sublist_take|exact Hd|apply sublist_drop|exact Hd]. }
  apply completion_safe; [done|intros d Hd; by apply (ref_ok_same w), Hl, Hsub|]. apply (ref_ok_same w); [done|]. by eapply Hl, list_elem_of_lookup_2.
Qed.

(** Without the second rule it is: the lambdas hold a bare [this]. *)
Lemma dangling_completion w k c r : pending w !! k = Some c -> objects w !! this_of c = None ->
  match c with SendToDone _ => ec r = 0 | _ => True end -> complete k r w = Undef DanglingIterator.
Proof.
  intros Ek En Hc. unfold complete. rewrite Ek. set (w0 := mkWorld _ _ _ _ _ _).
  assert (forall A (f : sock -> AM A), bind (obj (this_of c)) f w0 = Undef DanglingIterator) as Hb by (intros A f; unfold bind, obj; cbn; by rewrite En).
  destruct c; cbn [run_completion this_of] in *; try (rewrite Hc; apply Hb); destruct (ec r =? 0); apply Hb.
Qed.
(** Two calls of [AsyncAccept] in flight: the first connection is booked on the
    second socket, and the first socket never learns its peer. *)
Lemma second_accept_steals this n1 n2 w w1 w2 r w3 s : n1 <> n2 -> n1 <> this -> n2 <> this ->
  AsyncAccept_Tcp this n1 w = Ret (true, w1) -> AsyncAccept_Tcp this n2 w1 = Ret (true, w2) -> ec r = 0 ->
  run_completion (AcceptTcpDone this) r w2 = Ret (tt, w3) -> objects w !! n1 = Some s ->
  exists s3, objects w3 !! n1 = Some s3 /\ s_peer s3 = s_peer s /\
    exists p a, asio_call (a_remote a) (asio w2) = p /\ (asio_ <$> objects w2 !! n2) = Some a /\
    (s_peer <$> objects w3 !! n2) = Some (InetAddress_tcp (at_ p.1)).
Proof.
  intros Hne Hn1 Hn2 E1 E2 Er E3 Es.
  assert (exists s1, objects w1 !! n1 = Some s1 /\ s_peer s1 = s_peer s) as (s1 & Es1 & Ep1).
  { unfold AsyncAccept_Tcp, change, put, set_objects, get, modify, expect, obj, bind in E1. cbn in E1.
    destruct (objects w !! this) as [a|] eqn:Ea; cbn in E1; [|done]. rewrite lookup_insert_ne, Es in E1 by done. cbn in E1.
    rewrite lookup_insert_eq in E1. cbn in E1. injection E1 as <-. cbn. rewrite lookup_insert_eq. by eexists. }
  unfold AsyncAccept_Tcp, change, put, set_objects, get, modify, expect, obj, bind in E2. cbn in E2.
  destruct (objects w1 !! this) as [a|] eqn:Ea; cbn in E2; [|done]. rewrite lookup_insert_ne in E2 by done.
  destruct (objects w1 !! n2) as [t|] eqn:Et; cbn in E2; [|done]. rewrite lookup_insert_eq in E2. cbn in E2. injection E2 as <-.
  unfold run_completion in E3. rewrite Er in E3. cbn in E3. unfold bind at 1, obj at 1 in E3. cbn in E3.
  rewrite (lookup_insert_ne _ n2), lookup_insert_eq in E3 by done. cbn in E3. unfold bind at 1, obj at 1 in E3. cbn in E3.
  rewrite lookup_insert_eq in E3. cbn in E3. unfold ask_throw, bind at 1, bind at 1, ask in E3. cbn in E3.
  destruct (asio_call (a_remote (asio_ t)) (asio w1)) as [p q] eqn:Ec. cbn in E3. destruct (ec p =? 0); cbn in E3; [|done].
  unfold change, bind, obj, put, set_objects, get, modify in E3. cbn in E3. rewrite lookup_insert_eq in E3. cbn in E3.
  unfold Acceptor_OnAccept, bind, obj in E3. cbn in E3. rewrite !(lookup_insert_ne _ n2), lookup_insert_eq in E3 by done. cbn in E3.
  assert (objects w3 = <[n2:=with_peer (InetAddress_tcp (at_ p)) (with_local (s_local a) t)]> (<[n2:=with_local (s_local a) t]>
    (<[this:=mkSock (asio_ a) (s_local a) (s_peer a) (notify_lptr_ a) (Some n2) (sslsocket_lptr_ a)]> (objects w1)))) as ->
    by (destruct (notify_lptr_ a); by injection E3 as <-).
  cbn. exists s1. rewrite !lookup_insert_ne by done. split; [done|]. split; [done|].
  exists (p, q), (asio_ t). rewrite !lookup_insert_eq. by cbn; repeat split.
Qed.
(** [remote_endpoint] without an error code throws in the io thread: a peer that
    has gone again by the time its accept is handled ends the thread. *)
Lemma accept_throws this n w s t r : objects w !! this = Some s -> tcpsocket_lptr_ s = Some n -> objects w !! n = Some t -> ec r = 0 ->
  ec (asio_call (a_remote (asio_ t)) (asio w)).1 <> 0 -> run_completion (AcceptTcpDone this) r w = Throw.
Proof.
  intros Es Et En Er Ep. unfold run_completion. rewrite Er. cbn. unfold bind at 1, obj at 1. rewrite Es. cbn. rewrite Et.
  unfold bind at 1, obj at 1. rewrite En. cbn. unfold ask_throw, bind at 1, bind at 1, ask. destruct (asio_call _ _) as [p q]. cbn in *.
  by destruct (Z.eqb_spec (ec p) 0).
Qed.
End AsyncSockets.

(** ** The io threads *)

Lemma start_threads_spec ps n io c : (n <= length ps)%nat ->
  let '(c', io') := start_threads ps n io c in
  exists new, io_threads io' = io_threads io ++ new /\ (c' <= c + n)%nat /\
    (c' = (c + n)%nat -> length new = n /\ Forall (fun t => IsRunning (io_thread t) = true) new).
Proof.
  revert ps io c. induction n as [|n IH]; intros ps io c Hn.
  { destruct ps; cbn; exists []; rewrite app_nil_r, Nat.add_0_r; by repeat split. }
  destruct ps as [|p ps]; [cbn in Hn; lia|]. cbn [start_threads].
  destruct (Thread_Start p Thread_new) as [[|] t] eqn:Et.
  - set (io1 := mkAsyncIo _ _ _ _). specialize (IH ps io1 (S c) ltac:(cbn in Hn; lia)). destruct (start_threads ps n io1 (S c)) as [c' io'].
    cbn iota beta in IH. destruct IH as (new & -> & Hc & Hall). exists (mkIoThread t false :: new). split; [unfold io1; cbn; by rewrite <- app_assoc|].
    split; [lia|]. intros ->. destruct Hall as [Hl Hr]; [lia|]. split; [cbn; lia|]. constructor; [|done].
    unfold Thread_Start in Et. cbn in Et. repeat (case_match; try done). by injection Et as <-.
  - exists [mkIoThread t false]. split; [done|]. split; [lia|]. intros ?. lia.
Qed.
(** [Create]: with true as many threads as asked for (two for zero) are
    running, with false there are none. *)
Lemma AsyncIo_Create_spec ps current n io : io_threads io = [] -> (S (S n) <= length ps)%nat ->
  let k := (if Nat.eqb n 0 then 2 else n)%nat in
  let '(b, io') := AsyncIo_Create ps current n io in
  if b then length (io_threads io') = k /\ Forall (fun t => IsRunning (io_thread t) = true) (io_threads io')
  else io_threads io' = [] \/ exists t, t ∈ io_threads io' /\ t_id (io_thread t) = current.
Proof.
  intros E Hn. unfold AsyncIo_Create. rewrite E. cbv zeta. set (k := if Nat.eqb n 0 then 2%nat else n).
  pose proof (start_threads_spec ps k io 0 ltac:(unfold k; destruct (Nat.eqb_spec n 0); lia)) as Sp.
  destruct (start_threads ps k io 0) as [c io']. cbn iota beta in Sp. destruct Sp as (new & En & Hc & Hall). rewrite E in En. cbn in En.
  destruct (Nat.eqb_spec c k) as [->|Hne]; cbn [negb].
  - rewrite En. by apply Hall.
  - unfold AsyncIo_Close. destruct (existsb _ (io_threads io')) eqn:Ex; cbn; [|by left]. right.
    apply existsb_exists in Ex as (t & Ht & Et). exists t. split; [by apply list_elem_of_In|lia].
Qed.
(** The threads are taken in turn; before [Create] the turn is a remainder by zero. *)
Lemma GetIoService_turn io : io_service_ptr_ io = None -> 0 <= next_id_ io < 2 ^ 64 - 1 ->
  match io_threads io with
  | [] => GetIoService io = Undef DivideByZero
  | _ => exists io', GetIoService io = Ret (inr (Z.to_nat (next_id_ io mod Z.of_nat (length (io_threads io)))), io') /\
           next_id_ io' = next_id_ io + 1 /\ io_threads io' = io_threads io
  end.
Proof.
  intros E Hn. unfold GetIoService. rewrite E. destruct (io_threads io) as [|t l]; [done|]. cbn [length].
  destruct (Z.eqb_spec (Z.of_nat (S (length l))) 0); [lia|]. eexists. split; [done|]. cbn. split; [|done]. apply wrap_small. lia.
Qed.

(** ** An asio for the examples: everything succeeds, at one endpoint *)
#[export] Instance EasyAsio : Asio := {
  asio_state := unit;
  asio_call c k := (mkAreply 0 (match c with a_write _ d | a_send_to _ d _ => Z.of_nat (length d) | _ => 1 end)
                      (mkEndpoint (to_bytes "10.0.0.1") 80) [] [], tt) }.
#[export] Instance NoResolver : Resolver := no_resolver.
Definition easy_world : @World EasyAsio := mkWorld ∅ [] [] 0 [] tt.
Definition done_reply : areply := mkAreply 0 5 (mkEndpoint [] 0) [1; 2; 3] [].
Definition easy_run : list action :=
  [New 0 0 true; New 1 1 false; Call 13 0 0 [] 0 Any true []; Call 18 0 1 [] 0 Any true []; Complete 0 done_reply;
   Call 11 1 1 [] 4096 Any true []; Complete 0 done_reply; DeleteTcp 1; DeleteAcceptor 0].
Definition after_act (w : @World EasyAsio) (a : action) : @World EasyAsio := match act a w with Ret p => p.2 | _ => w end.
