(* ===== verification/Poll.v ===== *)
(** The epoll layer of src/utils/async_net.cpp and async_net.h: the poll with
    its list of extra events, the data buffer, sockets in channels, the io
    threads and the loop that hands events to sockets.

    Sockets live in a heap under their addresses; an event carries the address
    of its socket, and the virtual callbacks, which are the user's code, are a
    class.  A time that is only logged is left out. *)

From S2P Require Import Prelude Net Workers.

(** ** [AsyncPoll] *)

Definition ASYNC_EVENT_IN : Z := 1.
Definition ASYNC_EVENT_OUT : Z := 4.
Definition ASYNC_EVENT_ERR : Z := 8.
Definition ASYNC_EVENT_ONESHOT : Z := 2 ^ 30.
Definition ASYNC_EVENT_ET : Z := 2 ^ 31.
Definition DEFAULT_EVENTS : Z := Z.lor (Z.lor (Z.lor ASYNC_EVENT_IN ASYNC_EVENT_OUT) ASYNC_EVENT_ERR) ASYNC_EVENT_ET.
Definition EPOLL_CTL_ADD : Z := 1.
Definition EPOLL_CTL_DEL : Z := 2.
Definition EPOLL_CTL_MOD : Z := 3.

(** An event: its flags and the address of its socket. *)
Definition AsyncEvent : Type := Z * nat.
Record AsyncPoll := mkPoll { m_nEpoll : Z; m_pAppendEvents : list AsyncEvent }.
Definition AsyncPoll_new : AsyncPoll := mkPoll (-1) [].
Definition Poll_IsValid (p : AsyncPoll) : bool := negb (m_nEpoll p =? -1).

(** The two walks over the list of extra events. *)
Fixpoint merge_event (lpSocket : nat) (nEventFlag : Z) (l : list AsyncEvent) : list AsyncEvent :=
  match l with
  | [] => [(nEventFlag, lpSocket)]
  | (f, s) :: r => if Nat.eqb s lpSocket then (Z.lor f nEventFlag, s) :: r else (f, s) :: merge_event lpSocket nEventFlag r
  end.
Definition remove_events (lpSocket : nat) (l : list AsyncEvent) : list AsyncEvent :=
  filter (fun e : AsyncEvent => e.2 <> lpSocket) l.

Section Polls.
Context `{HB : Bsd}.
Definition PM := M (AsyncPoll * Os).
Definition psys {A} (c : M Os A) : PM A := zoom snd (fun o w => (w.1, o)) c.
Definition pget : PM AsyncPoll := fun w => Ret (w.1, w).
Definition pset (p : AsyncPoll) : PM unit := modify (fun w => (p, w.2)).
Definition pcheck (bad : AsyncPoll -> bool) (code : Z) (k : PM bool) : PM bool :=
  let! p := pget in if bad p then do! psys (set_error_code code) in ret false else k.
Definition not_poll (p : AsyncPoll) : bool := negb (Poll_IsValid p).

Definition Poll_Create (nPoolSize : Z) : PM bool :=
  if negb (0 <? nPoolSize) then lift Throw else
  pcheck Poll_IsValid ERROR_ALREADY_EXISTS (
  let! r := psys (call (c_epoll_create (swrap 32 nPoolSize))) in
  let! p := pget in
  do! pset (mkPoll (r_ret r) (m_pAppendEvents p)) in ret (negb (r_ret r =? -1))).
Definition Poll_Close : PM bool :=
  pcheck not_poll ERROR_NOT_READY (
  let! p := pget in
  do! psys (call (c_close (m_nEpoll p))) in
  do! pset (mkPoll (-1) (m_pAppendEvents p)) in ret true).
(** A socket is passed as its address and its handle. *)
Definition Poll_Add (lpSocket : nat) (handle nEventFlag : Z) : PM bool :=
  pcheck not_poll ERROR_NOT_READY (
  let! p := pget in
  let! r := psys (call (c_epoll_ctl (m_nEpoll p) EPOLL_CTL_ADD handle nEventFlag lpSocket)) in
  if r_ret r =? 0 then ret true else
  let! nErrorCode := psys error_code in
  if negb (EEXIST =? nErrorCode) then ret false else
  let! r := psys (call (c_epoll_ctl (m_nEpoll p) EPOLL_CTL_MOD handle nEventFlag lpSocket)) in
  ret (r_ret r =? 0)).
Definition Poll_Modify (lpSocket : nat) (handle nEventFlag : Z) : PM bool :=
  pcheck not_poll ERROR_NOT_READY (
  let! p := pget in
  let! r := psys (call (c_epoll_ctl (m_nEpoll p) EPOLL_CTL_MOD handle nEventFlag lpSocket)) in
  ret (r_ret r =? 0)).
Definition Poll_Remove (lpSocket : nat) (handle : Z) : PM bool :=
  pcheck not_poll ERROR_NOT_READY (
  let! p := pget in
  do! pset (mkPoll (m_nEpoll p) (remove_events lpSocket (m_pAppendEvents p))) in
  let! r := psys (call (c_epoll_ctl (m_nEpoll p) EPOLL_CTL_DEL handle ASYNC_EVENT_ET lpSocket)) in
  ret (r_ret r =? 0)).
Definition AppendEvent (lpSocket : nat) (valid : bool) (nEventFlag : Z) : PM bool :=
  if negb valid then do! psys (set_error_code ERROR_NOT_READY) in ret false else
  let! p := pget in
  do! pset (mkPoll (m_nEpoll p) (merge_event lpSocket nEventFlag (m_pAppendEvents p))) in ret true.
(** The result and the events it has written. *)
Definition WaitEvent (nMaxEvents : nat) (nTimeoutMs : Z) : PM (Z * list AsyncEvent) :=
  if Nat.eqb nMaxEvents 0 then lift Throw else
  let! p := pget in
  match m_pAppendEvents p with
  | _ :: _ =>
      let l := take nMaxEvents (m_pAppendEvents p) in
      do! pset (mkPoll (m_nEpoll p) (drop nMaxEvents (m_pAppendEvents p))) in ret (Z.of_nat (length l), l)
  | [] =>
      let! r := psys (call (c_epoll_wait (m_nEpoll p) nMaxEvents nTimeoutMs)) in
      if r_ret r <? 0 then
        let! code := psys error_code in ret (if IsNomralError code then 0 else r_ret r, [])
      else ret (r_ret r, r_events r)
  end.
End Polls.

(** ** [AsyncBuffer], over the blocks of the allocator *)

(** The blocks that are allocated and the next address; whether an allocation
    of a size succeeds is the allocator's business. *)
Class Malloc := { malloc_ok : Z -> nat -> bool }.
Record memory := mkMemory { blocks : gmap nat (list Z); brk : nat }.
Record AsyncBuffer := mkBuffer { m_bAttach : bool; m_pBuffer : option nat; m_nSize : Z; m_nDataOffset : Z; m_nDataSize : Z }.
Definition Tidy : AsyncBuffer := mkBuffer false None 0 0 0.
Definition AsyncBuffer_new : AsyncBuffer := Tidy.
(** [free]: of a block that is not allocated, undefined. *)
Definition free (p : nat) (m : memory) : outcome memory :=
  match blocks m !! p with Some _ => Ret (mkMemory (delete p (blocks m)) (brk m)) | None => Undef DanglingIterator end.
Definition Release (b : AsyncBuffer) (m : memory) : outcome (AsyncBuffer * memory) :=
  match m_bAttach b, m_pBuffer b with
  | false, Some p => let? m := free p m in Ret (Tidy, m)
  | _, _ => Ret (Tidy, m)
  end.
Definition Allocate `{Malloc} (nSize : Z) (b : AsyncBuffer) (m : memory) : outcome (bool * AsyncBuffer * memory) :=
  let? r := Release b m in
  if malloc_ok nSize (brk r.2)
  then Ret (true, mkBuffer false (Some (brk r.2)) nSize 0 0, mkMemory (<[brk r.2 := replicate (Z.to_nat nSize) 0]> (blocks r.2)) (S (brk r.2)))
  else Ret (false, Tidy, r.2).
Definition Attach_buffer (pBuffer : nat) (nSize : Z) (b : AsyncBuffer) (m : memory) : outcome (AsyncBuffer * memory) :=
  let? r := Release b m in Ret (mkBuffer true (Some pBuffer) nSize 0 0, r.2).
Definition AsyncBuffer_sized `{Malloc} (nSize : Z) (m : memory) : outcome (AsyncBuffer * memory) :=
  let? r := Allocate nSize Tidy m in Ret (r.1.2, r.2).
(** [memcpy] of the same range of two blocks. *)
Definition copy_range (dst src : option nat) (offset size : Z) (m : memory) : outcome memory :=
  match dst, src with
  | Some d, Some s =>
      match blocks m !! d, blocks m !! s with
      | Some bd, Some bs =>
          if (offset + size <=? Z.of_nat (length bd)) && (offset + size <=? Z.of_nat (length bs))
          then let k := Z.to_nat offset in let n := Z.to_nat size in
               Ret (mkMemory (<[d := take k bd ++ take n (drop k bs) ++ drop (k + n) bd]> (blocks m)) (brk m))
          else Undef OutOfRange
      | _, _ => Undef DanglingIterator
      end
  | _, _ => Undef NullDeref
  end.
(** [operator=], of two different objects. *)
Definition Assign `{Malloc} (nCopy this : AsyncBuffer) (m : memory) : outcome (AsyncBuffer * memory) :=
  match m_pBuffer nCopy, m_nSize nCopy with
  | None, _ | _, 0 => Release this m
  | Some _, _ =>
      let this := mkBuffer (m_bAttach nCopy) (m_pBuffer this) (m_nSize this) (m_nDataOffset this) (m_nDataSize this) in
      if m_bAttach nCopy then
        let? r := Release this m in
        Ret (mkBuffer false (m_pBuffer nCopy) (m_nSize nCopy) (m_nDataOffset nCopy) (m_nDataSize nCopy), r.2)
      else
        let? r := Allocate (m_nSize nCopy) this m in
        let this := mkBuffer (m_bAttach r.1.2) (m_pBuffer r.1.2) (m_nSize nCopy) (m_nDataOffset nCopy) (m_nDataSize nCopy) in
        let? m := copy_range (m_pBuffer this) (m_pBuffer nCopy) (m_nDataOffset nCopy) (m_nDataSize nCopy) r.2 in
        Ret (this, m)
  end.
Definition AsyncBuffer_copy `{Malloc} (nCopy : AsyncBuffer) (m : memory) : outcome (AsyncBuffer * memory) := Assign nCopy Tidy m.
Definition AsyncBuffer_destroy (b : AsyncBuffer) (m : memory) : outcome memory := let? r := Release b m in Ret r.2.

(** ** Sockets in channels *)

Record AsyncVxSocket := mkVx {
  base : Socket; m_nIoIndex : Z; m_nEventFlag : Z; m_bConnected : bool; m_bListening : bool; m_bPrepared : bool;
  m_nTimerCalled : Z; m_nTimerInterval : Z }.
Definition AsyncVxSocket_new (nEventFlag : Z) : AsyncVxSocket := mkVx Socket_new (-1) nEventFlag false false false 0 (-1).
Definition vx_valid (s : AsyncVxSocket) : bool := IsValid (base s).
Definition set_base (b : Socket) (s : AsyncVxSocket) : AsyncVxSocket :=
  mkVx b (m_nIoIndex s) (m_nEventFlag s) (m_bConnected s) (m_bListening s) (m_bPrepared s) (m_nTimerCalled s) (m_nTimerInterval s).
Definition set_index (i : Z) (s : AsyncVxSocket) : AsyncVxSocket :=
  mkVx (base s) i (m_nEventFlag s) (m_bConnected s) (m_bListening s) (m_bPrepared s) (m_nTimerCalled s) (m_nTimerInterval s).
Definition set_state (connected listening prepared : bool) (s : AsyncVxSocket) : AsyncVxSocket :=
  mkVx (base s) (m_nIoIndex s) (m_nEventFlag s) connected listening prepared (m_nTimerCalled s) (m_nTimerInterval s).
Definition SetPrepared (b : bool) (s : AsyncVxSocket) : AsyncVxSocket := set_state (m_bConnected s) (m_bListening s) b s.

(** An io thread, and all of them; an entry is NULL while [Create] has not got
    to it. *)
Record IoThread := mkIo { io_base : Thread; m_nPoll : AsyncPoll }.
Record AsyncVxIo := mkVxIo { m_pThreads : list (option IoThread); m_nNextIoIdx : Z }.
Definition AsyncVxIo_new : AsyncVxIo := mkVxIo [] 0.
Definition Io_IsValid (io : AsyncVxIo) : bool := negb (Nat.eqb (length (m_pThreads io)) 0).
Definition MAX_IO_COUNT : nat := 32.
Definition MAX (a b : nat) : nat := if Nat.ltb b a then a else b.

(** The callbacks that were made, in order. *)
Inductive callback : Set :=
| OnAccept (s : nat) | OnConnect (s : nat) (nErrorCode : Z) | OnReceive (s : nat) | OnSend (s : nat) | OnError (s : nat)
| CtlConnect (s : nat) | CtlAccept (s : nat) | CtlReceive (s : nat) | CtlSend (s : nat).

Section Channels.
Context `{HB : Bsd}.
Record Vx := mkVxWorld { vx_heap : gmap nat AsyncVxSocket; vx_io : AsyncVxIo; vx_os : Os; vx_log : list callback }.
Definition VM := M Vx.
Definition vos {A} (c : M Os A) : VM A := zoom vx_os (fun o w => mkVxWorld (vx_heap w) (vx_io w) o (vx_log w)) c.
Definition set_heap (h : gmap nat AsyncVxSocket) : VM unit := modify (fun w => mkVxWorld h (vx_io w) (vx_os w) (vx_log w)).
Definition set_io (i : AsyncVxIo) : VM unit := modify (fun w => mkVxWorld (vx_heap w) i (vx_os w) (vx_log w)).
Definition deref (this : nat) : VM AsyncVxSocket := fun w => match vx_heap w !! this with Some s => Ret (s, w) | None => Undef DanglingIterator end.
Definition vput (this : nat) (s : AsyncVxSocket) : VM unit := let! w := get in set_heap (<[this := s]> (vx_heap w)).
Definition vchange (this : nat) (f : AsyncVxSocket -> AsyncVxSocket) : VM unit := let! s := deref this in vput this (f s).
(** A method of the base class on an object, and of the poll of a thread. *)
Definition on_base {A} (this : nat) (m : SM A) : VM A :=
  let! s := deref this in
  let! w := get in
  let! r := lift (m (base s, vx_os w)) in
  do! vput this (set_base r.2.1 s) in
  do! modify (fun w => mkVxWorld (vx_heap w) (vx_io w) r.2.2 (vx_log w)) in ret r.1.
Definition thread_at (n : nat) : VM IoThread :=
  let! w := get in
  match m_pThreads (vx_io w) !! n with Some (Some t) => ret t | Some None => lift (Undef NullDeref) | None => lift Throw end.
Definition on_poll {A} (n : nat) (m : PM A) : VM A :=
  let! t := thread_at n in
  let! w := get in
  let! r := lift (m (m_nPoll t, vx_os w)) in
  do! modify (fun w => mkVxWorld (vx_heap w) (mkVxIo (<[n := Some (mkIo (io_base t) r.2.1)]> (m_pThreads (vx_io w))) (m_nNextIoIdx (vx_io w))) r.2.2 (vx_log w)) in
  ret r.1.

Definition AddChannel (pSocket : nat) : VM bool :=
  let! w := get in
  if negb (Io_IsValid (vx_io w)) then do! vos (set_error_code ERROR_NOT_READY) in ret false else
  let! s := deref pSocket in
  let size := Z.of_nat (length (m_pThreads (vx_io w))) in
  let next := m_nNextIoIdx (vx_io w) in
  let nIoIdx := (if 0 <=? m_nIoIndex s then m_nIoIndex s else next) mod size in
  do! (if 0 <=? m_nIoIndex s then ret tt else set_io (mkVxIo (m_pThreads (vx_io w)) (wrap 64 (next + 1)))) in
  do! vput pSocket (set_index nIoIdx s) in
  on_poll (Z.to_nat nIoIdx) (Poll_Add pSocket (handle_ (base s)) (m_nEventFlag s)).
Definition RemoveChannel (pSocket : nat) : VM bool :=
  let! w := get in
  if negb (Io_IsValid (vx_io w)) then do! vos (set_error_code ERROR_NOT_READY) in ret false else
  let! s := deref pSocket in
  let nIoIndex := m_nIoIndex s in
  if (nIoIndex <? 0) || (Z.of_nat (length (m_pThreads (vx_io w))) <=? nIoIndex) then ret false else
  do! on_poll (Z.to_nat nIoIndex) (Poll_Remove pSocket (handle_ (base s))) in ret true.
(** [AsyncVxIo::SetTimer]: the timers are commented out. *)
Definition Io_SetTimer (pSocket : nat) (nInterval : Z) : VM bool :=
  let! w := get in
  if negb (Io_IsValid (vx_io w)) then do! vos (set_error_code ERROR_NOT_READY) in ret false else
  let! s := deref pSocket in
  ret (negb ((m_nIoIndex s <? 0) || (Z.of_nat (length (m_pThreads (vx_io w))) <=? m_nIoIndex s))).

(** Leaving the channel, in front of [Detach], [Close] and the destructor. *)
Definition leave_channel (this : nat) : VM unit :=
  let! s := deref this in
  if 0 <=? m_nIoIndex s then do! RemoveChannel this in vchange this (set_index (-1)) else ret tt.
Definition Vx_Attach (this : nat) (nHandle nType : Z) (bConnected bListening bPrepared : bool) : VM bool :=
  let! ok := on_base this (Attach nHandle nType false) in
  if negb ok then ret false else
  do! vchange this (set_state bConnected bListening bPrepared) in
  do! vchange this (set_index (-1)) in
  let! added := AddChannel this in
  ret added.
Definition Vx_Detach (this : nat) : VM bool :=
  let! s := deref this in
  if negb (vx_valid s) then do! vos (set_error_code ERROR_NOT_READY) in ret false else
  do! leave_channel this in
  do! vchange this (fun s => set_state false false (m_bPrepared s) s) in
  on_base this Detach.
Definition Vx_Close (this : nat) : VM bool :=
  do! leave_channel this in
  do! vchange this (set_state false false false) in
  on_base this Close.
Definition Vx_Create (this : nat) (nType : SocketType) (nAddress : sockaddr_in) (bReuseAddress : bool) : VM bool :=
  let! s := deref this in
  if vx_valid s then do! vos (set_error_code ERROR_ALREADY_EXISTS) in ret false else
  let! created := on_base this (SocketCreate nType nAddress bReuseAddress) in
  if negb created then ret false else
  do! vchange this (fun s => set_state false false (m_bPrepared s) s) in
  let! unblocked := on_base this (SetBlocking false) in
  let! bResult :=
    (if negb unblocked then ret false else
     let! s := deref this in
     if negb (-1 =? m_nIoIndex s) then lift Throw else AddChannel this) in
  if bResult then ret true else
  let! nErrorCode := vos error_code in
  do! Vx_Close this in
  do! vos (set_error_code nErrorCode) in ret false.
Definition Vx_Listen (this : nat) (nBackLog : Z) : VM bool :=
  let! ok := on_base this (Listen nBackLog) in
  if negb ok then ret false else do! vchange this (fun s => set_state (m_bConnected s) true (m_bPrepared s) s) in ret true.
Definition Vx_Connect (this : nat) (nPeerAddress : sockaddr_in) : VM bool :=
  let! ok := on_base this (Connect nPeerAddress) in
  if negb ok then ret false else do! vchange this (fun s => set_state true (m_bListening s) (m_bPrepared s) s) in ret true.
Definition Vx_Connect_timeout (this : nat) (nPeerAddress : sockaddr_in) (nTimeoutMillis : Z) : VM bool :=
  let! ok := on_base this (Connect_timeout nPeerAddress nTimeoutMillis) in
  if negb ok then ret false else do! vchange this (fun s => set_state true (m_bListening s) (m_bPrepared s) s) in ret true.
Definition Vx_SetTimer (this : nat) (nInterval : Z) : VM bool :=
  let! ok := Io_SetTimer this nInterval in
  if ok then do! vchange this (fun s => mkVx (base s) (m_nIoIndex s) (m_nEventFlag s) (m_bConnected s) (m_bListening s) (m_bPrepared s) (m_nTimerCalled s) nInterval) in ret true
  else ret false.
Definition Vx_delete (this : nat) : VM unit :=
  do! leave_channel this in
  do! on_base this Socket_destroy in
  let! w := get in set_heap (delete this (vx_heap w)).

(** ** [AsyncVxIo] *)

(** One thread of [Create]: its poll, then its start. *)
Definition create_thread (nPoolSize : Z) (p : pthread) : VM (option IoThread) :=
  let! w := get in
  let! r := lift (Poll_Create nPoolSize (AsyncPoll_new, vx_os w)) in
  do! modify (fun w => mkVxWorld (vx_heap w) (vx_io w) r.2.2 (vx_log w)) in
  let delete_thread := let! w := get in
    let! c := lift (Poll_Close (r.2.1, vx_os w)) in
    modify (fun w => mkVxWorld (vx_heap w) (vx_io w) c.2.2 (vx_log w)) in
  if negb r.1 then do! delete_thread in ret None else
  let '(ok, t) := Thread_Start p Thread_new in
  if ok then ret (Some (mkIo t r.2.1)) else
  do! (if t_running t then ret tt else vos (set_error_code (create p))) in
  do! delete_thread in ret None.
Fixpoint create_threads (nPoolSize : Z) (ps : list pthread) (n count : nat) : VM bool :=
  match count, ps with
  | S k, p :: r =>
      let! t := create_thread nPoolSize p in
      match t with
      | None => ret false
      | Some t =>
          do! modify (fun w => mkVxWorld (vx_heap w) (mkVxIo (<[n := Some t]> (m_pThreads (vx_io w))) (m_nNextIoIdx (vx_io w))) (vx_os w) (vx_log w)) in
          create_threads nPoolSize r (S n) k
      end
  | O, _ => ret true
  | _, [] => ret false
  end.
(** The threads are stopped, waited for and deleted through a pointer to their
    base class, whose destructor is not virtual: formally undefined, in practice
    the destructor of the poll does not run. *)
Definition Io_Close (current : Z) : VM bool :=
  let! w := get in
  if existsb (fun t : option IoThread => match t with Some t => t_id (io_base t) =? current | None => false end) (m_pThreads (vx_io w))
  then do! vos (set_error_code EPERM) in ret false
  else
    do! set_io (mkVxIo [] (m_nNextIoIdx (vx_io w))) in ret true.
Definition ERROR_INVALID_PARAMETER : Z := 34.
(** [cores]: what [System] reports; [ps]: what pthread answers to each start. *)
Definition Io_Create (cores : nat) (ps : list pthread) (current nPoolSize : Z) (nThreadCount : nat) : VM bool :=
  if Nat.ltb MAX_IO_COUNT nThreadCount then do! vos (set_error_code ERROR_INVALID_PARAMETER) in ret false else
  let! w := get in
  if negb (Nat.eqb (length (m_pThreads (vx_io w))) 0) then do! vos (set_error_code ERROR_ALREADY_EXISTS) in ret false else
  let nThreadCount := MAX (if Nat.eqb nThreadCount 0 then cores else nThreadCount) 1 in
  do! set_io (mkVxIo (replicate nThreadCount None) (m_nNextIoIdx (vx_io w))) in
  let! bSuccess := create_threads nPoolSize ps 0 nThreadCount in
  if bSuccess then ret true else
  let! nErrorCode := vos error_code in
  do! Io_Close current in
  do! vos (set_error_code nErrorCode) in ret false.

(** ** The loop of an io thread *)

(** The user's overrides of the virtual methods, and the control object if one
    is set. *)
Class Handlers := { handler : callback -> M Vx unit }.
Definition call_back `{Handlers} (c : callback) : VM unit :=
  do! modify (fun w => mkVxWorld (vx_heap w) (vx_io w) (vx_os w) (vx_log w ++ [c])) in handler c.
Definition has (events flag : Z) : bool := negb (Z.land events flag =? 0).
(** The part of the loop that handles [ASYNC_EVENT_OUT]. *)
Definition dispatch_out `{Handlers} (this : nat) : VM unit :=
  let! s := deref this in
  let control := match m_pCustomControl (base s) with Some _ => true | None => false end in
  if IsConnectable (base s) && m_bConnectBlocked (base s) then
    do! vchange this (fun s => set_base (set_connect_blocked false (base s)) s) in
    let! nConnectError := on_base this GetSocketError in
    let connected := 0 =? nConnectError in
    do! vchange this (fun s => set_state connected (m_bListening s) (m_bPrepared s) s) in
    if connected && control then call_back (CtlConnect this) else call_back (OnConnect this nConnectError)
  else if control then call_back (CtlSend this) else call_back (OnSend this).
Definition dispatch_in `{Handlers} (this : nat) : VM unit :=
  let! s := deref this in
  let control := match m_pCustomControl (base s) with Some _ => true | None => false end in
  if m_bListening s then (if control then call_back (CtlAccept this) else call_back (OnAccept this))
  else (if control then call_back (CtlReceive this) else call_back (OnReceive this)).
(** [k] if the flag is there and the socket still has the serial number. *)
Definition if_current (events flag : Z) (this : nat) (nSerialNumber : Z) (k : VM unit) : VM unit :=
  if has events flag then
    let! s := deref this in
    if nSerialNumber =? m_nSerailNumber (base s) then k else ret tt
  else ret tt.
Definition dispatch `{Handlers} (nEvent : AsyncEvent) : VM unit :=
  let '(events, this) := nEvent in
  let! s := deref this in
  let nSerialNumber := m_nSerailNumber (base s) in
  do! (if m_bPrepared s then
         do! if_current events ASYNC_EVENT_OUT this nSerialNumber (dispatch_out this) in
         if_current events ASYNC_EVENT_IN this nSerialNumber (dispatch_in this)
       else ret tt) in
  if_current events ASYNC_EVENT_ERR this nSerialNumber (call_back (OnError this)).
Fixpoint dispatch_all `{Handlers} (l : list AsyncEvent) : VM unit :=
  match l with
  | [] => ret tt
  | e :: r => do! dispatch e in dispatch_all r
  end.
Definition WAIT_EVENT_SIZE : nat := 100.
Definition WAIT_TIMEOUT_MS : Z := 10.
(** One round of [AsyncCustomIoThread::Run] of the thread [n]. *)
Definition io_turn `{Handlers} (n : nat) : VM unit :=
  let! r := on_poll n (WaitEvent WAIT_EVENT_SIZE WAIT_TIMEOUT_MS) in
  if r.1 <? 0 then do! vos (Sleep 5000) in ret tt
  else dispatch_all (take (Z.to_nat r.1) r.2).
End Channels.

(** ** The extra events as a map from sockets to flags *)

Definition extra (l : list AsyncEvent) : gmap nat Z := list_to_map (map (fun e : AsyncEvent => (e.2, e.1)) l).
Definition events_ok (p : AsyncPoll) : Prop := NoDup (map snd (m_pAppendEvents p)).

Lemma extra_cons f s l : extra ((f, s) :: l) = <[s := f]> (extra l).
Proof. done. Qed.
Lemma extra_app l l' : extra (l ++ l') = extra l ∪ extra l'.
Proof. unfold extra. by rewrite map_app, list_to_map_app. Qed.
Lemma extra_None s l : s ∉ map snd l -> extra l !! s = None.
Proof. intros Hs. apply not_elem_of_list_to_map_1. unfold fmap. by rewrite map_map. Qed.
Lemma merge_event_spec s f l : NoDup (map snd l) ->
  NoDup (map snd (merge_event s f l)) /\ (forall x, x ∈ map snd (merge_event s f l) <-> x = s \/ x ∈ map snd l) /\
  extra (merge_event s f l) = <[s := Z.lor (default 0 (extra l !! s)) f]> (extra l).
Proof.
  induction l as [|[g t] l IH]; intros Hn; cbn [merge_event].
  { repeat split; [apply NoDup_singleton| |]; cbn; set_solver. }
  cbn [map snd] in Hn. apply NoDup_cons in Hn as [Ht Hn]. destruct (IH Hn) as (I1 & I2 & I3). destruct (Nat.eqb_spec t s) as [->|Hne].
  - repeat split; [by apply NoDup_cons|cbn; set_solver..|]. by rewrite !extra_cons, insert_insert_eq, lookup_insert_eq.
  - cbn [map snd]. repeat split.
    + apply NoDup_cons. split; [|done]. rewrite I2. by intros [->|?].
    + rewrite !elem_of_cons, I2. tauto.
    + rewrite !elem_of_cons, I2. tauto.
    + rewrite !extra_cons, I3, insert_insert_ne, lookup_insert_ne by done. done.
Qed.
Lemma remove_events_spec s l : NoDup (map snd l) ->
  NoDup (map snd (remove_events s l)) /\ (forall x, x ∈ map snd (remove_events s l) -> x ∈ map snd l) /\ extra (remove_events s l) = delete s (extra l).
Proof.
  unfold remove_events. induction l as [|[g t] l IH]; intros Hn.
  { split; [done|]. split; [done|]. symmetry. apply delete_empty. }
  cbn [map snd] in Hn. apply NoDup_cons in Hn as [Ht Hn]. destruct (IH Hn) as (I1 & I2 & I3). rewrite filter_cons. cbn [snd].
  destruct (decide (t <> s)) as [Hne|He].
  - cbn [map snd]. repeat split; [apply NoDup_cons; auto|set_solver|]. rewrite !extra_cons, I3, delete_insert_ne; done.
  - assert (t = s) as -> by (destruct (decide (t = s)); tauto). repeat split; [done|set_solver|].
    by rewrite extra_cons, delete_insert_eq, I3.
Qed.

(** The extra events are a map from sockets to flags, however they are kept:
    appending joins the flags of the socket's entry, removing a socket from the
    poll forgets its entry and no other, and a wait while there are any hands
    out the oldest, as many as fit, asks the system nothing, and keeps the rest. *)
Theorem events_refine `{HB : Bsd} s h f n ms p (o : Os) : events_ok p ->
  (exists p', AppendEvent s true f (p, o) = Ret (true, (p', o)) /\ events_ok p' /\
     extra (m_pAppendEvents p') = <[s := Z.lor (default 0 (extra (m_pAppendEvents p) !! s)) f]> (extra (m_pAppendEvents p))) /\
  (Poll_IsValid p = true -> exists b p' o', Poll_Remove s h (p, o) = Ret (b, (p', o')) /\ events_ok p' /\
     extra (m_pAppendEvents p') = delete s (extra (m_pAppendEvents p))) /\
  (m_pAppendEvents p <> [] -> n <> 0%nat -> exists l p', WaitEvent n ms (p, o) = Ret ((Z.of_nat (length l), l), (p', o)) /\ events_ok p' /\
     m_pAppendEvents p = l ++ m_pAppendEvents p' /\ length l = Nat.min n (length (m_pAppendEvents p)) /\
     extra (m_pAppendEvents p) = extra l ∪ extra (m_pAppendEvents p') /\ extra l ##ₘ extra (m_pAppendEvents p')).
Proof.
  intros Hp. split; [|split].
  - destruct (merge_event_spec s f _ Hp) as (I1 & _ & I3). by eexists.
  - intros V. destruct (remove_events_spec s _ Hp) as (I1 & _ & I3). unfold Poll_Remove, pcheck, not_poll, bind, pget, pset, modify. cbn.
    rewrite V. cbn. unfold psys, zoom, call. cbn. destruct (perform _ _) as [r k]. cbn. do 3 eexists. split; [reflexivity|]. by split.
  - intros Hne Hn. unfold WaitEvent. destruct (Nat.eqb_spec n 0); [done|]. unfold bind, pget, pset, modify. cbn.
    destruct (m_pAppendEvents p) as [|e l] eqn:El; [done|]. rewrite <- El in *. cbn.
    exists (take n (m_pAppendEvents p)), (mkPoll (m_nEpoll p) (drop n (m_pAppendEvents p))). split; [done|]. cbn.
    unfold events_ok in Hp. rewrite <- (take_drop n (m_pAppendEvents p)), map_app in Hp at 1. apply NoDup_app in Hp as (H1 & H2 & H3).
    split; [done|]. split; [by rewrite take_drop|]. split; [by rewrite length_take|]. split; [rewrite <- (take_drop n (m_pAppendEvents p)) at 1; apply extra_app|].
    apply map_disjoint_spec. intros i x y Hx Hy. destruct (decide (i ∈ map snd (take n (m_pAppendEvents p)))) as [Hi|Hi].
    + pose proof (eq_trans (eq_sym Hy) (extra_None i (drop n (m_pAppendEvents p)) (H2 i Hi))). done.
    + pose proof (eq_trans (eq_sym Hx) (extra_None i (take n (m_pAppendEvents p)) Hi)). done.
Qed.

(** ** What copying a buffer does to its memory *)

Definition owns (b : AsyncBuffer) (m : memory) : Prop :=
  m_bAttach b = false /\ exists p d, m_pBuffer b = Some p /\ blocks m !! p = Some d /\ Z.of_nat (length d) = m_nSize b /\ 0 < m_nSize b /\
    0 <= m_nDataOffset b /\ 0 <= m_nDataSize b /\ m_nDataOffset b + m_nDataSize b <= m_nSize b /\ (p < brk m)%nat.
Definition data_of (b : AsyncBuffer) (m : memory) : option (list Z) :=
  p ← m_pBuffer b; d ← blocks m !! p; Some (take (Z.to_nat (m_nDataSize b)) (drop (Z.to_nat (m_nDataOffset b)) d)).
Definition fresh_above (m : memory) : Prop := forall p, is_Some (blocks m !! p) -> (p < brk m)%nat.

Lemma Release_owned b m p d : m_bAttach b = false -> m_pBuffer b = Some p -> blocks m !! p = Some d ->
  Release b m = Ret (Tidy, mkMemory (delete p (blocks m)) (brk m)).
Proof. intros E1 E2 E3. unfold Release, free. by rewrite E1, E2, E3. Qed.
Lemma copied_range k n (bd bs : list Z) : (k + n <= length bs)%nat -> length bd = length bs ->
  take n (drop k (take k bd ++ take n (drop k bs) ++ drop (k + n) bd)) = take n (drop k bs).
Proof.
  intros Hl E. rewrite drop_app_length' by (rewrite length_take; lia).
  rewrite take_app_length' by (rewrite length_take, length_drop; lia). done.
Qed.

(** Copying a buffer that owns its block, into an object that owns another or
    none: the allocator willing, the object owns a fresh block of the same size
    with the same data at the same place, its old block is gone, the source's and
    every other block are as they were.  Should the allocation fail, the copy goes on
    to write through a null pointer. *)
Theorem Assign_copies `{Malloc} src this m : owns src m -> fresh_above m ->
  this = Tidy \/ owns this m /\ m_pBuffer this <> m_pBuffer src ->
  let freed := from_option (fun p => {[p]}) (∅ : gset nat) (m_pBuffer this) in
  if malloc_ok (m_nSize src) (brk m)
  then exists this' m', Assign src this m = Ret (this', m') /\ owns this' m' /\ m_pBuffer this' = Some (brk m) /\
    data_of this' m' = data_of src m /\ m_nSize this' = m_nSize src /\ m_nDataOffset this' = m_nDataOffset src /\
    (forall q, (q < brk m)%nat -> blocks m' !! q = if decide (q ∈ freed) then None else blocks m !! q)
  else Assign src this m = Undef NullDeref.
Proof.
  intros (Ha & p & d & Ep & Ed & El & Hs & Ho & Hz & Hod & Hb) Hf Ht freed.
  assert (forall b, m_bAttach b = false -> m_pBuffer b = m_pBuffer this ->
    exists bl, Release b m = Ret (Tidy, mkMemory bl (brk m)) /\ bl !! p = Some d /\
    forall q, bl !! q = if decide (q ∈ freed) then None else blocks m !! q) as HR.
  { intros b Eb E. destruct Ht as [->|[(_ & p' & d' & Ep' & Ed' & _) Hne]].
    - exists (blocks m). unfold Release. rewrite Eb, E. destruct m. cbn in *. split; [done|]. split; [done|]. intros q. by rewrite decide_False by set_solver.
    - exists (delete p' (blocks m)). rewrite (Release_owned b m p' d') by congruence. split; [done|].
      assert (p <> p') by congruence. split; [by rewrite lookup_delete_ne|]. intros q. unfold freed. rewrite Ep'. cbn.
      destruct (decide (q ∈ {[p']})) as [->%elem_of_singleton|Hq]; [by rewrite lookup_delete_eq|].
      rewrite lookup_delete_ne; [done|]. intros ->. apply Hq. by apply elem_of_singleton. }
  unfold Assign. rewrite Ep, Ha. destruct (m_nSize src) as [|z|z] eqn:Ez; [lia| |lia]. rewrite <- Ez in *.
  destruct (HR (mkBuffer false (m_pBuffer this) (m_nSize this) (m_nDataOffset this) (m_nDataSize this)) eq_refl eq_refl) as (bl & ER & Ebp & Hbl).
  unfold Allocate. rewrite ER. cbn [obind fst snd brk blocks]. destruct (malloc_ok (m_nSize src) (brk m)); cbn [obind fst snd m_pBuffer m_bAttach]; [|done].
  set (z0 := replicate (Z.to_nat (m_nSize src)) 0). unfold copy_range. cbn [blocks brk].
  rewrite lookup_insert_eq, lookup_insert_ne, Ebp by lia. unfold z0. rewrite length_replicate, Z2Nat.id, El by lia.
  destruct (Z.leb_spec (m_nDataOffset src + m_nDataSize src) (m_nSize src)); [|lia]. cbn [andb obind].
  eexists _, _. split; [reflexivity|]. unfold owns, data_of. cbn [m_bAttach m_pBuffer m_nSize m_nDataOffset m_nDataSize blocks brk].
  assert (Z.to_nat (m_nDataOffset src) + Z.to_nat (m_nDataSize src) <= length d)%nat by lia.
  assert (length z0 = length d) as Elz by (unfold z0; rewrite length_replicate; lia).
  split; [split; [done|]; eexists _, _; split; [done|]; split; [apply lookup_insert_eq|]; split; [|lia]|].
  { rewrite !length_app, length_take, length_take, length_drop, length_drop, length_replicate. lia. }
  split; [done|]. split; [cbn; rewrite lookup_insert_eq, Ep; cbn; rewrite Ed; cbn; f_equal; by apply copied_range|].
  split; [done|]. split; [done|]. intros q Hq. rewrite !lookup_insert_ne by lia. apply Hbl.
Qed.

(** An attached buffer is copied as one that owns: [Release] clears the flag that
    was set just before.  Destroying the copy frees the block of someone else. *)
Lemma attached_copy_frees `{Malloc} b p d m : m_bAttach b = true -> m_pBuffer b = Some p -> m_nSize b <> 0 -> blocks m !! p = Some d ->
  exists c m', AsyncBuffer_copy b m = Ret (c, m) /\ m_bAttach c = false /\ m_pBuffer c = Some p /\
    AsyncBuffer_destroy c m = Ret m' /\ blocks m' !! p = None.
Proof.
  intros E1 E2 E3 E4. unfold AsyncBuffer_copy, Assign. rewrite E1, E2. destruct (m_nSize b) eqn:Ez; [done| |]; cbn; destruct m as [bl k]; cbn in *;
    (eexists _, _; split; [done|]; split; [done|]; split; [done|]; unfold AsyncBuffer_destroy, Release, free; cbn; rewrite E4; cbn;
     split; [done|apply lookup_delete_eq]).
Qed.
(** The flag is overwritten before the old block is released: an attached object
    frees the block it does not own, one that owns loses its block. *)
Lemma attached_target_frees `{Malloc} src this p q d m : owns src m -> m_pBuffer src <> Some p -> m_bAttach this = true -> m_pBuffer this = Some p ->
  blocks m !! p = Some d -> Assign src this m = Ret q -> fresh_above m -> blocks q.2 !! p = None.
Proof.
  intros (Ha & s & e & Es & Ee & _ & Hs & _) Hne Hat Hp Ed E Hf. unfold Assign in E. rewrite Es, Ha in E.
  destruct (m_nSize src) as [|z|z] eqn:Ez; [lia| |lia]. unfold Allocate, Release, free in E. cbn in E. rewrite Hp, Ed in E. cbn in E.
  assert (p < brk m)%nat by (apply Hf; eauto). destruct (malloc_ok _ _); cbn in E; [|done]. unfold copy_range in E. cbn in E.
  rewrite lookup_insert_eq in E. destruct (<[_:=_]> (delete p (blocks m)) !! s) as [x|]; [|done]. destruct (_ && _); cbn in E; [|done].
  injection E as <-. cbn. rewrite !lookup_insert_ne by lia. apply lookup_delete_eq.
Qed.
Lemma owned_target_leaks `{Malloc} src this p q m : m_bAttach src = true -> m_pBuffer src = Some q -> m_nSize src <> 0 -> m_pBuffer this = Some p ->
  exists c, Assign src this m = Ret (c, m) /\ m_pBuffer c = Some q.
Proof. intros E1 E2 E3 E4. unfold Assign. rewrite E1, E2. destruct (m_nSize src); [done| |]; by eexists. Qed.

(** ** Creating a socket in a channel *)
Section ChannelFacts.
Context `{HB : Bsd}.

Lemma on_base_run {A} this (m : SM A) w s a b o : vx_heap w !! this = Some s -> m (base s, vx_os w) = Ret (a, (b, o)) ->
  on_base this m w = Ret (a, mkVxWorld (<[this := set_base b s]> (vx_heap w)) (vx_io w) o (vx_log w)).
Proof. intros Es Em. unfold on_base, bind, deref, get, lift. rewrite Es. cbn. by rewrite Em. Qed.
Lemma on_poll_run {A} n (m : PM A) w t a p o : m_pThreads (vx_io w) !! n = Some (Some t) -> m (m_nPoll t, vx_os w) = Ret (a, (p, o)) ->
  on_poll n m w = Ret (a, mkVxWorld (vx_heap w) (mkVxIo (<[n := Some (mkIo (io_base t) p)]> (m_pThreads (vx_io w))) (m_nNextIoIdx (vx_io w))) o (vx_log w)).
Proof. intros Et Em. unfold on_poll, thread_at, bind, get, lift. cbn. rewrite Et. cbn. by rewrite Em. Qed.
Lemma vchange_run this f w s : vx_heap w !! this = Some s ->
  vchange this f w = Ret (tt, mkVxWorld (<[this := f s]> (vx_heap w)) (vx_io w) (vx_os w) (vx_log w)).
Proof. intros Es. unfold vchange, bind, deref. by rewrite Es. Qed.

(** The calls of the poll, which neither open nor close a descriptor. *)
Lemma psys_call c (p : AsyncPoll) o : psys (call c) (p, o) = Ret (answer c o, (p, after c o)).
Proof. unfold psys, zoom. cbn [snd fst]. by rewrite call_run. Qed.
Ltac run_poll := repeat (first [rewrite (bind_ret_run _ _ _ _ _ (psys_call _ _ _))|rewrite (bind_ret_run pget _ _ _ _ eq_refl)
  |rewrite (bind_ret_run (pset _) _ _ _ _ eq_refl)]; cbv beta; cbn [snd fst]).
Lemma Poll_Add_run i h f p o : exists b p' o' new, Poll_Add i h f (p, o) = Ret (b, (p', o')) /\ calls o' = calls o ++ new /\ Forall quiet new.
Proof.
  unfold Poll_Add, pcheck, not_poll. run_poll. destruct (negb (Poll_IsValid p)).
  { do 3 eexists. exists []. split; [reflexivity|]. split; [by rewrite app_nil_r|by apply Forall_nil]. }
  run_poll. destruct (_ =? 0).
  { do 3 eexists. eexists [_]. split; [reflexivity|]. rewrite calls_after. split; [done|]. apply Forall_singleton. exact I. }
  rewrite (bind_ret_run (psys error_code) _ _ _ _ eq_refl). cbv beta. cbn [snd fst]. destruct (negb _).
  { do 3 eexists. eexists [_]. split; [reflexivity|]. rewrite calls_after. split; [done|]. apply Forall_singleton. exact I. }
  run_poll. do 3 eexists. eexists [_; _]. split; [reflexivity|]. rewrite !calls_after, <- app_assoc. split; [done|].
  apply Forall_cons. split; [exact I|]. apply Forall_singleton. exact I.
Qed.
Lemma Poll_Remove_run i h p o : exists b p' o' new, Poll_Remove i h (p, o) = Ret (b, (p', o')) /\ calls o' = calls o ++ new /\ Forall quiet new.
Proof.
  unfold Poll_Remove, pcheck, not_poll. run_poll. destruct (negb (Poll_IsValid p)).
  { do 3 eexists. exists []. split; [reflexivity|]. split; [by rewrite app_nil_r|by apply Forall_nil]. }
  run_poll. do 3 eexists. eexists [_]. split; [reflexivity|]. rewrite calls_after. split; [done|]. apply Forall_singleton. exact I.
Qed.

Definition io_ok (io : AsyncVxIo) : Prop := m_pThreads io <> [] /\ Forall is_Some (m_pThreads io).
Lemma io_ok_insert io n t k : io_ok io -> io_ok (mkVxIo (<[n := Some t]> (m_pThreads io)) k).
Proof.
  intros [Hn Ha]. split; cbn; [intros E; apply (f_equal length) in E; rewrite length_insert in E; by destruct (m_pThreads io)|].
  by apply Forall_insert.
Qed.
Lemma io_valid io : io_ok io -> Io_IsValid io = true.
Proof. intros [Hn _]. unfold Io_IsValid. by destruct (m_pThreads io). Qed.
Lemma thread_there io i : io_ok io -> 0 <= i < Z.of_nat (length (m_pThreads io)) -> exists t, m_pThreads io !! Z.to_nat i = Some (Some t).
Proof.
  intros [_ Ha] Hi. destruct (lookup_lt_is_Some_2 (m_pThreads io) (Z.to_nat i) ltac:(lia)) as [x Ex].
  destruct (Forall_lookup_1 _ _ _ _ Ha Ex) as [t ->]. by exists t.
Qed.

Definition in_range (w : Vx) (i : Z) : Prop := 0 <= i < Z.of_nat (length (m_pThreads (vx_io w))).
Lemma AddChannel_run this w s : vx_heap w !! this = Some s -> m_nIoIndex s = -1 -> io_ok (vx_io w) ->
  exists b w' new i, AddChannel this w = Ret (b, w') /\ calls (vx_os w') = calls (vx_os w) ++ new /\ Forall quiet new /\
    vx_heap w' = <[this := set_index i s]> (vx_heap w) /\ in_range w' i /\ io_ok (vx_io w').
Proof.
  intros Es Ei Hio. unfold AddChannel, bind at 1, get. cbn [obind fst snd]. rewrite io_valid by done. cbn [negb].
  unfold bind at 1, deref at 1. rewrite Es. cbn [obind fst snd]. rewrite Ei. cbn [Z.leb Z.compare].
  set (size := Z.of_nat (length (m_pThreads (vx_io w)))). set (i := m_nNextIoIdx (vx_io w) mod size).
  assert (0 < size) by (unfold size; destruct Hio as [Hn _]; destruct (m_pThreads (vx_io w)); [done|cbn; lia]).
  assert (0 <= i < size) as Hi by (apply Z.mod_pos_bound; lia).
  destruct (thread_there _ i Hio Hi) as [t Et].
  match goal with |- context [bind (set_io ?x) _ w] => set (io' := x) end.
  rewrite (bind_ret_run (set_io io') _ w tt (mkVxWorld (vx_heap w) io' (vx_os w) (vx_log w)) eq_refl).
  unfold vput. match goal with |- context [set_index i s] => set (s' := set_index i s) end.
  match goal with |- context [bind (bind get _) _ ?w0] => rewrite (bind_ret_run _ _ w0 tt (mkVxWorld (<[this := s']> (vx_heap w)) io' (vx_os w) (vx_log w)) eq_refl) end.
  destruct (Poll_Add_run this (handle_ (base s)) (m_nEventFlag s) (m_nPoll t) (vx_os w)) as (b & p & o & new & Ep & Ec & Hq).
  erewrite (on_poll_run (Z.to_nat i)); [|exact Et|exact Ep]. eexists _, _, new, i. split; [reflexivity|]. cbn [vx_os vx_heap vx_io m_pThreads].
  split; [done|]. split; [done|]. split; [done|]. split; [unfold in_range; cbn; rewrite length_insert; exact Hi|].
  apply (io_ok_insert io' (Z.to_nat i)). exact Hio.
Qed.
Lemma leave_channel_run this w s : vx_heap w !! this = Some s -> m_nIoIndex s < 0 \/ in_range w (m_nIoIndex s) -> io_ok (vx_io w) ->
  exists w' new, leave_channel this w = Ret (tt, w') /\ calls (vx_os w') = calls (vx_os w) ++ new /\ Forall quiet new /\
    vx_heap w' !! this = Some (set_index (if 0 <=? m_nIoIndex s then -1 else m_nIoIndex s) s) /\ io_ok (vx_io w').
Proof.
  intros Es Hi Hio. unfold leave_channel, bind at 1, deref at 1. rewrite Es. cbn [obind fst snd]. destruct (Z.leb_spec 0 (m_nIoIndex s)) as [H0|H0].
  - destruct Hi as [?|Hi]; [lia|]. destruct (thread_there _ _ Hio Hi) as [t Et]. unfold in_range in Hi.
    assert (exists w1 new, RemoveChannel this w = Ret (true, w1) /\ calls (vx_os w1) = calls (vx_os w) ++ new /\ Forall quiet new /\
      vx_heap w1 = vx_heap w /\ io_ok (vx_io w1)) as (w1 & new & E1 & Ec & Hq & Eh & Hio1).
    { unfold RemoveChannel, bind at 1, get. cbn [obind fst snd]. rewrite io_valid by done. cbn [negb]. unfold bind at 1, deref at 1. rewrite Es. cbn [obind fst snd].
      destruct (Z.ltb_spec (m_nIoIndex s) 0), (Z.leb_spec (Z.of_nat (length (m_pThreads (vx_io w)))) (m_nIoIndex s)); try lia. cbn [orb].
      destruct (Poll_Remove_run this (handle_ (base s)) (m_nPoll t) (vx_os w)) as (b & p & o & new & Ep & Ec & Hq).
      erewrite bind_ret_run; [|eapply on_poll_run; [exact Et|exact Ep]]. eexists _, new. split; [reflexivity|]. split; [done|]. split; [done|]. split; [done|].
      by apply (io_ok_insert (vx_io w)). }
    rewrite (bind_ret_run _ _ _ _ _ E1). rewrite <- Eh in Es. rewrite (vchange_run _ _ _ _ Es). eexists _, new. split; [reflexivity|]. cbn.
    split; [done|]. split; [done|]. split; [apply lookup_insert_eq|done].
  - eexists w, []. split; [done|]. split; [by rewrite app_nil_r|]. split; [by apply Forall_nil|]. split; [|done]. rewrite Es. by destruct s.
Qed.
Lemma SetBlocking_run b s o : exists ok s', SetBlocking b (s, o) = Ret (ok, (s', after (c_ioctl_nbio (handle_ s) (negb b)) o)) /\
  handle_ s' = handle_ s /\ (ok = true -> m_bBlocking s' = b).
Proof.
  unfold SetBlocking. rewrite bind_this, bind_sys. cbv beta. destruct (_ =? 0); [exists true, (set_blocking b s)|exists false, s]; done.
Qed.
Lemma Close_run s o : Close (s, o) = Ret (true, (set_handle INVALID_HANDLE s, after (c_close (handle_ s)) o)).
Proof. unfold Close. by rewrite bind_this, bind_sys. Qed.
Lemma Vx_Close_run this w s : vx_heap w !! this = Some s -> m_nIoIndex s < 0 \/ in_range w (m_nIoIndex s) -> io_ok (vx_io w) ->
  exists w' s' new r, Vx_Close this w = Ret (true, w') /\ calls (vx_os w') = calls (vx_os w) ++ new ++ [(c_close (handle_ (base s)), r)] /\ Forall quiet new /\
    vx_heap w' !! this = Some s' /\ vx_valid s' = false /\ (0 <= m_nIoIndex s \/ m_nIoIndex s = -1 -> m_nIoIndex s' = -1).
Proof.
  intros Es Hi Hio. destruct (leave_channel_run this w s Es Hi Hio) as (w1 & new & E1 & Ec & Hq & Eh & _). unfold Vx_Close.
  rewrite (bind_ret_run _ _ _ _ _ E1). rewrite (bind_ret_run _ _ _ _ _ (vchange_run this _ w1 _ Eh)).
  erewrite (on_base_run this Close); [|apply lookup_insert_eq|apply Close_run]. eexists _, _, new, _.
  split; [reflexivity|]. cbn [vx_os vx_heap fst snd set_base base set_state set_index]. split.
  - rewrite calls_after, Ec, <- app_assoc. reflexivity.
  - split; [done|]. split; [apply lookup_insert_eq|]. split; [done|]. cbn. destruct (Z.leb_spec 0 (m_nIoIndex s)); [done|]. intros [?|?]; lia.
Qed.

(** Creating a socket in a channel is all or nothing.  With true the socket
    holds the one descriptor the run has opened, does not block, and sits in the
    channel of an io thread that exists; with false, whether the socket, the
    binding, the switch to non-blocking or the poll refused, the run leaves no
    descriptor open, and the socket is invalid and in no channel. *)
Theorem Vx_Create_owns type address reuse this s w : vx_heap w !! this = Some s -> vx_valid s = false -> m_nIoIndex s = -1 ->
  m_nSerailNumber (base s) < 2 ^ 31 - 1 -> io_ok (vx_io w) ->
  exists b w' s' new, Vx_Create this type address reuse w = Ret (b, w') /\ vx_heap w' !! this = Some s' /\
    calls (vx_os w') = calls (vx_os w) ++ new /\ opened new = (if b then [handle_ (base s')] else []) /\ vx_valid s' = b /\
    (if b then in_range w' (m_nIoIndex s') /\ m_bBlocking (base s') = false /\ m_bConnected s' = false /\ m_bListening s' = false else m_nIoIndex s' = -1).
Proof.
  intros Es V Ei N Hio. destruct (SocketCreate_run type address reuse (base s) (vx_os w) V N) as (b0 & s1 & o1 & new1 & E1 & C1 & V1 & O1 & _).
  unfold Vx_Create, bind at 1, deref at 1. rewrite Es. cbn [obind fst snd]. rewrite V.
  erewrite bind_ret_run; [|by eapply on_base_run]. destruct b0; cbn [negb].
  2: { eexists false, _, _, new1. split; [reflexivity|]. cbn [vx_heap vx_os]. split; [apply lookup_insert_eq|]. by split. }
  erewrite bind_ret_run; [|apply vchange_run, lookup_insert_eq]. destruct (SetBlocking_run false s1 o1) as (ok & s2 & E2 & Eh2 & Eb).
  erewrite bind_ret_run; [|eapply on_base_run; [apply lookup_insert_eq|exact E2]]. cbn [vx_heap vx_io vx_os vx_log base set_base set_state].
  set (s3 := set_base s2 _). match goal with |- context [bind _ _ ?x] => set (w3 := x) end.
  assert (vx_heap w3 !! this = Some s3) as Es3 by apply lookup_insert_eq. assert (m_nIoIndex s3 = -1) as Ei3 by exact Ei.
  set (e := (c_ioctl_nbio (handle_ s1) true, answer (c_ioctl_nbio (handle_ s1) true) o1)).
  assert (calls (vx_os w3) = calls (vx_os w) ++ new1 ++ [e]) as C3.
  { cbn. by rewrite calls_after, C1, <- app_assoc. }
  assert (exists b w4 s4 new4, (if negb ok then ret false else let! s := deref this in if negb (-1 =? m_nIoIndex s) then lift Throw else AddChannel this) w3 = Ret (b, w4) /\
    vx_heap w4 !! this = Some s4 /\ base s4 = s2 /\ m_bConnected s4 = false /\ m_bListening s4 = false /\ (b = true -> ok = true /\ in_range w4 (m_nIoIndex s4)) /\
    (m_nIoIndex s4 = -1 \/ in_range w4 (m_nIoIndex s4)) /\ io_ok (vx_io w4) /\ calls (vx_os w4) = calls (vx_os w3) ++ new4 /\ Forall quiet new4)
    as (b & w4 & s4 & new4 & E4 & Es4 & Eb4 & Hc4 & Hl4 & Hb4 & Hi4 & Hio4 & C4 & Q4).
  { destruct ok; cbn [negb].
    - unfold bind at 1, deref at 1. rewrite Es3. cbn [obind fst snd]. rewrite Ei3. cbn [negb Z.eqb]. change (negb (-1 =? -1)) with false. cbn iota.
      destruct (AddChannel_run this w3 s3 Es3 Ei3 Hio) as (b & w4 & new4 & i & E4 & C4 & Q4 & Eh4 & Hi4 & Hio4).
      exists b, w4, (set_index i s3), new4. rewrite Eh4. split; [done|]. split; [apply lookup_insert_eq|]. repeat (split; [done|]). by split; [right|].
    - exists false, w3, s3, []. split; [done|]. split; [done|]. repeat (split; [done|]). split; [by left|]. split; [done|]. split; [by rewrite app_nil_r|by apply Forall_nil]. }
  rewrite (bind_ret_run _ _ _ _ _ E4). set (mid := new1 ++ [e] ++ new4).
  assert (calls (vx_os w4) = calls (vx_os w) ++ mid) as C by (unfold mid; by rewrite C4, C3, <- !app_assoc).
  assert (forall l, opened (mid ++ l) = fold_left open_step l [handle_ s1]) as Op.
  { intros l. unfold opened, mid in *. rewrite !fold_left_app, O1, (quiet_steps [e]), (quiet_steps new4) by (try done; by apply Forall_singleton). done. }
  destruct b.
  - destruct (Hb4 eq_refl) as [-> Hr]. exists true, w4, s4, mid. split; [done|]. split; [done|]. split; [exact C|].
    split; [rewrite <- (app_nil_r mid), Op, Eb4; cbn; by rewrite Eh2|]. unfold vx_valid. rewrite Eb4. split; [unfold IsValid in *; by rewrite Eh2|]. auto.
  - erewrite (bind_ret_run (vos error_code)); [|reflexivity]. match goal with |- context [bind (Vx_Close this) _ ?x] => replace x with w4 by (by destruct w4) end.
    destruct (Vx_Close_run this w4 s4 Es4 ltac:(destruct Hi4; [left; lia|by right]) Hio4) as (w5 & s5 & new5 & r & E5 & C5 & Q5 & Es5 & V5 & Hi5).
    rewrite (bind_ret_run _ _ _ _ _ E5). eexists false, _, s5, (mid ++ new5 ++ [_]). split; [reflexivity|]. split; [exact Es5|]. cbn [vx_os]. split.
    + etransitivity; [exact C5|]. rewrite C, <- !app_assoc. reflexivity.
    + split; [|split; [done|]]; [|apply Hi5; unfold in_range in Hi4; destruct Hi4 as [?|[? _]]; [by right|by left]].
      rewrite Op, fold_left_app, (quiet_steps new5), Eb4, Eh2 by done. cbn.
      rewrite decide_False by (intros X; by apply X). done.
Qed.
End ChannelFacts.

(** ** What an event leads to *)

Definition flag_of (c : callback) : Z :=
  match c with
  | OnConnect _ _ | OnSend _ | CtlConnect _ | CtlSend _ => ASYNC_EVENT_OUT
  | OnAccept _ | OnReceive _ | CtlAccept _ | CtlReceive _ => ASYNC_EVENT_IN
  | OnError _ => ASYNC_EVENT_ERR
  end.
Definition about (c : callback) : nat :=
  match c with OnConnect i _ | OnSend i | CtlConnect i | CtlSend i | OnAccept i | OnReceive i | CtlAccept i | CtlReceive i | OnError i => i end.
Section Dispatch.
Context `{HB : Bsd} `{HH : @Handlers HB}.
(** The handlers add nothing to the record of callbacks themselves. *)
Context (Hlog : forall c, keeps vx_log (handler c)).

Definition serial_at (w : Vx) (this : nat) : option Z := (fun s => m_nSerailNumber (base s)) <$> vx_heap w !! this.
(** [m] makes one callback, for [flag], on [this], whose serial number is [n]. *)
Definition calls_one (m : VM unit) (this : nat) (flag : Z) : Prop := forall w w', m w = Ret (tt, w') ->
  exists c w0, vx_log w' = vx_log w ++ [c] /\ about c = this /\ flag_of c = flag /\ handler c w0 = Ret (tt, w') /\ serial_at w0 this = serial_at w this.

Lemma call_back_one c w w' : call_back c w = Ret (tt, w') -> vx_log w' = vx_log w ++ [c] /\ exists w0, vx_heap w0 = vx_heap w /\ handler c w0 = Ret (tt, w').
Proof.
  unfold call_back, bind, modify. cbn. intros E. split; [by rewrite (Hlog c _ _ _ E)|]. eexists. split; [|exact E]. done.
Qed.
Lemma call_one c this flag : about c = this -> flag_of c = flag -> calls_one (call_back c) this flag.
Proof.
  intros Ha Hf w w' E. apply call_back_one in E as (El & w0 & Eh & E). exists c, w0. repeat (split; [done|]).
  unfold serial_at. by rewrite Eh.
Qed.
Lemma GetSocketError_run s o : exists r, GetSocketError (s, o) = Ret (r, (s, after (c_getsockopt_error (handle_ s)) o)).
Proof. unfold GetSocketError. rewrite bind_this, bind_sys. by eexists. Qed.
Lemma dispatch_out_one this : calls_one (dispatch_out this) this ASYNC_EVENT_OUT.
Proof.
  intros w w' E. unfold dispatch_out in E. apply bind_inv in E as (s & w1 & E1 & E). unfold deref in E1.
  destruct (vx_heap w !! this) as [s0|] eqn:Es; [|done]. injection E1 as <- <-.
  set (control := match m_pCustomControl (base s0) with Some _ => true | None => false end) in E.
  destruct (IsConnectable (base s0) && m_bConnectBlocked (base s0)).
  - rewrite (bind_ret_run _ _ _ _ _ (vchange_run this _ w s0 Es)) in E. 
    destruct (GetSocketError_run (set_connect_blocked false (base s0)) (vx_os w)) as (err & Eg).
    erewrite bind_ret_run in E by (eapply on_base_run; [apply lookup_insert_eq|exact Eg]).
    erewrite bind_ret_run in E by (apply vchange_run; cbn; apply lookup_insert_eq).
    match type of E with (if ?b then call_back ?x else call_back ?y) ?w3 = _ => set (w4 := w3) in E;
      assert (serial_at w4 this = serial_at w this) as Hs by (unfold serial_at, w4; cbn; by rewrite lookup_insert_eq, Es);
      assert (vx_log w4 = vx_log w) as Hl by done; destruct b end;
      (eapply call_one in E as (c & w0 & H1 & H2 & H3 & H4 & H5); [|reflexivity|reflexivity]; exists c, w0; cbn [about flag_of] in *; by rewrite H1, Hl, <- Hs).
  - destruct control; by eapply call_one in E.
Qed.
Lemma dispatch_in_one this : calls_one (dispatch_in this) this ASYNC_EVENT_IN.
Proof.
  intros w w' E. unfold dispatch_in in E. apply bind_inv in E as (s & w1 & E1 & E). unfold deref in E1.
  destruct (vx_heap w !! this) as [s0|]; [|done]. injection E1 as <- <-.
  destruct (m_bListening s0), (match m_pCustomControl (base s0) with Some _ => true | None => false end); by eapply call_one in E.
Qed.
(** A guarded step makes its callback, or none because the flag is not there or
    the serial number has changed. *)
Lemma if_current_one events flag this n k w w' : calls_one k this flag -> if_current events flag this n k w = Ret (tt, w') ->
  w' = w \/ has events flag = true /\ serial_at w this = Some n /\
    exists c w0, vx_log w' = vx_log w ++ [c] /\ about c = this /\ flag_of c = flag /\ handler c w0 = Ret (tt, w') /\ serial_at w0 this = Some n.
Proof.
  intros Hk E. unfold if_current in E. destruct (has events flag); [|by injection E as <-; left].
  apply bind_inv in E as (s & w1 & E1 & E). unfold deref in E1. destruct (vx_heap w !! this) as [s0|] eqn:Es; [|done]. injection E1 as <- <-.
  destruct (Z.eqb_spec n (m_nSerailNumber (base s0))) as [->|_]; [|by injection E as <-; left].
  right. split; [done|]. assert (serial_at w this = Some (m_nSerailNumber (base s0))) as Hs by (unfold serial_at; by rewrite Es).
  split; [done|]. destruct (Hk _ _ E) as (c & w0 & H1 & H2 & H3 & H4 & H5). exists c, w0. by rewrite H5.
Qed.

End Dispatch.

(** ** Examples, over the scripted kernel *)

Definition QuietHandlers : @Handlers ScriptBsd := {| handler _ := ret tt |}.
(** [OnSend] closes its socket; [OnSend] deletes it. *)
Definition ClosingHandlers : @Handlers ScriptBsd :=
  {| handler c := match c with OnSend i => let! b := Vx_Close i in ret tt | _ => ret tt end |}.
Definition DeletingHandlers : @Handlers ScriptBsd := {| handler c := match c with OnSend i => Vx_delete i | _ => ret tt end |}.
Definition one_thread : AsyncVxIo := mkVxIo [Some (mkIo (mkThread true true 7 7) (mkPoll 5 []))] 0.
Definition open_socket : AsyncVxSocket := mkVx (mkSocket 0 3 Any Any false false 1 false None) 0 DEFAULT_EVENTS true false true 0 (-1).
Definition vx_with (s : AsyncVxSocket) : @Vx ScriptBsd := mkVxWorld {[0%nat := s]} one_thread (script_os []) [].
Definition in_and_out : AsyncEvent := (Z.lor ASYNC_EVENT_IN ASYNC_EVENT_OUT, 0%nat).

(** Closing does not change the serial number: the socket is still told to
    receive, on the handle -1. *)
Lemma closed_still_receives : exists w', @dispatch _ ClosingHandlers in_and_out (vx_with open_socket) = Ret (tt, w') /\
  vx_log w' = [OnSend 0; OnReceive 0] /\ (handle_ ∘ base <$> vx_heap w' !! 0%nat) = Some (-1).
Proof. eexists. split; [vm_compute; reflexivity|]. by vm_compute. Qed.
(** And the test reads the socket, whatever the callback has done with it. *)
Lemma deleted_in_callback : @dispatch _ DeletingHandlers in_and_out (vx_with open_socket) = Undef DanglingIterator.
Proof. by vm_compute. Qed.
(** The poll of a thread stays open for good. *)
Lemma Io_Close_leaks : exists w1 w2, Io_Create 1 [good_thread 7] 9 16 1 (mkVxWorld ∅ AsyncVxIo_new (script_os []) []) = Ret (true, w1) /\
  Io_Close 9 w1 = Ret (true, w2) /\ m_pThreads (vx_io w2) = [] /\ opened (calls (vx_os w2)) = [3].
Proof. eexists _, _. split; [vm_compute; reflexivity|]. split; [vm_compute; reflexivity|]. by vm_compute. Qed.

Lemma events_refine_witness : let p := mkPoll 5 [(1, 0%nat); (4, 2%nat)] in
  exists p', AppendEvent 0 true 4 (p, script_os []) = Ret (true, (p', script_os [])) /\ events_ok p' /\
     extra (m_pAppendEvents p') = <[0%nat := Z.lor (default 0 (extra (m_pAppendEvents p) !! 0%nat)) 4]> (extra (m_pAppendEvents p)).
Proof.
  intros p. assert (events_ok p) as Hp by (unfold events_ok; cbn; repeat (apply NoDup_cons; split; [set_solver|]); by apply NoDup_nil).
  exact (proj1 (events_refine 0 3 4 1 10 p (script_os []) Hp)).
Defined.
#[export] Instance AllMalloc : Malloc := { malloc_ok _ _ := true }.
Lemma Assign_copies_witness : let src := mkBuffer false (Some 0%nat) 4 1 2 in let m := mkMemory {[0%nat := [1; 2; 3; 4]]} 1 in
  exists this' m', Assign src Tidy m = Ret (this', m') /\ data_of this' m' = Some [2; 3] /\ m_pBuffer this' = Some 1%nat.
Proof.
  intros src m. assert (owns src m) as Ho by (split; [done|]; exists 0%nat, [1; 2; 3; 4]; cbn; repeat split; lia).
  assert (fresh_above m) as Hf. { intros p [d Hd]. unfold m in Hd. cbn [blocks] in Hd. apply lookup_singleton_Some in Hd as [<- _]. cbn. lia. }
  destruct (Assign_copies src Tidy m Ho Hf (or_introl eq_refl)) as (t & m' & E & _ & Ep & Ed & _).
  exists t, m'. split; [exact E|]. split; [|exact Ep]. rewrite Ed. reflexivity.
Defined.
Definition closed_socket : AsyncVxSocket := set_index (-1) (set_base (set_handle INVALID_HANDLE (base open_socket)) open_socket).
Lemma Vx_Create_owns_witness : exists b w' s' new, Vx_Create 0 SOCKET_TYPE_TCP Any true (vx_with closed_socket) = Ret (b, w') /\
  vx_heap w' !! 0%nat = Some s' /\ calls (vx_os w') = [] ++ new /\ opened new = (if b then [handle_ (base s')] else []) /\ vx_valid s' = b /\
  (if b then in_range w' (m_nIoIndex s') /\ m_bBlocking (base s') = false /\ m_bConnected s' = false /\ m_bListening s' = false else m_nIoIndex s' = -1).
Proof.
  apply (Vx_Create_owns SOCKET_TYPE_TCP Any true 0 closed_socket (vx_with closed_socket)); try (vm_compute; reflexivity).
  split; [done|]. apply Forall_singleton. by eexists.
Defined.
