(* ===== verification/Watchdog.v ===== *)
(** * The watchdog: daemon/src/main.cpp and common/daemon.cpp

    The watchdog is a program of its own.  It shares one 64-bit word with the
    agent: the agent's timer writes the time into it, the watchdog wakes every
    100 seconds, compares the word with what it last saw, and runs a command if
    nothing has changed.  Both programs run here as an interleaving of single
    accesses to the word.  Each maps a mutex of its own from /dev/zero, which the
    other never sees, so the locks exclude nobody and are left out.

    System V shared memory is a class; its laws state what the manual says of a
    key, a segment, an attachment, and the word of a segment.  Times are
    microseconds of the monotonic clock; every tick is later than those before. *)

From S2P Require Import Prelude Strings.

(** ** The command line *)

Definition DASHES : list Z := [45; 45].
Definition EXEC : list Z := to_bytes "--exec".
Definition LOG : list Z := to_bytes "--log".
Definition DEFAULT_LOG : list Z := to_bytes "/var/log/agent-daemon.log".

(** [argv[1]] and on: what holds two dashes anywhere is the key of what follows. *)
Fixpoint commands_of (argv : list (list Z)) (skey : list Z) (commands : gmap (list Z) (list Z)) : gmap (list Z) (list Z) :=
  match argv with
  | [] => commands
  | cmd :: r =>
      match find_sub DASHES cmd with
      | Some _ => commands_of r cmd commands
      | None =>
          commands_of r skey
            (<[skey := match default [] (commands !! skey) with [] => cmd | v => v ++ [32] ++ cmd end]> commands)
      end
  end.

Definition EXIT_FAILURE : Z := 1.
Definition EXIT_SUCCESS : Z := 0.
(** The exit code, or the command and the file of the log. *)
Definition options (argv : list (list Z)) (loginit : list Z -> bool) : Z + list Z * list Z :=
  if Nat.ltb (length argv) 1 then inl EXIT_FAILURE else
  let commands := commands_of argv [] ∅ in
  match commands !! EXEC with
  | None => inl EXIT_FAILURE
  | Some str_exec =>
      let str_log := default DEFAULT_LOG (commands !! LOG) in
      if negb (loginit str_log) then inl EXIT_FAILURE else inr (str_exec, str_log)
  end.

(** ** Shared memory *)

Class SysV := {
  shm_state : Type;
  shmget : Z -> shm_state -> option Z * shm_state;
  shmat : Z -> shm_state -> option Z * shm_state;
  shmdt : Z -> shm_state -> bool * shm_state;
  shm_rmid : Z -> shm_state -> bool * shm_state;
  shm_load : Z -> shm_state -> Z;
  shm_store : Z -> Z -> shm_state -> shm_state;
  (* what the manual speaks of: the segment that has a key, the segment behind an
     attachment, the word in a segment *)
  named : shm_state -> Z -> option Z;
  segment : shm_state -> Z -> option Z;
  content : shm_state -> Z -> Z
}.

(** The names, the attachments but one, and the words but one are as they were. *)
Definition same_names `{SysV} (s s' : shm_state) : Prop := forall k, named s' k = named s k.
Definition same_but `{SysV} (a : option Z) (s s' : shm_state) : Prop := forall b, a <> Some b -> segment s' b = segment s b.
Definition same_words `{SysV} (i : option Z) (s s' : shm_state) : Prop := forall j, i <> Some j -> content s' j = content s j.

Class SysVLaws `{SysV} : Prop := {
  load_content a i s : segment s a = Some i -> shm_load a s = content s i;
  store_content a i v s : segment s a = Some i ->
    same_names s (shm_store a v s) /\ same_but None s (shm_store a v s) /\
    same_words (Some i) s (shm_store a v s) /\ content (shm_store a v s) i = v;
  shmget_law k s : let s' := (shmget k s).2 in
    same_but None s s' /\
    match (shmget k s).1 with
    | None => same_names s s' /\ same_words None s s'
    | Some i =>
        named s' k = Some i /\ (forall k', k' <> k -> named s' k' = named s k') /\
        match named s k with
        | Some i' => i = i' /\ same_words None s s'
        | None => content s' i = 0 /\ same_words (Some i) s s' /\ (forall a, segment s a <> Some i) /\ (forall k', named s k' <> Some i)
        end
    end;
  shmat_law i s : let s' := (shmat i s).2 in
    same_names s s' /\ same_words None s s' /\ same_but (shmat i s).1 s s' /\
    (forall a, (shmat i s).1 = Some a -> segment s a = None /\ segment s' a = Some i);
  shmdt_law a s : let s' := (shmdt a s).2 in
    same_names s s' /\ same_words None s s' /\ same_but (Some a) s s' /\
    segment s' a = if (shmdt a s).1 then None else segment s a;
  rmid_law i s : let s' := (shm_rmid i s).2 in
    same_but None s s' /\ same_words None s s' /\
    forall k, named s' k = if (shm_rmid i s).1 && bool_decide (named s k = Some i) then None else named s k
}.

Section Watch.
Context `{SysV}.

(** ** The agent's side: utils::Daemon *)

(** [shm] is unset until [Initialize] reaches it. *)
Record Daemon := mkDaemon { last_write_time_ : Z; shm : option Z; shared : option Z }.
Definition Daemon_new : Daemon := mkDaemon 0 None None.
Definition SHM_FAILED : Z := -1.

(** [mapped]: whether [mmap] gave the page for the mutex; its failure value is
    handed to [pthread_mutex_init] all the same. *)
Definition Daemon_Initialize (key : Z) (mapped : bool) : M (Daemon * shm_state) bool := fun w =>
  if negb mapped then Undef NullDeref else
  let '(d, s) := w in
  match shmget key s with
  | (None, s) => Ret (true, (d, s))
  | (Some shmid, s) =>
      match shmat shmid s with
      | (None, s) => Ret (false, (mkDaemon (last_write_time_ d) (Some SHM_FAILED) (shared d), s))
      | (Some a, s) => Ret (true, (mkDaemon (last_write_time_ d) (Some a) (Some a), s))
      end
  end.

Definition Daemon_Exit : M (Daemon * shm_state) bool := fun w =>
  match shm w.1 with
  | None => Undef Uninitialised
  | Some a => let r := shmdt a w.2 in Ret (r.1, (w.1, r.2))
  end.

Definition Daemon_OnTimer (current_time : Z) : M (Daemon * shm_state) unit := fun w =>
  let '(d, s) := w in
  let? past := s64 (current_time - last_write_time_ d) in
  if past >? 500000 then
    let s := match shared d with Some a => shm_store a current_time s | None => s end in
    Ret (tt, (mkDaemon current_time (shm d) (shared d), s))
  else Ret (tt, w).

(** ** The watchdog's side *)

(** Where its loop stands: in [sleep], before the comparison, in [system], before
    [last = *shared]. *)
Inductive place : Set := Sleeping | Comparing | Executing | Recording.
Record Dog := mkDog { dog_shm : Z; dog_shmid : Z; last : Z; g_enable_ : bool; at_ : place }.
Definition move_dog (p : place) (d : Dog) : Dog := mkDog (dog_shm d) (dog_shmid d) (last d) (g_enable_ d) p.

(** What can be seen of a run: the agent wrote the word; the watchdog compared
    it, and ran the command or not; the watchdog noted the word. *)
Inductive event : Set := Wrote | Compared (ran : bool) | Noted.

Record World := mkWorld { sysv : shm_state; agents : gmap nat Daemon; dog : option Dog; events : list event }.

Definition KEY : Z := 1234.
(** From the log's opening to the loop; without the segment the program ends, with
    success. *)
Definition dog_start (mapped : bool) (s : shm_state) : outcome (option Dog * shm_state) :=
  if negb mapped then Undef NullDeref else
  match shmget KEY s with
  | (None, s) => Ret (None, s)
  | (Some shmid, s) =>
      match shmat shmid s with
      | (None, s) => Ret (None, s)
      | (Some a, s) => Ret (Some (mkDog a shmid 0 true Sleeping), s)
      end
  end.

(** After the loop: detach, and then remove the segment. *)
Definition dog_leave (d : Dog) (s : shm_state) : shm_state :=
  let r := shmdt (dog_shm d) s in if r.1 then (shm_rmid (dog_shmid d) r.2).2 else r.2.

(** One step of the loop.  [system] returns when the command has ended. *)
Definition dog_step (w : World) : option World :=
  match dog w with
  | None => None
  | Some d =>
      let now := shm_load (dog_shm d) (sysv w) in
      match at_ d with
      | Sleeping => Some (mkWorld (sysv w) (agents w) (Some (move_dog Comparing d)) (events w))
      | Comparing =>
          let stalled := last d =? now in
          Some (mkWorld (sysv w) (agents w) (Some (move_dog (if stalled then Executing else Recording) d)) (events w ++ [Compared stalled]))
      | Executing => Some (mkWorld (sysv w) (agents w) (Some (move_dog Recording d)) (events w))
      | Recording =>
          if g_enable_ d
          then Some (mkWorld (sysv w) (agents w) (Some (mkDog (dog_shm d) (dog_shmid d) now true Sleeping)) (events w ++ [Noted]))
          else Some (mkWorld (dog_leave d (sysv w)) (agents w) None (events w ++ [Noted]))
      end
  end.
(** A signal ends the sleep it comes in, which the next step does. *)
Definition SignalFunc (d : Dog) : Dog := mkDog (dog_shm d) (dog_shmid d) (last d) false (at_ d).

Inductive action : Set :=
| AgentStarts (p : nat) (mapped : bool) | AgentTicks (p : nat) (t : Z) | AgentExits (p : nat)
| DogStarts (mapped : bool) | DogSteps | Signal.

Definition on_agent {A} (p : nat) (d : Daemon) (m : M (Daemon * shm_state) A) (k : A -> Daemon -> option Daemon) (e : list event) (w : World) : outcome (option World) :=
  let? r := m (d, sysv w) in
  Ret (Some (mkWorld r.2.2 (match k r.1 r.2.1 with Some d' => <[p := d']> (agents w) | None => delete p (agents w) end) (dog w) (events w ++ e))).

(** Whether a tick writes the word. *)
Definition writes (t : Z) (d : Daemon) : bool := (t - last_write_time_ d >? 500000) && bool_decide (is_Some (shared d)).

Definition world_step (a : action) (w : World) : outcome (option World) :=
  match a with
  | AgentStarts p mapped =>
      match agents w !! p with
      | Some _ => Ret None
      | None => on_agent p Daemon_new (Daemon_Initialize KEY mapped) (fun ok d => if ok : bool then Some d else None) [] w
      end
  | AgentTicks p t =>
      match agents w !! p with
      | None => Ret None
      | Some d => on_agent p d (Daemon_OnTimer t) (fun _ d => Some d) (if writes t d then [Wrote] else []) w
      end
  | AgentExits p =>
      match agents w !! p with
      | None => Ret None
      | Some d => on_agent p d Daemon_Exit (fun _ _ => None) [] w
      end
  | DogStarts mapped =>
      match dog w with
      | Some _ => Ret None
      | None => let? r := dog_start mapped (sysv w) in Ret (Some (mkWorld r.2 (agents w) r.1 (events w)))
      end
  | DogSteps => Ret (dog_step w)
  | Signal => Ret (match dog w with Some d => Some (mkWorld (sysv w) (agents w) (Some (SignalFunc d)) (events w)) | None => None end)
  end.

Fixpoint world_run (l : list action) (w : World) : outcome (option World) :=
  match l with
  | [] => Ret (Some w)
  | a :: r => let? o := world_step a w in match o with Some w' => world_run r w' | None => Ret None end
  end.

(** ** The promise

    A comparison runs the command exactly if nothing has been written since the
    word was last noted. *)
Fixpoint follows (fresh : bool) (l : list event) : Prop :=
  match l with
  | [] => True
  | Wrote :: r => follows true r
  | Compared ran :: r => ran = negb fresh /\ follows fresh r
  | Noted :: r => follows false r
  end.
(** Ticks come at later and later times, and no watchdog starts. *)
Fixpoint later (T : Z) (l : list action) : Prop :=
  match l with
  | [] => True
  | AgentTicks _ t :: r => T < t < 2 ^ 62 /\ later t r
  | DogStarts _ :: _ => False
  | _ :: r => later T r
  end.

(** ** The loop keeps the promise *)

Fixpoint after (fresh : bool) (l : list event) : bool :=
  match l with
  | [] => fresh
  | Wrote :: r => after true r
  | Compared _ :: r => after fresh r
  | Noted :: r => after false r
  end.
Lemma follows_app fresh l1 l2 : follows fresh l1 -> follows (after fresh l1) l2 -> follows fresh (l1 ++ l2).
Proof. revert fresh. induction l1 as [|[|b|] l1 IH]; intros fresh; cbn; [done|auto| |auto]. intros [-> ?] ?. auto. Qed.

(** An agent on segment [i], its attachment apart from the watchdog's. *)
Definition agent_ok (s : shm_state) (i c T : Z) (a : Daemon) : Prop :=
  0 <= last_write_time_ a <= T /\ shm a = shared a /\ forall b, shared a = Some b -> b <> c /\ segment s b = Some i.
(** The watchdog watches the segment all agents write to; with [fresh] the word
    has been written since it was noted. *)
Record watching (T : Z) (fresh : bool) (d : Dog) (w : World) : Prop := {
  w_dog : dog w = Some d;
  w_segment : exists i, segment (sysv w) (dog_shm d) = Some i /\ named (sysv w) KEY = Some i /\
    0 <= content (sysv w) i <= T /\
    (if fresh then last d < content (sysv w) i else last d = content (sysv w) i) /\
    (forall p a, agents w !! p = Some a -> agent_ok (sysv w) i (dog_shm d) T a);
  w_apart : forall p q a a' b, p <> q -> agents w !! p = Some a -> agents w !! q = Some a' -> shared a = Some b -> shared a' <> Some b
}.
Definition watched (T : Z) (fresh : bool) (w : World) : Prop := dog w = None \/ exists d, watching T fresh d w.

Context `{!SysVLaws}.

Lemma agent_ok_later s s' i c T T' a : agent_ok s i c T a -> T <= T' -> same_but None s s' -> agent_ok s' i c T' a.
Proof. intros (H1 & H2 & H3) HT Hs. repeat split; [lia|lia|done| |]; destruct (H3 b ltac:(done)); [done|]. by rewrite Hs. Qed.

Lemma agent_ok_new s i c T : 0 <= T -> agent_ok s i c T Daemon_new.
Proof. intros HT. unfold agent_ok. cbn. by split_and!. Qed.

(** What a step of the agent's side may do to the shared memory under the watchdog. *)
Lemma watching_start T fresh d w p ok a s : watching T fresh d w -> agents w !! p = None -> 0 <= T ->
  Daemon_Initialize KEY true (Daemon_new, sysv w) = Ret (ok, (a, s)) ->
  watching T fresh d (mkWorld s (match ok with true => <[p := a]> (agents w) | false => delete p (agents w) end) (dog w) (events w ++ [])).
Proof.
  intros [Hd (i & Hi & Hn & Hc & Hf & Ha) Hap] Hp HT E. unfold Daemon_Initialize in E. cbn in E.
  pose proof (shmget_law KEY (sysv w)) as G. destruct (shmget KEY (sysv w)) as [[j|] s1]; cbn in G; destruct G as [G1 G].
  2:{ injection E as <- <- <-. destruct G as [G2 G3]. split; cbn; [done| |].
      - exists i. rewrite G1, G2, G3 by done. split_and!; try done; try lia.
        intros q b [[<- <-]|[_ Hq]]%lookup_insert_Some; [by apply agent_ok_new|]. eapply agent_ok_later; eauto; lia.
      - intros q r b b' c Hne. rewrite !lookup_insert_Some. intros [[<- <-]|[? Hq]] [[<- <-]|[? Hr]] Hb; cbn in *; try done. by eapply (Hap q r). }
  rewrite Hn in G. destruct G as (G2 & G3 & -> & G4).
  assert (forall k, named s1 k = named (sysv w) k) as G5 by (intros k; destruct (decide (k = KEY)) as [->|]; [congruence|auto]).
  pose proof (shmat_law i s1) as A. destruct (shmat i s1) as [[b|] s2]; cbn in A; destruct A as (A1 & A2 & A3 & A4); injection E as <- <- <-.
  - destruct (A4 b eq_refl) as [A5 A6]. rewrite G1 in A5 by done.
    assert (forall q a, agents w !! q = Some a -> shared a <> Some b) as Hb by (intros q a Hq Es; destruct (Ha q a Hq) as (_ & _ & X); destruct (X b Es); congruence).
    assert (forall q a, agents w !! q = Some a -> agent_ok s2 i (dog_shm d) T a) as Ha2.
    { intros q a Hq. destruct (Ha q a Hq) as (X1 & X2 & X3). unfold agent_ok. split_and!; [lia|lia|done|]. intros c Hc'. destruct (X3 c Hc') as [Y1 Y2]. split; [done|].
      rewrite A3, G1; [done|done|]. intros [= ->]. by destruct (Hb q a Hq). }
    split; cbn; [done| |].
    + exists i. rewrite A3, G1, A1, G5, A2, G4 by (congruence || done). split_and!; try done; try lia.
      intros q a [[<- <-]|[_ Hq]]%lookup_insert_Some; [|by eauto]. unfold agent_ok; cbn; split_and!; [lia|lia|done|]. intros c [= <-]. by split; [intros ->; congruence|].
    + intros q r a a' c Hne. rewrite !lookup_insert_Some. intros [[<- <-]|[? Hq]] [[<- <-]|[? Hr]] Hc'; cbn in *; try done.
      * injection Hc' as <-. by apply (Hb r).
      * intros [= ->]. by apply (Hb q a).
      * by eapply (Hap q r).
  - rewrite delete_id by done. split; cbn; [done| |done]. exists i. rewrite A3, G1, A1, G5, A2, G4 by done. split_and!; try done; try lia.
    intros q a Hq. eapply agent_ok_later; [by eauto|lia|]. intros c Hc'. by rewrite A3, G1.
Qed.

Lemma watching_tick T fresh d w p a t : watching T fresh d w -> agents w !! p = Some a -> T < t < 2 ^ 62 ->
  exists a' s, Daemon_OnTimer t (a, sysv w) = Ret (tt, (a', s)) /\
    watching t (writes t a || fresh) d (mkWorld s (<[p := a']> (agents w)) (dog w) (events w ++ (if writes t a then [Wrote] else []))).
Proof.
  intros [Hd (i & Hi & Hn & Hc & Hf & Ha) Hap] Hp Ht. destruct (Ha p a Hp) as (X1 & X2 & X3).
  unfold Daemon_OnTimer, s64, in_s64. assert ((- 2 ^ 63 <=? t - last_write_time_ a) && (t - last_write_time_ a <? 2 ^ 63) = true) as -> by lia.
  cbn [obind]. unfold writes. destruct (t - last_write_time_ a >? 500000) eqn:Ed; cbn [andb orb].
  2:{ exists a, (sysv w). split; [done|]. rewrite insert_id by done. split; cbn; [done| |done].
      exists i. split_and!; try done; try lia. intros q b Hq. eapply agent_ok_later; [by eauto|lia|by intros ? _]. }
  destruct (shared a) as [b|] eqn:Es.
  - destruct (X3 b eq_refl) as [Hb1 Hb2]. destruct (store_content b i t (sysv w) Hb2) as (S1 & S2 & S3 & S4).
    rewrite bool_decide_eq_true_2 by eauto. eexists _, _. split; [done|]. split; cbn; [done| |].
    + exists i. rewrite S2, S1, S4 by done. split_and!; try done; try lia. { destruct fresh; lia. }
      intros q c [[<- <-]|[_ Hq]]%lookup_insert_Some.
      * unfold agent_ok. cbn. split_and!; [lia|lia|congruence|]. intros c [= <-]. by rewrite S2.
      * eapply agent_ok_later; [by eauto|lia|done].
    + intros q r c c' e Hne. rewrite !lookup_insert_Some. intros [[<- <-]|[? Hq]] [[<- <-]|[? Hr]] He; cbn in *; try done.
      * apply (Hap p r a c' e); congruence.
      * intros ?. apply (Hap q p c a e); congruence.
      * by apply (Hap q r c c').
  - rewrite bool_decide_eq_false_2 by (rewrite is_Some_alt; by auto). eexists _, _. split; [done|]. split; cbn; [done| |].
    + exists i. split_and!; try done; try lia. intros q c [[<- <-]|[_ Hq]]%lookup_insert_Some.
      * unfold agent_ok. cbn. split_and!; [lia|lia|congruence|done].
      * eapply agent_ok_later; [by eauto|lia|by intros ? _].
    + intros q r c c' e Hne. rewrite !lookup_insert_Some. intros [[<- <-]|[? Hq]] [[<- <-]|[? Hr]] He; cbn in *; try congruence.
      by apply (Hap q r c c').
Qed.

Lemma watching_exit T fresh d w p a ok a' s : watching T fresh d w -> agents w !! p = Some a -> Daemon_Exit (a, sysv w) = Ret (ok, (a', s)) ->
  watching T fresh d (mkWorld s (delete p (agents w)) (dog w) (events w ++ [])).
Proof.
  intros [Hd (i & Hi & Hn & Hc & Hf & Ha) Hap] Hp E. destruct (Ha p a Hp) as (X1 & X2 & X3). unfold Daemon_Exit in E. cbn in E.
  destruct (shm a) as [b|] eqn:Eb; [|done]. injection E as <- <- <-. destruct (X3 b ltac:(congruence)) as [Hb1 Hb2].
  destruct (shmdt_law b (sysv w)) as (D1 & D2 & D3 & _).
  split; cbn; [done| |].
  - exists i. rewrite D3, D1, D2 by (congruence || done). split_and!; try done; try lia.
    intros q c [Hne Hq]%lookup_delete_Some. destruct (Ha q c Hq) as (Y1 & Y2 & Y3). unfold agent_ok. split_and!; [lia|lia|done|].
    intros e He. rewrite D3; [auto|]. intros [= ->]. by apply (Hap p q a c e).
  - intros q r c c' e Hne [_ Hq]%lookup_delete_Some [_ Hr]%lookup_delete_Some. by apply (Hap q r c c').
Qed.

Lemma watching_step T fresh d w w' : watching T fresh d w -> dog_step w = Some w' ->
  exists new, events w' = events w ++ new /\ follows fresh new /\ watched T (after fresh new) w'.
Proof.
  intros I E. pose proof I as [Hd (i & Hi & Hn & Hc & Hf & Ha) Hap]. unfold dog_step in E. rewrite Hd in E.
  rewrite (load_content _ i) in E by done. destruct (at_ d); [| | |destruct (g_enable_ d)]; injection E as <-; cbn.
  - exists []. rewrite app_nil_r. split_and!; [done|done|]. right. eexists. split; [done| |done]. exists i. cbn. split_and!; try done; try lia.
  - eexists. split_and!; [done| |].
    + split; [|done]. destruct fresh; lia.
    + right. eexists. split; [done| |done]. exists i. cbn. split_and!; try done; try lia.
  - exists []. rewrite app_nil_r. split_and!; [done|done|]. right. eexists. split; [done| |done]. exists i. cbn. split_and!; try done; try lia.
  - eexists. split_and!; [done|done|]. right. eexists. split; [done| |done]. exists i. cbn. split_and!; try done; try lia.
  - eexists. split_and!; [done|done|]. by left.
Qed.

(** Without a watchdog only writes are seen. *)
Lemma unwatched_step a w w' : dog w = None -> (forall m, a <> DogStarts m) -> world_step a w = Ret (Some w') ->
  dog w' = None /\ exists new, events w' = events w ++ new /\ forall fresh, follows fresh new.
Proof.
  intros Hd Ha E. destruct a as [p m|p t|p|m| |]; cbn in E; unfold on_agent, dog_step in E; rewrite ?Hd in E; try done.
  - destruct (agents w !! p); [done|]. destruct (Daemon_Initialize _ _ _) as [[ok [a s]]| | |]; [|done..]. injection E as <-. cbn. split; [done|]. by exists [].
  - destruct (agents w !! p) as [a|]; [|done]. destruct (Daemon_OnTimer _ _) as [[ok [a' s]]| | |]; [|done..]. injection E as <-. cbn. split; [done|].
    eexists. split; [done|]. by destruct (writes t a).
  - destruct (agents w !! p) as [a|]; [|done]. destruct (Daemon_Exit _) as [[ok [a' s]]| | |]; [|done..]. injection E as <-. cbn. split; [done|]. by exists [].
  - by destruct (Ha m).
Qed.

(** The time of the latest tick. *)
Definition clock (T : Z) (a : action) : Z := match a with AgentTicks _ t => t | _ => T end.
Lemma later_cons T a l : later T (a :: l) -> T <= clock T a /\ later (clock T a) l /\ (forall m, a <> DogStarts m).
Proof. intros E. destruct a; cbn in *; split_and!; try done; try lia; apply E. Qed.

Lemma watched_step T fresh a l w w' : watched T fresh w -> 0 <= T -> later T (a :: l) -> world_step a w = Ret (Some w') ->
  exists new, events w' = events w ++ new /\ follows fresh new /\ watched (clock T a) (after fresh new) w'.
Proof.
  intros I HT Hl E. pose proof (later_cons _ _ _ Hl) as (_ & _ & Hn). destruct I as [Hd|(d & I)].
  { destruct (unwatched_step a w w' Hd Hn E) as [Hd' (new & E' & Hf)]. exists new. split_and!; [done|done|by left]. }
  destruct a as [p m|p t|p|m| |]; cbn in E.
  - destruct (agents w !! p) eqn:Ep; [done|]. unfold on_agent in E. destruct m; [|done].
    destruct (Daemon_Initialize _ _ _) as [[ok [a s]]| | |] eqn:Ei; [|done..]. injection E as <-. exists []. cbn. split_and!; [done|done|].
    right. exists d. pose proof (watching_start T fresh d w p ok a s I Ep HT Ei) as J. by destruct ok.
  - destruct (agents w !! p) as [a|] eqn:Ep; [|done]. unfold on_agent in E. cbn in Hl. destruct (watching_tick T fresh d w p a t I Ep ltac:(lia)) as (a' & s & Et & J).
    rewrite Et in E. injection E as <-. eexists. cbn. split_and!; [done|by destruct (writes t a)|]. right. exists d. by destruct (writes t a).
  - destruct (agents w !! p) as [a|] eqn:Ep; [|done]. unfold on_agent in E. destruct (Daemon_Exit _) as [[ok [a' s]]| | |] eqn:Ee; [|done..].
    injection E as <-. exists []. cbn. split_and!; [done|done|]. right. exists d. exact (watching_exit T fresh d w p a ok a' s I Ep Ee).
  - by destruct (Hn m).
  - injection E as E. by destruct (watching_step T fresh d w w' I E) as (new & ? & ? & ?); eauto.
  - pose proof I as [Hd Hs Hap]. rewrite Hd in E. injection E as <-. exists []. rewrite app_nil_r. split_and!; [done|done|].
    right. eexists. by split.
Qed.

(** The agents' times are those of past ticks, so nothing overflows. *)
Definition timed (T : Z) (w : World) : Prop := forall p a, agents w !! p = Some a -> 0 <= last_write_time_ a <= T.
Definition fails (a : action) (u : ub) : Prop :=
  match a with AgentStarts _ m | DogStarts m => m = false /\ u = NullDeref | AgentExits _ => u = Uninitialised | _ => False end.
Lemma timed_step T a l w : timed T w -> 0 <= T -> later T (a :: l) ->
  match world_step a w with Ret (Some w') => timed (clock T a) w' | Ret None => True | Undef u => fails a u | _ => False end.
Proof.
  intros I HT Hl. unfold timed in *. destruct a as [p m|p t|p|m| |]; cbn; unfold on_agent.
  - destruct (agents w !! p); [done|]. unfold Daemon_Initialize. destruct m; cbn; [|done].
    destruct (shmget _ _) as [[i|] s1]; [destruct (shmat i s1) as [[b|] s2]|]; cbn;
      (intros q b' [[<- <-]|[_ Hq]]%lookup_insert_Some || intros q b' [_ Hq]%lookup_delete_Some); cbn; (by eapply I) || lia.
  - destruct (agents w !! p) as [a|] eqn:Ep; [|done]. pose proof (I p a Ep). cbn in Hl. unfold Daemon_OnTimer, s64, in_s64.
    assert ((- 2 ^ 63 <=? t - last_write_time_ a) && (t - last_write_time_ a <? 2 ^ 63) = true) as -> by lia. cbn.
    destruct (_ >? 500000); cbn; intros q b' [[<- <-]|[_ Hq]]%lookup_insert_Some; cbn; try lia; specialize (I q b' Hq); lia.
  - destruct (agents w !! p) as [a|] eqn:Ep; [|done]. unfold Daemon_Exit. cbn. destruct (shm a); cbn; [|done].
    intros q b' [_ Hq]%lookup_delete_Some. by eapply I.
  - destruct (dog w); [done|]. unfold dog_start. destruct m; cbn; [|done]. destruct (shmget _ _) as [[i|] s1]; [destruct (shmat i s1) as [[b|] s2]|]; cbn; exact I.
  - unfold dog_step. destruct (dog w) as [d|]; [|done]. destruct (at_ d); [| | |destruct (g_enable_ d)]; exact I.
  - destruct (dog w); [exact I|done].
Qed.

(** C26. However an agent, or several, and the watchdog interleave, single access by
    single access and without a lock that holds, the watchdog runs its command at
    a comparison exactly if no agent has written the word since the watchdog last
    noted it; agents may start, exit and tick, at ever later times, and a signal may
    come at any moment.  Nothing in a run is undefined but a mutex on a page that
    could not be mapped and the exit of an agent that had got no segment. *)
Theorem watchdog_exact T fresh l w : watched T fresh w -> timed T w -> 0 <= T -> later T l ->
  match world_run l w with
  | Ret (Some w') => exists new, events w' = events w ++ new /\ follows fresh new
  | Ret None => True
  | Undef u => exists a, a ∈ l /\ fails a u
  | Throw | Diverge => False
  end.
Proof.
  revert T fresh w. induction l as [|a l IH]; intros T fresh w I J HT Hl; cbn.
  { exists []. by rewrite app_nil_r. }
  pose proof (timed_step T a l w J HT Hl) as Ho. pose proof (later_cons _ _ _ Hl) as (Hl1 & Hl2 & _).
  destruct (world_step a w) as [[w1|]| |u|] eqn:E1; cbn; [|done|done|exists a; set_solver|done].
  destruct (watched_step T fresh a l w w1 I HT Hl E1) as (new1 & X1 & X2 & X3).
  specialize (IH _ _ _ X3 Ho ltac:(lia) Hl2). destruct (world_run l w1) as [[w2|]| |u|]; try done.
  - destruct IH as (new2 & Y1 & Y2). exists (new1 ++ new2). split; [by rewrite Y1, X1, app_assoc|by apply follows_app].
  - destruct IH as (b & Hb & Hf). exists b. split; [by right|done].
Qed.

(** ** Where the pair falls short *)

(** An agent that gets no segment reports success; its exit then detaches an
    address that was never set. *)
Lemma Initialize_pretends d s s' : shm d = None -> shmget KEY s = (None, s') ->
  Daemon_Initialize KEY true (d, s) = Ret (true, (d, s')) /\ Daemon_Exit (d, s') = Undef Uninitialised.
Proof. intros Hd E. unfold Daemon_Initialize, Daemon_Exit. cbn. by rewrite E, Hd. Qed.

(** A signal does not end the loop before one more comparison: a watchdog told to
    stop after its agent has stopped starts the agent again. *)
Lemma signal_restarts w d i : dog w = Some d -> at_ d = Sleeping -> segment (sysv w) (dog_shm d) = Some i -> content (sysv w) i = last d ->
  exists w', world_run [Signal; DogSteps; DogSteps] w = Ret (Some w') /\ events w' = events w ++ [Compared true] /\
    (exists d', dog w' = Some d' /\ g_enable_ d' = false /\ at_ d' = Executing).
Proof.
  intros Hd Ha Hs Hc. cbn. rewrite Hd. cbn. unfold dog_step at 1. cbn. rewrite Ha. cbn. unfold dog_step. cbn. rewrite (load_content _ i) by done. rewrite Hc, Z.eqb_refl.
  eexists. split; [done|]. cbn. split; [done|]. by eexists.
Qed.
(** A watchdog that leaves removes the segment under the agent's feet: the next one
    gets a fresh segment, to which the living agent does not write, and runs the
    command though the agent has just written. *)
Lemma new_dog_blind T fresh d w w' p a t i : watching T fresh d w -> segment (sysv w) (dog_shm d) = Some i -> dog_shmid d = i ->
  at_ d = Recording -> g_enable_ d = false -> agents w !! p = Some a -> is_Some (shared a) -> writes t a = true -> T < t < 2 ^ 62 ->
  (shmdt (dog_shm d) (sysv w)).1 = true -> (shm_rmid i (shmdt (dog_shm d) (sysv w)).2).1 = true ->
  world_run [DogSteps; DogStarts true; AgentTicks p t; DogSteps; DogSteps] w = Ret (Some w') ->
  events w' = events w ++ [Noted; Wrote; Compared true].
Proof.
  intros [Hd (i' & Hi & Hn & Hc & Hf & Ha) _] Hi' Hid Hat He Hp [b Hb] Hw Ht Hdt Hrm E. assert (i' = i) as -> by congruence. clear Hi'.
  destruct (Ha p a Hp) as (X1 & X2 & X3). destruct (X3 b Hb) as [Hbc Hbi].
  destruct (shmdt_law (dog_shm d) (sysv w)) as (D1 & D2 & D3 & _). destruct (rmid_law i (shmdt (dog_shm d) (sysv w)).2) as (R1 & R2 & R3).
  cbn in E. unfold dog_step at 1 in E. rewrite Hd, Hat, He in E. cbn in E. unfold dog_leave in E. rewrite Hdt, Hid in E.
  set (s2 := (shm_rmid i (shmdt (dog_shm d) (sysv w)).2).2) in *.
  assert (named s2 KEY = None) as N2. { rewrite R3, Hrm, D1, Hn, bool_decide_eq_true_2 by done. done. }
  assert (segment s2 b = Some i) as S2 by (rewrite R1, D3 by congruence; done).
  unfold dog_start in E. cbn in E. pose proof (shmget_law KEY s2) as G. destruct (shmget KEY s2) as [[j|] s3]; cbn in G, E.
  2:{ rewrite Hp in E. unfold on_agent in E. destruct (Daemon_OnTimer _ _) as [[? [? ?]]| | |]; done. }
  destruct G as (G1 & G2 & _ & G3). rewrite N2 in G3. destruct G3 as (G4 & _ & G5 & _).
  pose proof (shmat_law j s3) as A. destruct (shmat j s3) as [[c|] s4]; cbn in A, E.
  2:{ rewrite Hp in E. unfold on_agent in E. destruct (Daemon_OnTimer _ _) as [[? [? ?]]| | |]; done. }
  destruct A as (A1 & A2 & A3 & A4). destruct (A4 c eq_refl) as [A5 A6].
  assert (segment s3 b = Some i) as S3 by (by rewrite G1).
  assert (segment s4 b = Some i) as S4 by (rewrite A3; [done|congruence]).
  rewrite Hp in E. unfold on_agent, Daemon_OnTimer, s64, in_s64 in E. cbn in E. rewrite Hw in E.
  unfold writes in Hw. apply andb_true_iff in Hw as [Hw _].
  assert ((- 2 ^ 63 <=? t - last_write_time_ a) && (t - last_write_time_ a <? 2 ^ 63) = true) as Eo by lia. cbn in Eo. rewrite Eo in E. cbn in E. rewrite Hw, Hb in E. cbn in E.
  destruct (store_content b i t s4 S4) as (B1 & B2 & B3 & B4).
  rewrite (load_content c j) in E by (by rewrite B2). rewrite B3 in E by (intros [= ->]; by destruct (G5 b)). rewrite A2, G4 in E by done. cbn in E.
  injection E as <-. cbn. by rewrite <- !app_assoc.
Qed.
End Watch.

(** ** The words of a command come back *)

Definition word (s : list Z) : Prop := s <> [] /\ find_sub DASHES s = None.
Lemma commands_words ws r key m v : Forall word ws -> v <> [] -> m !! key = Some v ->
  commands_of (ws ++ r) key m = commands_of r key (<[key := join 32 (v :: ws)]> m).
Proof.
  revert m v. induction ws as [|w ws IH]; intros m v Hw Hv Em; cbn [app join]. { by rewrite insert_id. }
  inversion_clear Hw as [|? ? [Hn Hf] Hws]. cbn [commands_of]. rewrite Hf, Em. cbn. destruct v as [|c v]; [done|].
  rewrite (IH _ ((c :: v) ++ [32] ++ w)); [|done|done|by rewrite lookup_insert_eq]. rewrite insert_insert_eq. f_equal. f_equal.
  destruct ws; cbn; rewrite <- ?app_assoc; cbn; by rewrite <- ?app_assoc.
Qed.

(** The command given to the watchdog is what it runs: the words after --exec
    joined by blanks, and the log goes to the file after --log, as long as no word
    is empty or holds two dashes. *)
Theorem options_words ws path loginit : ws <> [] -> Forall word ws -> word path -> loginit path = true ->
  options (EXEC :: ws ++ [LOG; path]) loginit = inr (join 32 ws, path).
Proof.
  intros Hne Hw Hp Hl. unfold options. cbn [length Nat.ltb Nat.leb]. destruct ws as [|v ws]; [done|]. inversion_clear Hw as [|? ? [Hv Hf] Hws].
  replace (commands_of _ [] ∅) with (<[LOG := path]> (<[EXEC := join 32 (v :: ws)]> (∅ : gmap (list Z) (list Z)))).
  { rewrite lookup_insert_ne, lookup_insert_eq by done. cbn. rewrite lookup_insert_eq. cbn. by rewrite Hl. }
  cbn [commands_of app]. rewrite (eq_refl : find_sub DASHES EXEC = Some 0%nat), Hf, lookup_empty. cbn [default].
  rewrite (commands_words ws _ _ _ v) by (done || apply lookup_insert_eq). rewrite insert_insert_eq. cbn [commands_of].
  rewrite (eq_refl : find_sub DASHES LOG = Some 0%nat). destruct Hp as [_ ->]. by rewrite lookup_insert_ne, lookup_empty by done.
Qed.
(** An option of the command itself is taken for one of the watchdog's. *)
Lemma options_lose : options [EXEC; to_bytes "agent"; to_bytes "--config"; to_bytes "x.json"] (fun _ => true) = inr (to_bytes "agent", DEFAULT_LOG).
Proof. vm_compute. reflexivity. Qed.

(** ** A memory of which everything is known *)

Record mem := mkMem { names : gmap Z Z; segs : gmap Z Z; words : gmap Z Z }.
Definition used (m : mem) : gset Z := list_to_set (map snd (map_to_list (names m)) ++ map snd (map_to_list (segs m))).
Lemma used_names m k i : names m !! k = Some i -> i ∈ used m.
Proof. intros E. apply elem_of_list_to_set, elem_of_app. left. apply list_elem_of_fmap. exists (k, i). split; [done|]. by apply elem_of_map_to_list. Qed.
Lemma used_segs m a i : segs m !! a = Some i -> i ∈ used m.
Proof. intros E. apply elem_of_list_to_set, elem_of_app. right. apply list_elem_of_fmap. exists (a, i). split; [done|]. by apply elem_of_map_to_list. Qed.

#[export] Instance MemSysV : SysV := {
  shm_state := mem;
  shmget k s := match names s !! k with
                | Some i => (Some i, s)
                | None => let i := fresh (used s) in (Some i, mkMem (<[k := i]> (names s)) (segs s) (<[i := 0]> (words s)))
                end;
  shmat i s := let a := fresh (dom (segs s)) in (Some a, mkMem (names s) (<[a := i]> (segs s)) (words s));
  shmdt a s := (bool_decide (is_Some (segs s !! a)), mkMem (names s) (delete a (segs s)) (words s));
  shm_rmid i s := (true, mkMem (filter (fun e : Z * Z => e.2 <> i) (names s)) (segs s) (words s));
  shm_load a s := match segs s !! a with Some i => default 0 (words s !! i) | None => 0 end;
  shm_store a v s := match segs s !! a with Some i => mkMem (names s) (segs s) (<[i := v]> (words s)) | None => s end;
  named s k := names s !! k;
  segment s a := segs s !! a;
  content s i := default 0 (words s !! i)
}.
#[export] Instance MemSysVLaws : SysVLaws.
Proof.
  split; unfold same_names, same_but, same_words; cbn.
  - by intros a i s ->.
  - intros a i v s ->. cbn. split_and!; try done; [|by rewrite lookup_insert_eq]. intros j Hj. rewrite lookup_insert_ne by congruence. done.
  - intros k s. destruct (names s !! k) as [i|] eqn:Ek; cbn; [by split_and!|]. split; [done|]. split; [by rewrite lookup_insert_eq|].
    split; [intros k' Hk; by rewrite lookup_insert_ne|]. split_and!; [by rewrite lookup_insert_eq| | |].
    + intros j Hj. rewrite lookup_insert_ne by congruence. done.
    + intros a Ha%used_segs. by apply (is_fresh (used s)).
    + intros k' Hk%used_names. by apply (is_fresh (used s)).
  - intros i s. split_and!; try done.
    + intros b Hb. rewrite lookup_insert_ne by congruence. done.
    + intros a [= <-]. split; [apply not_elem_of_dom, is_fresh|by rewrite lookup_insert_eq].
  - intros a s. split_and!; try done.
    + intros b Hb. rewrite lookup_delete_ne by congruence. done.
    + rewrite lookup_delete_eq. destruct (segs s !! a) eqn:E; [by rewrite bool_decide_eq_true_2 by eauto|by destruct (bool_decide _)].
  - intros i s. split_and!; try done. intros k. destruct (names s !! k) as [j|] eqn:Ek.
    + destruct (decide (j = i)) as [->|Hj].
      * rewrite bool_decide_eq_true_2 by done. apply map_lookup_filter_None. right. intros x Ex. rewrite Ek in Ex. injection Ex as <-. cbn. tauto.
      * rewrite bool_decide_eq_false_2 by congruence. by apply map_lookup_filter_Some.
    + rewrite bool_decide_eq_false_2 by congruence. apply map_lookup_filter_None. by left.
Qed.

(** The agent ticks, the watchdog looks twice, the second time in vain, and is told
    to stop. *)
Definition lone_dog : Dog := mkDog 10 1 0 true Sleeping.
Definition lone_agent : Daemon := mkDaemon 0 (Some 11) (Some 11).
Definition pair : World := mkWorld (mkMem {[KEY := 1]} {[10 := 1; 11 := 1]} {[1 := 0]}) {[0%nat := lone_agent]} (Some lone_dog) [].
Definition pair_run : list action := [AgentTicks 0 600000; AgentTicks 0 900000; DogSteps; DogSteps; DogSteps; DogSteps; DogSteps; DogSteps; Signal; DogSteps].
Lemma pair_agent p a : agents pair !! p = Some a -> p = 0%nat /\ a = lone_agent.
Proof. cbn. by intros [<- <-]%lookup_singleton_Some. Qed.
Lemma pair_watched : watched 0 false pair.
Proof.
  right. exists lone_dog. split; [done| |].
  - exists 1. split_and!; [done|done|done|done|done|]. intros p a [-> ->]%pair_agent. unfold agent_ok. cbn. split_and!; [done|done|done|]. by intros b [= <-].
  - intros p q a a' b Hne [-> _]%pair_agent [-> _]%pair_agent. done.
Qed.
Definition seen (o : outcome (option World)) : option (list event) := match o with Ret (Some w') => Some (events w') | _ => None end.
Lemma watchdog_exact_witness : seen (world_run pair_run pair) = Some [Wrote; Compared false; Noted; Compared true; Noted] /\
  match world_run pair_run pair with Ret (Some w') => exists new, events w' = events pair ++ new /\ follows false new | Ret None => True | _ => False end.
Proof.
  assert (timed 0 pair) as Ht by (by intros p a [-> ->]%pair_agent).
  assert (seen (world_run pair_run pair) = Some [Wrote; Compared false; Noted; Compared true; Noted]) as E by (vm_compute; reflexivity).
  split; [exact E|]. pose proof (watchdog_exact 0 false pair_run pair pair_watched Ht ltac:(done) ltac:(cbn; lia)) as X.
  unfold seen in E. destruct (world_run pair_run pair) as [[w'|]| | |]; try discriminate E. exact X.
Defined.
Lemma options_words_witness : options (EXEC :: [to_bytes "agent"; to_bytes "start"] ++ [LOG; to_bytes "/tmp/d.log"]) (fun _ => true) = inr (to_bytes "agent start", to_bytes "/tmp/d.log").
Proof.
  apply (options_words [to_bytes "agent"; to_bytes "start"] (to_bytes "/tmp/d.log") (fun _ => true)); [done| |by split|done].
  apply Forall_cons; split; [by split|]. apply Forall_cons; split; [by split|apply Forall_nil; done].
Defined.
