(* ===== verification/Journal.v ===== *)
(** The journal of a handler: all its tables are filed under the ids of their
    messages and are mirrored in the database, each under its own prefix.  The
    sections below are stated for any indexed family of tables; both handlers
    are instances.  They give the preservation of the journal by each kind of
    step, the recovery of the tables from the database, and what a sweep over
    a table does. *)

From S2P Require Import Prelude Strings Ordered Database General Platform WebClient Transaction Pending.

(** What the nodes are trusted for: the records they return are short texts
    without NUL whose items the wire format holds, hashes too, and sequence
    numbers fit their type. *)
Class Answers `{Json} `{ProtobufLaws} : Prop := {
  answer_id : forall resp s, read_query resp = Ret (Some s) -> id_ok s;
  answer_items : forall resp s l p, read_query resp = Ret (Some s) ->
    bracket_items (to_bytes s) = Ret l -> p ∈ l -> text_ok (of_bytes p);
  answer_hash : forall body b h, check_response body "" = Ret (b, h) -> text_ok h;
  answer_seq : forall resp z, read_seq resp = Ret (Some z) -> - 2 ^ 63 <= z < 2 ^ 63
}.

(** What a handler reads from a contract can be filed. *)
Definition can_file `{ProtobufLaws} (m : CrossTxInfo) : Prop := id_ok (crosstxid m) /\ encodable m.

Lemma can_file_status `{ProtobufLaws} s m : can_file m -> can_file (set_status s m).
Proof. intros [? ?]. split; [done|]. by apply encodable_status. Qed.

Lemma read_record_ok `{Answers} i1 i2 d l m : two_answers i1 i2 -> info_lists i1 i2 = Ret l ->
  (d = ""%string \/ exists p, p ∈ l.1 /\ d = of_bytes p) -> fill_info d l.1 l.2 = Ret m ->
  can_file m.
Proof.
  intros (r1 & r2 & Hr1 & Hr2) El Hd Ef.
  split; [eapply info_id_ok; [exact (answer_id _ _ Hr1)|exact El|exact Ef]|].
  unfold info_lists in El. apply obind_Ret in El as (x1 & E1 & El). apply obind_Ret in El as (x2 & E2 & El).
  injection El as <-. cbn [fst snd] in *. eapply encodable_fill; [| |exact Ef].
  - destruct Hd as [->|(p & Hp & ->)]; [apply text_ok_empty|by eapply (answer_items r1)].
  - intros p [Hp|Hp]; [by eapply (answer_items r1)|by eapply (answer_items r2)].
Qed.

(** How every event starts: the record of the transaction is asked for and made
    into a message, or the event fails without effect. *)
Section Ask.
Context `{RocksDbLaws} {W : Type} `{!HasSys W}.
Context (make : string -> string -> outcome (option CrossTxInfo)).

Definition read_from (ask : string -> M sys (option (string * string))) (id : string) (s : sys)
    (m : CrossTxInfo) : Prop :=
  exists s' i1 i2, ask id s = Ret (Some (i1, i2), s') /\ make i1 i2 = Ret (Some m).

(** Nothing in the tables or the database has changed. *)
Definition unchanged (w w' : W) : Prop := exists s', w' = set_sys s' w /\ db_same (the_sys w) s'.

Lemma ask_inv (ask : string -> M sys (option (string * string))) id (k : CrossTxInfo -> M W bool) w b w' :
  keeps s_db (ask id) ->
  (let! infos := sysop (ask id) in
   match infos with
   | None => ret false
   | Some (i1, i2) =>
       let! made := lift (make i1 i2) in
       match made with None => ret false | Some m => k m end
   end) w = Ret (b, w') ->
  (b = false /\ unchanged w w') \/
  exists m s', read_from ask id (the_sys w) m /\ db_same (the_sys w) s' /\ k m (set_sys s' w) = Ret (b, w').
Proof.
  intros Hk E. apply bind_inv in E as (infos & w1 & E1 & E). apply sysop_inv in E1 as (s1 & E1 & ->).
  pose proof (db_step_keeps _ _ _ _ Hk E1) as Hs1.
  destruct infos as [[i1 i2]|]; [|left; injection E as <- <-; split; [done|by exists s1]].
  apply bind_inv in E as (made & w2 & E2 & E). unfold lift in E2.
  apply obind_Ret in E2 as (made' & Em & E2). injection E2 as -> <-.
  destruct made as [m|]; [right|left; injection E as <- <-; split; [done|by exists s1]].
  exists m, s1. split; [by exists s1, i1, i2|done].
Qed.
End Ask.

(** A family of tables that do not touch each other, each with a prefix of the
    database, that prefix's keys, and whether its entries have deadlines. *)
Class Tables `{RocksDb} (W I : Type) `{!HasSys W} `{EqDecision I} := {
  tbl : I -> Table W;
  pre : I -> string;
  ddl : I -> bool;
  dbkey_of : I -> string -> string;
  tbl_apart : forall i j m w, i <> j -> rows (tbl i) (set_rows (tbl j) m w) = rows (tbl i) w;
  pre_apart : forall i j, i <> j -> apart (pre i) (pre j);
  dbkey_of_ok : forall i id, id_ok id -> dbkey_of i id = (pre i ++ id)%string
}.

Section Journal.
Context `{RocksDbLaws} `{!Reliable} `{Clock} `{ProtobufLaws}.
Context {W I : Type} `{!HasSys W} `{EqDecision I} `{HT : !Tables W I}.
Implicit Types (w : W) (i j : I).

(** The keys under none of the prefixes are as the rest [R] says. *)
Context {R : string -> option string}.
Definition no_prefix (k : string) : Prop := forall i, starts_with k (pre i) = false.

Definition journaled_in w : Prop :=
  (forall i, filed (ddl i) (rows (tbl i) w)) /\
  exists db, content (s_db (the_sys w)) = Some db /\ (forall i, mirrored (pre i) (rows (tbl i) w) db) /\
    forall k, no_prefix k -> db !! k = R k.
#[local] Notation journaled := journaled_in.

Lemma journaled_entry w i k c : journaled w -> rows (tbl i) w !! k = Some c ->
  exists m d, crosstxid m = k /\ id_ok k /\ deadlined (ddl i) d /\ encodable m /\ c = entry d m.
Proof.
  intros (Hf & db & _ & Hm & _) Ek. destruct (Hf i _ _ Ek) as (m & d & ? & ? & ? & ->).
  destruct (Hm i) as [Ht _]. destruct (Ht k) as [? _]; [by eexists|]. by exists m, d.
Qed.

Lemma journaled_sys w s : db_same (the_sys w) s -> journaled w -> journaled (set_sys s w).
Proof.
  intros Hs (Hf & db & Hdb & Hm & Hr). split; [intros i; by rewrite rows_set_sys|].
  exists db. rewrite the_sys_set. split; [by apply Hs|]. split; [|done]. intros i. by rewrite rows_set_sys.
Qed.

Lemma sysop_journaled {A} (m : M sys A) : keeps s_db m -> preserves journaled (sysop m).
Proof.
  intros Hk w a w' HJ E. apply sysop_inv in E as (s' & E & ->). apply journaled_sys; [|done].
  by eapply db_step_keeps.
Qed.

Lemma ask_journaled `{!Json} make (Hmake : forall x1 x2 m, two_answers x1 x2 -> make x1 x2 = Ret (Some m) -> can_file m)
    (ask : string -> M sys (option (string * string))) id (k : CrossTxInfo -> M W bool) :
  keeps s_db (ask id) -> (forall s x1 x2 s', ask id s = Ret (Some (x1, x2), s') -> two_answers x1 x2) ->
  (forall m, can_file m -> preserves journaled (k m)) ->
  preserves journaled (
    let! infos := sysop (ask id) in
    match infos with
    | None => ret false
    | Some (x1, x2) =>
        let! made := lift (make x1 x2) in
        match made with None => ret false | Some m => k m end
    end).
Proof.
  intros Hk Hask Hm w b w' HJ E.
  apply (ask_inv make) in E as [[-> (s' & -> & Hs)]|(m & s' & (s1 & x1 & x2 & E1 & Em) & Hs & E)]; [| |done].
  - by apply journaled_sys.
  - eapply Hm; [by eapply Hmake; [eapply Hask|]|by apply journaled_sys|exact E].
Qed.

(** What a step does to one table [i]; the others see only the database. *)
Lemma journaled_step i t' f w s' :
  journaled w -> filed (ddl i) t' -> db_step f (the_sys w) s' ->
  (forall db, mirrored (pre i) (rows (tbl i) w) db -> mirrored (pre i) t' (f db)) ->
  (forall j db, j <> i -> mirrored (pre j) (rows (tbl j) w) db -> mirrored (pre j) (rows (tbl j) w) (f db)) ->
  (forall k db, no_prefix k -> f db !! k = db !! k) ->
  journaled (set_rows (tbl i) t' (set_sys s' w)).
Proof.
  intros (Hf & db & Hdb & Hm & Hrest) Ht Hs Hi Hj Hk.
  assert (forall j, rows (tbl j) (set_rows (tbl i) t' (set_sys s' w)) =
                    if decide (j = i) then t' else rows (tbl j) w) as Hr.
  { intros j. case_decide; subst; [by rewrite rows_set|]. by rewrite tbl_apart, rows_set_sys. }
  split.
  - intros j. rewrite Hr. case_decide; subst; auto.
  - exists (f db). rewrite the_sys_set_rows, the_sys_set. split; [by apply Hs|].
    split; [intros j; rewrite Hr; case_decide; subst; auto|]. intros k Hn. rewrite Hk by done. auto.
Qed.

Lemma no_prefix_app k i x : no_prefix k -> (pre i ++ x)%string <> k.
Proof. intros Hn <-. specialize (Hn i). by rewrite starts_with_app in Hn. Qed.

Lemma journaled_saved i m d w s' :
  journaled w -> id_ok (crosstxid m) -> encodable m -> deadlined (ddl i) d ->
  db_step (insert (dbkey_of i (crosstxid m)) (serialize_CrossTxInfo m)) (the_sys w) s' ->
  journaled (set_rows (tbl i) (emplace (crosstxid m) (entry d m) (rows (tbl i) w)) (set_sys s' w)).
Proof.
  intros HJ Hid Hm Hd Hs. rewrite dbkey_of_ok in Hs by done.
  eapply journaled_step; [done| |exact Hs|..].
  - apply filed_emplace; [apply HJ|done..].
  - intros db Hmi. by apply mirrored_save.
  - intros j db Hj Hmj. apply mirrored_other; auto using pre_apart.
  - intros k db Hn. apply lookup_insert_ne. by apply no_prefix_app.
Qed.

Lemma clear_journaled i id : id_ok id -> preserves journaled (clear_entry (tbl i) (dbkey_of i id) id).
Proof.
  intros Hid w b w' HJ E. apply clear_entry_inv in E as (_ & s' & -> & Hs).
  rewrite dbkey_of_ok in Hs by done. eapply journaled_step; [done| |exact Hs|..].
  - apply filed_delete, HJ.
  - intros db. apply mirrored_clear.
  - intros j db Hj. apply mirrored_clear_other. by apply pre_apart.
  - intros k db Hn. apply lookup_delete_ne. by apply no_prefix_app.
Qed.

Lemma journaled_sent_plain i send mk w b w' : ddl i = false ->
  (forall h, accepted send h -> id_ok (crosstxid (mk h)) /\ encodable (mk h)) -> journaled w ->
  sent_plain (tbl i) send (dbkey_of i) mk w b w' -> journaled w'.
Proof.
  intros Hd Hmk HJ. destruct b.
  - intros (s' & h & Ha & -> & Hs). destruct (Hmk h Ha). apply journaled_saved; try done. by rewrite Hd.
  - intros (s' & -> & Hs). by apply journaled_sys.
Qed.

Lemma journaled_sent_ack i send mk w b w' : ddl i = true ->
  (forall h, accepted send h -> id_ok (crosstxid (mk h)) /\ encodable (mk h)) -> journaled w ->
  sent_ack (tbl i) send (dbkey_of i) mk w b w' -> journaled w'.
Proof.
  intros Hd Hmk HJ. destruct b.
  - intros (s' & t & h & Ha & -> & Hs). destruct (Hmk h Ha). apply journaled_saved; try done. rewrite Hd. by eexists.
  - intros (s' & -> & Hs). by apply journaled_sys.
Qed.

(** Reading the current node gives the message its entry was made of. *)
Lemma node_inv (T : Table W) k w c w' : node T k w = Ret (c, w') -> w' = w /\ rows T w !! k = Some c.
Proof.
  unfold node, bind, get. cbn. destruct (rows T w !! k) eqn:Ek; [|done]. by intros [= -> ->].
Qed.

Lemma node_journaled {A} i k (f : CrossTx -> M W A) :
  (forall m d, crosstxid m = k -> id_ok k -> deadlined (ddl i) d -> encodable m ->
     preserves journaled (f (entry d m))) ->
  preserves journaled (bind (node (tbl i) k) f).
Proof.
  intros Hf w a w' HJ E. apply bind_inv in E as (c & w1 & E1 & E).
  apply node_inv in E1 as [-> Ek]. destruct (journaled_entry _ _ _ _ HJ Ek) as (m & d & ? & ? & ? & ? & ->).
  eapply Hf; [..|exact E]; eauto.
Qed.

Lemma set_deadline_journaled i k t : ddl i = true ->
  preserves journaled (node_set_ack_timeout (tbl i) k t).
Proof.
  intros Hd w u w' HJ E. apply bind_inv in E as (c & w1 & E1 & E).
  apply node_inv in E1 as [-> Ek]. injection E as _ <-.
  rewrite <- (set_sys_id w) at 2. eapply (journaled_step i _ (fun db => db)); [done| |by intros db|..]; [..|done|done].
  - pose proof (proj1 HJ i) as Hf. rewrite Hd in Hf |- *. by apply filed_deadline.
  - intros db. apply mirrored_update. by eexists.
Qed.

(** ** What a visit of key [k] of table [i] may change: any table keeps the
    journal, and the other keys of [i] stay as they were in [m0]. *)
Definition outside i (k : string) (m0 : gmap string CrossTx) w : Prop :=
  journaled w /\ forall k', k' <> k -> is_Some (rows (tbl i) w !! k') <-> is_Some (m0 !! k').

Lemma sysop_outside {A} i k m0 (m : M sys A) : keeps s_db m -> preserves (outside i k m0) (sysop m).
Proof.
  intros Hk w a w' [HJ Ho] E. split; [by eapply sysop_journaled|].
  apply sysop_inv in E as (s' & _ & ->). by rewrite rows_set_sys.
Qed.

Lemma clear_outside i k m0 : id_ok k -> preserves (outside i k m0) (clear_entry (tbl i) (dbkey_of i k) k).
Proof.
  intros Hid w b w' [HJ Ho] E. split; [by eapply clear_journaled|].
  apply clear_entry_inv in E as (_ & s' & -> & _). intros k' Hne.
  rewrite rows_set, lookup_delete_ne by done. by apply Ho.
Qed.

Lemma sent_ack_outside i k m0 j send mk w b w' : ddl j = true ->
  (forall h, accepted send h -> id_ok (crosstxid (mk h)) /\ encodable (mk h)) ->
  j <> i \/ (forall h, crosstxid (mk h) = k) ->
  outside i k m0 w -> sent_ack (tbl j) send (dbkey_of j) mk w b w' -> outside i k m0 w'.
Proof.
  intros Hd Hmk Hj [HJ Ho] E. split; [by eapply journaled_sent_ack|]. destruct b.
  - destruct E as (s' & t & h & _ & -> & _). intros k' Hne. rewrite <- (Ho k' Hne).
    destruct (decide (j = i)) as [->|Hji].
    + rewrite rows_set, lookup_emplace. destruct Hj as [|Hk]; [done|]. by rewrite Hk, decide_False.
    + by rewrite tbl_apart, rows_set_sys.
  - destruct E as (s' & -> & _). by rewrite rows_set_sys.
Qed.

Lemma sent_plain_outside i k m0 j send mk w b w' : ddl j = false ->
  (forall h, accepted send h -> id_ok (crosstxid (mk h)) /\ encodable (mk h)) -> j <> i ->
  outside i k m0 w -> sent_plain (tbl j) send (dbkey_of j) mk w b w' -> outside i k m0 w'.
Proof.
  intros Hd Hmk Hj [HJ Ho] E. split; [by eapply journaled_sent_plain|]. destruct b.
  - destruct E as (s' & h & _ & -> & _). by rewrite tbl_apart, rows_set_sys.
  - destruct E as (s' & -> & _). by rewrite rows_set_sys.
Qed.

Lemma node_preserves (J : W -> Prop) (T : Table W) k : preserves J (node T k).
Proof. intros w c w' HJ E. by apply node_inv in E as [-> _]. Qed.

Lemma node_outside {A} i k m0 (f : CrossTx -> M W A) :
  (forall m d, crosstxid m = k -> id_ok k -> deadlined (ddl i) d -> encodable m ->
     preserves (outside i k m0) (f (entry d m))) ->
  preserves (outside i k m0) (bind (node (tbl i) k) f).
Proof.
  intros Hf w a w' HJ E. apply bind_inv in E as (c & w1 & E1 & E). apply node_inv in E1 as [-> Ek].
  destruct (journaled_entry _ _ _ _ (proj1 HJ) Ek) as (m & d & ? & ? & ? & ? & ->).
  eapply Hf; [..|exact E]; eauto.
Qed.

Lemma set_deadline_outside i k m0 t : ddl i = true ->
  preserves (outside i k m0) (node_set_ack_timeout (tbl i) k t).
Proof.
  intros Hd w u w' [HJ Ho] E. split; [by eapply set_deadline_journaled|].
  apply bind_inv in E as (c & w1 & E1 & E). apply node_inv in E1 as [-> Ek]. injection E as _ <-.
  intros k' Hne. rewrite rows_set, lookup_insert_ne by done. by apply Ho.
Qed.

(** ** Recovery: loading the tables from the database *)
Fixpoint load_all {A} (l : list I) (k : M W A) : M W A :=
  match l with
  | [] => k
  | i :: r => do! load_table (tbl i) (pre i) (ddl i) in load_all r k
  end.

Lemma load_all_inv {A} (l : list I) (k : M W A) w a w' db : NoDup l ->
  content (s_db (the_sys w)) = Some db -> load_all l k w = Ret (a, w') ->
  exists w1, k w1 = Ret (a, w') /\ db_same (the_sys w) (the_sys w1) /\
    (forall i, i ∉ l -> rows (tbl i) w1 = rows (tbl i) w) /\
    (forall i, i ∈ l -> rows (tbl i) w = ∅ ->
       (forall id, is_Some (rows (tbl i) w1 !! id) <-> exists m, stored db (pre i) m /\ crosstxid m = id) /\
       ((forall m, stored db (pre i) m -> encodable m) -> filed (ddl i) (rows (tbl i) w1))).
Proof.
  intros Hn. revert w. induction Hn as [|i l Hi Hn IH]; intros w Hdb E.
  { exists w. split; [done|]. split; [by intros ?|]. split; [done|]. intros i Hi. by apply elem_of_nil in Hi. }
  cbn [load_all] in E. apply bind_inv in E as (u & w1 & E1 & E).
  eapply load_table_inv in E1 as (s1 & t1 & -> & Hs1 & Hd1 & Hf1); [|done].
  apply IH in E as (w2 & E & Hs2 & Hout & Hin); [|rewrite the_sys_set_rows, the_sys_set; by apply Hs1].
  rewrite the_sys_set_rows, the_sys_set in Hs2.
  exists w2. split; [done|]. split; [by eapply db_step_trans|]. split.
  - intros j Hj. apply not_elem_of_cons in Hj as [Hne Hj].
    by rewrite Hout, tbl_apart, rows_set_sys.
  - intros j Hj Hw. destruct (decide (j = i)) as [->|Hne].
    + rewrite Hout, rows_set by done. rewrite Hw in Hd1, Hf1. split.
      * intros id. rewrite Hd1, lookup_empty. split; [intros [[? ?]|?]; done|by right].
      * intros He. apply Hf1; [done|]. apply filed_empty.
    + apply Hin; [by apply elem_of_cons in Hj as [|]|]. by rewrite tbl_apart, rows_set_sys.
Qed.

(** From a journaled state, loading into empty tables finds every id again and
    gives a journaled state with the same rest. *)
Lemma load_all_recovers (l : list I) w w0 b w' :
  NoDup l -> (forall i, i ∈ l) -> journaled w ->
  content (s_db (the_sys w0)) = content (s_db (the_sys w)) -> (forall i, rows (tbl i) w0 = ∅) ->
  load_all l (ret true) w0 = Ret (b, w') ->
  b = true /\ journaled w' /\
  forall i id, is_Some (rows (tbl i) w' !! id) <-> is_Some (rows (tbl i) w !! id).
Proof.
  intros Hn Hl (Hf & db & Hdb & Hm & Hrest) Hc He E. rewrite Hdb in Hc.
  eapply load_all_inv in E as (w1 & E & Hs & _ & Hin); [|done..]. injection E as <- <-.
  assert (forall i id, is_Some (rows (tbl i) w1 !! id) <-> is_Some (rows (tbl i) w !! id)) as Hd.
  { intros i id. rewrite (mirrored_reload _ _ _ (Hm i)). by apply (Hin i (Hl i) (He i)). }
  split; [done|]. split; [|done]. split.
  - intros i. apply (Hin i (Hl i) (He i)). intros m. by apply (mirrored_stored (pre i) (rows (tbl i) w)).
  - exists db. split; [by apply Hs|]. split; [|done]. intros i. by apply (mirrored_same_dom (pre i) (rows (tbl i) w)).
Qed.

(** A database without keys of the prefixes is a journal of empty tables. *)
Lemma journaled_fresh w db : content (s_db (the_sys w)) = Some db ->
  (forall i k, is_Some (db !! k) -> starts_with k (pre i) = false) -> (forall i, rows (tbl i) w = ∅) ->
  (forall k, no_prefix k -> db !! k = R k) -> journaled w.
Proof.
  intros Hdb Hp He Hr. split; [intros i; rewrite He; apply filed_empty|].
  exists db. split; [done|]. split; [|done]. intros i. rewrite He. split.
  - intros id [? ?]. by rewrite lookup_empty in *.
  - intros k v Ek Hk. by rewrite Hp in Hk by by eexists.
Qed.
(** Loading always returns: the database is open and every value is parsed. *)
Lemma HighResolution_total (s : sys) : exists t s', HighResolution s = Ret (t, s').
Proof.
  unfold HighResolution, Timestamp_Now, bind, tick, get, modify. cbn.
  destruct (clock_monotonic _); cbn. destruct (_ =? 0); cbn; [|by eauto].
  destruct (time_of_day _); cbn. by eauto.
Qed.

Lemma sysop_total {A} (m : M sys A) w : (exists a s', m (the_sys w) = Ret (a, s')) -> exists a w', sysop m w = Ret (a, w').
Proof. intros (a & s' & E). unfold sysop, zoom. rewrite E. by eexists _, _. Qed.

Lemma load_values_total (T : Table W) dl vs w : exists w', load_values T dl vs w = Ret (tt, w').
Proof.
  revert w. induction vs as [|v vs IH]; intros w; [by eexists|]. cbn [load_values].
  destruct (parse_CrossTxInfo v) as [[] m]; [|apply IH]. destruct dl.
  - destruct (sysop_total HighResolution w (HighResolution_total _)) as (t & w1 & E).
    unfold ack_deadline. unfold bind at 1, bind at 1, bind at 1. rewrite E. cbn. apply IH.
  - unfold bind, table_emplace, modify. cbn. apply IH.
Qed.

Lemma load_table_total (T : Table W) p dl w db : content (s_db (the_sys w)) = Some db ->
  exists w', load_table T p dl w = Ret (tt, w').
Proof.
  intros Hdb. destruct (GetAll_open _ _ p Hdb) as (ok & l & d2 & E2 & _).
  unfold load_table, sysop, zoom, on_database, zoom, bind. rewrite E2. cbn.
  destruct ok; [apply load_values_total|by eexists].
Qed.

Lemma load_all_total (l : list I) w db : content (s_db (the_sys w)) = Some db ->
  exists w', load_all l (ret true) w = Ret (true, w').
Proof.
  revert w. induction l as [|i l IH]; intros w Hdb; [by eexists|]. cbn [load_all].
  destruct (load_table_total (tbl i) (pre i) (ddl i) w db Hdb) as [w1 E1].
  rewrite (bind_ret_run _ _ _ _ _ E1). apply IH.
  eapply load_table_inv in E1 as (s1 & t1 & -> & Hs1 & _); [|done].
  rewrite the_sys_set_rows, the_sys_set. by apply Hs1.
Qed.

End Journal.

(** ** Reachable states

    A handler starts by loading its tables, from a database that has nothing
    under its prefixes; then it handles events; it is restarted on the database
    it left; and others may write under other keys. *)
Section Reach.
Context `{RocksDbLaws} `{!Reliable} `{Clock} `{ProtobufLaws}.
Context {W I : Type} `{!HasSys W} `{EqDecision I} `{HT : !Tables W I}.
Context {E : Type} (event_ok : E -> Prop) (handle : E -> M W unit) (boot : sys -> W)
  (init : M W bool) (order : list I).
Context (boot_sys : forall s, the_sys (boot s) = s) (boot_rows : forall s i, rows (tbl i) (boot s) = ∅).
Context (order_nodup : NoDup order) (order_all : forall i, i ∈ order).
Context (init_loads : forall w, init w = load_all order (ret true) w).
Context (handle_ok : forall e R, event_ok e -> preserves (journaled_in (R := R)) (handle e)).

(** Journaled, whatever the rest. *)
Definition journaled (w : W) : Prop := exists R, journaled_in (R := R) w.

Definition other_keys_only (s s' : sys) : Prop :=
  forall db, content (s_db s) = Some db -> exists db', content (s_db s') = Some db' /\
    forall i k, starts_with k (pre i) = true -> db' !! k = db !! k.

Inductive reachable : W -> Prop :=
| reach_fresh s db b w : content (s_db s) = Some db ->
    (forall i k, is_Some (db !! k) -> starts_with k (pre i) = false) ->
    init (boot s) = Ret (b, w) -> reachable w
| reach_event e w w' : reachable w -> event_ok e -> handle e w = Ret (tt, w') -> reachable w'
| reach_restart w s b w' : reachable w -> content (s_db s) = content (s_db (the_sys w)) ->
    init (boot s) = Ret (b, w') -> reachable w'
| reach_other w s : reachable w -> other_keys_only (the_sys w) s -> reachable (set_sys s w).

Lemma journaled_other w s : other_keys_only (the_sys w) s -> journaled w -> journaled (set_sys s w).
Proof.
  intros Ho (R & Hf & db & Hdb & Hm & _). destruct (Ho _ Hdb) as (db' & Hdb' & Hk).
  exists (fun k => db' !! k). split; [intros i; by rewrite rows_set_sys|].
  exists db'. rewrite the_sys_set. split; [done|]. split; [|done].
  intros i. rewrite rows_set_sys. destruct (Hm i) as [Ht Hr]. split.
  - intros id Hs. destruct (Ht id Hs) as (? & m & Em & ?). split; [done|]. exists m.
    by rewrite (Hk i) by apply starts_with_app.
  - intros k v Ek Hp. rewrite (Hk i) in Ek by done. by eapply Hr.
Qed.

Lemma load_boot_recovers w s b w' : journaled w -> content (s_db s) = content (s_db (the_sys w)) ->
  init (boot s) = Ret (b, w') ->
  b = true /\ journaled w' /\ forall i id, is_Some (rows (tbl i) w' !! id) <-> is_Some (rows (tbl i) w !! id).
Proof.
  intros [R HJ] Hc HE. rewrite init_loads in HE. eapply (load_all_recovers order w (boot s) b w') in HE as (? & ? & ?); try done.
  - split; [done|]. split; [by exists R|done].
  - by rewrite boot_sys.
Qed.

Lemma reachable_is_journaled w : reachable w -> journaled w.
Proof.
  induction 1 as [s db b w Hdb Hp HE|e w w' _ [R IH] He HE|w s b w' _ IH Hc HE|w s _ IH Ho].
  - eapply (load_boot_recovers (boot s)); [|by rewrite boot_sys|done]. exists (fun k => db !! k).
    apply (journaled_fresh _ db); [by rewrite boot_sys|done..].
  - exists R. by eapply handle_ok.
  - by eapply load_boot_recovers.
  - by apply journaled_other.
Qed.

(** A restart of a reachable state succeeds and finds every pending id. *)
Lemma restart_recovers w s : reachable w -> content (s_db s) = content (s_db (the_sys w)) ->
  exists w', init (boot s) = Ret (true, w') /\
    forall i id, is_Some (rows (tbl i) w' !! id) <-> is_Some (rows (tbl i) w !! id).
Proof.
  intros Hr Hc. pose proof (reachable_is_journaled w Hr) as HJ. destruct (HJ) as (R & _ & db & Hdb & _).
  destruct (load_all_total order (boot s) db) as [w' E1]; [rewrite boot_sys; congruence|].
  rewrite <- init_loads in E1. exists w'. split; [done|]. by eapply load_boot_recovers.
Qed.
End Reach.


(** ** Sweeps *)
Section Sweep.
Context {W A : Type} (proj : W -> gmap string A) (body : string -> M W unit) (J : W -> Prop).

(** A body that may at most erase the key it is at. *)
Definition erases_only : Prop :=
  forall k w w', J w -> is_Some (proj w !! k) -> body k w = Ret (tt, w') ->
    J w' /\ forall k', k' <> k -> is_Some (proj w' !! k') <-> is_Some (proj w !! k').

(** If such a loop returns, no key has been erased. *)
Lemma keys_for_same_keys ks w w' : erases_only -> J w -> (forall k, k ∈ ks -> is_Some (proj w !! k)) ->
  keys_for proj body ks w = Ret (tt, w') ->
  J w' /\ forall k, is_Some (proj w' !! k) <-> is_Some (proj w !! k).
Proof.
  intros Hb. revert w. induction ks as [|k ks IH]; intros w HJ Hks E.
  { injection E as <-. done. }
  cbn [keys_for] in E. apply bind_inv in E as ([] & w1 & E1 & E).
  apply bind_inv in E as (w2 & w3 & E2 & E). injection E2 as <- <-.
  destruct (Hb k w w1 HJ (Hks k (list_elem_of_here _ _)) E1) as [HJ1 Hd].
  destruct (proj w1 !! k) eqn:Ek; [|done].
  assert (forall k', is_Some (proj w1 !! k') <-> is_Some (proj w !! k')) as Hd'.
  { intros k'. destruct (decide (k' = k)) as [->|]; [|by apply Hd]. rewrite Ek.
    split; [intros _; apply Hks, list_elem_of_here|by eexists]. }
  apply IH in E as [HJ' Hd2]; [|done|intros k' Hk'; apply Hd', Hks; by apply list_elem_of_further].
  split; [done|]. intros k'. by rewrite Hd2, Hd'.
Qed.

Lemma map_for_same_keys w w' : erases_only -> J w -> map_for proj body w = Ret (tt, w') ->
  J w' /\ forall k, is_Some (proj w' !! k) <-> is_Some (proj w !! k).
Proof.
  intros Hb HJ E. rewrite (map_for_keys _ _ J) in E by (try done; exact Hb).
  eapply keys_for_same_keys; try done. intros k. by rewrite elem_of_sorted_keys.
Qed.

(** The first key whose visit erases it ends the loop in a use of a dangling
    iterator. *)
Lemma keys_for_dangling ks k ks' w w1 w2 :
  keys_for proj body ks w = Ret (tt, w1) -> body k w1 = Ret (tt, w2) -> proj w2 !! k = None ->
  keys_for proj body (ks ++ k :: ks') w = Undef DanglingIterator.
Proof.
  revert w. induction ks as [|x ks IH]; intros w E Eb Ek; cbn [app keys_for] in *.
  - injection E as ->. rewrite (bind_ret_run _ _ _ _ _ Eb). unfold bind, get. cbn. by rewrite Ek.
  - apply bind_inv in E as (u & w3 & E1 & E). apply bind_inv in E as (w4 & w5 & E2 & E).
    injection E2 as <- <-. rewrite (bind_ret_run _ _ _ _ _ E1).
    unfold bind at 1, get. cbn [obind fst snd]. destruct (proj w3 !! x); [|done]. by apply IH.
Qed.
End Sweep.

(** Sweeps of a family of tables: a body that leaves the other keys alone may
    at most erase its own. *)
Section TableSweep.
Context `{RocksDbLaws} `{!Reliable} `{Clock} `{ProtobufLaws}.
Context {W I : Type} `{!HasSys W} `{EqDecision I} `{HT : !Tables W I} {R : string -> option string}.
#[local] Notation journaled := (journaled_in (R := R)).

Lemma outside_erases_only (i : I) body :
  (forall k m0, preserves (outside (R := R) i k m0) (body k)) -> erases_only (rows (tbl i)) body journaled.
Proof.
  intros Hb k w w' HJ _ E. destruct (Hb k (rows (tbl i) w) w tt w') as [HJ' Ho]; [by split|done|].
  split; [exact HJ'|exact Ho].
Qed.

Lemma outside_sweep (i : I) body :
  (forall k m0, preserves (outside (R := R) i k m0) (body k)) -> preserves journaled (map_for (rows (tbl i)) body).
Proof.
  intros Hb w [] w' HJ E. by eapply map_for_same_keys; [apply outside_erases_only| |].
Qed.
End TableSweep.
