(* ===== verification/Progress.v ===== *)
(** Progress of pending transactions.  A handler's tables are the stages of a
    transaction; the sections below are stated for any family of tables with
    a rank and say when an operation never takes a transaction back to an
    earlier stage, and so never loses one: an entry is cleared only once the
    next stage has it, and a sweep that clears an entry does not return. *)

From S2P Require Import Prelude Strings Ordered Database General Platform WebClient Transaction Pending Journal.

Section Progress.
Context `{RocksDbLaws} `{!Reliable} `{Clock} `{ProtobufLaws}.
Context {W I : Type} `{!HasSys W} `{EqDecision I} `{HT : !Tables W I}.
Context (rank : I -> nat).
Implicit Types (w : W) (i j : I).

(** The transaction [id] is pending in the table [i] or in a later one. *)
Definition at_least i w (id : string) : Prop :=
  exists j, (rank i <= rank j)%nat /\ is_Some (rows (tbl j) w !! id).
Definition no_step_back w w' : Prop := forall i id, at_least i w id -> at_least i w' id.

#[export] Instance no_step_back_preorder : PreOrder no_step_back.
Proof. split; [by intros w i id|]. intros w1 w2 w3 H12 H23 i id Hi. by apply H23, H12. Qed.

(** It is enough to follow the entries of each table. *)
Lemma no_step_back_rows w w' :
  (forall j id, is_Some (rows (tbl j) w !! id) -> at_least j w' id) -> no_step_back w w'.
Proof.
  intros Hr i id (j & Hij & Hj). destruct (Hr j id Hj) as (k & Hjk & Hk). exists k. split; [lia|done].
Qed.

Lemma no_step_back_sys w s : no_step_back w (set_sys s w).
Proof. apply no_step_back_rows. intros j id Hj. exists j. split; [lia|]. by rewrite rows_set_sys. Qed.

(** ** Operations that only add to the table [j] *)
Definition above j (m0 : gmap string CrossTx) w : Prop :=
  forall id, is_Some (m0 !! id) -> is_Some (rows (tbl j) w !! id).

Lemma sysop_above {A} j m0 (m : M sys A) : preserves (above j m0) (sysop m).
Proof. intros w a w' Ho E id Hid. apply sysop_inv in E as (s & _ & ->). rewrite rows_set_sys. by apply Ho. Qed.

Lemma above_emplace j m0 i id c s w :
  above j m0 w -> above j m0 (set_rows (tbl i) (emplace id c (rows (tbl i) w)) (set_sys s w)).
Proof.
  intros Ho k Hk%Ho. destruct (decide (j = i)) as [->|]; [|by rewrite tbl_apart, rows_set_sys].
  rewrite rows_set, lookup_emplace. case_decide; [|done]. by eexists.
Qed.

Lemma sent_ack_above j m0 i send key mk w b w' :
  sent_ack (tbl i) send key mk w b w' -> above j m0 w -> above j m0 w'.
Proof.
  destruct b.
  - intros (s & t & h & _ & -> & _). apply above_emplace.
  - intros (s & -> & _) Ho id Hid. rewrite rows_set_sys. by apply Ho.
Qed.
Lemma sent_plain_above j m0 i send key mk w b w' :
  sent_plain (tbl i) send key mk w b w' -> above j m0 w -> above j m0 w'.
Proof.
  destruct b.
  - intros (s & h & _ & -> & _). apply above_emplace.
  - intros (s & -> & _) Ho id Hid. rewrite rows_set_sys. by apply Ho.
Qed.
Lemma save_plain_above j m0 i key c : preserves (above j m0) (save_plain (tbl i) key c).
Proof. intros w b w' Ho E. apply save_plain_inv in E as (_ & s & -> & _). by apply above_emplace. Qed.
Lemma clear_above j m0 i key id : j <> i -> preserves (above j m0) (clear_entry (tbl i) key id).
Proof.
  intros Hne w b w' Ho E k Hk%Ho. apply clear_entry_inv in E as (_ & s & -> & _).
  by rewrite tbl_apart, rows_set_sys.
Qed.
Lemma set_deadline_above j m0 i k t : preserves (above j m0) (node_set_ack_timeout (tbl i) k t).
Proof.
  intros w u w' Ho E id Hid%Ho. apply bind_inv in E as (c & w1 & E1 & E).
  apply node_inv in E1 as [-> Ek]. injection E as _ <-.
  destruct (decide (j = i)) as [->|]; [|by rewrite tbl_apart].
  rewrite rows_set, lookup_insert. case_decide; [by eexists|done].
Qed.

(** ** Operations under which no transaction steps back *)
Section Kept.
Context {R : string -> option string}.
#[local] Notation journaled := (journaled_in (R := R)).

Definition kept w0 w : Prop := journaled w /\ no_step_back w0 w.

Lemma kept_grows {A} w0 (m : M W A) :
  preserves journaled m -> (forall j m0, preserves (above j m0) m) -> preserves (kept w0) m.
Proof.
  intros HJ Hm w a w' [Hw Hb] E. split; [by eapply HJ|]. etransitivity; [exact Hb|].
  apply no_step_back_rows. intros j id Hj. exists j. split; [lia|].
  exact (Hm j (rows (tbl j) w) w a w' (fun _ Hk => Hk) E id Hj).
Qed.

(** The walk over the table [i] at the time it starts: its body may clear
    entries of [i] only. *)
Lemma kept_walk w0 i (body : string -> M W unit) :
  (forall k m0, preserves (outside (R := R) i k m0) (body k)) ->
  (forall j k m0, j <> i -> preserves (above j m0) (body k)) ->
  preserves (kept w0) (map_for (rows (tbl i)) body).
Proof.
  intros Ho Ha w [] w' [Hw Hb] E.
  destruct (map_for_same_keys _ _ journaled w w' (outside_erases_only i body Ho) Hw E) as [HJ Hd].
  split; [exact HJ|]. etransitivity; [exact Hb|]. apply no_step_back_rows. intros j id Hj.
  exists j. split; [lia|]. destruct (decide (j = i)) as [->|Hne]; [by apply Hd|].
  exact (preserves_map_for _ _ _ (fun k => Ha j k (rows (tbl j) w) Hne) w tt w' (fun _ Hk => Hk) E id Hj).
Qed.
Lemma kept_sweep {A} w0 i (time : M sys A) (body : A -> string -> M W unit) : keeps s_db time ->
  (forall t k m0, preserves (outside (R := R) i k m0) (body t k)) ->
  (forall j t k m0, j <> i -> preserves (above j m0) (body t k)) ->
  preserves (kept w0) (let! t := sysop time in do! map_for (rows (tbl i)) (body t) in ret true).
Proof.
  intros Ht Ho Ha. apply preserves_bind.
  - apply kept_grows; [by apply sysop_journaled|]. intros j m0. apply sysop_above.
  - intros t. apply preserves_bind; [|intros; apply preserves_ret].
    apply kept_walk; [apply Ho|]. intros j k m0. apply Ha.
Qed.

(** A transaction is handed on from the table [i] to the table [k]: filed in
    [k] under the id the node answered with, and only then cleared from [i]
    under the id it was asked for. *)
Lemma kept_handed_on make (ask : string -> M sys (option (string * string))) (send : CrossTxInfo -> M W bool)
    (sub : CrossTxInfo -> M sys (bool * string)) (mk : CrossTxInfo -> string -> CrossTxInfo) key i k clear_key id w0 (run : M W bool) :
  (forall w, run w = (
     let! infos := sysop (ask id) in
     match infos with
     | None => ret false
     | Some (i1, i2) =>
         let! made := lift (make i1 i2) in
         match made with
         | None => ret false
         | Some m => let! ok := send m in if ok then do! clear_entry (tbl i) clear_key id in ret true else ret false
         end
     end) w) ->
  keeps s_db (ask id) -> i <> k -> (rank i <= rank k)%nat ->
  (forall m w b w', send m w = Ret (b, w') -> sent_ack (tbl k) (sub m) key (mk m) w b w') ->
  (forall m h, crosstxid (mk m h) = crosstxid m) ->
  (forall s m, read_from make ask id s m -> crosstxid m = id) ->
  preserves journaled run -> preserves (kept w0) run.
Proof.
  intros Hrun Hk Hne Hrank Hsend Hmk Hid HJ w b w' [Hw Hb] E. split; [by eapply HJ|].
  etransitivity; [exact Hb|]. rewrite Hrun in E. apply (ask_inv make) in E; [|exact Hk].
  destruct E as [[_ (s & -> & _)]|(m & s1 & Hm & _ & E)]; [apply no_step_back_sys|].
  apply bind_inv in E as (ok & w1 & E1 & E). apply Hsend in E1. destruct ok.
  - apply bind_inv in E as (u & w2 & E2 & E). injection E as _ <-.
    destruct E1 as (s2 & t & h & _ & -> & _). apply clear_entry_inv in E2 as (_ & s3 & -> & _).
    rewrite Hmk, (Hid _ _ Hm). apply no_step_back_rows. intros j x Hj. destruct (decide (x = id)) as [->|Hx].
    + destruct (decide (j = i)) as [->|Hji].
      * exists k. split; [done|]. rewrite tbl_apart, rows_set_sys, rows_set, lookup_emplace by congruence.
        rewrite decide_True by done. by eexists.
      * exists j. split; [lia|]. rewrite tbl_apart, rows_set_sys by done.
        apply (above_emplace j (rows (tbl j) w)); [|done]. intros y Hy. by rewrite rows_set_sys.
    + exists j. split; [lia|]. destruct (decide (j = i)) as [->|Hji].
      * rewrite rows_set, lookup_delete_ne by done. rewrite tbl_apart by done. by rewrite !rows_set_sys.
      * rewrite tbl_apart, rows_set_sys by done.
        apply (above_emplace j (rows (tbl j) w)); [|done]. intros y Hy. by rewrite rows_set_sys.
  - injection E as _ <-. destruct E1 as (s2 & -> & _). rewrite set_sys_set. apply no_step_back_sys.
Qed.
End Kept.
End Progress.
