(* ===== verification/Sample.v ===== *)
(** A concrete world for the hypotheses of the handlers' theorems: two nodes
    that answer every question the agent asks, one pending transaction, and a
    clock that stands at 1000 s.  Nothing about the agent depends on it. *)

From S2P Require Import Prelude Strings Ordered Database General Platform Concrete Configure WebClient.
From S2P Require Import Transaction Pending Journal.

Definition query_answer (data : string) : tree :=
  TObj [("result", TObj [("query_rets", TArr [TObj
    [("error", TObj [("data", TNull)]); ("result", TObj [("data", TStr data)])]])])]%string.

(** The transaction [ab12] of the nodes; [late] is the same with a deadline of
    2000 s. *)
Definition sample_json : Json := table_json
  [("seven", TObj [("error_code", TInt 0); ("result", TObj [("header", TObj [("seq", TInt 7)])])]);
   ("executed", TObj [("error_code", TInt 0); ("result", TObj [("transactions", TArr [TObj [("error_code", TInt 0)]])])]);
   ("info1", query_answer "[0,100,ab12,5,did:bid:a,did:bid:b]");
   ("info2", query_answer "[0,0,17,0,9]");
   ("info2 late", query_answer "[0,0,17,0,2000000000]");
   ("sent", TObj [("results", TArr [TObj [("error_code", TInt 0); ("hash", TStr "h1")]])]);
   ("rich", TObj [("error_code", TInt 0); ("result", TObj [("balance", TInt 1000000000000)])]);
   ("done", TObj [("results", TObj [("error_code", TInt 0); ("hash", TStr "h2")])])]%string.

Fixpoint contains (needle s : string) : bool :=
  starts_with s needle || match s with EmptyString => false | String _ r => contains needle r end.

Definition ok_body (s : string) : http_result := mkHttpResult 0 (Some s).
Definition sample_http (info2 history sent : string) : Http := {|
  http_default := mkHttpResult 4 None;
  http_valid := fun _ => true;
  http_get := fun _ _ path =>
    ok_body (if String.eqb path "/getLedger" then "seven"
             else if starts_with path "/getTransactionHistory" then history else "rich")%string;
  http_post := fun _ _ path body _ =>
    ok_body (if String.eqb path "/submitTransaction" then sent
             else if contains "GetCrossTxInfo1" body then "info1" else info2)%string
|}.
Definition sample_layer1 : Layer1Configure :=
  mkLayer1 [] "http://l1" "ws://l1" "cross1" "priSPKone" "manager" "did:bid:one"
    DEFAULT_START_TOPIC DEFAULT_SEND_TOPIC DEFAULT_ACK_TOPIC (Some 20000) (Some 1).
Definition sample_layer2 : Layer2Configure :=
  mkLayer2 "http://l2" "ws://l2" "cross2" "priSPKtwo" "did:bid:two"
    DEFAULT_START_TOPIC DEFAULT_SEND_TOPIC DEFAULT_ACK_TOPIC (Some 1) (Some 20000) (Some 1).
Definition sample_cfg : Configure :=
  mkConfigure (logger_configure_ sample_loaded) sample_layer1 sample_layer2 WebServerConfigure_new.

(** Logs that announce the transaction. *)
Definition log_of (contract topic : string) (items : list string) : TlogSubscribeResponse :=
  mkTlogResponse contract [mkTlog topic items].
Definition sample_proto : Protobuf := table_proto
  [("start1", log_of "cross1" DEFAULT_START_TOPIC ["ab12"]); ("send1", log_of "cross1" DEFAULT_SEND_TOPIC ["ab12"]);
   ("ack1", log_of "cross1" DEFAULT_ACK_TOPIC ["ab12"]); ("start2", log_of "cross2" DEFAULT_START_TOPIC ["ab12"]);
   ("submit", log_of "manager" "Submit" ["01"]); ("period", log_of "manager" "Submit" ["02"]);
   ("empty", mkTlogResponse "cross1" [])]%string
  [([1], mkManagerTlog TOPIC_SUBMIT 8 0); ([2], mkManagerTlog TOPIC_UPDATE_PERIOD 0 10)].

Definition sample_key : AgentKey := toy_key.

Import MemDb.
#[local] Existing Instances sample_json sample_clock sample_proto.

(** An open database holding [db]. *)
Definition sample_sys (db : gmap string string) : sys := mkSys 0 0 (opened db "" 0 None) [].

Lemma content_sample_sys db : content (s_db (sample_sys db)) = Some db.
Proof. reflexivity. Qed.

(** The nodes are trustworthy. *)
Lemma sample_read_query resp s : read_query resp = Ret (Some s) ->
  s ∈ ["[0,100,ab12,5,did:bid:a,did:bid:b]"; "[0,0,17,0,9]"; "[0,0,17,0,2000000000]"]%string.
Proof.
  destruct resp as [e [body|]]; [|done]. unfold read_query. cbn [http_body http_error].
  destruct (e =? 0); cbn [negb]; [|done]. cbn [fromString sample_json table_json assoc].
  repeat match goal with |- context [String.eqb ?k body] => destruct (String.eqb k body) end;
    cbn; try discriminate; intros [= <-]; set_solver.
Qed.

Lemma sample_read_seq resp z : read_seq resp = Ret (Some z) -> - 2 ^ 63 <= z < 2 ^ 63.
Proof.
  destruct resp as [e [body|]]; unfold read_seq, checked_answer, parse_answer; cbn [http_error http_body];
    (destruct (e =? 0); cbn [negb obind]; [|done]); [|done].
  unfold http_value. cbn [http_body obind fromString sample_json table_json assoc].
  repeat match goal with |- context [String.eqb ?k body] => destruct (String.eqb k body) end;
    cbn; try discriminate; intros [= <-]; lia.
Qed.

#[export] Instance sample_answers : Answers.
Proof.
  split.
  - intros resp s Hs%sample_read_query. rewrite !elem_of_cons, elem_of_nil in Hs.
    destruct Hs as [->|[->|[->|[]]]]; split; vm_compute; congruence.
  - done.
  - done.
  - apply sample_read_seq.
Qed.
