(* ===== verification/Layer1ToLayer2.v ===== *)
(** Transactions from the first chain to the second:
    [Layer1ToLayer2Handle] (src/glue/layer1_to_layer2_handle.cpp). *)

From S2P Require Import Prelude Strings Hex Basen Ordered Database General Platform Concrete Configure.
From S2P Require Import WebClient Transaction Pending.

Definition send_tx_prefix_ : string := "L1_SendTx_".
Definition send_ack_prefix_ : string := "L1_SendAckInfo_".
Definition reply_ack_prefix_ : string := "L1_ReplyAckInfo_".

Section Handle.
Context `{RocksDb} `{Clock} `{Http} `{Json} `{Protobuf} `{AgentKey}.
Context (cfg : Configure).

(** The handler's tables, and the state it shares with everything else. *)
Record Layer1ToLayer2Handle := mkHandle {
  h_sys : sys;
  send_tx_info_map_ : gmap string CrossTx;
  send_ack_info_map_ : gmap string CrossTx;
  reply_ack_info_map_ : gmap string CrossTx
}.
#[export] Instance Handle_sys : HasSys Layer1ToLayer2Handle := {|
  the_sys := h_sys;
  set_sys := fun s w => mkHandle s (send_tx_info_map_ w) (send_ack_info_map_ w) (reply_ack_info_map_ w);
  the_sys_set := fun _ _ => eq_refl; set_sys_set := fun _ _ _ => eq_refl;
  set_sys_id := fun w => match w with mkHandle _ _ _ _ => eq_refl end
|}.
Definition send_tx_table : Table Layer1ToLayer2Handle := {|
  rows := send_tx_info_map_;
  set_rows := fun m w => mkHandle (h_sys w) m (send_ack_info_map_ w) (reply_ack_info_map_ w);
  rows_set := fun _ _ => eq_refl; rows_set_sys := fun _ _ => eq_refl; the_sys_set_rows := fun _ _ => eq_refl;
  set_sys_rows := fun _ _ _ => eq_refl; set_rows_set := fun _ _ _ => eq_refl;
  set_rows_id := fun w => match w with mkHandle _ _ _ _ => eq_refl end
|}.
Definition send_ack_table : Table Layer1ToLayer2Handle := {|
  rows := send_ack_info_map_;
  set_rows := fun m w => mkHandle (h_sys w) (send_tx_info_map_ w) m (reply_ack_info_map_ w);
  rows_set := fun _ _ => eq_refl; rows_set_sys := fun _ _ => eq_refl; the_sys_set_rows := fun _ _ => eq_refl;
  set_sys_rows := fun _ _ _ => eq_refl; set_rows_set := fun _ _ _ => eq_refl;
  set_rows_id := fun w => match w with mkHandle _ _ _ _ => eq_refl end
|}.
Definition reply_ack_table : Table Layer1ToLayer2Handle := {|
  rows := reply_ack_info_map_;
  set_rows := fun m w => mkHandle (h_sys w) (send_tx_info_map_ w) (send_ack_info_map_ w) m;
  rows_set := fun _ _ => eq_refl; rows_set_sys := fun _ _ => eq_refl; the_sys_set_rows := fun _ _ => eq_refl;
  set_sys_rows := fun _ _ _ => eq_refl; set_rows_set := fun _ _ _ => eq_refl;
  set_rows_id := fun w => match w with mkHandle _ _ _ _ => eq_refl end
|}.

Notation HM := (M Layer1ToLayer2Handle).
Definition layer1_url : string := l1_http_endpoint (layer1_configure_ cfg).
Definition layer2_url : string := l2_http_endpoint (layer2_configure_ cfg).

(** The table keys of the database. *)
Definition dbkey (prefix id : string) : string := Format (cstr prefix ++ cstr id)%string.

(** ** [Initialize]: the tables as the database has them *)
Definition Initialize : HM bool :=
  do! load_table send_tx_table send_tx_prefix_ false in
  do! load_table send_ack_table send_ack_prefix_ true in
  do! load_table reply_ack_table reply_ack_prefix_ true in
  ret true.

(** ** Saving and clearing *)
Definition SaveSendTxInfo (c : CrossTx) : HM bool :=
  save_plain send_tx_table (dbkey send_tx_prefix_ (cross_tx_id_ c)) c.
Definition ClearSendTxInfo (cross_txid : string) : HM bool :=
  clear_entry send_tx_table (dbkey send_tx_prefix_ cross_txid) cross_txid.
Definition SaveSendAckInfo (c : CrossTx) : HM bool :=
  save_ack send_ack_table (dbkey send_ack_prefix_ (cross_tx_id_ c)) c.
Definition ClearSendAckInfo (cross_txid : string) : HM bool :=
  clear_entry send_ack_table (dbkey send_ack_prefix_ cross_txid) cross_txid.
Definition SaveReplyAckInfo (c : CrossTx) : HM bool :=
  save_ack reply_ack_table (dbkey reply_ack_prefix_ (cross_tx_id_ c)) c.
Definition ClearReplyAckInfo (cross_txid : string) : HM bool :=
  clear_entry reply_ack_table (dbkey reply_ack_prefix_ cross_txid) cross_txid.

(** ** Sending a contract call *)
Definition checkTxResponse (response txhash : string) : outcome (bool * string) := check_response response txhash.

Definition sendTransactionToLayer2 (input : string) (amount : Z) (txhash : string) : M sys (bool * string) :=
  let! t := lift (Layer2Transaction_new cfg) in
  let t := Layer2_AddTransactionOperation cfg input amount t in
  let! seq := GetLayerSeq layer2_url in
  match seq with
  | None => ret (false, txhash)
  | Some layer2_seq =>
      let! max_seq := lift (s64 (layer2_seq + 200)) in
      let! tran_blob := Layer2_GetTransactionBlob max_seq t in
      let! body := lift (signed_request (l2_private_key (layer2_configure_ cfg)) tran_blob) in
      let! response := SubmitLayer2Transaction layer2_url body in
      if negb (http_error response =? 0) then ret (false, txhash)
      else lift (let? b := http_value response in checkTxResponse b txhash)
  end.

Definition sendTransactionToLayer1 (input : string) (amount : Z) (txhash : string) : M sys (bool * string) :=
  let! t := lift (Layer1Transaction_new cfg) in
  let t := Layer1_AddTransactionOperation cfg input amount t in
  let! seq := GetLayerSeq layer1_url in
  match seq with
  | None => ret (false, txhash)
  | Some layer1_seq =>
      let! max_seq := lift (s64 (layer1_seq + 200)) in
      let! tran_blob := Layer1_GetTransactionBlob max_seq t in
      let! body := lift (signed_request (l1_private_key (layer1_configure_ cfg)) tran_blob) in
      let! response := SubmitLayer1Transaction layer1_url body in
      if negb (http_error response =? 0) then ret (false, txhash)
      else lift (let? b := http_value response in checkTxResponse b txhash)
  end.

Definition SendTxToLayer2 (cross_tx_info : CrossTxInfo) : HM bool :=
  let input := toStyledString (call_doc SEND_TX_FUNCTION (send_args cross_tx_info)) in
  let! r := sysop (sendTransactionToLayer2 input (amount cross_tx_info) "") in
  if negb r.1 then ret false
  else
    let cross_tx_info := set_sendtxhash r.2 cross_tx_info in
    do! SaveSendTxInfo (CrossTx_new (serialize_CrossTxInfo cross_tx_info) cross_tx_info) in
    ret true.

Definition error_desc_of (status : Z) : string :=
  if status >? CROSS_RESULT_SUCCESS then "send tx failed" else "success".

Definition SendAckToLayer1 (cross_tx_info : CrossTxInfo) : HM bool :=
  let input := toStyledString (call_doc SEND_ACKED_FUNCTION
                 (ack_args cross_tx_info (error_desc_of (status cross_tx_info)))) in
  let! r := sysop (sendTransactionToLayer1 input 0 "") in
  if negb r.1 then ret false
  else
    let cross_tx_info := set_sendacktol1hash r.2 cross_tx_info in
    do! SaveSendAckInfo (CrossTx_new (serialize_CrossTxInfo cross_tx_info) cross_tx_info) in
    ret true.

Definition ReplyAckToLayer2 (cross_tx_info : CrossTxInfo) : HM bool :=
  let input := toStyledString (call_doc SEND_ACKED_FUNCTION
                 (ack_args cross_tx_info (error_desc_of (status cross_tx_info)))) in
  let! r := sysop (sendTransactionToLayer2 input 0 "") in
  if negb r.1 then ret false
  else
    let cross_tx_info := set_sendacktol2hash r.2 cross_tx_info in
    do! SaveReplyAckInfo (CrossTx_new (serialize_CrossTxInfo cross_tx_info) cross_tx_info) in
    ret true.

(** The destination is taken only if there is a sixth item. *)
Definition makeCrossTxInfo (cross_info1 cross_info2 : string) : outcome (option CrossTxInfo) :=
  if String.eqb cross_info1 "" || String.eqb cross_info2 "" then Ret None
  else
    let? l := info_lists cross_info1 cross_info2 in
    let destbid := match l.1 !! 5%nat with Some d => of_bytes d | None => ""%string end in
    let? m := fill_info destbid l.1 l.2 in
    Ret (Some m).

(** ** Events *)
Definition HandleStartTxEvent (cross_txid : string) : HM bool :=
  let! infos := sysop (GetLayer1CrossTxInfo cfg layer1_url cross_txid) in
  match infos with
  | None => ret false
  | Some (cross_txinfo1, cross_txinfo2) =>
      let! made := lift (makeCrossTxInfo cross_txinfo1 cross_txinfo2) in
      match made with
      | None => ret false
      | Some cross_tx_info =>
          let! ok := SendTxToLayer2 cross_tx_info in
          if negb ok then
            do! SendAckToLayer1 (set_status CROSS_RESULT_FAILED cross_tx_info) in
            ret ok
          else ret ok
      end
  end.

Definition handleSendTxEvent (cross_txid : string) (status : Z) : HM bool :=
  let! infos := sysop (GetLayer2CrossTxInfo cfg layer2_url cross_txid) in
  match infos with
  | None => ret false
  | Some (cross_txinfo1, cross_txinfo2) =>
      let! made := lift (makeCrossTxInfo cross_txinfo1 cross_txinfo2) in
      match made with
      | None => ret false
      | Some cross_tx_info =>
          let! ok := SendAckToLayer1 (set_status status cross_tx_info) in
          if ok then do! ClearSendTxInfo cross_txid in ret true
          else ret false
      end
  end.

Definition HandleSendTxEvent (cross_txid : string) : HM bool :=
  handleSendTxEvent cross_txid CROSS_RESULT_SUCCESS.

Definition HandleSendAckdTxEvent (cross_txid : string) : HM bool :=
  let! infos := sysop (GetLayer1CrossTxInfo cfg layer1_url cross_txid) in
  match infos with
  | None => ret false
  | Some (cross_txinfo1, cross_txinfo2) =>
      let! made := lift (makeCrossTxInfo cross_txinfo1 cross_txinfo2) in
      match made with
      | None => ret false
      | Some cross_tx_info =>
          let! ok := ReplyAckToLayer2 cross_tx_info in
          if ok then do! ClearSendAckInfo cross_txid in ret true
          else ret false
      end
  end.

(** ** Timeouts *)
Definition send_node := node send_tx_table.
Definition ack_node := node send_ack_table.
Definition reply_node := node reply_ack_table.

Definition SendTx_body (current_time : Z) (k : string) : HM unit :=
  let! sendtx := send_node k in
  if send_tx_timeout_ sendtx <? current_time then
    let! ok := sysop (GetTxResult layer2_url (send_tx_hash_ sendtx)) in
    do! (if ok then
           do! handleSendTxEvent (cross_tx_id_ sendtx) CROSS_RESULT_SUCCESS in ret tt
         else
           let cross_tx_info := set_status CROSS_RESULT_TIMEOUT (parse_CrossTxInfo (cross_tx_info_ sendtx)).2 in
           let! sent := SendAckToLayer1 cross_tx_info in
           if sent then do! ClearSendTxInfo (cstr (crosstxid cross_tx_info)) in ret tt
           else ret tt) in
    (* the log line reads the entry again *)
    do! send_node k in ret tt
  else ret tt.

Definition SendTxToLayer2TimeOut : HM bool :=
  let! current_time := sysop HighResolution in
  do! map_for send_tx_info_map_ (SendTx_body current_time) in
  ret true.

(** The acknowledgement is sent again and its deadline moved. *)
Definition SendAck_resend (current_time : Z) (k : string) (cross_tx_info : CrossTxInfo) : HM unit :=
  do! SendAckToLayer1 cross_tx_info in
  node_set_ack_timeout send_ack_table k (current_time + MICRO_UNITS_PER_SEC * 60).

Definition SendAck_body (current_time : Z) (k : string) : HM unit :=
  let! acktx := ack_node k in
  let! deadline := lift (read_init (send_ack_timeout_ acktx)) in
  if deadline <? current_time then
    let cross_tx_info := (parse_CrossTxInfo (cross_tx_info_ acktx)).2 in
    if status cross_tx_info =? CROSS_RESULT_SUCCESS then SendAck_resend current_time k cross_tx_info
    else
      let! ok := sysop (GetTxResult layer1_url (send_ack_to_l1_hash_ acktx)) in
      if ok then do! ClearSendAckInfo k in ret tt
      else
        let! status := sysop (GetCrossTxStatus cfg layer1_url k) in
        if negb (status =? CROSS_RESULT_INIT) then do! ClearSendAckInfo k in ret tt
        else SendAck_resend current_time k cross_tx_info
  else ret tt.

Definition SendAckToLayer1TimeOut : HM bool :=
  let! current_time := sysop HighResolution in
  do! map_for send_ack_info_map_ (SendAck_body current_time) in
  ret true.

Definition ReplyAck_body (current_time : Z) (k : string) : HM unit :=
  let! acktx := reply_node k in
  let! deadline := lift (read_init (send_ack_timeout_ acktx)) in
  if deadline <? current_time then
    let cross_tx_info := (parse_CrossTxInfo (cross_tx_info_ acktx)).2 in
    let! ok := sysop (GetTxResult layer2_url (send_ack_to_l2_hash_ acktx)) in
    if ok then do! ClearReplyAckInfo k in ret tt
    else
      let! status := sysop (GetCrossTxStatus cfg layer2_url k) in
      if negb (status =? CROSS_RESULT_INIT) then do! ClearReplyAckInfo k in ret tt
      else
        do! ReplyAckToLayer2 cross_tx_info in
        node_set_ack_timeout reply_ack_table k (current_time + MICRO_UNITS_PER_SEC * 60)
  else ret tt.

Definition ReplyAckToLayer2TimeOut : HM bool :=
  let! current_time := sysop HighResolution in
  do! map_for reply_ack_info_map_ (ReplyAck_body current_time) in
  ret true.

Definition OnTimer (current_time : Z) : HM unit :=
  do! SendTxToLayer2TimeOut in
  do! SendAckToLayer1TimeOut in
  do! ReplyAckToLayer2TimeOut in
  ret tt.

End Handle.

(** Conversion compares keys without formatting them. *)
#[global] Strategy 500 [dbkey].
#[global] Strategy 1000 [Format].
