(* ===== verification/Layer1ToLayer2Facts.v ===== *)
(** What the handler of the first direction guarantees: the effect of every
    event on its tables and on the database, the invariant of its reachable
    states, and the behaviour of the timeout sweeps. *)

From S2P Require Import Prelude Strings Hex Basen Ordered Database General Platform Concrete Configure.
From S2P Require Import WebClient Transaction Pending Journal Progress Sample Layer1ToLayer2.

Section Facts.
Context `{RocksDbLaws} `{!Reliable} `{Clock} `{Http} `{Json} `{Protobuf} `{AgentKey}.
Context (cfg : Configure).

Lemma sendTransactionToLayer1_keeps_db input amount h :
  keeps s_db (sendTransactionToLayer1 cfg input amount h).
Proof.
  unfold sendTransactionToLayer1, SubmitLayer1Transaction, Layer1_GetTransactionBlob. solve_keeps.
Qed.
Lemma sendTransactionToLayer2_keeps_db input amount h :
  keeps s_db (sendTransactionToLayer2 cfg input amount h).
Proof.
  unfold sendTransactionToLayer2, SubmitLayer2Transaction, Layer2_GetTransactionBlob. solve_keeps.
Qed.

(** The calls the handler submits for a message. *)
Definition submit_tx (m : CrossTxInfo) : M sys (bool * string) :=
  sendTransactionToLayer2 cfg (toStyledString (call_doc SEND_TX_FUNCTION (send_args m))) (amount m) "".
Definition ack_input (m : CrossTxInfo) : string :=
  toStyledString (call_doc SEND_ACKED_FUNCTION (ack_args m (error_desc_of (status m)))).
Definition submit_ack (m : CrossTxInfo) : M sys (bool * string) := sendTransactionToLayer1 cfg (ack_input m) 0 "".
Definition submit_reply (m : CrossTxInfo) : M sys (bool * string) := sendTransactionToLayer2 cfg (ack_input m) 0 "".

Lemma SendTxToLayer2_inv m w b w' : SendTxToLayer2 cfg m w = Ret (b, w') ->
  sent_plain send_tx_table (submit_tx m) (dbkey send_tx_prefix_) (fun h => set_sendtxhash h m) w b w'.
Proof.
  exact (send_plain_inv send_tx_table (dbkey send_tx_prefix_) (fun h => set_sendtxhash h m) _
    (sendTransactionToLayer2_keeps_db _ _ _) w b w').
Qed.

Lemma SendAckToLayer1_inv m w b w' : SendAckToLayer1 cfg m w = Ret (b, w') ->
  sent_ack send_ack_table (submit_ack m) (dbkey send_ack_prefix_) (fun h => set_sendacktol1hash h m) w b w'.
Proof.
  exact (send_save_ack_inv send_ack_table (dbkey send_ack_prefix_) (fun h => set_sendacktol1hash h m) _
    (sendTransactionToLayer1_keeps_db _ _ _) (save_ack send_ack_table) w b w'
    (save_ack_inv send_ack_table)).
Qed.

Lemma ReplyAckToLayer2_inv m w b w' : ReplyAckToLayer2 cfg m w = Ret (b, w') ->
  sent_ack reply_ack_table (submit_reply m) (dbkey reply_ack_prefix_) (fun h => set_sendacktol2hash h m) w b w'.
Proof.
  exact (send_save_ack_inv reply_ack_table (dbkey reply_ack_prefix_) (fun h => set_sendacktol2hash h m) _
    (sendTransactionToLayer2_keeps_db _ _ _) (save_ack reply_ack_table) w b w'
    (save_ack_inv reply_ack_table)).
Qed.

(** The record of a transaction as each of the chains' contracts has it. *)
Definition on_layer1 := read_from makeCrossTxInfo (GetLayer1CrossTxInfo cfg (layer1_url cfg)).
Definition on_layer2 := read_from makeCrossTxInfo (GetLayer2CrossTxInfo cfg (layer2_url cfg)).



End Facts.

(** ** The journal and the reachable states *)

Inductive slot : Set := SendTx | SendAck | ReplyAck.
#[export] Instance slot_eq_dec : EqDecision slot.
Proof. solve_decision. Defined.
Definition slots : list slot := [SendTx; SendAck; ReplyAck].

Section Reachable.
Context `{RocksDbLaws} `{!Reliable} `{Clock} `{Http} `{Json} `{ProtobufLaws} `{AgentKey}.
Context (cfg : Configure).

Definition slot_prefix (i : slot) : string :=
  match i with SendTx => send_tx_prefix_ | SendAck => send_ack_prefix_ | ReplyAck => reply_ack_prefix_ end.

Lemma slot_prefix_ok i : Z.of_nat (String.length (slot_prefix i)) < 2 ^ 19 /\ no_nul (slot_prefix i) = true.
Proof. by destruct i. Qed.

#[export, refine] Instance handle_tables : Tables Layer1ToLayer2Handle slot := {|
  tbl := fun i => match i with SendTx => send_tx_table | SendAck => send_ack_table | ReplyAck => reply_ack_table end;
  pre := slot_prefix;
  ddl := fun i => match i with SendTx => false | _ => true end;
  dbkey_of := fun i => dbkey (slot_prefix i)
|}.
Proof.
  - by intros [] [] m w Hne.
  - by intros [] [] Hne.
  - intros i id Hid. destruct (slot_prefix_ok i). by apply Format_key.
Defined.

Context `{!Answers}.

(** The keys of the database that are not the handler's are arbitrary. *)
Section Rest.
Context {R : string -> option string}.
#[local] Notation journaled := (journaled_in (R := R)).
#[local] Notation outside := (Journal.outside (R := R)).

(** The handler's operations preserve the journal. *)
Lemma make_ok i1 i2 m : two_answers i1 i2 -> makeCrossTxInfo i1 i2 = Ret (Some m) -> can_file m.
Proof.
  intros Ha Em. unfold makeCrossTxInfo in Em. destruct (_ || _); [done|].
  apply obind_Ret in Em as (l & El & Em). apply obind_Ret in Em as (m' & Ef & Em).
  injection Em as ->. eapply read_record_ok; [done|exact El| |exact Ef].
  destruct (l.1 !! 5%nat) eqn:E5; [|by left]. right. eexists. split; [by eapply list_elem_of_lookup_2|done].
Qed.

Lemma layer1_hash_ok input amount h : accepted (sendTransactionToLayer1 cfg input amount "") h -> text_ok h.
Proof.
  intros (s & s' & E). unfold sendTransactionToLayer1 in E.
  repeat (apply bind_inv in E as (? & ? & _ & E)); case_match; [|done].
  repeat (apply bind_inv in E as (? & ? & _ & E)). case_match; [done|].
  apply obind_Ret in E as ([b h'] & E & E'). injection E' as -> -> _.
  apply obind_Ret in E as (body & _ & E). by eapply answer_hash.
Qed.
Lemma layer2_hash_ok input amount h : accepted (sendTransactionToLayer2 cfg input amount "") h -> text_ok h.
Proof.
  intros (s & s' & E). unfold sendTransactionToLayer2 in E.
  repeat (apply bind_inv in E as (? & ? & _ & E)); case_match; [|done].
  repeat (apply bind_inv in E as (? & ? & _ & E)). case_match; [done|].
  apply obind_Ret in E as ([b h'] & E & E'). injection E' as -> -> _.
  apply obind_Ret in E as (body & _ & E). by eapply answer_hash.
Qed.

Lemma SendTxToLayer2_journaled m : can_file m -> preserves journaled (SendTxToLayer2 cfg m).
Proof.
  intros [Hid Hm] w b w' HJ E. apply SendTxToLayer2_inv in E. eapply (journaled_sent_plain SendTx); [done| |done|exact E].
  intros h Hh. split; [done|]. apply encodable_sendtxhash; [by eapply layer2_hash_ok|done].
Qed.
Lemma SendAckToLayer1_journaled m : can_file m -> preserves journaled (SendAckToLayer1 cfg m).
Proof.
  intros [Hid Hm] w b w' HJ E. apply SendAckToLayer1_inv in E. eapply (journaled_sent_ack SendAck); [done| |done|exact E].
  intros h Hh. split; [done|]. apply encodable_sendacktol1hash; [by eapply layer1_hash_ok|done].
Qed.
Lemma ReplyAckToLayer2_journaled m : can_file m -> preserves journaled (ReplyAckToLayer2 cfg m).
Proof.
  intros [Hid Hm] w b w' HJ E. apply ReplyAckToLayer2_inv in E. eapply (journaled_sent_ack ReplyAck); [done| |done|exact E].
  intros h Hh. split; [done|]. apply encodable_sendacktol2hash; [by eapply layer2_hash_ok|done].
Qed.
Lemma ClearSendTxInfo_journaled id : id_ok id -> preserves journaled (ClearSendTxInfo id).
Proof. exact (clear_journaled SendTx id). Qed.
Lemma ClearSendAckInfo_journaled id : id_ok id -> preserves journaled (ClearSendAckInfo id).
Proof. exact (clear_journaled SendAck id). Qed.
#[local] Hint Resolve SendTxToLayer2_journaled SendAckToLayer1_journaled ReplyAckToLayer2_journaled can_file_status
  ClearSendTxInfo_journaled ClearSendAckInfo_journaled : preserves.

Lemma HandleStartTxEvent_journaled id : preserves journaled (HandleStartTxEvent cfg id).
Proof.
  apply (ask_journaled makeCrossTxInfo make_ok (GetLayer1CrossTxInfo cfg (layer1_url cfg)));
    [auto with keeps|by apply GetLayer1CrossTxInfo_Some|]. intros m Hm. solve_preserves.
Qed.
Lemma handleSendTxEvent_journaled id s : id_ok id -> preserves journaled (handleSendTxEvent cfg id s).
Proof.
  intros Hid. apply (ask_journaled makeCrossTxInfo make_ok (GetLayer2CrossTxInfo cfg (layer2_url cfg)));
    [auto with keeps|by apply GetLayer2CrossTxInfo_Some|]. intros m Hm. solve_preserves.
Qed.
Lemma HandleSendAckdTxEvent_journaled id : id_ok id -> preserves journaled (HandleSendAckdTxEvent cfg id).
Proof.
  intros Hid. apply (ask_journaled makeCrossTxInfo make_ok (GetLayer1CrossTxInfo cfg (layer1_url cfg)));
    [auto with keeps|by apply GetLayer1CrossTxInfo_Some|]. intros m Hm. solve_preserves.
Qed.
(** ** The sweeps

    In a visit of key [k] of a table, only that key of that table may go. *)
Section Visit.
Context (k : string) (m0 : gmap string CrossTx).

Lemma SendAckToLayer1_outside i m : can_file m -> i <> SendAck \/ crosstxid m = k ->
  preserves (outside i k m0) (SendAckToLayer1 cfg m).
Proof.
  intros [Hid Hm] Hi w b w' HJ E. apply SendAckToLayer1_inv in E. eapply (sent_ack_outside _ _ _ SendAck);
    [done| | |exact HJ|exact E].
  - intros h Hh. split; [done|]. apply encodable_sendacktol1hash; [by eapply layer1_hash_ok|done].
  - destruct Hi as [Hi|<-]; [left; by intros <-|by right].
Qed.
Lemma ReplyAckToLayer2_outside m : can_file m -> crosstxid m = k ->
  preserves (outside ReplyAck k m0) (ReplyAckToLayer2 cfg m).
Proof.
  intros [Hid Hm] Hi w b w' HJ E. apply ReplyAckToLayer2_inv in E. eapply (sent_ack_outside _ _ _ ReplyAck);
    [done| | |exact HJ|exact E].
  - intros h Hh. split; [done|]. apply encodable_sendacktol2hash; [by eapply layer2_hash_ok|done].
  - right. by intros h.
Qed.
Lemma handleSendTxEvent_outside s : id_ok k -> preserves (outside SendTx k m0) (handleSendTxEvent cfg k s).
Proof.
  intros Hid w b w' [HJ Ho] E. split; [by eapply handleSendTxEvent_journaled|].
  apply (ask_inv makeCrossTxInfo (GetLayer2CrossTxInfo cfg (layer2_url cfg))) in E; [|auto with keeps].
  destruct E as [[_ (s' & -> & _)]|(m & s1 & Hm & Hs1 & E)]; [exact Ho|].
  apply bind_inv in E as (ok & w1 & E1 & E). apply SendAckToLayer1_inv in E1. destruct ok.
  - apply bind_inv in E as (u & w2 & E2 & E). injection E as _ <-.
    destruct E1 as (s2 & t & h & _ & -> & _). apply clear_entry_inv in E2 as (_ & s3 & -> & _).
    intros k' Hne. cbn. rewrite lookup_delete_ne by done. by apply Ho.
  - injection E as _ <-. destruct E1 as (s2 & -> & _). exact Ho.
Qed.
End Visit.

Lemma ClearSendTxInfo_outside k m0 : id_ok k -> preserves (outside SendTx k m0) (ClearSendTxInfo k).
Proof. exact (clear_outside SendTx k m0). Qed.
Lemma ClearSendAckInfo_outside k m0 : id_ok k -> preserves (outside SendAck k m0) (ClearSendAckInfo k).
Proof. exact (clear_outside SendAck k m0). Qed.
Lemma ClearReplyAckInfo_outside k m0 : id_ok k -> preserves (outside ReplyAck k m0) (ClearReplyAckInfo k).
Proof. exact (clear_outside ReplyAck k m0). Qed.
Lemma send_ack_deadline_outside k m0 t : preserves (outside SendAck k m0) (node_set_ack_timeout send_ack_table k t).
Proof. exact (set_deadline_outside SendAck k m0 t eq_refl). Qed.
Lemma reply_ack_deadline_outside k m0 t : preserves (outside ReplyAck k m0) (node_set_ack_timeout reply_ack_table k t).
Proof. exact (set_deadline_outside ReplyAck k m0 t eq_refl). Qed.
#[local] Hint Resolve SendAckToLayer1_outside ReplyAckToLayer2_outside handleSendTxEvent_outside
  ClearSendTxInfo_outside ClearSendAckInfo_outside ClearReplyAckInfo_outside
  send_ack_deadline_outside reply_ack_deadline_outside : preserves.
#[local] Hint Extern 2 (preserves _ (sysop _)) => apply sysop_outside; auto with keeps : preserves.
#[local] Hint Extern 1 (preserves _ (node _ _)) => eapply node_preserves : preserves.

Lemma SendTx_body_outside t k m0 : preserves (outside SendTx k m0) (SendTx_body cfg t k).
Proof.
  unfold SendTx_body, send_node. change send_tx_table with (tbl SendTx) at 1.
  apply node_outside. intros m d <- Hid _ Hm. rewrite parse_entry, entry_id by done. cbn [snd].
  rewrite cstr_no_nul by apply Hid. assert (can_file m) by done.
  assert (can_file (set_status CROSS_RESULT_TIMEOUT m)) by by apply can_file_status.
  assert (SendTx <> SendAck \/ crosstxid (set_status CROSS_RESULT_TIMEOUT m) = crosstxid m) by by left.
  solve_preserves.
Qed.
Lemma SendAck_body_outside t k m0 : preserves (outside SendAck k m0) (SendAck_body cfg t k).
Proof.
  unfold SendAck_body, ack_node. change send_ack_table with (tbl SendAck) at 1.
  apply node_outside. intros m d <- Hid _ Hm. rewrite parse_entry by done. cbn [snd].
  assert (can_file m) by done. assert (SendAck <> SendAck \/ crosstxid m = crosstxid m) by by right.
  unfold SendAck_resend. solve_preserves.
Qed.
Lemma ReplyAck_body_outside t k m0 : preserves (outside ReplyAck k m0) (ReplyAck_body cfg t k).
Proof.
  unfold ReplyAck_body, reply_node. change reply_ack_table with (tbl ReplyAck) at 1.
  apply node_outside. intros m d <- Hid _ Hm. rewrite parse_entry by done. cbn [snd].
  assert (can_file m) by done. solve_preserves.
Qed.
#[local] Hint Resolve SendTx_body_outside SendAck_body_outside ReplyAck_body_outside : preserves.

Lemma SendTx_sweep_journaled : preserves journaled (SendTxToLayer2TimeOut cfg).
Proof.
  unfold SendTxToLayer2TimeOut. apply preserves_bind; [by apply sysop_journaled; auto with keeps|]. intros t.
  apply preserves_bind; [|intros; apply preserves_ret]. exact (outside_sweep SendTx _ (SendTx_body_outside t)).
Qed.
Lemma SendAck_sweep_journaled : preserves journaled (SendAckToLayer1TimeOut cfg).
Proof.
  unfold SendAckToLayer1TimeOut. apply preserves_bind; [by apply sysop_journaled; auto with keeps|]. intros t.
  apply preserves_bind; [|intros; apply preserves_ret]. exact (outside_sweep SendAck _ (SendAck_body_outside t)).
Qed.
Lemma ReplyAck_sweep_journaled : preserves journaled (ReplyAckToLayer2TimeOut cfg).
Proof.
  unfold ReplyAckToLayer2TimeOut. apply preserves_bind; [by apply sysop_journaled; auto with keeps|]. intros t.
  apply preserves_bind; [|intros; apply preserves_ret]. exact (outside_sweep ReplyAck _ (ReplyAck_body_outside t)).
Qed.

(** ** Progress: the stages of a transaction, and what leaves them alone *)
Definition stage (i : slot) : nat := match i with SendTx => 0 | SendAck => 1 | ReplyAck => 2 end.
#[local] Notation kept := (Progress.kept (R := R) stage).

Lemma SendTxToLayer2_above j m0 m : preserves (above j m0) (SendTxToLayer2 cfg m).
Proof. intros w b w' Ho E. apply SendTxToLayer2_inv in E. by eapply (sent_plain_above j m0 SendTx). Qed.
Lemma SendAckToLayer1_above j m0 m : preserves (above j m0) (SendAckToLayer1 cfg m).
Proof. intros w b w' Ho E. apply SendAckToLayer1_inv in E. by eapply (sent_ack_above j m0 SendAck). Qed.
Lemma ReplyAckToLayer2_above j m0 m : preserves (above j m0) (ReplyAckToLayer2 cfg m).
Proof. intros w b w' Ho E. apply ReplyAckToLayer2_inv in E. by eapply (sent_ack_above j m0 ReplyAck). Qed.
Lemma ClearSendTxInfo_above j m0 id : j <> SendTx -> preserves (above j m0) (ClearSendTxInfo id).
Proof. exact (clear_above j m0 SendTx _ id). Qed.
Lemma ClearSendAckInfo_above j m0 id : j <> SendAck -> preserves (above j m0) (ClearSendAckInfo id).
Proof. exact (clear_above j m0 SendAck _ id). Qed.
Lemma ClearReplyAckInfo_above j m0 id : j <> ReplyAck -> preserves (above j m0) (ClearReplyAckInfo id).
Proof. exact (clear_above j m0 ReplyAck _ id). Qed.
Lemma send_ack_deadline_above j m0 k t : preserves (above j m0) (node_set_ack_timeout send_ack_table k t).
Proof. exact (set_deadline_above j m0 SendAck k t). Qed.
Lemma reply_ack_deadline_above j m0 k t : preserves (above j m0) (node_set_ack_timeout reply_ack_table k t).
Proof. exact (set_deadline_above j m0 ReplyAck k t). Qed.
#[local] Hint Resolve SendTxToLayer2_above SendAckToLayer1_above ReplyAckToLayer2_above ClearSendTxInfo_above
  ClearSendAckInfo_above ClearReplyAckInfo_above send_ack_deadline_above reply_ack_deadline_above : preserves.
#[local] Hint Extern 1 (preserves _ (sysop _)) => apply sysop_above : preserves.

Lemma HandleStartTxEvent_above j m0 id : preserves (above j m0) (HandleStartTxEvent cfg id).
Proof. unfold HandleStartTxEvent. solve_preserves. Qed.
Lemma handleSendTxEvent_above j m0 id s : j <> SendTx -> preserves (above j m0) (handleSendTxEvent cfg id s).
Proof. intros Hj. unfold handleSendTxEvent. solve_preserves. Qed.
#[local] Hint Resolve handleSendTxEvent_above : preserves.
Lemma SendTx_body_above t j k m0 : j <> SendTx -> preserves (above j m0) (SendTx_body cfg t k).
Proof. intros Hj. unfold SendTx_body, send_node. solve_preserves. Qed.
Lemma SendAck_body_above t j k m0 : j <> SendAck -> preserves (above j m0) (SendAck_body cfg t k).
Proof. intros Hj. unfold SendAck_body, ack_node, SendAck_resend. solve_preserves. Qed.
Lemma ReplyAck_body_above t j k m0 : j <> ReplyAck -> preserves (above j m0) (ReplyAck_body cfg t k).
Proof. intros Hj. unfold ReplyAck_body, reply_node. solve_preserves. Qed.

(** The nodes answer about the transaction they are asked for. *)
Definition truthful (id : string) : Prop :=
  forall s m, on_layer1 cfg id s m \/ on_layer2 cfg id s m -> crosstxid m = id.

Lemma HandleStartTxEvent_kept w0 id : preserves (kept w0) (HandleStartTxEvent cfg id).
Proof. apply kept_grows; [apply HandleStartTxEvent_journaled|]. intros. apply HandleStartTxEvent_above. Qed.
Lemma handleSendTxEvent_kept w0 id st : id_ok id -> truthful id -> preserves (kept w0) (handleSendTxEvent cfg id st).
Proof.
  intros Hid Ht. apply (kept_handed_on (R := R) stage makeCrossTxInfo (GetLayer2CrossTxInfo cfg (layer2_url cfg))
    (fun m => SendAckToLayer1 cfg (set_status st m)) (fun m => submit_ack cfg (set_status st m))
    (fun m h => set_sendacktol1hash h (set_status st m)) (dbkey send_ack_prefix_) SendTx SendAck
    (dbkey send_tx_prefix_ id) id w0 (handleSendTxEvent cfg id st)).
  - reflexivity.
  - auto with keeps.
  - done.
  - cbn. lia.
  - intros m w b w'. exact (SendAckToLayer1_inv cfg (set_status st m) w b w').
  - done.
  - intros s m Hm. apply (Ht s). by right.
  - by apply handleSendTxEvent_journaled.
Qed.
Lemma HandleSendAckdTxEvent_kept w0 id : id_ok id -> truthful id -> preserves (kept w0) (HandleSendAckdTxEvent cfg id).
Proof.
  intros Hid Ht. apply (kept_handed_on (R := R) stage makeCrossTxInfo (GetLayer1CrossTxInfo cfg (layer1_url cfg))
    (ReplyAckToLayer2 cfg) (submit_reply cfg) (fun m h => set_sendacktol2hash h m) (dbkey reply_ack_prefix_) SendAck ReplyAck
    (dbkey send_ack_prefix_ id) id w0 (HandleSendAckdTxEvent cfg id)).
  - reflexivity.
  - auto with keeps.
  - done.
  - cbn. lia.
  - exact (ReplyAckToLayer2_inv cfg).
  - done.
  - intros s m Hm. apply (Ht s). by left.
  - by apply HandleSendAckdTxEvent_journaled.
Qed.
Lemma SendTx_sweep_kept w0 : preserves (kept w0) (SendTxToLayer2TimeOut cfg).
Proof.
  pose proof (kept_sweep (R := R) stage w0 SendTx HighResolution (SendTx_body cfg) HighResolution_keeps_db SendTx_body_outside) as Hs.
  apply Hs. intros j t k m0. apply SendTx_body_above.
Qed.
Lemma SendAck_sweep_kept w0 : preserves (kept w0) (SendAckToLayer1TimeOut cfg).
Proof.
  pose proof (kept_sweep (R := R) stage w0 SendAck HighResolution (SendAck_body cfg) HighResolution_keeps_db SendAck_body_outside) as Hs.
  apply Hs. intros j t k m0. apply SendAck_body_above.
Qed.
Lemma ReplyAck_sweep_kept w0 : preserves (kept w0) (ReplyAckToLayer2TimeOut cfg).
Proof.
  pose proof (kept_sweep (R := R) stage w0 ReplyAck HighResolution (ReplyAck_body cfg) HighResolution_keeps_db ReplyAck_body_outside) as Hs.
  apply Hs. intros j t k m0. apply ReplyAck_body_above.
Qed.
Lemma OnTimer_kept w0 t : preserves (kept w0) (OnTimer cfg t).
Proof.
  unfold OnTimer. apply preserves_bind; [apply SendTx_sweep_kept|intros _].
  apply preserves_bind; [apply SendAck_sweep_kept|intros _].
  apply preserves_bind; [apply ReplyAck_sweep_kept|intros; apply preserves_ret].
Qed.

(** The events of the handler. *)
Inductive event : Set :=
| StartTxEvent (cross_txid : string)
| SendTxEvent (cross_txid : string)
| SendAckdTxEvent (cross_txid : string)
| TimerEvent (current_time : Z).
Definition handle (e : event) : M Layer1ToLayer2Handle unit :=
  match e with
  | StartTxEvent id => do! HandleStartTxEvent cfg id in ret tt
  | SendTxEvent id => do! HandleSendTxEvent cfg id in ret tt
  | SendAckdTxEvent id => do! HandleSendAckdTxEvent cfg id in ret tt
  | TimerEvent t => OnTimer cfg t
  end.
Definition event_ok (e : event) : Prop :=
  match e with StartTxEvent id | SendTxEvent id | SendAckdTxEvent id => id_ok id | TimerEvent _ => True end.
Definition boot (s : sys) : Layer1ToLayer2Handle := mkHandle s ∅ ∅ ∅.

Lemma handle_journaled e : event_ok e -> preserves journaled (handle e).
Proof.
  pose proof SendTx_sweep_journaled. pose proof SendAck_sweep_journaled. pose proof ReplyAck_sweep_journaled.
  assert (forall m : M Layer1ToLayer2Handle bool, preserves journaled m -> preserves journaled (do! m in ret tt)) as Hm.
  { intros m Hm. apply preserves_bind; [done|]. intros. apply preserves_ret. }
  destruct e as [id|id|id|t]; intros Hid; cbn [event_ok handle] in *.
  - apply Hm, HandleStartTxEvent_journaled.
  - by apply Hm, handleSendTxEvent_journaled.
  - by apply Hm, HandleSendAckdTxEvent_journaled.
  - unfold OnTimer. do 2 (apply preserves_bind; [done|]; intros _). by apply Hm.
Qed.

End Rest.

Lemma boot_sys s : the_sys (boot s) = s.
Proof. reflexivity. Qed.
Lemma boot_rows s i : rows (tbl i) (boot s) = ∅.
Proof. by destruct i. Qed.
Lemma slots_nodup : NoDup slots.
Proof. by apply (bool_decide_unpack _). Qed.
Lemma slots_all i : i ∈ slots.
Proof. unfold slots. destruct i; set_solver. Qed.



Section Loops.
Context {R : string -> option string}.
#[local] Notation journaled := (journaled_in (R := R)).
#[local] Notation outside := (Journal.outside (R := R)).

(** The clock is read, and then the table is walked. *)
Lemma sweep_inv i (body : Z -> string -> M Layer1ToLayer2Handle unit) w b w' :
  (forall t k m0, preserves (outside i k m0) (body t k)) -> journaled w ->
  (let! t := sysop HighResolution in do! map_for (rows (tbl i)) (body t) in ret true) w = Ret (b, w') ->
  forall id, is_Some (rows (tbl i) w' !! id) <-> is_Some (rows (tbl i) w !! id).
Proof.
  intros Hb HJ E. apply bind_inv in E as (t & w1 & E1 & E). pose proof E1 as E0.
  apply sysop_inv in E1 as (s & _ & ->). apply bind_inv in E as ([] & w2 & E2 & E). injection E as _ <-.
  eapply (map_for_same_keys _ _ journaled) in E2 as [_ Hd]; [|by apply (outside_erases_only (R := R))|].
  - intros id. by rewrite Hd, rows_set_sys.
  - eapply sysop_journaled; [|exact HJ|exact E0]. auto with keeps.
Qed.

(** No sweep of a timer takes an entry off its table and returns: whenever
    one returns, exactly the ids that were pending still are.  (An entry that
    is cleared while the table is walked leaves the loop on an erased node.) *)
Theorem sweeps_clear_nothing w b w' : journaled w ->
  (SendTxToLayer2TimeOut cfg w = Ret (b, w') -> dom (send_tx_info_map_ w') = dom (send_tx_info_map_ w)) /\
  (SendAckToLayer1TimeOut cfg w = Ret (b, w') -> dom (send_ack_info_map_ w') = dom (send_ack_info_map_ w)) /\
  (ReplyAckToLayer2TimeOut cfg w = Ret (b, w') -> dom (reply_ack_info_map_ w') = dom (reply_ack_info_map_ w)).
Proof.
  intros HJ. split; [|split]; intros E; apply set_eq; intros id; rewrite !elem_of_dom.
  - exact (sweep_inv SendTx (SendTx_body cfg) w b w' SendTx_body_outside HJ E id).
  - exact (sweep_inv SendAck (SendAck_body cfg) w b w' SendAck_body_outside HJ E id).
  - exact (sweep_inv ReplyAck (ReplyAck_body cfg) w b w' ReplyAck_body_outside HJ E id).
Qed.
(** An overdue acknowledgement whose transaction the node reports as
    executed is taken off the table in the middle of the walk over it: however
    many entries were visited before it, the sweep then steps from an erased
    node, which is undefined. *)
Theorem SendAck_sweep_dangling w t s1 ks k ks' w1 c d s2 : journaled w ->
  HighResolution (h_sys w) = Ret (t, s1) ->
  sorted_keys (send_ack_info_map_ w) = ks ++ k :: ks' ->
  keys_for send_ack_info_map_ (SendAck_body cfg t) ks (set_sys s1 w) = Ret (tt, w1) ->
  send_ack_info_map_ w1 !! k = Some c -> send_ack_timeout_ c = Some d -> d < t ->
  status (parse_CrossTxInfo (cross_tx_info_ c)).2 <> CROSS_RESULT_SUCCESS ->
  GetTxResult (layer1_url cfg) (send_ack_to_l1_hash_ c) (h_sys w1) = Ret (true, s2) ->
  SendAckToLayer1TimeOut cfg w = Undef DanglingIterator.
Proof.
  intros HJ E1 Hks Hrun Ek Hd Hlt Hst Htx. unfold SendAckToLayer1TimeOut.
  assert (sysop HighResolution w = Ret (t, set_sys s1 w)) as E0 by exact (sysop_run _ _ _ _ E1).
  rewrite (bind_ret_run _ _ _ _ _ E0).
  assert (journaled (set_sys s1 w)) as HJ1 by (by eapply sysop_journaled in E0; [|auto with keeps|]).
  pose proof (outside_erases_only (R := R) SendAck _ (SendAck_body_outside t)) as Herase.
  unfold bind at 1. rewrite (map_for_keys _ _ journaled) by (try done; exact Herase).
  change (send_ack_info_map_ (set_sys s1 w)) with (send_ack_info_map_ w). rewrite Hks.
  destruct (keys_for_same_keys (rows (tbl SendAck)) (SendAck_body cfg t) journaled ks _ w1 Herase HJ1) as [HJw1 _];
    [|exact Hrun|].
  { intros x Hx. apply elem_of_sorted_keys. cbn. rewrite Hks. set_solver. }
  destruct (sysop_journaled (GetTxResult (layer1_url cfg) (send_ack_to_l1_hash_ c))
    (GetTxResult_keeps_db _ _) w1 true (set_sys s2 w1) HJw1 (sysop_run _ _ _ _ Htx)) as (_ & db & Hdb & _).
  destruct (clear_entry_total send_ack_table (dbkey send_ack_prefix_ k) k (set_sys s2 w1) db Hdb) as (w2 & Ec & Hg).
  erewrite keys_for_dangling; [done|exact Hrun| |exact Hg].
  unfold SendAck_body, ack_node, node. unfold bind at 1, bind at 1, get at 1. cbn [obind fst snd rows send_ack_table].
  rewrite Ek. cbn [ret obind fst snd]. rewrite Hd. cbn [read_init]. unfold bind at 1, lift at 1. cbn [obind fst snd].
  replace (d <? t) with true by lia. replace (_ =? CROSS_RESULT_SUCCESS) with false by lia.
  rewrite (bind_ret_run _ _ _ _ _ (sysop_run _ _ _ _ Htx)). by rewrite (bind_ret_run _ _ _ _ _ Ec).
Qed.

(** When a pending acknowledgement is sent again, the new hash reaches the
    database and not the table: the entry in memory keeps the hash of the first
    submission, which is the one every later sweep asks the node about. *)
Theorem SendAck_resend_stale w k c db w' : journaled w ->
  send_ack_info_map_ w !! k = Some c -> content (s_db (h_sys w)) = Some db ->
  SendAckToLayer1 cfg (parse_CrossTxInfo (cross_tx_info_ c)).2 w = Ret (true, w') ->
  send_ack_info_map_ w' = send_ack_info_map_ w /\
  exists m h, parse_CrossTxInfo (cross_tx_info_ c) = (true, m) /\ crosstxid m = k /\
    accepted (submit_ack cfg m) h /\
    content (s_db (h_sys w')) =
      Some (<[(send_ack_prefix_ ++ k)%string := serialize_CrossTxInfo (set_sendacktol1hash h m)]> db).
Proof.
  intros HJ Ek Hdb E. destruct (journaled_entry w SendAck _ _ HJ Ek) as (m & d & Hk & Hid & _ & Hm & ->).
  rewrite parse_entry in E |- * by done. apply SendAckToLayer1_inv in E as (s' & t & h & Ha & -> & Hs).
  cbn [snd set_sendacktol1hash crosstxid] in *. rewrite Hk in *. split.
  - cbn. by eapply emplace_present.
  - exists m, h. do 3 (split; [done|]). cbn. erewrite (Hs _ Hdb). do 2 f_equal.
    exact (dbkey_of_ok SendAck k Hid).
Qed.
End Loops.
End Reachable.

(** ** The theorems at concrete states *)
Section Witnesses.
Import MemDb.
#[local] Existing Instances sample_json sample_clock sample_proto sample_key.
#[local] Instance sample_server : Http := sample_http "info2" "executed" "sent".

(** Nothing pending, and one acknowledgement pending since 5 us. *)
Definition sample_idle : Layer1ToLayer2Handle := boot (sample_sys ∅).
Definition sample_message : CrossTxInfo :=
  mkCrossTxInfo "ab12" "did:bid:a" "did:bid:b" 5 CROSS_RESULT_FAILED 0 17 0 9 "" 0 "" "h0" "".
Definition sample_acked : Layer1ToLayer2Handle :=
  set_rows send_ack_table (emplace "ab12"%string (entry (Some 5) sample_message) ∅)
    (set_sys (sample_sys (<[dbkey send_ack_prefix_ "ab12" := serialize_CrossTxInfo sample_message]> ∅)) sample_idle).

Lemma sample_id_ok : id_ok "ab12".
Proof. split; vm_compute; congruence. Qed.
Lemma sample_encodable : encodable sample_message.
Proof. repeat split; repeat constructor; vm_compute; congruence. Qed.
Lemma sample_idle_journaled : journaled_in (R := fun k => (∅ : gmap string string) !! k) sample_idle.
Proof. apply (journaled_fresh _ ∅); [done|intros i k [? ?]; by rewrite lookup_empty in *|by intros []|done]. Qed.
Lemma sample_acked_journaled : journaled_in (R := fun k => (∅ : gmap string string) !! k) sample_acked.
Proof.
  refine (journaled_saved SendAck sample_message (Some 5) sample_idle
    (sample_sys (<[dbkey send_ack_prefix_ "ab12" := serialize_CrossTxInfo sample_message]> ∅))
    sample_idle_journaled sample_id_ok sample_encodable (ex_intro _ 5 eq_refl) _).
  by intros db [= <-].
Qed.
Lemma sample_reachable e w' : event_ok e -> handle sample_cfg e sample_idle = Ret (tt, w') ->
  reachable event_ok (handle sample_cfg) boot Initialize w'.
Proof.
  intros He E. eapply reach_event; [|exact He|exact E].
  eapply (reach_fresh _ _ _ _ (sample_sys ∅) ∅); [done|intros i k [? ?]; by rewrite lookup_empty in *|].
  reflexivity.
Qed.




Lemma sample_started : exists w', handle sample_cfg (StartTxEvent "ab12") sample_idle = Ret (tt, w').
Proof.
  destruct (returns_run (fun _ => true) (handle sample_cfg (StartTxEvent "ab12")) sample_idle)
    as ([] & w' & E & _); [vm_compute; reflexivity|]. by exists w'.
Qed.



Lemma sweeps_clear_nothing_witness : exists w',
  SendTxToLayer2TimeOut sample_cfg sample_acked = Ret (true, w') /\
  dom (send_tx_info_map_ w') = dom (send_tx_info_map_ sample_acked).
Proof.
  destruct (returns_true (SendTxToLayer2TimeOut sample_cfg) sample_acked) as [w' E]; [vm_compute; reflexivity|].
  exists w'. split; [exact E|].
  exact (proj1 (sweeps_clear_nothing sample_cfg sample_acked true w' sample_acked_journaled) E).
Defined.

Lemma SendAck_sweep_dangling_witness : SendAckToLayer1TimeOut sample_cfg sample_acked = Undef DanglingIterator.
Proof.
  set (s1 := mkSys 2 0 (s_db (h_sys sample_acked)) []).
  eapply (SendAck_sweep_dangling sample_cfg sample_acked 1000000000 s1 [] "ab12"%string [] (set_sys s1 sample_acked)
    (entry (Some 5) sample_message) 5).
  - exact sample_acked_journaled.
  - reflexivity.
  - vm_compute; reflexivity.
  - reflexivity.
  - reflexivity.
  - reflexivity.
  - reflexivity.
  - vm_compute; congruence.
  - reflexivity.
Defined.

Lemma SendAck_resend_stale_witness : exists w',
  SendAckToLayer1 sample_cfg sample_message sample_acked = Ret (true, w') /\
  send_ack_info_map_ w' = send_ack_info_map_ sample_acked.
Proof.
  destruct (returns_true (SendAckToLayer1 sample_cfg sample_message) sample_acked) as [w' E]; [vm_compute; reflexivity|].
  exists w'. split; [exact E|].
  refine (proj1 (SendAck_resend_stale sample_cfg sample_acked "ab12"%string (entry (Some 5) sample_message) _ w'
    sample_acked_journaled _ _ _)).
  - reflexivity.
  - reflexivity.
  - rewrite parse_entry by apply sample_encodable. exact E.
Defined.
End Witnesses.
