(* ===== verification/Layer2ToLayer1.v ===== *)
(** Transactions from the second chain to the first:
    [Layer2ToLayer1Handle] (src/glue/layer2_to_layer1_handle.cpp).  A start
    event only records the transaction; it is sent on when the first chain has
    confirmed the second chain up to its block. *)

From S2P Require Import Prelude Strings Hex Basen Ordered Database General Platform Concrete Configure.
From S2P Require Import WebClient Transaction Pending.

Definition start_tx_prefix_ : string := "L2_StartTx_".
Definition send_tx_prefix_ : string := "L2_SendTx_".
Definition send_ack_prefix_ : string := "L2_SendAck_".
Definition reply_ack_prefix_ : string := "L2_ReplyAck_".

Section Handle.
Context `{RocksDb} `{Clock} `{Http} `{Json} `{Protobuf} `{AgentKey}.
Context (cfg : Configure).

(** The handler's tables, and the state it shares with everything else. *)
Record Layer2ToLayer1Handle := mkHandle {
  h_sys : sys;
  start_tx_info_map_ : gmap string CrossTx;
  send_tx_info_map_ : gmap string CrossTx;
  send_ack_info_map_ : gmap string CrossTx;
  reply_ack_info_map_ : gmap string CrossTx
}.
#[export] Instance Handle_sys : HasSys Layer2ToLayer1Handle := {|
  the_sys := h_sys;
  set_sys := fun s w => mkHandle s (start_tx_info_map_ w) (send_tx_info_map_ w) (send_ack_info_map_ w)
                          (reply_ack_info_map_ w);
  the_sys_set := fun _ _ => eq_refl; set_sys_set := fun _ _ _ => eq_refl;
  set_sys_id := fun w => match w with mkHandle _ _ _ _ _ => eq_refl end
|}.
Definition start_tx_table : Table Layer2ToLayer1Handle := {|
  rows := start_tx_info_map_;
  set_rows := fun m w => mkHandle (h_sys w) m (send_tx_info_map_ w) (send_ack_info_map_ w) (reply_ack_info_map_ w);
  rows_set := fun _ _ => eq_refl; rows_set_sys := fun _ _ => eq_refl; the_sys_set_rows := fun _ _ => eq_refl;
  set_sys_rows := fun _ _ _ => eq_refl; set_rows_set := fun _ _ _ => eq_refl;
  set_rows_id := fun w => match w with mkHandle _ _ _ _ _ => eq_refl end
|}.
Definition send_tx_table : Table Layer2ToLayer1Handle := {|
  rows := send_tx_info_map_;
  set_rows := fun m w => mkHandle (h_sys w) (start_tx_info_map_ w) m (send_ack_info_map_ w) (reply_ack_info_map_ w);
  rows_set := fun _ _ => eq_refl; rows_set_sys := fun _ _ => eq_refl; the_sys_set_rows := fun _ _ => eq_refl;
  set_sys_rows := fun _ _ _ => eq_refl; set_rows_set := fun _ _ _ => eq_refl;
  set_rows_id := fun w => match w with mkHandle _ _ _ _ _ => eq_refl end
|}.
Definition send_ack_table : Table Layer2ToLayer1Handle := {|
  rows := send_ack_info_map_;
  set_rows := fun m w => mkHandle (h_sys w) (start_tx_info_map_ w) (send_tx_info_map_ w) m (reply_ack_info_map_ w);
  rows_set := fun _ _ => eq_refl; rows_set_sys := fun _ _ => eq_refl; the_sys_set_rows := fun _ _ => eq_refl;
  set_sys_rows := fun _ _ _ => eq_refl; set_rows_set := fun _ _ _ => eq_refl;
  set_rows_id := fun w => match w with mkHandle _ _ _ _ _ => eq_refl end
|}.
Definition reply_ack_table : Table Layer2ToLayer1Handle := {|
  rows := reply_ack_info_map_;
  set_rows := fun m w => mkHandle (h_sys w) (start_tx_info_map_ w) (send_tx_info_map_ w) (send_ack_info_map_ w) m;
  rows_set := fun _ _ => eq_refl; rows_set_sys := fun _ _ => eq_refl; the_sys_set_rows := fun _ _ => eq_refl;
  set_sys_rows := fun _ _ _ => eq_refl; set_rows_set := fun _ _ _ => eq_refl;
  set_rows_id := fun w => match w with mkHandle _ _ _ _ _ => eq_refl end
|}.

Notation HM := (M Layer2ToLayer1Handle).
Definition layer1_url : string := l1_http_endpoint (layer1_configure_ cfg).
Definition layer2_url : string := l2_http_endpoint (layer2_configure_ cfg).

(** The table keys of the database: concatenated as strings, except for the
    reply table, whose keys are formatted. *)
Definition dbkey (prefix id : string) : string := (prefix ++ id)%string.
Definition reply_dbkey (id : string) : string := Format (cstr reply_ack_prefix_ ++ cstr id)%string.

(** ** [Initialize]: the tables as the database has them *)
Definition Initialize : HM bool :=
  do! load_table start_tx_table start_tx_prefix_ false in
  do! load_table send_tx_table send_tx_prefix_ false in
  do! load_table send_ack_table send_ack_prefix_ true in
  do! load_table reply_ack_table reply_ack_prefix_ true in
  ret true.

(** ** Saving and clearing *)
Definition SaveStartTxInfo (c : CrossTx) : HM bool :=
  save_plain start_tx_table (dbkey start_tx_prefix_ (cross_tx_id_ c)) c.
Definition ClearStartTxInfo (cross_txid : string) : HM bool :=
  clear_entry start_tx_table (dbkey start_tx_prefix_ cross_txid) cross_txid.
Definition SaveSendTxInfo (c : CrossTx) : HM bool :=
  save_plain send_tx_table (dbkey send_tx_prefix_ (cross_tx_id_ c)) c.
Definition ClearSendTxInfo (cross_txid : string) : HM bool :=
  clear_entry send_tx_table (dbkey send_tx_prefix_ cross_txid) cross_txid.
Definition SaveSendAckInfo (c : CrossTx) : HM bool :=
  save_ack_stamped send_ack_table (dbkey send_ack_prefix_ (cross_tx_id_ c)) c.
Definition ClearSendAckInfo (cross_txid : string) : HM bool :=
  clear_entry send_ack_table (dbkey send_ack_prefix_ cross_txid) cross_txid.
Definition SaveReplyAckInfo (c : CrossTx) : HM bool :=
  save_ack_stamped reply_ack_table (reply_dbkey (cross_tx_id_ c)) c.
Definition ClearReplyAckInfo (cross_txid : string) : HM bool :=
  clear_entry reply_ack_table (reply_dbkey cross_txid) cross_txid.

(** ** Sending a contract call *)
Definition checkTxResponse (response txhash : string) : outcome (bool * string) := check_response response txhash.

Definition sendTransactionToLayer2 (input : string) (amount : Z) (txhash : string) : M sys (bool * string) :=
  let! t := lift (Layer2Transaction_new cfg) in
  let t := Layer2_AddTransactionOperation cfg input amount t in
  let! seq := GetLayerSeq layer2_url in
  match seq with
  | None => ret (false, txhash)
  | Some layer2_seq =>
      let! max_seq := lift (s64 (layer2_seq + 200)) in
      let! tran_blob := Layer2_GetTransactionBlob max_seq t in
      let! body := lift (signed_request (l2_private_key (layer2_configure_ cfg)) tran_blob) in
      let! response := SubmitLayer2Transaction layer2_url body in
      if negb (http_error response =? 0) then ret (false, txhash)
      else lift (let? b := http_value response in checkTxResponse b txhash)
  end.

Definition sendTransactionToLayer1 (input : string) (amount : Z) (txhash : string) : M sys (bool * string) :=
  let! t := lift (Layer1Transaction_new cfg) in
  let t := Layer1_AddTransactionOperation cfg input amount t in
  let! seq := GetLayerSeq layer1_url in
  match seq with
  | None => ret (false, txhash)
  | Some layer1_seq =>
      let! max_seq := lift (s64 (layer1_seq + 200)) in
      let! tran_blob := Layer1_GetTransactionBlob max_seq t in
      let! body := lift (signed_request (l1_private_key (layer1_configure_ cfg)) tran_blob) in
      let! response := SubmitLayer1Transaction layer1_url body in
      if negb (http_error response =? 0) then ret (false, txhash)
      else lift (let? b := http_value response in checkTxResponse b txhash)
  end.

Definition SendTxToLayer1 (cross_tx_info : CrossTxInfo) : HM bool :=
  let input := toStyledString (call_doc SEND_TX_FUNCTION (send_args cross_tx_info)) in
  let! r := sysop (sendTransactionToLayer1 input (amount cross_tx_info) "") in
  if negb r.1 then ret false
  else
    let cross_tx_info := set_sendtxhash r.2 cross_tx_info in
    do! SaveSendTxInfo (CrossTx_new (serialize_CrossTxInfo cross_tx_info) cross_tx_info) in
    ret true.

Definition error_desc_of (status : Z) : string :=
  if status >? CROSS_RESULT_SUCCESS then "send tx failed" else "".

Definition SendAckToLayer2 (cross_tx_info : CrossTxInfo) : HM bool :=
  let input := toStyledString (call_doc SEND_ACKED_FUNCTION
                 (ack_args cross_tx_info (error_desc_of (status cross_tx_info)))) in
  let! r := sysop (sendTransactionToLayer2 input 0 "") in
  if negb r.1 then ret false
  else
    let cross_tx_info := set_sendacktol2hash r.2 cross_tx_info in
    do! SaveSendAckInfo (CrossTx_new (serialize_CrossTxInfo cross_tx_info) cross_tx_info) in
    ret true.

Definition ReplyAckToLayer1 (cross_tx_info : CrossTxInfo) : HM bool :=
  let input := toStyledString (call_doc SEND_ACKED_FUNCTION
                 (ack_args cross_tx_info (error_desc_of (status cross_tx_info)))) in
  let! r := sysop (sendTransactionToLayer1 input 0 "") in
  if negb r.1 then ret false
  else
    let cross_tx_info := set_sendacktol1hash r.2 cross_tx_info in
    do! SaveReplyAckInfo (CrossTx_new (serialize_CrossTxInfo cross_tx_info) cross_tx_info) in
    ret true.

(** The destination must be there, or the access is out of range. *)
Definition makeCrossTxInfo (cross_info1 cross_info2 : string) : outcome (option CrossTxInfo) :=
  if String.eqb cross_info1 "" || String.eqb cross_info2 "" then Ret None
  else
    let? l := info_lists cross_info1 cross_info2 in
    let? destbid := vec_get l.1 5 in
    let? m := fill_info (of_bytes destbid) l.1 l.2 in
    Ret (Some m).

(** ** Events *)
Definition HandleStartTxEvent (cross_txid : string) : HM bool :=
  let! infos := sysop (GetLayer2CrossTxInfo cfg layer2_url cross_txid) in
  match infos with
  | None => ret false
  | Some (cross_txinfo1, cross_txinfo2) =>
      let! made := lift (makeCrossTxInfo cross_txinfo1 cross_txinfo2) in
      match made with
      | None => ret false
      | Some cross_tx_info =>
          let! seq := sysop (GetLayerSeq layer2_url) in
          match seq with
          | None => ret false
          | Some layer2_seq =>
              let cross_tx_info := set_confirmseq layer2_seq cross_tx_info in
              do! SaveStartTxInfo (CrossTx_new (serialize_CrossTxInfo cross_tx_info) cross_tx_info) in
              ret true
          end
      end
  end.

Definition handleSendTxEvent (cross_txid : string) (status : Z) : HM bool :=
  let! infos := sysop (GetLayer1CrossTxInfo cfg layer1_url cross_txid) in
  match infos with
  | None => ret false
  | Some (cross_txinfo1, cross_txinfo2) =>
      let! made := lift (makeCrossTxInfo cross_txinfo1 cross_txinfo2) in
      match made with
      | None => ret false
      | Some cross_tx_info =>
          let! ok := SendAckToLayer2 (set_status status cross_tx_info) in
          if ok then do! ClearSendTxInfo cross_txid in ret true
          else ret false
      end
  end.

Definition HandleSendTxEvent (cross_txid : string) : HM bool :=
  handleSendTxEvent cross_txid CROSS_RESULT_SUCCESS.

Definition HandleSendAckdTxEvent (cross_txid : string) : HM bool :=
  let! infos := sysop (GetLayer2CrossTxInfo cfg layer2_url cross_txid) in
  match infos with
  | None => ret false
  | Some (cross_txinfo1, cross_txinfo2) =>
      let! made := lift (makeCrossTxInfo cross_txinfo1 cross_txinfo2) in
      match made with
      | None => ret false
      | Some cross_tx_info =>
          let! ok := ReplyAckToLayer1 cross_tx_info in
          if ok then do! ClearSendAckInfo cross_txid in ret true
          else ret false
      end
  end.

(** One recorded transaction when blocks up to [confirm_seq] are confirmed:
    sent on, or refused when it is too late (its record stays). *)
Definition ConfirmSeq_body (confirm_seq : Z) (k : string) : HM unit :=
  let! current_time := sysop HighResolution in
  let! start_tx := node start_tx_table k in
  let cross_tx_info := (parse_CrossTxInfo (cross_tx_info_ start_tx)).2 in
  if confirmseq cross_tx_info <=? confirm_seq then
    if timeout cross_tx_info <? current_time then
      do! SendAckToLayer2 (set_status CROSS_RESULT_TIMEOUT cross_tx_info) in ret tt
    else
      let! sent := SendTxToLayer1 cross_tx_info in
      if sent then do! ClearStartTxInfo (crosstxid cross_tx_info) in ret tt
      else ret tt
  else ret tt.

Definition HandleConfirmSeqEvent (confirm_seq : Z) : HM bool :=
  do! map_for start_tx_info_map_ (ConfirmSeq_body confirm_seq) in
  ret true.

(** ** Timeouts *)
Definition StartTx_body (current_time : Z) (k : string) : HM unit :=
  let! starttx := node start_tx_table k in
  if send_tx_timeout_ starttx <? current_time then
    let cross_tx_info := set_status CROSS_RESULT_FAILED (parse_CrossTxInfo (cross_tx_info_ starttx)).2 in
    let! sent := SendAckToLayer2 cross_tx_info in
    do! (if sent then do! ClearStartTxInfo k in ret tt else ret tt) in
    (* the log line reads the key of the node *)
    do! node start_tx_table k in ret tt
  else ret tt.

Definition StartTxTimeOut : HM bool :=
  let! current_time := sysop HighResolution in
  do! map_for start_tx_info_map_ (StartTx_body current_time) in
  ret true.

Definition SendTx_body (current_time : Z) (k : string) : HM unit :=
  let! sendtx := node send_tx_table k in
  if send_tx_timeout_ sendtx <? current_time then
    let! ok := sysop (GetTxResult layer1_url (send_tx_hash_ sendtx)) in
    if ok then
      do! handleSendTxEvent (cross_tx_id_ sendtx) CROSS_RESULT_SUCCESS in ret tt
    else
      let cross_tx_info := set_status CROSS_RESULT_TIMEOUT (parse_CrossTxInfo (cross_tx_info_ sendtx)).2 in
      let! sent := SendAckToLayer2 cross_tx_info in
      if sent then do! ClearSendTxInfo (cstr (crosstxid cross_tx_info)) in ret tt
      else ret tt
  else ret tt.

Definition SendTxToLayer1TimeOut : HM bool :=
  let! current_time := sysop HighResolution in
  do! map_for send_tx_info_map_ (SendTx_body current_time) in
  ret true.

(** The acknowledgement is sent again and its deadline moved. *)
Definition SendAck_resend (current_time : Z) (k : string) (cross_tx_info : CrossTxInfo) : HM unit :=
  do! SendAckToLayer2 cross_tx_info in
  node_set_ack_timeout send_ack_table k (current_time + MICRO_UNITS_PER_SEC * 60).

Definition SendAck_body (current_time : Z) (k : string) : HM unit :=
  let! acktx := node send_ack_table k in
  let! deadline := lift (read_init (send_ack_timeout_ acktx)) in
  if deadline <? current_time then
    let cross_tx_info := (parse_CrossTxInfo (cross_tx_info_ acktx)).2 in
    if status cross_tx_info =? CROSS_RESULT_SUCCESS then SendAck_resend current_time k cross_tx_info
    else
      let! ok := sysop (GetTxResult layer2_url (send_ack_to_l2_hash_ acktx)) in
      if ok then do! ClearSendAckInfo k in ret tt
      else
        let! status := sysop (GetCrossTxStatus cfg layer2_url k) in
        if negb (status =? CROSS_RESULT_INIT) then do! ClearSendAckInfo k in ret tt
        else SendAck_resend current_time k cross_tx_info
  else ret tt.

Definition SendAckToLayer2TimeOut : HM bool :=
  let! current_time := sysop HighResolution in
  do! map_for send_ack_info_map_ (SendAck_body current_time) in
  ret true.

Definition ReplyAck_body (current_time : Z) (k : string) : HM unit :=
  let! acktx := node reply_ack_table k in
  let! deadline := lift (read_init (send_ack_timeout_ acktx)) in
  if deadline <? current_time then
    let cross_tx_info := (parse_CrossTxInfo (cross_tx_info_ acktx)).2 in
    let! ok := sysop (GetTxResult layer1_url (send_ack_to_l1_hash_ acktx)) in
    if ok then do! ClearReplyAckInfo k in ret tt
    else
      let! status := sysop (GetCrossTxStatus cfg layer1_url k) in
      if negb (status =? CROSS_RESULT_INIT) then do! ClearReplyAckInfo k in ret tt
      else
        do! ReplyAckToLayer1 cross_tx_info in
        node_set_ack_timeout reply_ack_table k (current_time + MICRO_UNITS_PER_SEC * 60)
  else ret tt.

Definition ReplyAckToLayer1TimeOut : HM bool :=
  let! current_time := sysop HighResolution in
  do! map_for reply_ack_info_map_ (ReplyAck_body current_time) in
  ret true.

Definition OnTimer (current_time : Z) : HM unit :=
  do! StartTxTimeOut in
  do! SendTxToLayer1TimeOut in
  do! SendAckToLayer2TimeOut in
  do! ReplyAckToLayer1TimeOut in
  ret tt.

End Handle.

(** Conversion compares keys without formatting them. *)
#[global] Strategy 500 [dbkey reply_dbkey].
#[global] Strategy 1000 [Format].
