(* ===== verification/Layer2ToLayer1Facts.v ===== *)
(** What the handler of the second direction guarantees: the effect of every
    event on its tables and on the database, the invariant of its reachable
    states, the confirmation of recorded transactions, and the sweeps. *)

From S2P Require Import Prelude Strings Hex Basen Ordered Database General Platform Concrete Configure.
From S2P Require Import WebClient Transaction Pending Journal Progress Sample Layer2ToLayer1.

Section Facts.
Context `{RocksDbLaws} `{!Reliable} `{Clock} `{Http} `{Json} `{Protobuf} `{AgentKey}.
Context (cfg : Configure).

Lemma L21_sendTransactionToLayer1_keeps_db input amount h :
  keeps s_db (sendTransactionToLayer1 cfg input amount h).
Proof.
  unfold sendTransactionToLayer1, SubmitLayer1Transaction, Layer1_GetTransactionBlob. solve_keeps.
Qed.
Lemma L21_sendTransactionToLayer2_keeps_db input amount h :
  keeps s_db (sendTransactionToLayer2 cfg input amount h).
Proof.
  unfold sendTransactionToLayer2, SubmitLayer2Transaction, Layer2_GetTransactionBlob. solve_keeps.
Qed.

(** The calls the handler submits for a message. *)
Definition submit_tx (m : CrossTxInfo) : M sys (bool * string) :=
  sendTransactionToLayer1 cfg (toStyledString (call_doc SEND_TX_FUNCTION (send_args m))) (amount m) "".
Definition ack_input (m : CrossTxInfo) : string :=
  toStyledString (call_doc SEND_ACKED_FUNCTION (ack_args m (error_desc_of (status m)))).
Definition submit_ack (m : CrossTxInfo) : M sys (bool * string) := sendTransactionToLayer2 cfg (ack_input m) 0 "".
Definition submit_reply (m : CrossTxInfo) : M sys (bool * string) := sendTransactionToLayer1 cfg (ack_input m) 0 "".

Lemma SendTxToLayer1_inv m w b w' : SendTxToLayer1 cfg m w = Ret (b, w') ->
  sent_plain send_tx_table (submit_tx m) (dbkey send_tx_prefix_) (fun h => set_sendtxhash h m) w b w'.
Proof.
  exact (send_plain_inv send_tx_table (dbkey send_tx_prefix_) (fun h => set_sendtxhash h m) _
    (L21_sendTransactionToLayer1_keeps_db _ _ _) w b w').
Qed.

Lemma SendAckToLayer2_inv m w b w' : SendAckToLayer2 cfg m w = Ret (b, w') ->
  sent_ack send_ack_table (submit_ack m) (dbkey send_ack_prefix_) (fun h => set_sendacktol2hash h m) w b w'.
Proof.
  exact (send_save_ack_inv send_ack_table (dbkey send_ack_prefix_) (fun h => set_sendacktol2hash h m) _
    (L21_sendTransactionToLayer2_keeps_db _ _ _) (save_ack_stamped send_ack_table) w b w'
    (save_ack_stamped_inv send_ack_table)).
Qed.

Lemma ReplyAckToLayer1_inv m w b w' : ReplyAckToLayer1 cfg m w = Ret (b, w') ->
  sent_ack reply_ack_table (submit_reply m) reply_dbkey (fun h => set_sendacktol1hash h m) w b w'.
Proof.
  exact (send_save_ack_inv reply_ack_table reply_dbkey (fun h => set_sendacktol1hash h m) _
    (L21_sendTransactionToLayer1_keeps_db _ _ _) (save_ack_stamped reply_ack_table) w b w'
    (save_ack_stamped_inv reply_ack_table)).
Qed.

(** The record of a transaction as each of the chains' contracts has it. *)
Definition on_layer1 := read_from makeCrossTxInfo (GetLayer1CrossTxInfo cfg (layer1_url cfg)).
Definition on_layer2 := read_from makeCrossTxInfo (GetLayer2CrossTxInfo cfg (layer2_url cfg)).


(** A send event, when it succeeds, has acknowledged the transaction to the
    second chain with the status given, filed that acknowledgement under its
    id, and taken the transaction off the send table and out of the database;
    when it fails nothing has changed. *)
Theorem L21_handleSendTxEvent_spec id status w b w' : handleSendTxEvent cfg id status w = Ret (b, w') ->
  if b then exists m s' t h, on_layer1 id (h_sys w) m /\ accepted (submit_ack (set_status status m)) h /\
    let m' := set_sendacktol2hash h (set_status status m) in
    w' = set_rows send_tx_table (delete id (send_tx_info_map_ w))
          (set_rows send_ack_table (emplace (crosstxid m) (entry (Some t) m') (send_ack_info_map_ w))
            (set_sys s' w)) /\
    db_step (fun db => delete (dbkey send_tx_prefix_ id)
               (<[dbkey send_ack_prefix_ (crosstxid m) := serialize_CrossTxInfo m']> db)) (h_sys w) s'
  else unchanged w w'.
Proof.
  intros E. apply (ask_inv makeCrossTxInfo (GetLayer1CrossTxInfo cfg (layer1_url cfg))) in E; [|auto with keeps].
  destruct E as [[-> Hu]|(m & s1 & Hm & Hs1 & E)]; [done|].
  apply bind_inv in E as (ok & w1 & E1 & E). apply SendAckToLayer2_inv in E1.
  apply (sent_ack_from _ _ _ _ _ w) in E1; [|done]. destruct ok.
  - apply bind_inv in E as (u & w2 & E2 & E). injection E as <- <-.
    destruct E1 as (s2 & t & h & Ha & -> & Hs2). apply clear_entry_inv in E2 as (_ & s3 & -> & Hs3).
    exists m, s3, t, h. do 3 (split; [done|]). by eapply db_step_trans.
  - by injection E as <- <-.
Qed.

(** An acknowledged event, when it succeeds, has passed the acknowledgement
    on to the first chain, filed the reply, and taken the acknowledgement off
    its table and out of the database; when it fails nothing has changed. *)
Theorem L21_HandleSendAckdTxEvent_spec id w b w' : HandleSendAckdTxEvent cfg id w = Ret (b, w') ->
  if b then exists m s' t h, on_layer2 id (h_sys w) m /\ accepted (submit_reply m) h /\
    let m' := set_sendacktol1hash h m in
    w' = set_rows send_ack_table (delete id (send_ack_info_map_ w))
          (set_rows reply_ack_table (emplace (crosstxid m) (entry (Some t) m') (reply_ack_info_map_ w))
            (set_sys s' w)) /\
    db_step (fun db => delete (dbkey send_ack_prefix_ id)
               (<[reply_dbkey (crosstxid m) := serialize_CrossTxInfo m']> db)) (h_sys w) s'
  else unchanged w w'.
Proof.
  intros E. apply (ask_inv makeCrossTxInfo (GetLayer2CrossTxInfo cfg (layer2_url cfg))) in E; [|auto with keeps].
  destruct E as [[-> Hu]|(m & s1 & Hm & Hs1 & E)]; [done|].
  apply bind_inv in E as (ok & w1 & E1 & E). apply ReplyAckToLayer1_inv in E1.
  apply (sent_ack_from _ _ _ _ _ w) in E1; [|done]. destruct ok.
  - apply bind_inv in E as (u & w2 & E2 & E). injection E as <- <-.
    destruct E1 as (s2 & t & h & Ha & -> & Hs2). apply clear_entry_inv in E2 as (_ & s3 & -> & Hs3).
    exists m, s3, t, h. do 3 (split; [done|]). by eapply db_step_trans.
  - by injection E as <- <-.
Qed.
End Facts.

(** ** The journal and the reachable states *)

Inductive slot : Set := StartTx | SendTx | SendAck | ReplyAck.
#[export] Instance slot_eq_dec : EqDecision slot.
Proof. solve_decision. Defined.
Definition slots : list slot := [StartTx; SendTx; SendAck; ReplyAck].

Section Reachable.
Context `{RocksDbLaws} `{!Reliable} `{Clock} `{Http} `{Json} `{ProtobufLaws} `{AgentKey}.
Context (cfg : Configure).

Definition slot_prefix (i : slot) : string :=
  match i with
  | StartTx => start_tx_prefix_ | SendTx => send_tx_prefix_
  | SendAck => send_ack_prefix_ | ReplyAck => reply_ack_prefix_
  end.

Lemma reply_dbkey_ok id : id_ok id -> reply_dbkey id = (reply_ack_prefix_ ++ id)%string.
Proof. intros Hid. unfold reply_dbkey. by apply Format_key. Qed.

#[export, refine] Instance handle_tables : Tables Layer2ToLayer1Handle slot := {|
  tbl := fun i => match i with
                  | StartTx => start_tx_table | SendTx => send_tx_table
                  | SendAck => send_ack_table | ReplyAck => reply_ack_table
                  end;
  pre := slot_prefix;
  ddl := fun i => match i with StartTx | SendTx => false | _ => true end;
  dbkey_of := fun i => match i with ReplyAck => reply_dbkey | _ => dbkey (slot_prefix i) end
|}.
Proof.
  - by intros [] [] m w Hne.
  - by intros [] [] Hne.
  - intros [] id Hid; [reflexivity..|]. by apply reply_dbkey_ok.
Defined.

Context `{!Answers}.

(** The keys of the database that are not the handler's are arbitrary. *)
Section Rest.
Context {R : string -> option string}.
#[local] Notation journaled := (journaled_in (R := R)).
#[local] Notation outside := (Journal.outside (R := R)).

(** The handler's operations preserve the journal. *)
Lemma L21_make_ok i1 i2 m : two_answers i1 i2 -> makeCrossTxInfo i1 i2 = Ret (Some m) -> can_file m.
Proof.
  intros Ha Em. unfold makeCrossTxInfo in Em. destruct (_ || _); [done|].
  apply obind_Ret in Em as (l & El & Em). apply obind_Ret in Em as (d & Ed%vec_get_Ret & Em).
  apply obind_Ret in Em as (m' & Ef & Em).
  injection Em as ->. eapply read_record_ok; [done|exact El| |exact Ef].
  right. exists d. split; [by eapply list_elem_of_lookup_2|done].
Qed.

Lemma L21_layer1_hash_ok input amount h : accepted (sendTransactionToLayer1 cfg input amount "") h -> text_ok h.
Proof.
  intros (s & s' & E). unfold sendTransactionToLayer1 in E.
  repeat (apply bind_inv in E as (? & ? & _ & E)); case_match; [|done].
  repeat (apply bind_inv in E as (? & ? & _ & E)). case_match; [done|].
  apply obind_Ret in E as ([b h'] & E & E'). injection E' as -> -> _.
  apply obind_Ret in E as (body & _ & E). by eapply answer_hash.
Qed.
Lemma L21_layer2_hash_ok input amount h : accepted (sendTransactionToLayer2 cfg input amount "") h -> text_ok h.
Proof.
  intros (s & s' & E). unfold sendTransactionToLayer2 in E.
  repeat (apply bind_inv in E as (? & ? & _ & E)); case_match; [|done].
  repeat (apply bind_inv in E as (? & ? & _ & E)). case_match; [done|].
  apply obind_Ret in E as ([b h'] & E & E'). injection E' as -> -> _.
  apply obind_Ret in E as (body & _ & E). by eapply answer_hash.
Qed.

Lemma SendAckToLayer2_journaled m : can_file m -> preserves journaled (SendAckToLayer2 cfg m).
Proof.
  intros [Hid Hm] w b w' HJ E. apply SendAckToLayer2_inv in E. eapply (journaled_sent_ack SendAck); [done| |done|exact E].
  intros h Hh. split; [done|]. apply encodable_sendacktol2hash; [by eapply L21_layer2_hash_ok|done].
Qed.
Lemma ReplyAckToLayer1_journaled m : can_file m -> preserves journaled (ReplyAckToLayer1 cfg m).
Proof.
  intros [Hid Hm] w b w' HJ E. apply ReplyAckToLayer1_inv in E. eapply (journaled_sent_ack ReplyAck); [done| |done|exact E].
  intros h Hh. split; [done|]. apply encodable_sendacktol1hash; [by eapply L21_layer1_hash_ok|done].
Qed.

Lemma L21_ClearSendTxInfo_journaled id : id_ok id -> preserves journaled (ClearSendTxInfo id).
Proof. exact (clear_journaled SendTx id). Qed.
Lemma L21_ClearSendAckInfo_journaled id : id_ok id -> preserves journaled (ClearSendAckInfo id).
Proof. exact (clear_journaled SendAck id). Qed.
#[local] Hint Resolve SendAckToLayer2_journaled ReplyAckToLayer1_journaled can_file_status
  L21_ClearSendTxInfo_journaled L21_ClearSendAckInfo_journaled : preserves.

Lemma L21_HandleStartTxEvent_journaled id : preserves journaled (HandleStartTxEvent cfg id).
Proof.
  apply (ask_journaled makeCrossTxInfo L21_make_ok (GetLayer2CrossTxInfo cfg (layer2_url cfg)));
    [auto with keeps|by apply GetLayer2CrossTxInfo_Some|]. intros m [Hid Hm] w b w' HJ E.
  apply bind_inv in E as (seq & w1 & E1 & E). pose proof E1 as E0.
  apply (sysop_journaled (R := R)) in E0; [|auto with keeps|done]. apply sysop_inv in E1 as (s1 & E1 & ->).
  destruct seq as [seq|]; [|by injection E as _ <-].
  apply bind_inv in E as (u & w2 & E2 & E). injection E as _ <-.
  apply save_plain_inv in E2 as (_ & s2 & -> & Hs).
  refine (journaled_saved StartTx (set_confirmseq seq m) None (set_sys s1 w) s2 E0 Hid _ eq_refl Hs).
  apply encodable_confirmseq; [|done]. apply bind_inv in E1 as (r & s3 & _ & E1).
  apply obind_Ret in E1 as (z & E1 & E3). injection E3 as -> _. by eapply answer_seq.
Qed.
Lemma L21_handleSendTxEvent_journaled id s : id_ok id -> preserves journaled (handleSendTxEvent cfg id s).
Proof.
  intros Hid. apply (ask_journaled makeCrossTxInfo L21_make_ok (GetLayer1CrossTxInfo cfg (layer1_url cfg)));
    [auto with keeps|by apply GetLayer1CrossTxInfo_Some|]. intros m Hm. solve_preserves.
Qed.
Lemma L21_HandleSendAckdTxEvent_journaled id : id_ok id -> preserves journaled (HandleSendAckdTxEvent cfg id).
Proof.
  intros Hid. apply (ask_journaled makeCrossTxInfo L21_make_ok (GetLayer2CrossTxInfo cfg (layer2_url cfg)));
    [auto with keeps|by apply GetLayer2CrossTxInfo_Some|]. intros m Hm. solve_preserves.
Qed.

(** ** Visits: only the current key of the table walked may go. *)
Section Visit.
Context (k : string) (m0 : gmap string CrossTx).

Lemma SendAckToLayer2_outside i m : can_file m -> i <> SendAck \/ crosstxid m = k ->
  preserves (outside i k m0) (SendAckToLayer2 cfg m).
Proof.
  intros [Hid Hm] Hi w b w' HJ E. apply SendAckToLayer2_inv in E. eapply (sent_ack_outside _ _ _ SendAck);
    [done| | |exact HJ|exact E].
  - intros h Hh. split; [done|]. apply encodable_sendacktol2hash; [by eapply L21_layer2_hash_ok|done].
  - destruct Hi as [Hi|<-]; [left; by intros <-|by right].
Qed.
Lemma ReplyAckToLayer1_outside m : can_file m -> crosstxid m = k ->
  preserves (outside ReplyAck k m0) (ReplyAckToLayer1 cfg m).
Proof.
  intros [Hid Hm] Hi w b w' HJ E. apply ReplyAckToLayer1_inv in E. eapply (sent_ack_outside _ _ _ ReplyAck);
    [done| | |exact HJ|exact E].
  - intros h Hh. split; [done|]. apply encodable_sendacktol1hash; [by eapply L21_layer1_hash_ok|done].
  - right. by intros h.
Qed.
Lemma SendTxToLayer1_outside m : can_file m -> preserves (outside StartTx k m0) (SendTxToLayer1 cfg m).
Proof.
  intros [Hid Hm] w b w' HJ E. apply SendTxToLayer1_inv in E. eapply (sent_plain_outside _ _ _ SendTx);
    [done| |done|exact HJ|exact E].
  intros h Hh. split; [done|]. apply encodable_sendtxhash; [by eapply L21_layer1_hash_ok|done].
Qed.
Lemma L21_handleSendTxEvent_outside s : id_ok k -> preserves (outside SendTx k m0) (handleSendTxEvent cfg k s).
Proof.
  intros Hid w b w' [HJ Ho] E. split; [by eapply L21_handleSendTxEvent_journaled|].
  apply (ask_inv makeCrossTxInfo (GetLayer1CrossTxInfo cfg (layer1_url cfg))) in E; [|auto with keeps].
  destruct E as [[_ (s' & -> & _)]|(m & s1 & Hm & Hs1 & E)]; [exact Ho|].
  apply bind_inv in E as (ok & w1 & E1 & E). apply SendAckToLayer2_inv in E1. destruct ok.
  - apply bind_inv in E as (u & w2 & E2 & E). injection E as _ <-.
    destruct E1 as (s2 & t & h & _ & -> & _). apply clear_entry_inv in E2 as (_ & s3 & -> & _).
    intros k' Hne. cbn. rewrite lookup_delete_ne by done. by apply Ho.
  - injection E as _ <-. destruct E1 as (s2 & -> & _). exact Ho.
Qed.
End Visit.

Lemma ClearStartTxInfo_outside k m0 : id_ok k -> preserves (outside StartTx k m0) (ClearStartTxInfo k).
Proof. exact (clear_outside StartTx k m0). Qed.
Lemma L21_ClearSendTxInfo_outside k m0 : id_ok k -> preserves (outside SendTx k m0) (ClearSendTxInfo k).
Proof. exact (clear_outside SendTx k m0). Qed.
Lemma L21_ClearSendAckInfo_outside k m0 : id_ok k -> preserves (outside SendAck k m0) (ClearSendAckInfo k).
Proof. exact (clear_outside SendAck k m0). Qed.
Lemma L21_ClearReplyAckInfo_outside k m0 : id_ok k -> preserves (outside ReplyAck k m0) (ClearReplyAckInfo k).
Proof. exact (clear_outside ReplyAck k m0). Qed.
Lemma L21_send_ack_deadline_outside k m0 t : preserves (outside SendAck k m0) (node_set_ack_timeout send_ack_table k t).
Proof. exact (set_deadline_outside SendAck k m0 t eq_refl). Qed.
Lemma L21_reply_ack_deadline_outside k m0 t : preserves (outside ReplyAck k m0) (node_set_ack_timeout reply_ack_table k t).
Proof. exact (set_deadline_outside ReplyAck k m0 t eq_refl). Qed.
#[local] Hint Resolve SendAckToLayer2_outside ReplyAckToLayer1_outside SendTxToLayer1_outside L21_handleSendTxEvent_outside
  ClearStartTxInfo_outside L21_ClearSendTxInfo_outside L21_ClearSendAckInfo_outside L21_ClearReplyAckInfo_outside
  L21_send_ack_deadline_outside L21_reply_ack_deadline_outside : preserves.
#[local] Hint Extern 2 (preserves _ (sysop _)) => apply sysop_outside; auto with keeps : preserves.
#[local] Hint Extern 1 (preserves _ (node _ _)) => eapply node_preserves : preserves.

Lemma ConfirmSeq_body_outside seq k m0 : preserves (outside StartTx k m0) (ConfirmSeq_body cfg seq k).
Proof.
  unfold ConfirmSeq_body. apply preserves_bind; [auto with preserves|]. intros t.
  change start_tx_table with (tbl StartTx) at 1.
  apply node_outside. intros m d <- Hid _ Hm. rewrite parse_entry by done. cbn [snd].
  assert (can_file m) by done.
  assert (can_file (set_status CROSS_RESULT_TIMEOUT m)) by by apply can_file_status.
  assert (StartTx <> SendAck \/ crosstxid (set_status CROSS_RESULT_TIMEOUT m) = crosstxid m) by by left.
  solve_preserves.
Qed.
Lemma StartTx_body_outside t k m0 : preserves (outside StartTx k m0) (StartTx_body cfg t k).
Proof.
  unfold StartTx_body. change start_tx_table with (tbl StartTx) at 1.
  apply node_outside. intros m d <- Hid _ Hm. rewrite parse_entry by done. cbn [snd].
  assert (can_file (set_status CROSS_RESULT_FAILED m)) by by apply can_file_status.
  assert (StartTx <> SendAck \/ crosstxid (set_status CROSS_RESULT_FAILED m) = crosstxid m) by by left.
  solve_preserves.
Qed.
Lemma L21_SendTx_body_outside t k m0 : preserves (outside SendTx k m0) (SendTx_body cfg t k).
Proof.
  unfold SendTx_body. change send_tx_table with (tbl SendTx) at 1.
  apply node_outside. intros m d <- Hid _ Hm. rewrite parse_entry, entry_id by done. cbn [snd].
  rewrite cstr_no_nul by apply Hid.
  assert (can_file (set_status CROSS_RESULT_TIMEOUT m)) by by apply can_file_status.
  assert (SendTx <> SendAck \/ crosstxid (set_status CROSS_RESULT_TIMEOUT m) = crosstxid m) by by left.
  solve_preserves.
Qed.
Lemma L21_SendAck_body_outside t k m0 : preserves (outside SendAck k m0) (SendAck_body cfg t k).
Proof.
  unfold SendAck_body. change send_ack_table with (tbl SendAck) at 1.
  apply node_outside. intros m d <- Hid _ Hm. rewrite parse_entry by done. cbn [snd].
  assert (can_file m) by done. assert (SendAck <> SendAck \/ crosstxid m = crosstxid m) by by right.
  unfold SendAck_resend. solve_preserves.
Qed.
Lemma L21_ReplyAck_body_outside t k m0 : preserves (outside ReplyAck k m0) (ReplyAck_body cfg t k).
Proof.
  unfold ReplyAck_body. change reply_ack_table with (tbl ReplyAck) at 1.
  apply node_outside. intros m d <- Hid _ Hm. rewrite parse_entry by done. cbn [snd].
  assert (can_file m) by done. solve_preserves.
Qed.

(** A sweep of table [i] at the time it reads. *)
Lemma sweep_journaled i (body : Z -> string -> M Layer2ToLayer1Handle unit) :
  (forall t k m0, preserves (outside i k m0) (body t k)) ->
  preserves journaled (let! t := sysop HighResolution in do! map_for (rows (tbl i)) (body t) in ret true).
Proof.
  intros Hb. apply preserves_bind; [by apply sysop_journaled; auto with keeps|]. intros t.
  apply preserves_bind; [|intros; apply preserves_ret]. exact (outside_sweep i _ (Hb t)).
Qed.

(** ** Progress: the stages of a transaction, and what leaves them alone *)
Definition stage (i : slot) : nat := match i with StartTx => 0 | SendTx => 1 | SendAck => 2 | ReplyAck => 3 end.
#[local] Notation kept := (Progress.kept (R := R) stage).

Lemma SendTxToLayer1_above j m0 m : preserves (above j m0) (SendTxToLayer1 cfg m).
Proof. intros w b w' Ho E. apply SendTxToLayer1_inv in E. by eapply (sent_plain_above j m0 SendTx). Qed.
Lemma SendAckToLayer2_above j m0 m : preserves (above j m0) (SendAckToLayer2 cfg m).
Proof. intros w b w' Ho E. apply SendAckToLayer2_inv in E. by eapply (sent_ack_above j m0 SendAck). Qed.
Lemma ReplyAckToLayer1_above j m0 m : preserves (above j m0) (ReplyAckToLayer1 cfg m).
Proof. intros w b w' Ho E. apply ReplyAckToLayer1_inv in E. by eapply (sent_ack_above j m0 ReplyAck). Qed.
Lemma SaveStartTxInfo_above j m0 c : preserves (above j m0) (SaveStartTxInfo c).
Proof. exact (save_plain_above j m0 StartTx _ c). Qed.
Lemma ClearStartTxInfo_above j m0 id : j <> StartTx -> preserves (above j m0) (ClearStartTxInfo id).
Proof. exact (clear_above j m0 StartTx _ id). Qed.
Lemma L21_ClearSendTxInfo_above j m0 id : j <> SendTx -> preserves (above j m0) (ClearSendTxInfo id).
Proof. exact (clear_above j m0 SendTx _ id). Qed.
Lemma L21_ClearSendAckInfo_above j m0 id : j <> SendAck -> preserves (above j m0) (ClearSendAckInfo id).
Proof. exact (clear_above j m0 SendAck _ id). Qed.
Lemma L21_ClearReplyAckInfo_above j m0 id : j <> ReplyAck -> preserves (above j m0) (ClearReplyAckInfo id).
Proof. exact (clear_above j m0 ReplyAck _ id). Qed.
Lemma L21_send_ack_deadline_above j m0 k t : preserves (above j m0) (node_set_ack_timeout send_ack_table k t).
Proof. exact (set_deadline_above j m0 SendAck k t). Qed.
Lemma L21_reply_ack_deadline_above j m0 k t : preserves (above j m0) (node_set_ack_timeout reply_ack_table k t).
Proof. exact (set_deadline_above j m0 ReplyAck k t). Qed.
#[local] Hint Resolve SendTxToLayer1_above SendAckToLayer2_above ReplyAckToLayer1_above SaveStartTxInfo_above
  ClearStartTxInfo_above L21_ClearSendTxInfo_above L21_ClearSendAckInfo_above L21_ClearReplyAckInfo_above
  L21_send_ack_deadline_above L21_reply_ack_deadline_above : preserves.
#[local] Hint Extern 1 (preserves _ (sysop _)) => apply sysop_above : preserves.

Lemma L21_HandleStartTxEvent_above j m0 id : preserves (above j m0) (HandleStartTxEvent cfg id).
Proof. unfold HandleStartTxEvent. solve_preserves. Qed.
Lemma L21_handleSendTxEvent_above j m0 id s : j <> SendTx -> preserves (above j m0) (handleSendTxEvent cfg id s).
Proof. intros Hj. unfold handleSendTxEvent. solve_preserves. Qed.
#[local] Hint Resolve L21_handleSendTxEvent_above : preserves.
Lemma ConfirmSeq_body_above seq j k m0 : j <> StartTx -> preserves (above j m0) (ConfirmSeq_body cfg seq k).
Proof. intros Hj. unfold ConfirmSeq_body. solve_preserves. Qed.
Lemma StartTx_body_above t j k m0 : j <> StartTx -> preserves (above j m0) (StartTx_body cfg t k).
Proof. intros Hj. unfold StartTx_body. solve_preserves. Qed.
Lemma L21_SendTx_body_above t j k m0 : j <> SendTx -> preserves (above j m0) (SendTx_body cfg t k).
Proof. intros Hj. unfold SendTx_body. solve_preserves. Qed.
Lemma L21_SendAck_body_above t j k m0 : j <> SendAck -> preserves (above j m0) (SendAck_body cfg t k).
Proof. intros Hj. unfold SendAck_body, SendAck_resend. solve_preserves. Qed.
Lemma L21_ReplyAck_body_above t j k m0 : j <> ReplyAck -> preserves (above j m0) (ReplyAck_body cfg t k).
Proof. intros Hj. unfold ReplyAck_body. solve_preserves. Qed.

(** The nodes answer about the transaction they are asked for. *)
Definition truthful (id : string) : Prop :=
  forall s m, on_layer1 cfg id s m \/ on_layer2 cfg id s m -> crosstxid m = id.

Lemma L21_HandleStartTxEvent_kept w0 id : preserves (kept w0) (HandleStartTxEvent cfg id).
Proof. apply kept_grows; [apply L21_HandleStartTxEvent_journaled|]. intros. apply L21_HandleStartTxEvent_above. Qed.
Lemma L21_handleSendTxEvent_kept w0 id st : id_ok id -> truthful id -> preserves (kept w0) (handleSendTxEvent cfg id st).
Proof.
  intros Hid Ht. apply (kept_handed_on (R := R) stage makeCrossTxInfo (GetLayer1CrossTxInfo cfg (layer1_url cfg))
    (fun m => SendAckToLayer2 cfg (set_status st m)) (fun m => submit_ack cfg (set_status st m))
    (fun m h => set_sendacktol2hash h (set_status st m)) (dbkey send_ack_prefix_) SendTx SendAck
    (dbkey send_tx_prefix_ id) id w0 (handleSendTxEvent cfg id st)).
  - reflexivity.
  - auto with keeps.
  - done.
  - cbn. lia.
  - intros m w b w'. exact (SendAckToLayer2_inv cfg (set_status st m) w b w').
  - done.
  - intros s m Hm. apply (Ht s). by left.
  - by apply L21_handleSendTxEvent_journaled.
Qed.
Lemma L21_HandleSendAckdTxEvent_kept w0 id : id_ok id -> truthful id -> preserves (kept w0) (HandleSendAckdTxEvent cfg id).
Proof.
  intros Hid Ht. apply (kept_handed_on (R := R) stage makeCrossTxInfo (GetLayer2CrossTxInfo cfg (layer2_url cfg))
    (ReplyAckToLayer1 cfg) (submit_reply cfg) (fun m h => set_sendacktol1hash h m) reply_dbkey SendAck ReplyAck
    (dbkey send_ack_prefix_ id) id w0 (HandleSendAckdTxEvent cfg id)).
  - reflexivity.
  - auto with keeps.
  - done.
  - cbn. lia.
  - exact (ReplyAckToLayer1_inv cfg).
  - done.
  - intros s m Hm. apply (Ht s). by right.
  - by apply L21_HandleSendAckdTxEvent_journaled.
Qed.
Lemma HandleConfirmSeqEvent_kept w0 seq : preserves (kept w0) (HandleConfirmSeqEvent cfg seq).
Proof.
  unfold HandleConfirmSeqEvent. apply preserves_bind; [|intros; apply preserves_ret].
  pose proof (kept_walk (R := R) stage w0 StartTx (ConfirmSeq_body cfg seq) (ConfirmSeq_body_outside seq)) as Hs.
  apply Hs. intros j k m0. apply ConfirmSeq_body_above.
Qed.
Lemma StartTx_sweep_kept w0 : preserves (kept w0) (StartTxTimeOut cfg).
Proof.
  pose proof (kept_sweep (R := R) stage w0 StartTx HighResolution (StartTx_body cfg) HighResolution_keeps_db StartTx_body_outside) as Hs.
  apply Hs. intros j t k m0. apply StartTx_body_above.
Qed.
Lemma L21_SendTx_sweep_kept w0 : preserves (kept w0) (SendTxToLayer1TimeOut cfg).
Proof.
  pose proof (kept_sweep (R := R) stage w0 SendTx HighResolution (SendTx_body cfg) HighResolution_keeps_db L21_SendTx_body_outside) as Hs.
  apply Hs. intros j t k m0. apply L21_SendTx_body_above.
Qed.
Lemma L21_SendAck_sweep_kept w0 : preserves (kept w0) (SendAckToLayer2TimeOut cfg).
Proof.
  pose proof (kept_sweep (R := R) stage w0 SendAck HighResolution (SendAck_body cfg) HighResolution_keeps_db L21_SendAck_body_outside) as Hs.
  apply Hs. intros j t k m0. apply L21_SendAck_body_above.
Qed.
Lemma L21_ReplyAck_sweep_kept w0 : preserves (kept w0) (ReplyAckToLayer1TimeOut cfg).
Proof.
  pose proof (kept_sweep (R := R) stage w0 ReplyAck HighResolution (ReplyAck_body cfg) HighResolution_keeps_db L21_ReplyAck_body_outside) as Hs.
  apply Hs. intros j t k m0. apply L21_ReplyAck_body_above.
Qed.
Lemma L21_OnTimer_kept w0 t : preserves (kept w0) (OnTimer cfg t).
Proof.
  unfold OnTimer. apply preserves_bind; [apply StartTx_sweep_kept|intros _].
  apply preserves_bind; [apply L21_SendTx_sweep_kept|intros _].
  apply preserves_bind; [apply L21_SendAck_sweep_kept|intros _].
  apply preserves_bind; [apply L21_ReplyAck_sweep_kept|intros; apply preserves_ret].
Qed.

(** The events of the handler. *)
Inductive event : Set :=
| StartTxEvent (cross_txid : string)
| SendTxEvent (cross_txid : string)
| SendAckdTxEvent (cross_txid : string)
| ConfirmSeqEvent (confirm_seq : Z)
| TimerEvent (current_time : Z).
Definition handle (e : event) : M Layer2ToLayer1Handle unit :=
  match e with
  | StartTxEvent id => do! HandleStartTxEvent cfg id in ret tt
  | SendTxEvent id => do! HandleSendTxEvent cfg id in ret tt
  | SendAckdTxEvent id => do! HandleSendAckdTxEvent cfg id in ret tt
  | ConfirmSeqEvent seq => do! HandleConfirmSeqEvent cfg seq in ret tt
  | TimerEvent t => OnTimer cfg t
  end.
Definition event_ok (e : event) : Prop :=
  match e with StartTxEvent id | SendTxEvent id | SendAckdTxEvent id => id_ok id | _ => True end.
Definition boot (s : sys) : Layer2ToLayer1Handle := mkHandle s ∅ ∅ ∅ ∅.

Lemma L21_handle_journaled e : event_ok e -> preserves journaled (handle e).
Proof.
  assert (forall m : M Layer2ToLayer1Handle bool, preserves journaled m -> preserves journaled (do! m in ret tt)) as Hm.
  { intros m Hm. apply preserves_bind; [done|]. intros. apply preserves_ret. }
  destruct e as [id|id|id|seq|t]; intros Hid; cbn [event_ok handle] in *.
  - apply Hm, L21_HandleStartTxEvent_journaled.
  - by apply Hm, L21_handleSendTxEvent_journaled.
  - by apply Hm, L21_HandleSendAckdTxEvent_journaled.
  - apply Hm. unfold HandleConfirmSeqEvent. apply preserves_bind; [|intros; apply preserves_ret].
    exact (outside_sweep StartTx _ (ConfirmSeq_body_outside seq)).
  - unfold OnTimer. apply preserves_bind; [exact (sweep_journaled StartTx _ StartTx_body_outside)|]; intros _.
    apply preserves_bind; [exact (sweep_journaled SendTx _ L21_SendTx_body_outside)|]; intros _.
    apply preserves_bind; [exact (sweep_journaled SendAck _ L21_SendAck_body_outside)|]; intros _.
    apply Hm. exact (sweep_journaled ReplyAck _ L21_ReplyAck_body_outside).
Qed.

End Rest.

Lemma L21_boot_sys s : the_sys (boot s) = s.
Proof. reflexivity. Qed.
Lemma L21_boot_rows s i : rows (tbl i) (boot s) = ∅.
Proof. by destruct i. Qed.
Lemma L21_slots_nodup : NoDup slots.
Proof. by apply (bool_decide_unpack _). Qed.
Lemma L21_slots_all i : i ∈ slots.
Proof. unfold slots. destruct i; set_solver. Qed.


(** A restart of the second handler in any reachable state, on the database
    it left, succeeds, and the four tables have exactly the ids they had. *)
Theorem Initialize_restores w s : reachable event_ok handle boot Initialize w ->
  content (s_db s) = content (s_db (h_sys w)) ->
  exists w', Initialize (boot s) = Ret (true, w') /\
    dom (start_tx_info_map_ w') = dom (start_tx_info_map_ w) /\
    dom (send_tx_info_map_ w') = dom (send_tx_info_map_ w) /\
    dom (send_ack_info_map_ w') = dom (send_ack_info_map_ w) /\
    dom (reply_ack_info_map_ w') = dom (reply_ack_info_map_ w).
Proof.
  intros Hr Hc. destruct (restart_recovers event_ok handle boot Initialize slots L21_boot_sys L21_boot_rows
    L21_slots_nodup L21_slots_all (fun _ => eq_refl) (fun e R => L21_handle_journaled (R := R) e) w s Hr Hc) as (w' & E & Hd).
  exists w'. split; [exact E|]. split; [|split; [|split]]; apply set_eq; intros id; rewrite !elem_of_dom.
  - apply (Hd StartTx).
  - apply (Hd SendTx).
  - apply (Hd SendAck).
  - apply (Hd ReplyAck).
Qed.
Section Loops.
Context {R : string -> option string}.
#[local] Notation journaled := (journaled_in (R := R)).
#[local] Notation outside := (Journal.outside (R := R)).

(** ** Confirmation *)

(** A visit of a transaction that is not due changes nothing but the clock. *)
Lemma HighResolution_sent (s : sys) t s' : HighResolution s = Ret (t, s') -> s_sent s' = s_sent s.
Proof.
  apply (keeps_bind s_sent); [intros w a w' E; by injection E as _ <-|]. intros n.
  unfold Timestamp_Now. destruct (clock_monotonic n).
  apply keeps_bind; [apply keeps_get|]. intros w0. apply keeps_bind; [|intros; solve_keeps].
  destruct (_ =? 0); [|apply keeps_ret].
  apply keeps_bind; [|intros; by apply keeps_modify]. apply keeps_bind; [intros w a w' E; by injection E as _ <-|].
  intros k. destruct (time_of_day k). apply keeps_ret.
Qed.

Definition idle_since (w w' : Layer2ToLayer1Handle) : Prop :=
  exists s, w' = set_sys s w /\ s_sent s = s_sent (h_sys w).

Lemma ConfirmSeq_body_idle seq w w1 k c : idle_since w w1 -> start_tx_info_map_ w !! k = Some c ->
  seq < confirmseq (parse_CrossTxInfo (cross_tx_info_ c)).2 ->
  exists w2, ConfirmSeq_body cfg seq k w1 = Ret (tt, w2) /\ idle_since w w2.
Proof.
  intros (s & -> & Hs) Ek Hlt. destruct (HighResolution_total s) as (t & s' & E).
  exists (set_sys s' w). split; [|exists s'; split; [done|]; by rewrite (HighResolution_sent _ _ _ E)].
  assert (sysop HighResolution (set_sys s w) = Ret (t, set_sys s' w)) as E1.
  { rewrite <- (set_sys_set s' s w). apply sysop_run. by rewrite the_sys_set. }
  unfold ConfirmSeq_body. rewrite (bind_ret_run _ _ _ _ _ E1).
  unfold node, bind, get. cbn. rewrite Ek. cbn. by replace (_ <=? seq) with false by lia.
Qed.

Lemma ConfirmSeq_keys_idle seq w : (forall id c, start_tx_info_map_ w !! id = Some c ->
    seq < confirmseq (parse_CrossTxInfo (cross_tx_info_ c)).2) ->
  forall ks w1, idle_since w w1 -> (forall k, k ∈ ks -> is_Some (start_tx_info_map_ w !! k)) ->
  exists w2, keys_for start_tx_info_map_ (ConfirmSeq_body cfg seq) ks w1 = Ret (tt, w2) /\ idle_since w w2.
Proof.
  intros Hlt. induction ks as [|k ks IH]; intros w1 Hi Hks; [by exists w1|]. cbn [keys_for].
  destruct (Hks k) as [c Ek]; [by apply list_elem_of_here|].
  destruct (ConfirmSeq_body_idle seq w w1 k c Hi Ek (Hlt _ _ Ek)) as (w2 & E & Hi2).
  rewrite (bind_ret_run _ _ _ _ _ E). unfold bind at 1, get. cbn [obind fst snd].
  assert (start_tx_info_map_ w2 !! k = Some c) as -> by (destruct Hi2 as (s & -> & _); exact Ek).
  apply IH; [done|]. intros x Hx. apply Hks. by apply list_elem_of_further.
Qed.



(** Neither a confirmation nor a sweep of the second handler that returns
    has taken an entry off the table it walks; in particular a recorded
    transaction that a confirmation finds too late is refused to the second
    chain again at every later confirmation. *)
Theorem loops_clear_nothing w b w' seq : journaled w ->
  (HandleConfirmSeqEvent cfg seq w = Ret (b, w') -> dom (start_tx_info_map_ w') = dom (start_tx_info_map_ w)) /\
  (StartTxTimeOut cfg w = Ret (b, w') -> dom (start_tx_info_map_ w') = dom (start_tx_info_map_ w)) /\
  (SendTxToLayer1TimeOut cfg w = Ret (b, w') -> dom (send_tx_info_map_ w') = dom (send_tx_info_map_ w)) /\
  (SendAckToLayer2TimeOut cfg w = Ret (b, w') -> dom (send_ack_info_map_ w') = dom (send_ack_info_map_ w)) /\
  (ReplyAckToLayer1TimeOut cfg w = Ret (b, w') -> dom (reply_ack_info_map_ w') = dom (reply_ack_info_map_ w)).
Proof.
  assert (forall i (body : Z -> string -> M Layer2ToLayer1Handle unit), (forall t k m0, preserves (outside i k m0) (body t k)) ->
    journaled w -> (let! t := sysop HighResolution in do! map_for (rows (tbl i)) (body t) in ret true) w = Ret (b, w') ->
    dom (rows (tbl i) w') = dom (rows (tbl i) w)) as Hsweep.
  { intros i body Hb HJ E. apply bind_inv in E as (t & w1 & E1 & E). pose proof E1 as E0.
    apply (sysop_journaled (R := R)) in E0; [|auto with keeps|done].
    apply sysop_inv in E1 as (s & _ & ->). apply bind_inv in E as ([] & w2 & E2 & E). injection E as _ <-.
    eapply (map_for_same_keys _ _ journaled) in E2 as [_ Hd]; [|by apply (outside_erases_only (R := R))|exact E0].
    apply set_eq. intros id. by rewrite !elem_of_dom, Hd, rows_set_sys. }
  intros HJ. split; [|split; [|split; [|split]]]; intros E.
  - apply bind_inv in E as ([] & w2 & E2 & E). injection E as _ <-.
    eapply (map_for_same_keys _ _ journaled) in E2 as [_ Hd]; [|exact (outside_erases_only (R := R) StartTx _ (ConfirmSeq_body_outside seq))|done].
    apply set_eq. intros id. by rewrite !elem_of_dom, Hd.
  - exact (Hsweep StartTx (StartTx_body cfg) StartTx_body_outside HJ E).
  - exact (Hsweep SendTx (SendTx_body cfg) L21_SendTx_body_outside HJ E).
  - exact (Hsweep SendAck (SendAck_body cfg) L21_SendAck_body_outside HJ E).
  - exact (Hsweep ReplyAck (ReplyAck_body cfg) L21_ReplyAck_body_outside HJ E).
Qed.
End Loops.
End Reachable.

(** ** The theorems at concrete states *)
Section Witnesses.
Import MemDb.
#[local] Existing Instances sample_json sample_clock sample_proto sample_key.
#[local] Instance sample_server : Http := sample_http "info2 late" "executed" "sent".

(** Nothing pending; one transaction recorded, to be confirmed at 7; and one
    acknowledgement pending since 5 us. *)
Definition sample_idle : Layer2ToLayer1Handle := boot (sample_sys ∅).
Definition sample_message : CrossTxInfo :=
  mkCrossTxInfo "ab12" "did:bid:a" "did:bid:b" 5 0 0 17 0 2000000000 "" 7 "" "" "h0".
Definition sample_recorded : Layer2ToLayer1Handle :=
  set_rows start_tx_table (emplace "ab12"%string (entry None sample_message) ∅)
    (set_sys (sample_sys (<[dbkey start_tx_prefix_ "ab12" := serialize_CrossTxInfo sample_message]> ∅)) sample_idle).

Lemma L21_sample_id_ok : id_ok "ab12".
Proof. split; vm_compute; congruence. Qed.
Lemma L21_sample_encodable : encodable sample_message.
Proof. repeat split; repeat constructor; vm_compute; congruence. Qed.
Lemma L21_sample_idle_journaled : journaled_in (R := fun k => (∅ : gmap string string) !! k) sample_idle.
Proof. apply (journaled_fresh _ ∅); [done|intros i k [? ?]; by rewrite lookup_empty in *|by intros []|done]. Qed.
Lemma sample_recorded_journaled : journaled_in (R := fun k => (∅ : gmap string string) !! k) sample_recorded.
Proof.
  refine (journaled_saved StartTx sample_message None sample_idle
    (sample_sys (<[dbkey start_tx_prefix_ "ab12" := serialize_CrossTxInfo sample_message]> ∅))
    L21_sample_idle_journaled L21_sample_id_ok L21_sample_encodable eq_refl _).
  by intros db [= <-].
Qed.
Lemma L21_sample_reachable e w' : event_ok e -> handle sample_cfg e sample_idle = Ret (tt, w') ->
  reachable event_ok (handle sample_cfg) boot Initialize w'.
Proof.
  intros He E. eapply reach_event; [|exact He|exact E].
  eapply (reach_fresh _ _ _ _ (sample_sys ∅) ∅); [done|intros i k [? ?]; by rewrite lookup_empty in *|].
  reflexivity.
Qed.


Lemma L21_handleSendTxEvent_spec_witness : exists w' m,
  handleSendTxEvent sample_cfg "ab12" CROSS_RESULT_SUCCESS sample_idle = Ret (true, w') /\
  on_layer1 sample_cfg "ab12" (h_sys sample_idle) m.
Proof.
  destruct (returns_true (handleSendTxEvent sample_cfg "ab12" CROSS_RESULT_SUCCESS) sample_idle) as [w' E];
    [vm_compute; reflexivity|].
  destruct (L21_handleSendTxEvent_spec sample_cfg _ _ sample_idle true w' E) as (m & s' & t & h & Hm & _).
  exists w', m. split; [exact E|exact Hm].
Defined.

Lemma L21_HandleSendAckdTxEvent_spec_witness : exists w' m,
  HandleSendAckdTxEvent sample_cfg "ab12" sample_idle = Ret (true, w') /\
  on_layer2 sample_cfg "ab12" (h_sys sample_idle) m.
Proof.
  destruct (returns_true (HandleSendAckdTxEvent sample_cfg "ab12") sample_idle) as [w' E];
    [vm_compute; reflexivity|].
  destruct (L21_HandleSendAckdTxEvent_spec sample_cfg _ sample_idle true w' E) as (m & s' & t & h & Hm & _).
  exists w', m. split; [exact E|exact Hm].
Defined.

Lemma L21_sample_started : exists w', handle sample_cfg (StartTxEvent "ab12") sample_idle = Ret (tt, w').
Proof.
  destruct (returns_run (fun _ => true) (handle sample_cfg (StartTxEvent "ab12")) sample_idle)
    as ([] & w' & E & _); [vm_compute; reflexivity|]. by exists w'.
Qed.


Lemma Initialize_restores_witness : exists w w',
  handle sample_cfg (StartTxEvent "ab12") sample_idle = Ret (tt, w) /\ Initialize (boot (h_sys w)) = Ret (true, w') /\
  dom (start_tx_info_map_ w') = dom (start_tx_info_map_ w).
Proof.
  destruct L21_sample_started as [w E].
  destruct (Initialize_restores sample_cfg w (h_sys w)
    (L21_sample_reachable (StartTxEvent "ab12") w L21_sample_id_ok E) eq_refl) as (w' & Ei & Hd & _).
  exists w, w'. split; [exact E|]. split; [exact Ei|exact Hd].
Defined.



Lemma loops_clear_nothing_witness : exists w',
  HandleConfirmSeqEvent sample_cfg 6 sample_recorded = Ret (true, w') /\
  dom (start_tx_info_map_ w') = dom (start_tx_info_map_ sample_recorded).
Proof.
  destruct (returns_true (HandleConfirmSeqEvent sample_cfg 6) sample_recorded) as [w' E]; [vm_compute; reflexivity|].
  exists w'. split; [exact E|].
  exact (proj1 (loops_clear_nothing sample_cfg sample_recorded true w' 6 sample_recorded_journaled) E).
Defined.
End Witnesses.
