(* ===== verification/HandleManager.v ===== *)
(** The manager of the two directions: [HandleManager]
    (src/glue/handle_manager.cpp), which routes what the nodes announce to the
    handlers, tells the second chain the period of confirmations, checks the
    agent's balances at the start, and hands on the timer. *)

From S2P Require Import Prelude Strings Hex Basen Ordered Database General Platform Concrete Configure.
From S2P Require Import WebClient Transaction Pending.
From S2P Require Layer1ToLayer2 Layer2ToLayer1.
Module L12 := Layer1ToLayer2.
Module L21 := Layer2ToLayer1.
#[local] Existing Instances L12.Handle_sys L21.Handle_sys.

Section HandleManager.
Context `{RocksDb} `{Clock} `{Http} `{Json} `{Protobuf} `{AgentKey}.
Context (cfg : Configure).

(** The two handlers work on one shared state; the manager holds it, and the
    handlers' copies are set to it when they run. *)
Record HandleManager := mkManager {
  g_sys : sys;
  layer1_to_layer2_handle_ : L12.Layer1ToLayer2Handle;
  layer2_to_layer1_handle_ : L21.Layer2ToLayer1Handle;
  g_timer : TimerNotify;
  g_registered : bool
}.
#[export] Instance Manager_sys : HasSys HandleManager := {|
  the_sys := g_sys;
  set_sys := fun s g => mkManager s (layer1_to_layer2_handle_ g) (layer2_to_layer1_handle_ g) (g_timer g) (g_registered g);
  the_sys_set := fun _ _ => eq_refl; set_sys_set := fun _ _ _ => eq_refl;
  set_sys_id := fun g => match g with mkManager _ _ _ _ _ => eq_refl end
|}.

Definition HandleManager_new (s : sys) : HandleManager :=
  mkManager s (L12.mkHandle s ∅ ∅ ∅) (L21.mkHandle s ∅ ∅ ∅ ∅)
    (TimerNotify_new "HandleManager" (60 * MICRO_UNITS_PER_SEC)) false.

Definition on12 {A} (m : M L12.Layer1ToLayer2Handle A) : M HandleManager A :=
  zoom (fun g => set_sys (g_sys g) (layer1_to_layer2_handle_ g))
    (fun h g => mkManager (the_sys h) h (layer2_to_layer1_handle_ g) (g_timer g) (g_registered g)) m.
Definition on21 {A} (m : M L21.Layer2ToLayer1Handle A) : M HandleManager A :=
  zoom (fun g => set_sys (g_sys g) (layer2_to_layer1_handle_ g))
    (fun h g => mkManager (the_sys h) (layer1_to_layer2_handle_ g) h (g_timer g) (g_registered g)) m.

Notation GM := (M HandleManager).
Definition layer1_url : string := l1_http_endpoint (layer1_configure_ cfg).
Definition layer2_url : string := l2_http_endpoint (layer2_configure_ cfg).

(** ** Balances *)

(** A hundred transactions at the limits of the configuration. *)
Definition min_balance (fee_limit gas_price : option Z) : outcome Z :=
  let? fee := read_init fee_limit in
  let? gas := read_init gas_price in
  let? a := s64 (100 * fee) in
  s64 (a * gas).

Definition CheckLayer1Balance : GM bool :=
  let c := layer1_configure_ cfg in
  let! min := lift (min_balance (l1_fee_limit c) (l1_gas_price c)) in
  let! r := sysop (GetBalance layer1_url 0 (l1_agent_address c)) in
  if negb r.1 then ret false
  else if r.2 <? min then ret false
  else ret true.

Definition CheckLayer2Balance : GM bool :=
  let c := layer2_configure_ cfg in
  let! gas := lift (read_init (l2_gas_price c)) in
  if gas =? 0 then ret true
  else
    let! min := lift (min_balance (l2_fee_limit c) (l2_gas_price c)) in
    let! r := sysop (GetBalance layer2_url 0 (l2_agent_address c)) in
    if negb r.1 then ret false
    else if r.2 <? min then ret false
    else ret true.

Definition Initialize : GM bool :=
  let! ok2 := CheckLayer2Balance in
  if negb ok2 then ret false
  else
    let! ok1 := CheckLayer1Balance in
    if negb ok1 then ret false
    else
      do! on12 L12.Initialize in
      do! on21 L21.Initialize in
      do! modify (fun g => mkManager (g_sys g) (layer1_to_layer2_handle_ g) (layer2_to_layer1_handle_ g) (g_timer g) true) in
      ret true.
Definition Exit : GM bool := ret true.

(** ** The period of confirmations *)

(** In microseconds, with half an hour added. *)
Definition period_timeout (period : Z) : outcome Z :=
  let? period_second := s64 (period * 60) in
  let? t := s64 (period_second * MICRO_UNITS_PER_SEC) in
  s64 (t + 30 * SECOND_UNITS_PER_MINUTE * MICRO_UNITS_PER_SEC).

(** The answer to the submission: [results] is read as an object here. *)
Definition read_update (body : string) : outcome bool :=
  match fromString body with
  | None => Ret false
  | Some responseBody =>
      let? results := jget responseBody "results" in
      let? e := jget results "error_code" in
      let? error_code := asInt e in
      if negb (error_code =? 0) then
        let? d := jget results "error_desc" in
        let? logged := asString d in
        Ret false
      else
        let? h := jget results "hash" in
        let? txhash := asString h in
        Ret true
  end.

Definition updatePeriodToLayer2CrossContract (period : Z) : GM bool :=
  let! timeout := lift (period_timeout period) in
  let! t := lift (Layer2Transaction_new cfg) in
  let input := toStyledString (call_doc "SetTimeout(uint256)" (dec_string timeout)) in
  let t := Layer2_AddTransactionOperation cfg input 0 t in
  let! seq := sysop (GetLayerSeq layer2_url) in
  match seq with
  | None => ret false
  | Some layer2_seq =>
      let! max_seq := lift (s64 (layer2_seq + 200)) in
      let! tran_blob := sysop (Layer2_GetTransactionBlob max_seq t) in
      let! body := lift (signed_request (l2_private_key (layer2_configure_ cfg)) tran_blob) in
      let! response := sysop (SubmitLayer2Transaction layer2_url body) in
      if negb (http_error response =? 0) then ret false
      else lift (let? b := http_value response in read_update b)
  end.

(** ** What the nodes announce *)

(** Only the first log of an announcement, and its first item, the id. *)
Definition first_log (tlog_res : TlogSubscribeResponse) : outcome (string * string) :=
  let? log := vec_get (tlogs tlog_res) 0 in
  let? cross_tx_id := vec_get (tlog log) 0 in
  Ret (topic log, cross_tx_id).

Definition OnLayer1CrossContractTlog (tlog_res : TlogSubscribeResponse) : GM bool :=
  let c := layer1_configure_ cfg in
  let! log := lift (first_log tlog_res) in
  let '(topic, cross_tx_id) := log in
  if String.eqb topic (l1_start_tx_topic c) then on12 (L12.HandleStartTxEvent cfg cross_tx_id)
  else if String.eqb topic (l1_send_tx_topic c) then on21 (L21.HandleSendTxEvent cfg cross_tx_id)
  else if String.eqb topic (l1_ack_tx_topic c) then on12 (L12.HandleSendAckdTxEvent cfg cross_tx_id)
  else ret false.

(** Every item of the manager contract's log: a message it cannot read ends
    the loop, the results of what it does for the others are ignored. *)
Fixpoint manager_items (items : list string) : GM bool :=
  match items with
  | [] => ret true
  | item :: r =>
      let '(ok, manager_log) := parse_ManagerContractTlog (HexStringToBin (to_bytes item) false) in
      if negb ok then ret false
      else
        do! match tlog_type manager_log with
            | TOPIC_SUBMIT =>
                do! on21 (L21.HandleConfirmSeqEvent cfg (submit_confirm_seq manager_log)) in ret tt
            | TOPIC_UPDATE_PERIOD =>
                do! updatePeriodToLayer2CrossContract (update_period_period manager_log) in ret tt
            | _ => ret tt
            end in
        manager_items r
  end.
Definition OnLayer1ManagerContractTlog (tlog_res : TlogSubscribeResponse) : GM bool :=
  let! log := lift (vec_get (tlogs tlog_res) 0) in
  manager_items (tlog log).

Definition OnLayer1SubscribeResponse (msg : string) : GM bool :=
  let '(ok, tlog_res) := parse_TlogSubscribeResponse msg in
  let c := layer1_configure_ cfg in
  if negb ok then ret false
  else if String.eqb (address tlog_res) (l1_cross_contract c) then OnLayer1CrossContractTlog tlog_res
  else if String.eqb (address tlog_res) (l1_manager_contract c) then OnLayer1ManagerContractTlog tlog_res
  else ret false.

Definition OnLayer2SubscribeResponse (msg : string) : GM bool :=
  let '(ok, tlog_res) := parse_TlogSubscribeResponse msg in
  let c := layer2_configure_ cfg in
  if negb ok then ret false
  else if negb (String.eqb (address tlog_res) (l2_cross_contract c)) then ret false
  else
    let! log := lift (first_log tlog_res) in
    let '(topic, cross_tx_id) := log in
    if String.eqb topic (l2_start_tx_topic c) then on21 (L21.HandleStartTxEvent cfg cross_tx_id)
    else if String.eqb topic (l2_send_tx_topic c) then on12 (L12.HandleSendTxEvent cfg cross_tx_id)
    else if String.eqb topic (l2_ack_tx_topic c) then on21 (L21.HandleSendAckdTxEvent cfg cross_tx_id)
    else ret false.

(** ** The timer *)
Definition OnTimer (current_time : Z) : GM unit :=
  do! on12 (L12.OnTimer cfg current_time) in
  on21 (L21.OnTimer cfg current_time).

Definition set_g_timer (t : TimerNotify) (g : HandleManager) : HandleManager :=
  mkManager (g_sys g) (layer1_to_layer2_handle_ g) (layer2_to_layer1_handle_ g) t (g_registered g).
Definition Manager_TimerWrapper (current_time : Z) : GM unit :=
  TimerWrapper g_timer set_g_timer OnTimer (sysop HighResolution) current_time.

End HandleManager.
