(* ===== verification/HandleManagerFacts.v ===== *)
(** What the manager guarantees: the two handlers' journals hold together, for
    they write under prefixes of their own; where announcements go; the bounds
    of the period; the balances an agent must have to start. *)

From S2P Require Import Prelude Strings Hex Basen Ordered Database General Platform Concrete Configure.
From S2P Require Import WebClient Transaction Pending Journal Progress Sample HandleManager.
From S2P Require Layer1ToLayer2Facts Layer2ToLayer1Facts.
Module F12 := Layer1ToLayer2Facts.
Module F21 := Layer2ToLayer1Facts.
#[local] Existing Instances L12.Handle_sys L21.Handle_sys F12.handle_tables F21.handle_tables
  F12.slot_eq_dec F21.slot_eq_dec.

Section Manager.
Context `{RocksDbLaws} `{!Reliable} `{Clock} `{Http} `{Json} `{ProtobufLaws} `{AgentKey} `{!Answers}.
Context (cfg : Configure).

(** The handlers as they run: on the manager's state. *)
Definition view12 (g : HandleManager) : L12.Layer1ToLayer2Handle := set_sys (g_sys g) (layer1_to_layer2_handle_ g).
Definition view21 (g : HandleManager) : L21.Layer2ToLayer1Handle := set_sys (g_sys g) (layer2_to_layer1_handle_ g).

Definition both_journaled (g : HandleManager) : Prop := journaled (view12 g) /\ journaled (view21 g).

Lemma prefixes_apart i j : apart (F12.slot_prefix i) (F21.slot_prefix j) /\ apart (F21.slot_prefix j) (F12.slot_prefix i).
Proof. split; intros x; by destruct i, j. Qed.

Lemma starts_with_apart p p' k : apart p p' -> starts_with k p = true -> starts_with k p' = false.
Proof. intros Ha [r ->]%starts_with_inv. apply Ha. Qed.

(** An operation of one handler leaves the other's keys alone. *)
Lemma on12_both {A} (m : M L12.Layer1ToLayer2Handle A) :
  (forall R, preserves (journaled_in (R := R)) m) -> preserves both_journaled (on12 m).
Proof.
  intros Hm g a g' [[R HJ1] HJ2] E. apply obind_Ret in E as ([b h] & E & E'). injection E' as <- <-.
  destruct HJ1 as (Hf & db & Hdb & Hmi & _).
  assert (journaled_in (R := fun k => db !! k) h) as HJ1'.
  { eapply Hm; [|exact E]. split; [exact Hf|]. by exists db. }
  split.
  - exists (fun k => db !! k). destruct h. exact HJ1'.
  - refine (journaled_other (view21 g) (the_sys h) _ HJ2). intros db0 Hdb0. cbn in Hdb0, Hdb.
    rewrite Hdb in Hdb0. injection Hdb0 as <-. destruct HJ1' as (_ & db' & Hdb' & _ & Hr).
    exists db'. split; [done|]. intros j k Hk. apply Hr. intros i.
    eapply starts_with_apart; [|exact Hk]. apply prefixes_apart.
Qed.

Lemma on21_both {A} (m : M L21.Layer2ToLayer1Handle A) :
  (forall R, preserves (journaled_in (R := R)) m) -> preserves both_journaled (on21 m).
Proof.
  intros Hm g a g' [HJ1 [R HJ2]] E. apply obind_Ret in E as ([b h] & E & E'). injection E' as <- <-.
  destruct HJ2 as (Hf & db & Hdb & Hmi & _).
  assert (journaled_in (R := fun k => db !! k) h) as HJ2'.
  { eapply Hm; [|exact E]. split; [exact Hf|]. by exists db. }
  split.
  - refine (journaled_other (view12 g) (the_sys h) _ HJ1). intros db0 Hdb0. cbn in Hdb0, Hdb.
    rewrite Hdb in Hdb0. injection Hdb0 as <-. destruct HJ2' as (_ & db' & Hdb' & _ & Hr).
    exists db'. split; [done|]. intros j k Hk. apply Hr. intros i.
    eapply starts_with_apart; [|exact Hk]. apply prefixes_apart.
  - exists (fun k => db !! k). destruct h. exact HJ2'.
Qed.

Lemma sysop_both {A} (m : M sys A) : keeps s_db m -> preserves both_journaled (sysop m).
Proof.
  intros Hk g a g' [HJ1 HJ2] E. apply sysop_inv in E as (s & E & ->). pose proof (Hk _ _ _ E) as Hs. cbn in Hs.
  split; [refine (journaled_other (view12 g) s _ HJ1)|refine (journaled_other (view21 g) s _ HJ2)];
    intros db Hdb; exists db; (split; [rewrite Hs; exact Hdb|done]).
Qed.
(** ** Starting *)

(** Tables loaded from the database a journaled handler left. *)
Lemma load12 w g b g' : journaled w -> content (s_db (g_sys g)) = content (s_db (the_sys w)) ->
  view12 g = F12.boot (g_sys g) -> on12 L12.Initialize g = Ret (b, g') ->
  journaled (view12 g') /\ (forall i id, is_Some (rows (tbl i) (view12 g') !! id) <-> is_Some (rows (tbl i) w !! id)) /\
  content (s_db (g_sys g')) = content (s_db (g_sys g)) /\ layer2_to_layer1_handle_ g' = layer2_to_layer1_handle_ g.
Proof.
  intros HJ Hc Hv E. apply obind_Ret in E as ([b' h] & E & E'). injection E' as -> <-.
  change (set_sys (g_sys g) (layer1_to_layer2_handle_ g)) with (view12 g) in E. rewrite Hv in E.
  pose proof HJ as (R & _ & db & Hdb & _). rewrite Hdb in Hc.
  pose proof (load_all_inv F12.slots (ret true) (F12.boot (g_sys g)) b h db F12.slots_nodup Hc E) as (w1 & E1 & Hs & _).
  injection E1 as _ ->.
  eapply (load_boot_recovers F12.boot L12.Initialize F12.slots F12.boot_sys F12.boot_rows F12.slots_nodup F12.slots_all
    (fun _ => eq_refl) w (g_sys g) b h) in E
    as (_ & HJ' & Hd); [|done|congruence].
  destruct h. split; [exact HJ'|]. split; [exact Hd|]. split; [|done]. cbn. rewrite Hc. by apply Hs.
Qed.

Lemma load21 w g b g' : journaled w -> content (s_db (g_sys g)) = content (s_db (the_sys w)) ->
  view21 g = F21.boot (g_sys g) -> on21 L21.Initialize g = Ret (b, g') ->
  journaled (view21 g') /\ (forall i id, is_Some (rows (tbl i) (view21 g') !! id) <-> is_Some (rows (tbl i) w !! id)) /\
  content (s_db (g_sys g')) = content (s_db (g_sys g)) /\ layer1_to_layer2_handle_ g' = layer1_to_layer2_handle_ g.
Proof.
  intros HJ Hc Hv E. apply obind_Ret in E as ([b' h] & E & E'). injection E' as -> <-.
  change (set_sys (g_sys g) (layer2_to_layer1_handle_ g)) with (view21 g) in E. rewrite Hv in E.
  pose proof HJ as (R & _ & db & Hdb & _). rewrite Hdb in Hc.
  pose proof (load_all_inv F21.slots (ret true) (F21.boot (g_sys g)) b h db F21.L21_slots_nodup Hc E) as (w1 & E1 & Hs & _).
  injection E1 as _ ->.
  eapply (load_boot_recovers F21.boot L21.Initialize F21.slots F21.L21_boot_sys F21.L21_boot_rows F21.L21_slots_nodup F21.L21_slots_all
    (fun _ => eq_refl) w (g_sys g) b h) in E as (_ & HJ' & Hd); [|done|congruence].
  destruct h. split; [exact HJ'|]. split; [exact Hd|]. split; [|done]. cbn. rewrite Hc. by apply Hs.
Qed.

(** The balance checks change nothing but the clock. *)
Lemma CheckLayer1Balance_inv g b g' : CheckLayer1Balance cfg g = Ret (b, g') ->
  exists s, g' = set_sys s g /\ s_db s = s_db (g_sys g).
Proof.
  unfold CheckLayer1Balance. intros E. apply bind_inv in E as (min & g1 & E1 & E).
  apply obind_Ret in E1 as (? & _ & E1). injection E1 as _ <-.
  apply bind_inv in E as (r & g2 & E2 & E). apply sysop_inv in E2 as (s & E2 & ->).
  apply GetBalance_keeps_db in E2. exists s. split; [|done].
  repeat case_match; by injection E as _ <-.
Qed.
Lemma CheckLayer2Balance_inv g b g' : CheckLayer2Balance cfg g = Ret (b, g') ->
  exists s, g' = set_sys s g /\ s_db s = s_db (g_sys g).
Proof.
  unfold CheckLayer2Balance. intros E. apply bind_inv in E as (gas & g0 & E0 & E).
  apply obind_Ret in E0 as (? & _ & E0). injection E0 as _ <-.
  destruct (gas =? 0); [injection E as _ <-; exists (g_sys g); by destruct g|].
  apply bind_inv in E as (min & g1 & E1 & E).
  apply obind_Ret in E1 as (? & _ & E1). injection E1 as _ <-.
  apply bind_inv in E as (r & g2 & E2 & E). apply sysop_inv in E2 as (s & E2 & ->).
  apply GetBalance_keeps_db in E2. exists s. split; [|done].
  repeat case_match; by injection E as _ <-.
Qed.

Definition same_ids (g g' : HandleManager) : Prop :=
  (forall i id, is_Some (rows (tbl i) (view12 g') !! id) <-> is_Some (rows (tbl i) (view12 g) !! id)) /\
  (forall i id, is_Some (rows (tbl i) (view21 g') !! id) <-> is_Some (rows (tbl i) (view21 g) !! id)).

Lemma Initialize_both g0 s g : both_journaled g0 -> content (s_db s) = content (s_db (g_sys g0)) ->
  Initialize cfg (HandleManager_new s) = Ret (true, g) -> both_journaled g /\ same_ids g0 g /\ g_registered g = true.
Proof.
  intros [HJ1 HJ2] Hc E. unfold Initialize in E. apply bind_inv in E as (ok2 & g1 & E1 & E).
  apply CheckLayer2Balance_inv in E1 as (s1 & -> & Hs1). destruct ok2; [|done]. cbn [negb] in E.
  apply bind_inv in E as (ok1 & g2 & E2 & E). apply CheckLayer1Balance_inv in E2 as (s2 & -> & Hs2).
  destruct ok1; [|done]. cbn [negb] in E. apply bind_inv in E as (b1 & g3 & E3 & E).
  assert (content (s_db s2) = content (s_db (g_sys g0))) as Hc2 by (rewrite Hs2; cbn; by rewrite Hs1).
  eapply (load12 (view12 g0)) in E3 as (HJ1' & Hd1 & Hc3 & Hh); [|exact HJ1|exact Hc2|done].
  apply bind_inv in E as (b2 & g4 & E4 & E).
  eapply (load21 (view21 g0)) in E4 as (HJ2' & Hd2 & Hc4 & Hh4); [|exact HJ2|etransitivity; [exact Hc3|exact Hc2]|].
  - apply bind_inv in E as (u & g5 & E5 & E). injection E5 as _ <-. injection E as <-.
    split; [|split; [|done]]; [split; [|exact HJ2']|split; [|exact Hd2]].
    + destruct g4 as [s4 h12 h21 tm rg]. cbn [layer1_to_layer2_handle_] in Hh4. subst h12.
      refine (journaled_other (view12 g3) s4 _ HJ1'). intros db Hdb. exists db. split; [|done].
      etransitivity; [exact Hc4|exact Hdb].
    + intros i id. rewrite <- Hd1. destruct g4 as [s4 h12 h21 tm rg]. cbn [layer1_to_layer2_handle_] in Hh4.
      subst h12. by destruct i.
  - unfold view21. by rewrite Hh.
Qed.
(** ** Routing

    What a property of the manager's state must be closed under for every
    announcement and every turn of the timer to keep it: the operations of the
    handlers, for the ids in [ids], and the manager's own requests. *)
Class Routed (J : HandleManager -> Prop) (ids : string -> Prop) : Prop := {
  routed_sys : forall A (m : M sys A), keeps s_db m -> preserves J (sysop m);
  routed_timer : forall t g, J g -> J (set_g_timer t g);
  routed_start12 : forall id, preserves J (on12 (L12.HandleStartTxEvent cfg id));
  routed_send12 : forall id, ids id -> preserves J (on12 (L12.HandleSendTxEvent cfg id));
  routed_ackd12 : forall id, ids id -> preserves J (on12 (L12.HandleSendAckdTxEvent cfg id));
  routed_start21 : forall id, preserves J (on21 (L21.HandleStartTxEvent cfg id));
  routed_send21 : forall id, ids id -> preserves J (on21 (L21.HandleSendTxEvent cfg id));
  routed_ackd21 : forall id, ids id -> preserves J (on21 (L21.HandleSendAckdTxEvent cfg id));
  routed_confirm21 : forall seq, preserves J (on21 (L21.HandleConfirmSeqEvent cfg seq));
  routed_timer12 : forall t, preserves J (on12 (L12.OnTimer cfg t));
  routed_timer21 : forall t, preserves J (on21 (L21.OnTimer cfg t))
}.

(** The ids the cross-chain contracts announce. *)
Definition announces (P : string -> Prop) : Prop :=
  forall msg r topic id, parse_TlogSubscribeResponse msg = (true, r) ->
    address r = l1_cross_contract (layer1_configure_ cfg) \/ address r = l2_cross_contract (layer2_configure_ cfg) ->
    first_log r = Ret (topic, id) -> P id.

Section Routing.
Context (J : HandleManager -> Prop) (ids : string -> Prop) `{!Routed J ids}.
#[local] Hint Resolve routed_start12 routed_send12 routed_ackd12 routed_start21 routed_send21 routed_ackd21
  routed_confirm21 : preserves.

Lemma updatePeriod_routed period : preserves J (updatePeriodToLayer2CrossContract cfg period).
Proof.
  unfold updatePeriodToLayer2CrossContract.
  repeat first
    [ apply preserves_ret | apply preserves_lift
    | apply routed_sys; unfold SubmitLayer2Transaction, Layer2_GetTransactionBlob; solve [auto with keeps]
    | apply preserves_bind; [|intros] | case_match ].
Qed.
#[local] Hint Resolve updatePeriod_routed : preserves.

Lemma manager_items_routed items : preserves J (manager_items cfg items).
Proof.
  induction items as [|x r IH]; cbn [manager_items]; [apply preserves_ret|].
  destruct (parse_ManagerContractTlog _) as [[] log]; cbn [negb]; [|apply preserves_ret].
  apply preserves_bind; [|intros; apply IH]. destruct (tlog_type log); solve_preserves.
Qed.

(** The first log of an announcement decides, if it can be read. *)
Lemma preserves_first_log {A} r (k : string * string -> M HandleManager A) :
  (forall topic id, first_log r = Ret (topic, id) -> preserves J (k (topic, id))) ->
  preserves J (bind (lift (first_log r)) k).
Proof.
  intros Hk g b g' HJ E. apply bind_inv in E as ([topic id] & g1 & E1 & E).
  apply obind_Ret in E1 as (x & Ex & E1). injection E1 as -> ->. by eapply Hk.
Qed.

Lemma OnLayer1_routed msg : announces ids -> preserves J (OnLayer1SubscribeResponse cfg msg).
Proof.
  intros Ha. unfold OnLayer1SubscribeResponse, OnLayer1CrossContractTlog, OnLayer1ManagerContractTlog.
  destruct (parse_TlogSubscribeResponse msg) as [[] r] eqn:Ep; cbn [negb]; [|apply preserves_ret].
  destruct (String.eqb_spec (address r) (l1_cross_contract (layer1_configure_ cfg))) as [Hc|_];
    [|case_match; [|apply preserves_ret]].
  - apply preserves_first_log. intros topic id Ef.
    assert (ids id) by (eapply Ha; [exact Ep|by left|exact Ef]). solve_preserves.
  - apply preserves_bind; [apply preserves_lift|]. intros l. apply manager_items_routed.
Qed.

Lemma OnLayer2_routed msg : announces ids -> preserves J (OnLayer2SubscribeResponse cfg msg).
Proof.
  intros Ha. unfold OnLayer2SubscribeResponse.
  destruct (parse_TlogSubscribeResponse msg) as [[] r] eqn:Ep; cbn [negb]; [|apply preserves_ret].
  destruct (String.eqb_spec (address r) (l2_cross_contract (layer2_configure_ cfg))) as [Hc|_]; cbn [negb];
    [|apply preserves_ret].
  apply preserves_first_log. intros topic id Ef.
  assert (ids id) by (eapply Ha; [exact Ep|by right|exact Ef]). solve_preserves.
Qed.

Lemma TimerWrapper_routed t : preserves J (Manager_TimerWrapper cfg t).
Proof.
  unfold Manager_TimerWrapper, TimerWrapper, OnTimer.
  repeat first
    [ apply preserves_ret | apply preserves_lift | apply preserves_get | apply routed_timer12 | apply routed_timer21
    | apply routed_sys; solve [auto with keeps]
    | apply preserves_modify; intros; by apply routed_timer
    | apply preserves_bind; [|intros] | case_match ].
Qed.
End Routing.

(** ** Running *)

(** The ids the contracts announce. *)
Definition announcements_ok : Prop :=
  forall msg r l id, parse_TlogSubscribeResponse msg = (true, r) -> l ∈ tlogs r -> id ∈ tlog l -> id_ok id.
Lemma announcements_announce : announcements_ok -> announces id_ok.
Proof.
  intros Ha msg r topic id Ep _ E. apply obind_Ret in E as (l & El%vec_get_Ret & E).
  apply obind_Ret in E as (i & Ei%vec_get_Ret & E).
  injection E as _ ->. eapply Ha; [exact Ep|by eapply list_elem_of_lookup_2..].
Qed.

#[export] Instance both_routed : Routed both_journaled id_ok.
Proof.
  split.
  - intros A m. apply sysop_both.
  - by intros t [].
  - intros id. exact (on12_both _ (fun R => F12.HandleStartTxEvent_journaled cfg id)).
  - intros id Hid. exact (on12_both _ (fun R => F12.handleSendTxEvent_journaled cfg id _ Hid)).
  - intros id Hid. exact (on12_both _ (fun R => F12.HandleSendAckdTxEvent_journaled cfg id Hid)).
  - intros id. exact (on21_both _ (fun R => F21.L21_HandleStartTxEvent_journaled cfg id)).
  - intros id Hid. exact (on21_both _ (fun R => F21.L21_handleSendTxEvent_journaled cfg id _ Hid)).
  - intros id Hid. exact (on21_both _ (fun R => F21.L21_HandleSendAckdTxEvent_journaled cfg id Hid)).
  - intros seq. apply on21_both. intros R w b w' HJ E.
    apply (F21.L21_handle_journaled cfg (F21.ConfirmSeqEvent seq) I w tt w' HJ).
    cbn [F21.handle]. by rewrite (bind_ret_run _ _ _ _ _ E).
  - intros t. exact (on12_both _ (fun R => F12.handle_journaled cfg (F12.TimerEvent t) I)).
  - intros t. exact (on21_both _ (fun R => F21.L21_handle_journaled cfg (F21.TimerEvent t) I)).
Qed.

(** ** Progress: no transaction of either direction steps back *)
Definition progressed (g0 g : HandleManager) : Prop :=
  no_step_back F12.stage (view12 g0) (view12 g) /\ no_step_back F21.stage (view21 g0) (view21 g).
Definition both_kept (g0 g : HandleManager) : Prop := both_journaled g /\ progressed g0 g.
(** An id the nodes can be asked about: they answer about that transaction. *)
Definition id_true (id : string) : Prop := id_ok id /\ F12.truthful cfg id /\ F21.truthful cfg id.

(** The entries of a view do not depend on the shared state. *)
Lemma no_back12 w0 h s : no_step_back F12.stage w0 h -> no_step_back F12.stage w0 (set_sys s h).
Proof. intros Hn. etransitivity; [exact Hn|]. apply no_step_back_sys. Qed.
Lemma no_back21 w0 h s : no_step_back F21.stage w0 h -> no_step_back F21.stage w0 (set_sys s h).
Proof. intros Hn. etransitivity; [exact Hn|]. apply no_step_back_sys. Qed.

Lemma on12_kept {A} g0 (m : M L12.Layer1ToLayer2Handle A) :
  (forall R w0, preserves (kept (R := R) F12.stage w0) m) -> preserves (both_kept g0) (on12 m).
Proof.
  intros Hm g a g' [HJ [Hn1 Hn2]] E. split; [|split].
  - eapply on12_both; [|exact HJ|exact E]. intros R w b w' Hw Ew.
    apply (Hm R w w b w'); [|done]. split; [done|]. by intros ? ?.
  - apply obind_Ret in E as ([b h] & E & E'). injection E' as <- <-. destruct HJ as [[R HJ] _].
    destruct (Hm R (view12 g0) (view12 g) b h (conj HJ Hn1) E) as [_ Hh]. exact (no_back12 _ h _ Hh).
  - apply obind_Ret in E as ([b h] & E & E'). injection E' as <- <-. exact (no_back21 _ (view21 g) _ Hn2).
Qed.
Lemma on21_kept {A} g0 (m : M L21.Layer2ToLayer1Handle A) :
  (forall R w0, preserves (kept (R := R) F21.stage w0) m) -> preserves (both_kept g0) (on21 m).
Proof.
  intros Hm g a g' [HJ [Hn1 Hn2]] E. split; [|split].
  - eapply on21_both; [|exact HJ|exact E]. intros R w b w' Hw Ew.
    apply (Hm R w w b w'); [|done]. split; [done|]. by intros ? ?.
  - apply obind_Ret in E as ([b h] & E & E'). injection E' as <- <-. exact (no_back12 _ (view12 g) _ Hn1).
  - apply obind_Ret in E as ([b h] & E & E'). injection E' as <- <-. destruct HJ as [_ [R HJ]].
    destruct (Hm R (view21 g0) (view21 g) b h (conj HJ Hn2) E) as [_ Hh]. exact (no_back21 _ h _ Hh).
Qed.

#[export] Instance kept_routed g0 : Routed (both_kept g0) id_true.
Proof.
  split.
  - intros A m Hk g a g' [HJ [Hn1 Hn2]] E. split; [by eapply sysop_both|].
    apply sysop_inv in E as (s & _ & ->). split; [by apply (no_back12 _ (view12 g))|by apply (no_back21 _ (view21 g))].
  - by intros t [].
  - intros id. exact (on12_kept g0 _ (fun R w0 => F12.HandleStartTxEvent_kept cfg w0 id)).
  - intros id (Hid & Ht & _). exact (on12_kept g0 _ (fun R w0 => F12.handleSendTxEvent_kept cfg w0 id _ Hid Ht)).
  - intros id (Hid & Ht & _). exact (on12_kept g0 _ (fun R w0 => F12.HandleSendAckdTxEvent_kept cfg w0 id Hid Ht)).
  - intros id. exact (on21_kept g0 _ (fun R w0 => F21.L21_HandleStartTxEvent_kept cfg w0 id)).
  - intros id (Hid & _ & Ht). exact (on21_kept g0 _ (fun R w0 => F21.L21_handleSendTxEvent_kept cfg w0 id _ Hid Ht)).
  - intros id (Hid & _ & Ht). exact (on21_kept g0 _ (fun R w0 => F21.L21_HandleSendAckdTxEvent_kept cfg w0 id Hid Ht)).
  - intros seq. exact (on21_kept g0 _ (fun R w0 => F21.HandleConfirmSeqEvent_kept cfg w0 seq)).
  - intros t. exact (on12_kept g0 _ (fun R w0 => F12.OnTimer_kept cfg w0 t)).
  - intros t. exact (on21_kept g0 _ (fun R w0 => F21.L21_OnTimer_kept cfg w0 t)).
Qed.

Lemma same_ids_progressed g g' : same_ids g g' -> progressed g g'.
Proof.
  intros [Hs1 Hs2]. split; apply no_step_back_rows; intros j id Hj; exists j; (split; [lia|]); [by apply Hs1|by apply Hs2].
Qed.

(** The runs of the manager: it starts on a database that has nothing of the
    handlers', takes announcements of the nodes and turns of the timer, and is
    started again on the database it left. *)
Inductive running : HandleManager -> Prop :=
| run_fresh s db g : content (s_db s) = Some db ->
    (forall i j k, is_Some (db !! k) ->
       starts_with k (F12.slot_prefix i) = false /\ starts_with k (F21.slot_prefix j) = false) ->
    Initialize cfg (HandleManager_new s) = Ret (true, g) -> running g
| run_layer1 msg b g g' : running g -> OnLayer1SubscribeResponse cfg msg g = Ret (b, g') -> running g'
| run_layer2 msg b g g' : running g -> OnLayer2SubscribeResponse cfg msg g = Ret (b, g') -> running g'
| run_timer t g g' : running g -> Manager_TimerWrapper cfg t g = Ret (tt, g') -> running g'
| run_restart s g g' : running g -> content (s_db s) = content (s_db (g_sys g)) ->
    Initialize cfg (HandleManager_new s) = Ret (true, g') -> running g'.

Lemma fresh_both s db : content (s_db s) = Some db ->
  (forall i j k, is_Some (db !! k) ->
     starts_with k (F12.slot_prefix i) = false /\ starts_with k (F21.slot_prefix j) = false) ->
  both_journaled (HandleManager_new s).
Proof.
  intros Hdb Hp. split; exists (fun k => db !! k); apply (journaled_fresh _ db); try done.
  - intros i k Hk. by apply (Hp i F21.StartTx).
  - by intros [].
  - intros i k Hk. by apply (Hp F12.SendTx i).
  - by intros [].
Qed.

Lemma running_both g : announcements_ok -> running g -> both_journaled g.
Proof.
  intros Ha. induction 1 as [s db g Hdb Hp E|msg b g g' _ IH E|msg b g g' _ IH E|t g g' _ IH E|s g g' _ IH Hc E].
  - by eapply (Initialize_both (HandleManager_new s)) in E as (? & _); [|by eapply fresh_both|].
  - eapply (OnLayer1_routed both_journaled id_ok); eauto using announcements_announce.
  - eapply (OnLayer2_routed both_journaled id_ok); eauto using announcements_announce.
  - by eapply (TimerWrapper_routed both_journaled id_ok).
  - by eapply Initialize_both in E as (? & _).
Qed.



(** ** Starting: balances *)
Definition funded (url address : string) (fee_limit gas_price : option Z) : Prop :=
  exists fee gas s s' balance, fee_limit = Some fee /\ gas_price = Some gas /\
    GetBalance url 0 address s = Ret ((true, balance), s') /\
    100 * fee * gas <= balance /\ in_s64 (100 * fee) = true /\ in_s64 (100 * fee * gas) = true.

Lemma min_balance_inv fee_limit gas_price m : min_balance fee_limit gas_price = Ret m ->
  exists fee gas, fee_limit = Some fee /\ gas_price = Some gas /\ m = 100 * fee * gas /\
    in_s64 (100 * fee) = true /\ in_s64 (100 * fee * gas) = true.
Proof.
  unfold min_balance, s64. destruct fee_limit as [fee|], gas_price as [gas|]; cbn [read_init obind]; try done.
  destruct (in_s64 (100 * fee)) eqn:E1; cbn [obind]; [|done].
  destruct (in_s64 (100 * fee * gas)) eqn:E2; [|done]. intros [= <-]. eauto 10.
Qed.

(** C25. The agent starts only if the node of the first chain reports a balance
    for its account of at least a hundred transactions at the configured limits,
    a bound computed without overflow, and likewise on the second chain unless
    gas is free there. *)
Theorem Initialize_funded g g' : Initialize cfg g = Ret (true, g') ->
  funded (layer1_url cfg) (l1_agent_address (layer1_configure_ cfg))
    (l1_fee_limit (layer1_configure_ cfg)) (l1_gas_price (layer1_configure_ cfg)) /\
  (l2_gas_price (layer2_configure_ cfg) = Some 0 \/
   funded (layer2_url cfg) (l2_agent_address (layer2_configure_ cfg))
     (l2_fee_limit (layer2_configure_ cfg)) (l2_gas_price (layer2_configure_ cfg))).
Proof.
  intros E. unfold Initialize in E. apply bind_inv in E as (ok2 & g1 & E1 & E).
  destruct ok2; [|done]. cbn [negb] in E. apply bind_inv in E as (ok1 & g2 & E2 & E).
  destruct ok1; [|done]. clear E. split.
  - unfold CheckLayer1Balance in E2. apply bind_inv in E2 as (m & g3 & Em & E2).
    apply obind_Ret in Em as (m' & Em & E3). injection E3 as -> ->.
    apply min_balance_inv in Em as (fee & gas & ? & ? & -> & ? & ?).
    apply bind_inv in E2 as ([ok b] & g4 & Eb & E2). apply sysop_inv in Eb as (s & Eb & ->). cbn [fst snd] in E2.
    destruct ok; [|done]. cbn [negb] in E2. destruct (Z.ltb_spec b (100 * fee * gas)); [done|].
    exists fee, gas, (the_sys g3), s, b. eauto 10.
  - unfold CheckLayer2Balance in E1. apply bind_inv in E1 as (gas0 & g3 & Eg & E1).
    apply obind_Ret in Eg as (x & Eg & E3). injection E3 as -> ->.
    assert (l2_gas_price (layer2_configure_ cfg) = Some gas0) as Hg.
    { destruct (l2_gas_price _); [|done]. by injection Eg as ->. }
    destruct (Z.eqb_spec gas0 0) as [->|]; [by left|right].
    apply bind_inv in E1 as (m & g4 & Em & E1). apply obind_Ret in Em as (m' & Em & E3). injection E3 as -> ->.
    apply min_balance_inv in Em as (fee & gas & ? & ? & -> & ? & ?).
    apply bind_inv in E1 as ([ok b] & g5 & Eb & E1). apply sysop_inv in Eb as (s & Eb & ->). cbn [fst snd] in E1.
    destruct ok; [|done]. cbn [negb] in E1. destruct (Z.ltb_spec b (100 * fee * gas)); [done|].
    eexists fee, gas, _, s, b. eauto 10.
Qed.

(** ** The period *)

(** The timeout set on the second chain is the period, in minutes, and half
    an hour more, in microseconds; from 153722867251 minutes on the computation
    overflows its 64 bits, which is undefined. *)
Theorem period_timeout_spec period : 0 <= period ->
  period_timeout period =
  if period <=? 153722867250 then Ret ((period + 30) * 60 * 1000000) else Undef Overflow.
Proof.
  intros Hp. unfold period_timeout, s64, in_s64, MICRO_UNITS_PER_SEC, SECOND_UNITS_PER_MINUTE.
  destruct (Z.leb_spec period 153722867250).
  - replace (_ && _) with true by lia. cbn [obind]. replace (_ && _) with true by lia. cbn [obind].
    replace (_ && _) with true by lia. f_equal. lia.
  - destruct ((- 2 ^ 63 <=? period * 60) && (period * 60 <? 2 ^ 63)); cbn [obind]; [|done].
    destruct ((- 2 ^ 63 <=? period * 60 * 1000000) && (period * 60 * 1000000 <? 2 ^ 63)) eqn:E; cbn [obind]; [|done].
    by replace (_ && _) with false by lia.
Qed.

(** The answer every other sender takes for a success, a list with one
    result that has error code 0 and a hash, makes the period update throw once
    its transaction is submitted: it looks for [error_code] in the list itself,
    which JsonCpp refuses. *)
Theorem read_update_list body v r e h : (forall v k, isArray v = true -> jget v k = Throw) ->
  fromString body = Some v -> jget v "results" = Ret r -> isArray r = true -> jitems r = [e] ->
  (let? c := jget e "error_code" in asInt c) = Ret 0 -> (let? t := jget e "hash" in asString t) = Ret h ->
  check_response body "" = Ret (true, h) /\ read_update body = Throw.
Proof.
  intros Hj Ev Er Ha Hi Hc Hh. unfold check_response, read_update. rewrite Ev, Er. cbn [obind].
  rewrite Ha, Hi, (Hj r) by done. split; [|done]. cbn [andb length Z.of_nat Z.ltb Z.compare check_results].
  apply obind_Ret in Hc as (c & -> & Hc). cbn [obind]. rewrite Hc. cbn [obind Z.eqb negb].
  apply obind_Ret in Hh as (t & -> & Hh). cbn [obind]. by rewrite Hh.
Qed.

(** An announcement changes nothing and is refused when it cannot be read
    or comes from a contract other than the configured ones, and when its topic
    is not one of the chain's three; one of the cross-chain contract without
    any log is read out of range. *)
Theorem OnLayer1_refused msg r g :
  let c := layer1_configure_ cfg in
  ((parse_TlogSubscribeResponse msg).1 = false -> OnLayer1SubscribeResponse cfg msg g = Ret (false, g)) /\
  (parse_TlogSubscribeResponse msg = (true, r) ->
   (address r <> l1_cross_contract c -> address r <> l1_manager_contract c ->
      OnLayer1SubscribeResponse cfg msg g = Ret (false, g)) /\
   (address r = l1_cross_contract c -> tlogs r = [] -> OnLayer1SubscribeResponse cfg msg g = Undef OutOfRange) /\
   (forall topic id, address r = l1_cross_contract c -> first_log r = Ret (topic, id) ->
      topic ∉ [l1_start_tx_topic c; l1_send_tx_topic c; l1_ack_tx_topic c] ->
      OnLayer1SubscribeResponse cfg msg g = Ret (false, g))).
Proof.
  cbv zeta. unfold OnLayer1SubscribeResponse. split.
  { intros E. destruct (parse_TlogSubscribeResponse msg) as [ok r']. cbn in E. by rewrite E. }
  intros ->. cbn [negb]. split; [|split].
  - intros Ha Hm. by rewrite (proj2 (String.eqb_neq _ _) Ha), (proj2 (String.eqb_neq _ _) Hm).
  - intros Ha Hl. rewrite Ha, String.eqb_refl. unfold OnLayer1CrossContractTlog, bind, lift, first_log.
    by rewrite Hl.
  - intros topic id Ha Hf Ht. rewrite Ha, String.eqb_refl. unfold OnLayer1CrossContractTlog, bind, lift.
    rewrite Hf. cbn [obind fst snd]. rewrite !elem_of_cons in Ht.
    rewrite !(proj2 (String.eqb_neq _ _)) by naive_solver. done.
Qed.
End Manager.

(** ** The theorems at concrete states *)
Section Witnesses.
Import MemDb.
#[local] Existing Instances sample_json sample_clock sample_proto sample_key.
#[local] Instance sample_server : Http := sample_http "info2" "executed" "sent".

Lemma sample_announcements_ok : announcements_ok.
Proof.
  intros msg r l id E Hl Hid. cbn [parse_TlogSubscribeResponse sample_proto table_proto assoc] in E.
  assert (id ∈ ["ab12"; "01"; "02"]%string) as Hin.
  { repeat match type of E with context [String.eqb ?k msg] => destruct (String.eqb k msg) end;
      try discriminate E; injection E as <-; unfold log_of in Hl; cbn [tlogs] in Hl;
      try (apply list_elem_of_singleton in Hl as ->; cbn [tlog] in Hid; apply list_elem_of_singleton in Hid as ->; set_solver).
    by apply elem_of_nil in Hl. }
  rewrite !elem_of_cons, elem_of_nil in Hin. destruct Hin as [->|[->|[->|[]]]]; split; vm_compute; congruence.
Qed.

Lemma sample_start : exists g, Initialize sample_cfg (HandleManager_new (sample_sys ∅)) = Ret (true, g).
Proof.
  destruct (returns_true (Initialize sample_cfg) (HandleManager_new (sample_sys ∅))) as [g E];
    [vm_compute; reflexivity|]. by exists g.
Qed.
Lemma sample_running g : Initialize sample_cfg (HandleManager_new (sample_sys ∅)) = Ret (true, g) -> running sample_cfg g.
Proof. apply (run_fresh sample_cfg (sample_sys ∅) ∅); [done|]. intros i j k [? ?]. by rewrite lookup_empty in *. Qed.

(** A start event announced to the manager that has just started. *)
Definition sample_run : M HandleManager bool :=
  do! Initialize sample_cfg in OnLayer1SubscribeResponse sample_cfg "start1".
Lemma sample_announced : exists g, sample_run (HandleManager_new (sample_sys ∅)) = Ret (true, g) /\ running sample_cfg g.
Proof.
  destruct (returns_true sample_run (HandleManager_new (sample_sys ∅))) as [g E]; [vm_compute; reflexivity|].
  exists g. split; [done|]. apply bind_inv in E as (b & g1 & E1 & E).
  destruct sample_start as [g2 E2]. rewrite E1 in E2. injection E2 as -> ->.
  eapply run_layer1; [by apply sample_running|exact E].
Qed.


Definition sample_rerun : M HandleManager bool :=
  do! sample_run in let! g := get in do! modify (fun g => HandleManager_new (g_sys g)) in Initialize sample_cfg.


Lemma Initialize_funded_witness : exists g,
  Initialize sample_cfg (HandleManager_new (sample_sys ∅)) = Ret (true, g) /\
  funded "http://l1" "did:bid:one" (Some 20000) (Some 1).
Proof.
  destruct sample_start as [g E]. exists g. split; [exact E|].
  exact (proj1 (Initialize_funded sample_cfg _ g E)).
Defined.

Lemma period_timeout_spec_witness : period_timeout 10 = Ret 2400000000.
Proof. exact (period_timeout_spec 10 ltac:(lia)). Defined.

Lemma read_update_list_witness : read_update "sent" = Throw.
Proof.
  refine (proj2 (read_update_list "sent" _ _ _ "h1" _ eq_refl eq_refl eq_refl eq_refl eq_refl eq_refl)).
  intros [] k; done.
Defined.

Lemma OnLayer1_refused_witness :
  OnLayer1SubscribeResponse sample_cfg "nonsense" (HandleManager_new (sample_sys ∅)) = Ret (false, HandleManager_new (sample_sys ∅)) /\
  OnLayer1SubscribeResponse sample_cfg "empty" (HandleManager_new (sample_sys ∅)) = Undef OutOfRange.
Proof.
  split.
  - exact (proj1 (OnLayer1_refused sample_cfg "nonsense" (mkTlogResponse "" []) _) eq_refl).
  - exact (proj1 (proj2 (proj2 (OnLayer1_refused sample_cfg "empty" (mkTlogResponse "cross1" []) _) eq_refl)) eq_refl eq_refl).
Defined.
End Witnesses.
