(* ===== verification/Agent.v ===== *)
(** The agent as one program: its two websocket clients (src/websocket), the web
    server (src/webserver) and the main loop (src/main/main.cpp), around the
    manager.

    The threads of the clients, of the server and of the main loop are steps on
    one state: a handler of a websocket runs to its end, as a request of the web
    server and a turn of the main loop do, and the steps come in any order. *)

From S2P Require Import Prelude Strings Hex Basen Ordered Database General Timer Platform Concrete Configure.
From S2P Require Import WebClient Transaction Pending HandleManager.
#[local] Existing Instances L12.Handle_sys L21.Handle_sys Manager_sys.

(** ** The outside *)

(** The part of websocketpp, JsonCpp and Pistache the agent calls: whether the
    [n]-th connection attempt or message went through, how documents are
    written, the number of cores and whether the endpoint could be made and
    served. *)
Class Outside := {
  ws_dial : nat -> string -> bool;
  ws_send : nat -> bool;
  serialize_TlogSubscribeRequest : string -> list string -> string;
  toFastString : jdoc -> string;
  cpu_core_count : Z;
  endpoint_made : Z -> Z -> bool;
  endpoint_served : bool
}.

(** ** [WebSocketClient] *)

(** [ws_out] records what was sent, newest first: whether as binary, and the
    payload.  [ws_running] counts the calls of [client_.run()] that have not
    returned: [reconnect] makes one more from inside a handler. *)
Record WebSocketClient := mkWs {
  connected_ : bool;
  ping_in_flight_ : bool;
  url_ : string;
  last_receive_time_ : option Z;
  ws_running : nat;
  ws_dials : nat;
  ws_out : list (bool * string)
}.
Definition set_connected (b : bool) (c : WebSocketClient) : WebSocketClient :=
  mkWs b (ping_in_flight_ c) (url_ c) (last_receive_time_ c) (ws_running c) (ws_dials c) (ws_out c).
Definition set_ping_in_flight (b : bool) (c : WebSocketClient) : WebSocketClient :=
  mkWs (connected_ c) b (url_ c) (last_receive_time_ c) (ws_running c) (ws_dials c) (ws_out c).
Definition set_last_receive (t : Z) (c : WebSocketClient) : WebSocketClient :=
  mkWs (connected_ c) (ping_in_flight_ c) (url_ c) (Some t) (ws_running c) (ws_dials c) (ws_out c).
Definition one_more_run (c : WebSocketClient) : WebSocketClient :=
  mkWs (connected_ c) (ping_in_flight_ c) (url_ c) (last_receive_time_ c) (S (ws_running c)) (ws_dials c) (ws_out c).
Definition one_more_dial (c : WebSocketClient) : WebSocketClient :=
  mkWs (connected_ c) (ping_in_flight_ c) (url_ c) (last_receive_time_ c) (ws_running c) (S (ws_dials c)) (ws_out c).
Definition add_out (m : bool * string) (c : WebSocketClient) : WebSocketClient :=
  mkWs (connected_ c) (ping_in_flight_ c) (url_ c) (last_receive_time_ c) (ws_running c) (ws_dials c) (m :: ws_out c).
(** Before [init] the members have no value. *)
Definition WebSocketClient_new : WebSocketClient := mkWs false false "" None 0 0 [].

Inductive side : Set := Layer1 | Layer2.

Section Agent.
Context `{RocksDb} `{Clock} `{Http} `{Json} `{Protobuf} `{AgentKey} `{WsCodec} `{Outside}.
Context (cfg : Configure).

Record Agent := mkAgent {
  a_manager : HandleManager;
  layer1_ws_client_ : WebSocketClient;
  layer2_ws_client_ : WebSocketClient;
  a_timer : Timer (F := Empty_set);
  server_running_ : bool;
  server_thread_count_ : Z;
  server_port_ : Z
}.
Definition ws (s : side) (a : Agent) : WebSocketClient :=
  match s with Layer1 => layer1_ws_client_ a | Layer2 => layer2_ws_client_ a end.
Definition set_ws (s : side) (c : WebSocketClient) (a : Agent) : Agent :=
  match s with
  | Layer1 => mkAgent (a_manager a) c (layer2_ws_client_ a) (a_timer a) (server_running_ a) (server_thread_count_ a) (server_port_ a)
  | Layer2 => mkAgent (a_manager a) (layer1_ws_client_ a) c (a_timer a) (server_running_ a) (server_thread_count_ a) (server_port_ a)
  end.
Definition set_manager (g : HandleManager) (a : Agent) : Agent :=
  mkAgent g (layer1_ws_client_ a) (layer2_ws_client_ a) (a_timer a) (server_running_ a) (server_thread_count_ a) (server_port_ a).
Definition set_a_timer (t : Timer) (a : Agent) : Agent :=
  mkAgent (a_manager a) (layer1_ws_client_ a) (layer2_ws_client_ a) t (server_running_ a) (server_thread_count_ a) (server_port_ a).
Definition set_server (r : bool) (threads port : Z) (a : Agent) : Agent :=
  mkAgent (a_manager a) (layer1_ws_client_ a) (layer2_ws_client_ a) (a_timer a) r threads port.

Notation AM := (M Agent).
Definition on_manager {A} (m : M HandleManager A) : AM A := zoom a_manager set_manager m.
Definition on_sys {A} (m : M sys A) : AM A := on_manager (sysop m).
Definition on_ws (s : side) (f : WebSocketClient -> WebSocketClient) : AM unit :=
  modify (fun a => set_ws s (f (ws s a)) a).

(** [client_.send]: an exception is caught and logged. *)
Definition send (s : side) (binary : bool) (message : WsMessage) : AM unit :=
  let! n := on_sys tick in
  if ws_send n then on_ws s (add_out (binary, serialize_WsMessage message)) else ret tt.

Definition connect (s : side) : AM unit :=
  let! a := get in
  let! n := on_sys tick in
  if ws_dial n (url_ (ws s a)) then on_ws s one_more_dial else ret tt.
(** [run] is entered; it returns when the client stops, and delivers the
    handlers' calls until then. *)
Definition run (s : side) : AM unit := on_ws s one_more_run.
(** After five seconds. *)
Definition reconnect (s : side) : AM unit := do! connect s in run s.
Definition StartClient (s : side) : AM unit := do! connect s in run s.

(** ** Subscriptions *)
Definition subscription (address : string) (topics : list string) : WsMessage :=
  mkWsMessage CHAIN_CONTRACT_LOG true 0 (serialize_TlogSubscribeRequest address topics).
Definition subscribe_crosscontract : AM unit :=
  send Layer1 true (subscription (l1_cross_contract (layer1_configure_ cfg)) []).
Definition manager_topics (layer2_id : Z) : list string :=
  map (fun item => item ++ "_" ++ dec_string layer2_id)%string (l1_topics (layer1_configure_ cfg)).
Definition subscribe_managercontract : AM unit :=
  let! layer2_id := lift (read_init (l2_layer2_id (layer2_configure_ cfg))) in
  send Layer1 true (subscription (l1_manager_contract (layer1_configure_ cfg)) (manager_topics layer2_id)).
Definition subscribe (s : side) : AM unit :=
  match s with
  | Layer1 => do! subscribe_crosscontract in subscribe_managercontract
  | Layer2 => send Layer2 true (subscription (l2_cross_contract (layer2_configure_ cfg)) [])
  end.

(** ** Handlers *)
Definition on_open (s : side) : AM unit := do! on_ws s (set_connected true) in subscribe s.
Definition on_close (s : side) : AM unit := do! on_ws s (set_connected false) in reconnect s.
Definition on_fail (s : side) : AM unit := do! on_ws s (set_connected false) in reconnect s.
Definition on_ping (s : side) : AM unit :=
  do! send s false (mkWsMessage OVERLAY_MSGTYPE_PING false 0 "") in
  let! now := on_sys HighResolution in
  on_ws s (set_last_receive now).
Definition on_pong (s : side) : AM unit :=
  do! on_ws s (set_ping_in_flight false) in
  let! now := on_sys HighResolution in
  on_ws s (set_last_receive now).
Definition on_pong_timeout (s : side) : AM unit :=
  do! on_ws s (set_connected false) in
  do! on_ws s (set_ping_in_flight false) in
  reconnect s.
Definition on_message (s : side) (payload : string) : AM unit :=
  let '(ok, message) := parse_WsMessage payload in
  if negb ok then ret tt
  else if ws_type message =? CHAIN_CONTRACT_LOG then
    do! on_manager (match s with
                    | Layer1 => OnLayer1SubscribeResponse cfg (ws_data message)
                    | Layer2 => OnLayer2SubscribeResponse cfg (ws_data message)
                    end) in ret tt
  else if ws_type message =? OVERLAY_MSGTYPE_PING then on_ping s
  else ret tt.

(** [Initialize] of a client: the members, and the thread that runs
    [StartClient]. *)
Definition ws_Initialize (s : side) : AM bool :=
  let url := match s with
             | Layer1 => l1_ws_endpoint (layer1_configure_ cfg)
             | Layer2 => l2_ws_endpoint (layer2_configure_ cfg)
             end in
  do! on_ws s (fun c => mkWs false false url (last_receive_time_ c) (ws_running c) (ws_dials c) (ws_out c)) in
  ret true.

(** ** [WebServer] *)
Definition Http_Ok : Z := 200.
Definition Service_Unavailable : Z := 503.
Definition server_Initialize : AM bool :=
  do! ws_Initialize Layer1 in
  do! ws_Initialize Layer2 in
  let c := webserver_configure_ cfg in
  let threads := if thread_count_ c =? 0 then cpu_core_count * 4 else thread_count_ c in
  let port := wrap 16 (port_ c) in
  if negb (endpoint_made port threads) then
    do! modify (fun a => set_server (server_running_ a) threads port a) in ret false
  else if negb endpoint_served then
    do! modify (fun a => set_server (server_running_ a) threads port a) in ret false
  else do! modify (set_server true threads port) in ret true.

Definition Hello : AM (Z * string) :=
  let! current_time := on_sys HighResolution in
  let! layer2_id := lift (read_init (l2_layer2_id (layer2_configure_ cfg))) in
  ret (Http_Ok, toFastString (JObject [("current_time", JInt current_time); ("layer2_id_", JInt layer2_id)]%string)).

Definition both_connected (a : Agent) : bool := connected_ (layer1_ws_client_ a) && connected_ (layer2_ws_client_ a).
Definition submit_start (post : string -> string -> M sys http_result) (url body : string) : AM (Z * string) :=
  let! a := get in
  if both_connected a then
    let! resp := on_sys (post url body) in
    let! reply := lift (http_value resp) in
    ret (Http_Ok, reply)
  else ret (Service_Unavailable, "Service Unavailable"%string).
Definition SubmitStartTxToLayer1 (body : string) : AM (Z * string) :=
  submit_start SubmitLayer1Transaction (l1_http_endpoint (layer1_configure_ cfg)) body.
Definition SubmitStartTxToLayer2 (body : string) : AM (Z * string) :=
  submit_start SubmitLayer2Transaction (l2_http_endpoint (layer2_configure_ cfg)) body.

(** ** The main loop *)

(** A turn: the registered notifications (only the manager's), whether one took
    longer than a second (which is logged), and the timers, of which the agent
    sets none. *)
Definition notify_turn : AM unit :=
  let! a := get in
  if g_registered (a_manager a) then
    let! t := on_sys HighResolution in
    do! on_manager (Manager_TimerWrapper cfg t) in
    let! a := get in
    do! lift (IsExpire (g_timer (a_manager a)) MICRO_UNITS_PER_SEC) in ret tt
  else ret tt.
Definition loop_turn : AM unit :=
  let! current_time := on_sys HighResolution in
  do! notify_turn in
  Timer.OnTimer a_timer set_a_timer (fun f _ => match f with end) current_time.

(** [g_enable_] as it is read before each turn; a signal clears it. *)
Fixpoint RunLoop (enabled : list bool) : AM unit :=
  match enabled with
  | true :: r => do! loop_turn in RunLoop r
  | _ => ret tt
  end.

(** ** Steps *)
Inductive agent_event : Set :=
| WsStart (s : side) | WsOpen (s : side) | WsClose (s : side) | WsFail (s : side)
| WsPong (s : side) | WsPongTimeout (s : side) | WsPayload (s : side) (payload : string)
| HttpHello | HttpSubmit (s : side) (body : string)
| MainTurn.
Definition agent_step (e : agent_event) : AM unit :=
  match e with
  | WsStart s => StartClient s
  | WsOpen s => on_open s
  | WsClose s => on_close s
  | WsFail s => on_fail s
  | WsPong s => on_pong s
  | WsPongTimeout s => on_pong_timeout s
  | WsPayload s payload => on_message s payload
  | HttpHello => do! Hello in ret tt
  | HttpSubmit Layer1 body => do! SubmitStartTxToLayer1 body in ret tt
  | HttpSubmit Layer2 body => do! SubmitStartTxToLayer2 body in ret tt
  | MainTurn => loop_turn
  end.
End Agent.

(** ** Starting and stopping: [main] and [ObjectExit] *)

(** Each stage is entered only while [g_enable_] holds (the configuration's
    whatever it says), must initialise, and then leaves its [Exit] on a stack;
    the loop runs after the last stage; the stack is emptied, last stage first,
    on every way out. *)
Section Main.
Context {W : Type}.
Record stage := mkStage { guarded : bool; start_up : M W bool; stop : option (M W bool) }.
Definition push (o : option (M W bool)) (s : list (M W bool)) : list (M W bool) :=
  match o with Some e => e :: s | None => s end.
Fixpoint run_exits (s : list (M W bool)) : M W unit :=
  match s with [] => ret tt | e :: r => do! e in run_exits r end.
(** [enabled] are the readings of [g_enable_], one for each guarded stage. *)
Fixpoint run_stages (stages : list stage) (enabled : list bool) (object_exit : list (M W bool)) (loop : M W unit) : M W unit :=
  match stages with
  | [] => do! loop in run_exits object_exit
  | st :: r =>
      let '(on, enabled) := if guarded st then (hd true enabled, tl enabled) else (true, enabled) in
      if negb on then run_exits object_exit
      else
        let! ok := start_up st in
        if negb ok then run_exits object_exit
        else run_stages r enabled (push (stop st) object_exit) loop
  end.

(** The stages of [main]: the initialisers, and the exits of all but the
    configuration. *)
Definition main_stages (daemon daemon_exit config logger logger_exit database database_exit
    handlemsg handlemsg_exit web_server web_server_exit : M W bool) : list stage :=
  [mkStage true daemon (Some daemon_exit);
   mkStage false config None;
   mkStage true logger (Some logger_exit);
   mkStage true database (Some database_exit);
   mkStage true handlemsg (Some handlemsg_exit);
   mkStage true web_server (Some web_server_exit)].
End Main.
