(* ===== verification/AgentFacts.v ===== *)
(** What holds of the whole agent: the journals of the manager under every
    interleaving of its threads, what a client sends when it is connected, when
    requests of the web server are passed on, how the calls of a client's run
    loop nest, and the order in which [main] winds down. *)

From S2P Require Import Prelude Strings Hex Basen Ordered Database General Timer Platform Concrete Configure.
From S2P Require Import WebClient Transaction Pending Journal Progress Sample HandleManager HandleManagerFacts Agent.
#[local] Existing Instances L12.Handle_sys L21.Handle_sys Manager_sys F12.handle_tables F21.handle_tables
  F12.slot_eq_dec F21.slot_eq_dec.

(** ** Frames of the agent's parts *)
Lemma preserves_zoom {W S A} (I : W -> Prop) (J : S -> Prop) (g : W -> S) (p : S -> W -> W) (m : M S A) :
  (forall w, I w -> J (g w)) -> (forall s w, J s -> I w -> I (p s w)) -> preserves J m -> preserves I (zoom g p m).
Proof.
  intros Hg Hp Hm w a w' HI E. unfold zoom in E. apply obind_Ret in E as ([b s] & Es & E). injection E as _ <-.
  apply Hp; [|done]. by eapply Hm; [apply Hg|].
Qed.
Lemma preserves_keeps {W V A} (I : V -> Prop) (f : W -> V) (m : M W A) :
  keeps f m -> preserves (fun w => I (f w)) m.
Proof. intros Hk w a w' HI E. by rewrite (Hk _ _ _ E). Qed.

Section Agent.
Context `{RocksDbLaws} `{!Reliable} `{Clock} `{Http} `{Json} `{ProtobufLaws} `{AgentKey} `{!Answers} `{WsCodec} `{Outside}.
Context (cfg : Configure).

(** What the manager's operations keep, the agent's steps keep. *)
Section Steps.
Context (J : HandleManager -> Prop) (ids : string -> Prop) `{!Routed cfg J ids}.
Definition agent_ok (a : Agent) : Prop := J (a_manager a).

Lemma on_manager_ok {A} (m : M HandleManager A) : preserves J m -> preserves agent_ok (on_manager m).
Proof. intros Hm. eapply preserves_zoom; [..|exact Hm]; [done|]. by intros s [] Hs _. Qed.
Lemma on_sys_ok {A} (m : M sys A) : keeps s_db m -> preserves agent_ok (on_sys m).
Proof. intros Hm. apply on_manager_ok. by apply (routed_sys cfg (ids := ids)). Qed.
Lemma on_ws_ok s f : preserves agent_ok (on_ws s f).
Proof. apply preserves_modify. by intros [] ?; destruct s. Qed.
Ltac agent_steps :=
  repeat first
    [ apply preserves_ret | apply preserves_lift | apply preserves_get | apply on_ws_ok
    | apply on_sys_ok; solve [auto with keeps] | apply preserves_bind; [|intros] | case_match ].

Lemma send_ok s b msg : preserves agent_ok (send s b msg).
Proof. unfold send. agent_steps. Qed.
Lemma reconnect_ok s : preserves agent_ok (reconnect s).
Proof. unfold reconnect, connect, run. agent_steps. Qed.
Lemma subscribe_ok s : preserves agent_ok (subscribe cfg s).
Proof.
  unfold subscribe, subscribe_crosscontract, subscribe_managercontract.
  destruct s; repeat first [apply send_ok | apply preserves_lift | apply preserves_bind; [|intros]].
Qed.
Lemma on_message_ok s payload : announces cfg ids -> preserves agent_ok (on_message cfg s payload).
Proof.
  intros Ha. unfold on_message, on_ping. destruct (parse_WsMessage payload) as [ok m], s;
  repeat first
    [ apply send_ok | apply preserves_ret | apply on_ws_ok | apply on_sys_ok; solve [auto with keeps]
    | apply preserves_bind; [|intros]
    | apply on_manager_ok; first [by apply (OnLayer1_routed cfg J ids) | by apply (OnLayer2_routed cfg J ids)] | case_match ].
Qed.
Lemma submit_start_ok post url body : (forall u b, keeps s_db (post u b)) -> preserves agent_ok (submit_start post url body).
Proof. intros Hp. unfold submit_start. agent_steps. Qed.
Lemma loop_turn_ok : preserves agent_ok (loop_turn cfg).
Proof.
  unfold loop_turn, notify_turn, Timer.OnTimer.
  repeat first
    [ apply preserves_ret | apply preserves_lift | apply preserves_get
    | apply on_sys_ok; solve [auto with keeps] | apply on_manager_ok; by apply (TimerWrapper_routed cfg J ids)
    | apply preserves_modify; intros []; done
    | apply preserves_bind; [|intros] | case_match
    | match goal with |- preserves _ (run_all _ ?l) => induction l as [|[? ? ? []] ? ?]; apply preserves_ret end ].
Qed.

Lemma agent_step_ok e : announces cfg ids -> preserves agent_ok (agent_step cfg e).
Proof.
  intros Ha. destruct e as [s|s|s|s|s|s|s payload| |[] body|]; cbn [agent_step].
  1: exact (reconnect_ok s).
  1: unfold on_open; apply preserves_bind; [apply on_ws_ok|intros; apply subscribe_ok].
  1-4: unfold on_close, on_fail, on_pong, on_pong_timeout;
    repeat first [apply reconnect_ok | apply on_ws_ok | apply on_sys_ok; solve [auto with keeps] | apply preserves_bind; [|intros]].
  - by apply on_message_ok.
  - unfold Hello. agent_steps.
  - apply preserves_bind; [|intros; apply preserves_ret]. apply submit_start_ok.
    intros. unfold SubmitLayer1Transaction. auto with keeps.
  - apply preserves_bind; [|intros; apply preserves_ret]. apply submit_start_ok.
    intros. unfold SubmitLayer2Transaction. auto with keeps.
  - apply loop_turn_ok.
Qed.
End Steps.

(** The runs of the agent: from a manager that runs, the threads' steps in any
    order. *)
Inductive alive : Agent -> Prop :=
| alive_start a : running cfg (a_manager a) -> alive a
| alive_step e a a' : alive a -> agent_step cfg e a = Ret (tt, a') -> alive a'.

Lemma alive_both a : announcements_ok -> alive a -> both_journaled (a_manager a).
Proof.
  intros Ha. induction 1 as [a Hr|e a a' _ IH E]; [by apply (running_both cfg)|].
  by eapply (agent_step_ok both_journaled id_ok e (announcements_announce cfg Ha)).
Qed.


(** What may happen to an agent later: its threads' steps, and that it is
    started anew on the database it left. *)
Inductive later : Agent -> Agent -> Prop :=
| later_now a : later a a
| later_step e a a1 a2 : agent_step cfg e a = Ret (tt, a1) -> later a1 a2 -> later a a2
| later_restart s a a1 a2 : content (s_db s) = content (s_db (g_sys (a_manager a))) ->
    Initialize cfg (HandleManager_new s) = Ret (true, a_manager a1) -> later a1 a2 -> later a a2.


(** ** What the events of a client do to it *)
Definition side_eqb (s s' : side) : bool :=
  match s, s' with Layer1, Layer1 | Layer2, Layer2 => true | _, _ => false end.
Lemma side_eqb_spec s s' : reflect (s = s') (side_eqb s s').
Proof. by destruct s, s'; constructor. Qed.
Lemma ws_set_ws s s' c a : ws s (set_ws s' c a) = if side_eqb s s' then c else ws s a.
Proof. by destruct s, s'. Qed.

(** A part of a client that the parts of a handler leave alone. *)
Section Part.
Context {V : Type} (part : WebSocketClient -> V) (s : side).
Notation at_side := (fun a : Agent => part (ws s a)).

Lemma on_ws_keeps s' f : (s = s' -> forall c, part (f c) = part c) -> keeps at_side (on_ws s' f).
Proof.
  intros Hf. apply keeps_modify. intros a. rewrite ws_set_ws.
  by destruct (side_eqb_spec s s') as [<-|]; [apply Hf|].
Qed.
Lemma on_manager_keeps_ws {A} (m : M HandleManager A) : keeps at_side (on_manager m).
Proof. apply keeps_zoom. by destruct s. Qed.
Lemma send_keeps s' b msg : (forall m c, part (add_out m c) = part c) -> keeps at_side (send s' b msg).
Proof.
  intros Ho. unfold send. apply keeps_bind; [apply on_manager_keeps_ws|]. intros n.
  destruct (ws_send n); [apply on_ws_keeps; auto|apply keeps_ret].
Qed.
Lemma connect_keeps s' : (forall c, part (one_more_dial c) = part c) -> keeps at_side (connect s').
Proof.
  intros Hd. unfold connect. apply keeps_bind; [apply keeps_get|]. intros a.
  apply keeps_bind; [apply on_manager_keeps_ws|]. intros n.
  destruct (ws_dial n _); [apply on_ws_keeps; auto|apply keeps_ret].
Qed.
End Part.

(** The calls of [client_.run()] an event adds, and what it makes of the
    connection. *)
Definition reruns (s : side) (e : agent_event) : nat :=
  match e with
  | WsStart s' | WsClose s' | WsFail s' | WsPongTimeout s' => if side_eqb s s' then 1%nat else 0%nat
  | _ => 0%nat
  end.
Definition link (s : side) (e : agent_event) (b : bool) : bool :=
  match e with
  | WsOpen s' => if side_eqb s s' then true else b
  | WsClose s' | WsFail s' | WsPongTimeout s' => if side_eqb s s' then false else b
  | _ => b
  end.
Definition client_view (c : WebSocketClient) : bool * nat := (connected_ c, ws_running c).
Definition view_after (s : side) (e : agent_event) (v : bool * nat) : bool * nat :=
  (link s e v.1, (v.2 + reruns s e)%nat).

Definition moves (s : side) (f : bool * nat -> bool * nat) {A} (m : M Agent A) : Prop :=
  forall a x a', m a = Ret (x, a') -> client_view (ws s a') = f (client_view (ws s a)).
Lemma moves_bind s f g {A B} (m : M Agent A) (k : A -> M Agent B) :
  moves s f m -> (forall x, moves s g (k x)) -> moves s (fun v => g (f v)) (bind m k).
Proof. intros Hm Hk a y a'' E. apply bind_inv in E as (x & a' & E1 & E2). by rewrite (Hk _ _ _ _ E2), (Hm _ _ _ E1). Qed.
Lemma moves_keeps s {A} (m : M Agent A) : keeps (fun a => client_view (ws s a)) m -> moves s id m.
Proof. intros Hk a x a' E. exact (Hk _ _ _ E). Qed.
Lemma on_ws_moves s s' f g : (forall c, client_view (f c) = g (client_view c)) ->
  moves s (fun v => if side_eqb s s' then g v else v) (on_ws s' f).
Proof.
  intros Hf a x a' [= _ <-]. rewrite ws_set_ws. destruct (side_eqb_spec s s') as [<-|]; [apply Hf|done].
Qed.
Lemma moves_ext s f g {A} (m : M Agent A) : (forall v, f v = g v) -> moves s f m -> moves s g m.
Proof. intros Hfg Hm a x a' E. rewrite <- Hfg. by eapply Hm. Qed.

Definition lose (v : bool * nat) : bool * nat := (false, v.2).
Definition rerun (v : bool * nat) : bool * nat := (v.1, S v.2).
Lemma reconnect_moves s s' : moves s (fun v => if side_eqb s s' then rerun v else v) (reconnect s').
Proof.
  apply (moves_bind s id); [apply moves_keeps; by apply connect_keeps|].
  intros _. by apply on_ws_moves.
Qed.
Lemma lost_moves s s' : moves s (fun v => if side_eqb s s' then rerun (lose v) else v)
  (do! on_ws s' (set_connected false) in reconnect s').
Proof.
  eapply moves_ext; [|eapply moves_bind; [apply (on_ws_moves s s' (set_connected false) lose); done|intros; apply reconnect_moves]].
  intros v. cbv beta. by destruct (side_eqb s s').
Qed.
Lemma subscribe_keeps_view s s' : keeps (fun a => client_view (ws s a)) (subscribe cfg s').
Proof.
  unfold subscribe, subscribe_crosscontract, subscribe_managercontract.
  destruct s'; repeat first [by apply send_keeps | apply keeps_lift | apply keeps_bind; [|intros]].
Qed.
Lemma on_message_keeps_view s s' payload : keeps (fun a => client_view (ws s a)) (on_message cfg s' payload).
Proof.
  unfold on_message, on_ping. destruct (parse_WsMessage payload) as [ok m].
  repeat first
    [ by apply send_keeps | apply keeps_ret | apply on_manager_keeps_ws | by apply on_ws_keeps
    | apply keeps_bind; [|intros] | case_match ].
Qed.
Lemma http_keeps_view s body post url : keeps (fun a => client_view (ws s a)) (submit_start post url body).
Proof.
  unfold submit_start.
  repeat first
    [ apply keeps_ret | apply keeps_lift | apply keeps_get | apply on_manager_keeps_ws
    | apply keeps_bind; [|intros] | case_match ].
Qed.
Lemma loop_turn_keeps_view s : keeps (fun a => client_view (ws s a)) (loop_turn cfg).
Proof.
  unfold loop_turn, notify_turn, Timer.OnTimer.
  repeat first
    [ apply keeps_ret | apply keeps_lift | apply keeps_get | apply on_manager_keeps_ws
    | apply keeps_modify; by destruct s | apply keeps_bind; [|intros] | case_match
    | match goal with |- keeps _ (run_all _ ?l) => induction l as [|[? ? ? []] ? ?]; apply keeps_ret end ].
Qed.

Lemma agent_step_view s e : moves s (view_after s e) (agent_step cfg e).
Proof.
  assert (forall v : bool * nat, (v.1, (v.2 + 0)%nat) = v) as Hz by (intros []; f_equal; cbn; lia).
  destruct e as [s'|s'|s'|s'|s'|s'|s' payload| |[] body|]; cbn [agent_step]; unfold view_after; cbn [link reruns].
  all: try (eapply moves_ext; [symmetry; apply Hz|]; apply moves_keeps).
  - eapply moves_ext; [|apply (reconnect_moves s s')]. intros []. destruct (side_eqb s s'); unfold rerun; f_equal; cbn; lia.
  - unfold on_open. eapply moves_ext; [|eapply moves_bind;
      [apply (on_ws_moves s s' (set_connected true) (fun v => (true, v.2))); done|intros; apply moves_keeps, subscribe_keeps_view]].
    intros []. cbv beta. destruct (side_eqb s s'); unfold id; f_equal; cbn; lia.
  - eapply moves_ext; [|apply (lost_moves s s')]. intros []. destruct (side_eqb s s'); unfold rerun, lose; f_equal; cbn; lia.
  - eapply moves_ext; [|apply (lost_moves s s')]. intros []. destruct (side_eqb s s'); unfold rerun, lose; f_equal; cbn; lia.
  - unfold on_pong. repeat first [by apply on_ws_keeps | apply on_manager_keeps_ws | apply keeps_bind; [|intros]].
  - unfold on_pong_timeout. eapply moves_ext; [|eapply moves_bind;
      [apply (on_ws_moves s s' (set_connected false) lose); done|
       intros; eapply moves_bind; [apply (on_ws_moves s s' (set_ping_in_flight false) id); done|intros; apply reconnect_moves]]].
    intros []. cbv beta. destruct (side_eqb s s'); unfold rerun, lose, id; f_equal; cbn; lia.
  - apply on_message_keeps_view.
  - unfold Hello. repeat first [apply keeps_ret | apply keeps_lift | apply on_manager_keeps_ws | apply keeps_bind; [|intros]].
  - apply keeps_bind; [apply http_keeps_view|intros; apply keeps_ret].
  - apply keeps_bind; [apply http_keeps_view|intros; apply keeps_ret].
  - apply loop_turn_keeps_view.
Qed.

Fixpoint agent_run (es : list agent_event) : M Agent unit :=
  match es with [] => ret tt | e :: r => do! agent_step cfg e in agent_run r end.

(** C21. Over any sequence of events a client counts as connected exactly if the
    last one that concerns its connection has opened it; and every start, close,
    failure and missed pong leaves one more call of the client's run loop on the
    stack of its thread, inside the ones before. *)
Theorem agent_run_links es s a a' : agent_run es a = Ret (tt, a') ->
  connected_ (ws s a') = foldl (fun b e => link s e b) (connected_ (ws s a)) es /\
  ws_running (ws s a') = (ws_running (ws s a) + sum_list (map (reruns s) es))%nat.
Proof.
  revert a. induction es as [|e es IH]; intros a E; cbn [agent_run] in E.
  - injection E as <-. split; [done|cbn; lia].
  - apply bind_inv in E as ([] & a1 & E1 & E). apply IH in E as [-> ->].
    apply (agent_step_view s) in E1. unfold client_view, view_after in E1. cbn [fst snd] in E1.
    injection E1 as -> ->. cbn. split; [done|lia].
Qed.

(** ** Requests of the web server *)
Lemma SubmitLayer_sent url body s r s' : SubmitLayer1Transaction url body s = Ret (r, s') ->
  s_sent s' = (url, "/submitTransaction"%string, body) :: s_sent s.
Proof. intros [= _ <-]. reflexivity. Qed.

(** C23. A submission is passed on, as it is and once, to the node of the first
    chain exactly when both clients are connected; otherwise the answer is 503
    and nothing happens.  An answer 200 carries what the node said. *)
Theorem SubmitStartTxToLayer1_gate body a a' code reply : SubmitStartTxToLayer1 cfg body a = Ret ((code, reply), a') ->
  if connected_ (layer1_ws_client_ a) && connected_ (layer2_ws_client_ a) then
    code = Http_Ok /\
    s_sent (g_sys (a_manager a')) =
      (l1_http_endpoint (layer1_configure_ cfg), "/submitTransaction"%string, body) :: s_sent (g_sys (a_manager a)) /\
    exists n, http_body (http_post n (l1_http_endpoint (layer1_configure_ cfg)) "/submitTransaction" body "application/json")
      = Some reply
  else code = Service_Unavailable /\ reply = "Service Unavailable"%string /\ a' = a.
Proof.
  unfold SubmitStartTxToLayer1, submit_start. intros E. apply bind_inv in E as (a0 & ? & [= <- <-] & E).
  unfold both_connected in E.
  destruct (connected_ (layer1_ws_client_ a) && connected_ (layer2_ws_client_ a)); [|by injection E as <- <- <-].
  apply bind_inv in E as (resp & a1 & E1 & E). apply bind_inv in E as (x & a2 & E2 & E).
  apply obind_Ret in E2 as (y & E2 & [= -> ->]). injection E as <- <- <-.
  unfold on_sys, on_manager, zoom in E1. apply obind_Ret in E1 as ([r g] & E1 & [= <- <-]).
  apply sysop_inv in E1 as (s & E1 & ->). injection E1 as <- <-.
  split; [done|]. split; [by destruct a as [[] ? ? ? ? ? ?]|]. unfold http_value in E2.
  destruct (http_body _) as [b|] eqn:Eb in E2; [|done]. injection E2 as ->. by eexists.
Qed.

(** ** Subscriptions *)
Lemma send_outcome s b msg a : exists a', send s b msg a = Ret (tt, a') /\
  ws_out (ws s a') = (if ws_send (s_tick (g_sys (a_manager a))) then [(b, serialize_WsMessage msg)] else []) ++ ws_out (ws s a) /\
  connected_ (ws s a') = connected_ (ws s a) /\
  s_tick (g_sys (a_manager a')) = S (s_tick (g_sys (a_manager a))).
Proof.
  unfold send, bind. cbn. destruct (ws_send _); (eexists; split; [reflexivity|]); by destruct s.
Qed.

(** A connection of the first chain's client subscribes to the cross-chain
    contract and to the manager contract's topics of this agent's chain, in this
    order, each as one binary message; a subscription that cannot be sent is
    dropped, and the client counts as connected all the same. *)
Theorem on_open_subscribes layer2_id a : l2_layer2_id (layer2_configure_ cfg) = Some layer2_id ->
  exists a', on_open cfg Layer1 a = Ret (tt, a') /\ connected_ (layer1_ws_client_ a') = true /\
    let n := s_tick (g_sys (a_manager a)) in
    let c := layer1_configure_ cfg in
    ws_out (layer1_ws_client_ a') =
      (if ws_send (S n) then [(true, serialize_WsMessage (mkWsMessage CHAIN_CONTRACT_LOG true 0
         (serialize_TlogSubscribeRequest (l1_manager_contract c)
            (map (fun item => item ++ "_" ++ dec_string layer2_id)%string (l1_topics c)))))] else []) ++
      (if ws_send n then [(true, serialize_WsMessage (mkWsMessage CHAIN_CONTRACT_LOG true 0
         (serialize_TlogSubscribeRequest (l1_cross_contract c) [])))] else []) ++ ws_out (layer1_ws_client_ a).
Proof.
  intros Hid. unfold on_open, subscribe, subscribe_crosscontract, subscribe_managercontract. rewrite Hid.
  set (a0 := set_ws Layer1 (set_connected true (layer1_ws_client_ a)) a).
  rewrite (bind_ret_run _ _ a tt a0) by done.
  destruct (send_outcome Layer1 true (subscription (l1_cross_contract (layer1_configure_ cfg)) []) a0)
    as (a1 & E1 & O1 & C1 & T1).
  rewrite (bind_ret_run _ _ _ _ _ E1), (bind_ret_run _ _ a1 layer2_id a1) by done.
  destruct (send_outcome Layer1 true (subscription (l1_manager_contract (layer1_configure_ cfg)) (manager_topics cfg layer2_id)) a1)
    as (a2 & E2 & O2 & C2 & T2).
  exists a2. split; [exact E2|]. cbn [ws] in *. rewrite C2, C1, O2, O1, T1. done.
Qed.
End Agent.

(** ** Winding down *)
Section Main.
Context {W : Type}.

(** The stages that came up, in order, and what the last one did. *)
Fixpoint start_all (stages : list (stage (W := W))) : M W unit :=
  match stages with
  | [] => ret tt
  | st :: r => fun w => let? p := start_up st w in if p.1 then start_all r p.2 else Throw
  end.
Definition exits (stages : list (stage (W := W))) : list (M W bool) := rev (omap stop stages).

End Main.

(** ** The theorems at concrete states *)
Section Witnesses.
Import MemDb.
#[local] Existing Instances sample_json sample_clock sample_proto sample_key.
#[local] Existing Instance sample_server.

#[local] Existing Instance sample_codec.
(** Every connection and message goes through. *)
#[local] Instance sample_outside : Outside := {|
  ws_dial := fun _ _ => true;
  ws_send := fun _ => true;
  serialize_TlogSubscribeRequest := fun a topics => String.concat "," (a :: topics);
  toFastString := fun _ => "{}"%string;
  cpu_core_count := 4;
  endpoint_made := fun _ _ => true;
  endpoint_served := true
|}.
Definition agent_of (g : HandleManager) : Agent :=
  mkAgent g WebSocketClient_new WebSocketClient_new Timer_new false 0 0.
Definition started : M HandleManager bool := Initialize sample_cfg.

(** The agent connects to both chains, its loop turns, and it is announced a transaction. *)
Definition connects : list agent_event := [WsStart Layer1; WsOpen Layer1; WsStart Layer2; WsOpen Layer2].
Definition announced : list agent_event := connects ++ [MainTurn; WsPayload Layer1 "start1"].

Lemma run_alive es a a' : alive sample_cfg a -> agent_run sample_cfg es a = Ret (tt, a') -> alive sample_cfg a'.
Proof.
  revert a. induction es as [|e es IH]; intros a Ha E; cbn [agent_run] in E; [by injection E as <-|].
  apply bind_inv in E as ([] & a1 & E1 & E). eapply IH; [|exact E]. by eapply alive_step.
Qed.
Lemma sample_agent (es : list agent_event) :
  returns (fun _ => true) (do! started in fun g => let? p := agent_run sample_cfg es (agent_of g) in Ret (tt, g))
    (HandleManager_new (sample_sys ∅)) = true ->
  exists g a, running sample_cfg g /\ agent_run sample_cfg es (agent_of g) = Ret (tt, a).
Proof.
  intros (x & w' & E & _)%returns_run. apply bind_inv in E as (b & g & E1 & E).
  apply obind_Ret in E as ([[] a] & E & _). exists g, a. split; [|done].
  destruct sample_start as [g' E']. unfold started in E1. rewrite E1 in E'. injection E' as -> ->. by apply sample_running.
Qed.


(** The nodes of the sample answer about the one transaction they know. *)
Definition answered {W A} (o : outcome (A * W)) : option A := match o with Ret (a, _) => Some a | _ => None end.
Lemma sample_read make ask s m i1 i2 :
  answered (ask "ab12"%string s) = Some (Some (i1, i2)) -> read_from make ask "ab12" s m -> make i1 i2 = Ret (Some m).
Proof. intros Ha (s' & j1 & j2 & E & Em). rewrite E in Ha. by injection Ha as -> ->. Qed.
Lemma sample_truthful : F12.truthful sample_cfg "ab12" /\ F21.truthful sample_cfg "ab12".
Proof.
  split; intros [] m [Hm|Hm]; (eapply sample_read in Hm; [|lazy; reflexivity]); apply (f_equal (fun o =>
    match o with Ret (Some x) => crosstxid x | _ => "ab12"%string end)) in Hm; exact (eq_sym Hm).
Qed.
Lemma sample_announces : announces sample_cfg (id_true sample_cfg).
Proof.
  intros msg r topic id E Ha Ef. enough (id = "ab12"%string) as ->.
  { split; [exact F12.sample_id_ok|exact sample_truthful]. }
  cbn [parse_TlogSubscribeResponse sample_proto table_proto assoc] in E.
  repeat match type of E with context [String.eqb ?k msg] => destruct (String.eqb k msg) end;
    try discriminate E; injection E as <-; [..|discriminate Ef];
    first [by injection Ef as _ <- | by destruct Ha as [Ha|Ha]; vm_compute in Ha].
Qed.

(** It is announced, then its node reports it acknowledged, and a turn passes. *)
Definition sample_later : M HandleManager (Agent * Agent) :=
  do! started in fun g =>
    let? p := agent_run sample_cfg announced (agent_of g) in
    let? q := agent_run sample_cfg [WsPayload Layer1 "ack1"%string; MainTurn] p.2 in Ret ((p.2, q.2), g).
Lemma run_later es a a' : agent_run sample_cfg es a = Ret (tt, a') -> later sample_cfg a a'.
Proof.
  revert a. induction es as [|e es IH]; intros a E; cbn [agent_run] in E; [injection E as <-; constructor|].
  apply bind_inv in E as ([] & a1 & E1 & E). eapply later_step; [exact E1|by apply IH].
Qed.
Lemma sample_later_run : exists a a', alive sample_cfg a /\ later sample_cfg a a' /\
  is_Some (L12.send_tx_info_map_ (view12 (a_manager a)) !! "ab12"%string).
Proof.
  destruct (returns_run (fun p => bool_decide (is_Some (L12.send_tx_info_map_ (view12 (a_manager p.1)) !! "ab12"%string)))
    sample_later (HandleManager_new (sample_sys ∅))) as ([a a'] & w' & E & Hs%bool_decide_eq_true_1);
    [vm_compute; reflexivity|].
  apply bind_inv in E as (b & g & E1 & E). apply obind_Ret in E as ([[] a1] & Ea & E).
  apply obind_Ret in E as ([[] a2] & Ea' & E). injection E as -> -> _. exists a, a'. split; [|split; [|exact Hs]].
  - eapply run_alive; [|exact Ea]. apply alive_start.
    destruct sample_start as [g' E']. unfold started in E1. rewrite E1 in E'. injection E' as -> ->. by apply sample_running.
  - by eapply run_later.
Qed.


Lemma agent_run_links_witness : exists g a,
  agent_run sample_cfg (connects ++ [WsClose Layer1; WsFail Layer1]) (agent_of g) = Ret (tt, a) /\
  connected_ (ws Layer1 a) = false /\ connected_ (ws Layer2 a) = true /\ ws_running (ws Layer1 a) = 3%nat.
Proof.
  destruct (sample_agent (connects ++ [WsClose Layer1; WsFail Layer1])) as (g & a & _ & E); [vm_compute; reflexivity|].
  exists g, a. split; [exact E|].
  destruct (agent_run_links sample_cfg _ Layer1 _ _ E) as [H1 H2].
  destruct (agent_run_links sample_cfg _ Layer2 _ _ E) as [H3 _].
  split; [exact H1|]. split; [exact H3|exact H2].
Defined.

Lemma connected_agent : exists a, both_connected a = true /\
  exists code reply a', SubmitStartTxToLayer1 sample_cfg "body" a = Ret ((code, reply), a').
Proof.
  exists (set_ws Layer2 (set_connected true WebSocketClient_new)
    (set_ws Layer1 (set_connected true WebSocketClient_new) (agent_of (HandleManager_new (sample_sys ∅))))).
  split; [reflexivity|].
  match goal with |- exists c r a', ?m ?a = _ => destruct (returns_run (fun _ => true) m a) as ([code reply] & a' & E & _);
    [vm_compute; reflexivity|] end. by exists code, reply, a'.
Qed.
Lemma SubmitStartTxToLayer1_gate_witness : exists a a' reply,
  SubmitStartTxToLayer1 sample_cfg "body" a = Ret ((200, reply), a') /\
  s_sent (g_sys (a_manager a')) = ("http://l1", "/submitTransaction", "body")%string :: s_sent (g_sys (a_manager a)).
Proof.
  destruct connected_agent as (a & Hc & code & reply & a' & E). exists a, a', reply.
  pose proof (SubmitStartTxToLayer1_gate sample_cfg "body" a a' code reply E) as Hg.
  change (_ && _) with (both_connected a) in Hg. rewrite Hc in Hg.
  destruct Hg as (-> & Hs & _). split; [exact E|exact Hs].
Defined.

Lemma on_open_subscribes_witness : exists a',
  on_open sample_cfg Layer1 (agent_of (HandleManager_new (sample_sys ∅))) = Ret (tt, a') /\
  ws_out (layer1_ws_client_ a') = [(true, "manager"); (true, "cross1")]%string.
Proof.
  destruct (on_open_subscribes sample_cfg 1 (agent_of (HandleManager_new (sample_sys ∅))) eq_refl) as (a' & E & _ & Ho).
  exists a'. split; [exact E|exact Ho].
Defined.
End Witnesses.

(** A manager that does not come up. *)
Definition say (s : string) (ok : bool) : M (list string) bool := fun log => Ret (ok, log ++ [s])%list.
Definition failing_start : list (stage (W := list string)) :=
  main_stages (say "daemon" true) (say "daemon out" true) (say "load" true) (say "log" true) (say "log out" true)
    (say "db" true) (say "db out" true) (say "manager" false) (say "manager out" true) (say "web" true) (say "web out" true).
